(* ===== verification/_CoqProject ===== *)
-Q . S2P
Prelude.v
ListHead.v
ListProofs.v
MM.v
MMProofs.v
FrameSource.v
Heap.v
HeapProofs.v
CString.v
Paging.v
PagingProofs.v
HighMem.v
Spinlock.v
Threads.v
Mutex.v
Semaphore.v
Timer.v
Sched.v
SchedProofs.v
Printk.v
BBuf.v
Ramfs.v
BBufProofs.v
Device.v
Descriptors.v
Console.v
Memory.v
Switch.v
KernelMemory.v
Task.v
TaskProofs.v
Exit.v
Smp.v
SmpLive.v
Mproc.v
MprocProofs.v
Apic.v
Rtc.v
Ide.v
Elf.v
Boot.v
DeviceInit.v
Hlist.v
HlistEntry.v
Demo.v
ListIter.v
X86.v
StartCode.v
Interrupt.v
Preempt.v
InitTask.v
Main.v
RamfsInit.v
Debug.v
Init.v
