(* ===== verification/Prelude.v ===== *)
(** * Red Magic: a verification development

    Red Magic is a small 32-bit x86 kernel in C. This library models its memory
    management, lists, locks, tasks, scheduler and context switch, timer and clock, block
    layer and disk, console, formatted output, processors and interrupt controllers, the
    interrupt and start code in assembler and the boot of the whole kernel, and proves what
    makes them correct.

    ** The program and how its parts interact

    At boot, [init_paging] ([src/mm.c]) reads the memory map of the boot loader, sets up
    one frame allocator for page tables ([mm_pgtbls]), maps kernel space and the rest of
    the memory, and sets up a second one for everything else ([mm_phys]). The heap
    ([src/kmalloc.c]) takes one contiguous area and its metadata pages from [mm_phys].
    Nearly everything is linked with the intrusive lists of [include/list.h]: heap
    descriptors, run queues, wait queues, buffers. The timer interrupt ([src/timer.c])
    advances the clock, wakes threads whose alarms are due and calls [schedule]
    ([src/sched.c]), which picks the next ready thread of the processor's run queue.
    Mutexes and semaphores put threads to sleep and wake them through the scheduler, and
    protect their own state with spinlocks. The buffer layer ([src/bbuf.c]) caches the
    blocks of a device behind two function pointers; [src/ramfs.c] is such a device, on
    page frames and the heap, and [init_dev] ([src/device.c]) loads the devices. Tasks and
    threads ([src/task.c]) are structures on the heap; a new thread has a stack that makes
    the first [switch_to] ([src/switch.s]) call its function, and a thread that returns goes
    through [__finish_thread] back to the scheduler. [src/mproc.c] and [src/cpu.c] find the
    processors in the tables of the BIOS, [start_smp] ([src/main.c]) starts them with the
    local APIC ([src/lapic.c]). [src/printk.c] formats messages and prints them on the
    screen ([src/C80.c]); [src/idt.c] and [src/gdt.c] build the tables the processor reads,
    and the stubs of [src/interrupt.s] lead from a gate of the table to the C handlers and
    back. [main] ([src/main.c]) calls all of this in order and ends in the first [schedule].

    ** Files

    - [Prelude.v]: machine integers ([u32], [s32], ...), memories, the outcome monad
      [res] ([Ret], [Panic] for [PANIC] and failed [ASSERT]s, [Diverge] for a loop whose
      fuel ran out), tactics and shared lemmas.
    - [ListHead.v], [ListProofs.v]: [include/list.h]. A memory of [next] and [prev] fields;
      each function is the sequence of its assignments. [reps] relates a memory to a map from
      list heads to sequences; the class [ListSim] states that a function implements an
      operation on such maps (simulation), with an instance per function.
    - [MM.v], [MMProofs.v]: the frame allocator of [src/mm.c] ([MM_PAGE_TABLE] is
      [minit_pgtbl]): the metadata table is words in memory, a run of frames in use is
      a run of entries of one colour. [mm_wf] is the invariant.
    - [FrameSource.v]: the interface the heap is proved against, and its instance.
    - [Heap.v], [HeapProofs.v]: [src/kmalloc.c]; [heap_wf] is the invariant: the free and
      reserved blocks tile the area of the heap.
    - [CString.v]: [src/string.c], on byte memory.
    - [Paging.v], [PagingProofs.v]: the paging part of [src/mm.c] and [include/paging.h].
      [translate] is the walk the processor does.
    - [HighMem.v]: the high-memory interfaces of [src/mm.c], on a descriptor in memory.
    - [Spinlock.v]: [src/spinlock.c], the raw lock of [include/locking.h], the interrupt
      flag functions of [src/idt.c]; processors interleave at single atomic actions.
    - [Threads.v]: thread states, [make_sleep], [wake_up] of [src/sched.c].
    - [Mutex.v], [Semaphore.v]: [src/mutex.c], [src/semaphore.c]; a function that sleeps is
      split at its [schedule()], and threads interleave at these points.
    - [Timer.v]: [src/timer.c].
    - [Sched.v], [SchedProofs.v]: [src/sched.c] and the processor state of [src/cpu.c].
      Statuses may change between two rounds of the polling loop, as interrupts change
      them: the rounds read them from an arbitrary sequence of states.
    - [Printk.v]: [src/printk.c]; the output is the list of characters stored.
    - [BBuf.v], [Ramfs.v], [BBufProofs.v]: [src/bbuf.c] against the class [BlockOps] (the
      [blk_dev_ops_t] of [include/device.h] and its laws), [src/ramfs.c] as an instance.
    - [Device.v]: the device table of [src/device.c] and its lookup.
    - [Descriptors.v]: [src/idt.c] (module [Idt]) and [src/gdt.c] (module [Gdt]).
    - [Console.v]: [src/C80.c] and the printing functions of [src/printk.c]; the
      specification is a roll of paper of which the screen shows the end.
    - [Memory.v]: words in byte memory, for the files where structures share one memory.
    - [Switch.v]: [src/switch.s], instruction by instruction, on a machine of registers and
      memory; the C function it calls is any code that follows the calling convention.
    - [KernelMemory.v]: the interface of [kmalloc], [kfree] and page allocation that tasks,
      devices and processor start-up are proved against; the heap on any frame source is its
      instance.
    - [Task.v], [TaskProofs.v]: [src/task.c] and the task part of [src/sched.c], in a state
      monad over memory, allocator, list links and processors.
    - [Exit.v]: the end of a thread ([__finish_thread]).
    - [Smp.v], [SmpLive.v]: the scheduler on several processors: [schedule] cut at the rounds of
      its polling loop, timer interrupts, alarms, the two halves of [wake_up], sleeping,
      starting and ending threads as steps that interleave ([act], [run]); [smp_wf] is the
      invariant.
    - [Mproc.v], [MprocProofs.v]: [src/mproc.c] and the lookups of [src/cpu.c].
    - [Apic.v]: [src/lapic.c] (module [Lapic]: the list of actions each function sends out)
      and [src/ioapic.c] (module [Ioapic]).
    - [Rtc.v]: [src/rtc.c]; the registers are a function of time.
    - [Ide.v]: [src/ide_pio.c]; what the ports read is an argument.
    - [Elf.v]: [src/elf.c] and the stack trace of [src/debug.c].
    - [Boot.v]: [start_smp] of [src/main.c] and the end of [src/ap_real.s].
    - [DeviceInit.v]: [init_dev] of [src/device.c]; [driver_ok] is what it relies on.
    - [Hlist.v], [HlistEntry.v]: the hash lists of [include/list.h], and the loops over the
      structures around their nodes.
    - [Demo.v]: the threads [v1], [v2] and [v3] of [src/init.c].
    - [ListIter.v]: the iterator macros of [include/list.h].
    - [X86.v]: the tables of [Descriptors.v] in memory, [gdt_flush] and [idt_flush], and the
      processor that finds descriptors through its table registers; [src/x86.s] and the
      port instructions of [include/x86.h].
    - [StartCode.v]: [start] of [src/boot.s] and all of [src/ap_real.s], from real mode on.
    - [Interrupt.v]: the stubs of [src/interrupt.s], instruction by instruction, with the
      delivery of an interrupt by the processor and [iret].
    - [Preempt.v]: stubs, handler and context switch put together.
    - [InitTask.v]: [setup_init_task] of [src/task.c], proved.
    - [Main.v]: [main] and [__main] of [src/main.c], composed of all the initialisations.
    - [RamfsInit.v]: [init_ramfs] of [src/ramfs.c] and [bdev_init_buffer_cache] on the
      structures in memory, as a driver that keeps to [driver_ok].
    - [Debug.v]: [panic], the reports of [src/debug.c], the listings of [src/mm.c] and
      [src/kmalloc.c] and the log levels, down to the characters on the console.
    - [Init.v]: [K_INIT], [u] and [v] of [src/init.c].

    ** What the theorems show

    Refinement: the frame allocator, from its initialization on, does what an abstract
    first-fit allocator of disjoint blocks does; the list functions do to sequences
    what they promise; the buffer cache is indistinguishable from an array of blocks; the
    screen is a window on the paper; the MP table parser reads every well-formed table.
    Invariants: any calls of [kmalloc] and [kfree] keep the heap tiled without a gap or
    overlap and coalesced. Functional correctness of each allocation, release, mapping,
    copy and conversion on every branch, and round trips: releasing undoes allocating,
    printed integers read back, descriptors decode to what was encoded. Safety and
    liveness of the locks under every interleaving: mutual exclusion, no lost lock, no
    lost wake-up; of the scheduler, on any number of processors: a
    thread is on one processor only, a ready thread is chosen within the rounds of a lap,
    and one that pauses runs again; of the disk queue: requests are served in order,
    one at a time. The composition of tasks, stacks and the
    context switch: a created thread runs its function and returns into [finish_thread]; a
    thread that is switched away from comes back with its registers and stack. A date read
    from the clock is one the clock showed. The demonstration threads are started and never mix their output. Each application
    processor is started once, with the start code, a page and its own structure, and comes from
    real mode into C in flat segments. The descriptor tables are found by the processor;
    an interrupt, and also a switch to other threads inside it, is invisible to the code it
    interrupts. The kernel boots: [main] ends in the first switch with everything set up,
    or in a panic for lack of memory; its drivers keep the contract this relies on, and the
    RAM disk comes up complete. A panic prints its message and the call stack. Several theorems state
    exactly what the code does where that is not what it means to do ([strcmp_exact],
    [get_dev_by_name_exact], [semaphore_spurious_wakeup], [irqsave_restores_once_only],
    [bad_write_breaks_reads], [minit_pgtbl_guard_wraps], [pick_processor_two_only],
    [star_width_not_skipped], [create_thread_failure_queues_null], [uniprocessor_not_found],
    [unknown_entry_hangs], [ioapic_enable_wrong_entry], [ide_read_error_lost],
    [elf_sections_missing], [ap_reaches_main], [alignment_check_frame],
    [bootstrap_not_first_panics], [high_memory_unavailable]).

    ** Bounds and fuel

    Loops whose length the data determine recurse on that data. The others take fuel, and
    the theorems show that the result is reached: the loops over the frame table get one
    unit per entry (the table of a 4 GiB range has less than 2^20), the conversion of a
    number gets 33 (a 32-bit number has at most 32 digits in base 2), the string
    functions any fuel above the length of the string, [vsprintf] one unit per
    character of the format. Only the polling of [schedule] can use up any fuel, and only
    when no thread becomes ready ([schedule_after_exit]). Loops that wait for hardware take the
    values read as a list, or a bound on the number of reads, and the theorems say which
    values make them return.

    ** Not modelled

    Unreachable code: the semaphore branch of the threads of [src/init.c] and what follows the
    first [return] of [K_INIT] and [u] there; the empty [HEAP_FF] and [c80_write_hex]. Log
    messages and the messages of [main] are left out, and so are the TLB, the caches and the
    timing of devices. Where the linker and the assembler put things is a parameter.
    Memory is sequentially consistent. In [Smp.v] an insertion or removal of a run-queue entry
    is one step: [add_thread_to_rq] and [__remove_thread_from_rq] hold [rq_lock], but the
    polling loop reads the queue without it, and a round that meets a half-done change of
    the links is not modelled; nor is a thread structure that is given out again after its
    thread has ended (the code does not free it). *)
From stdpp Require Export prelude list functions numbers strings gmap.
From Stdlib Require Export Lia.

#[export] Set Warnings "-clear-no-such-hyp".
#[global] Open Scope Z_scope.

(** ** Machine integers

    A C value of an unsigned type is a [Z] in range; each arithmetic result is
    reduced by the wrap-around of its type, written out where the source
    computes at that width. *)

Definition u32 (x : Z) : Z := x `mod` 4294967296.

Definition u16 (x : Z) : Z := x `mod` 65536.

Definition u8 (x : Z) : Z := x `mod` 256.

(** Reading an unsigned pattern back as a signed value of the same width. *)
Definition s32 (x : Z) : Z :=
  let y := u32 x in if y <? 2147483648 then y else y - 4294967296.

Definition s8 (x : Z) : Z :=
  let y := u8 x in if y <? 128 then y else y - 256.

Definition is_u32 (x : Z) : Prop := 0 ≤ x < 4294967296.

(** [type.h]: [NULL] and [OK]. *)
Definition NULL : Z := 0.
Definition OK : Z := 0.

(** ** Memory

    One cell per address. The word-addressed users ([mm.c], [paging.h]) only
    access 4-byte aligned addresses and keep a [_u32] in each of them; the
    byte-addressed users ([string.c]) keep a byte in each cell. *)
Abbreviation mem := (Z → Z).

(** ** Outcomes of kernel code

    [Panic] is a call of [PANIC] (or a failed [ASSERT]), which never returns;
    [Diverge] is a loop whose fuel ran out. *)
Inductive res (A : Type) : Type :=
  | Ret (a : A)
  | Panic (msg : string)
  | Diverge.
Arguments Ret {A} a.
Arguments Panic {A} msg.
Arguments Diverge {A}.

#[export] Instance res_ret : MRet res := λ A a, Ret a.

#[export] Instance res_bind : MBind res := λ A B f x,
  match x with
  | Ret a => f a
  | Panic msg => Panic msg
  | Diverge => Diverge
  end.

Definition ASSERT (b : bool) (msg : string) : res unit :=
  if b then Ret () else Panic msg.

Lemma res_bind_Ret {A B} (m : res A) (f : A → res B) b :
  m ≫= f = Ret b ↔ ∃ a, m = Ret a ∧ f a = Ret b.
Proof. destruct m as [a|msg|]; cbn; split; [eauto|intros (?&[= ->]&?); done|done|intros (?&?&?); done|done|intros (?&?&?); done]. Qed.

(** ** Automation *)

Create HintDb redmagic discriminated.

(** Case analysis on the boolean integer tests of the goal and hypotheses. *)
Ltac zbool_step :=
  match goal with
  | |- context [Z.ltb ?a ?b] => destruct (Z.ltb_spec a b)
  | |- context [Z.leb ?a ?b] => destruct (Z.leb_spec a b)
  | |- context [Z.eqb ?a ?b] => destruct (Z.eqb_spec a b)
  | H : context [Z.ltb ?a ?b] |- _ => destruct (Z.ltb_spec a b)
  | H : context [Z.leb ?a ?b] |- _ => destruct (Z.leb_spec a b)
  | H : context [Z.eqb ?a ?b] |- _ => destruct (Z.eqb_spec a b)
  end.
Ltac zbool := repeat (zbool_step; cbn [andb orb negb] in *; try first [done | lia]).

(** [lia] extended with the euclidean equations of [div] and [mod] by
    constants. *)
Ltac dlia := Z.to_euclidean_division_equations; lia.

(** ** Shared integer lemmas *)

Lemma u32_small x : is_u32 x → u32 x = x.
Proof. intros H. apply Z.mod_small. exact H. Qed.

Lemma u32_range x : is_u32 (u32 x).
Proof. apply Z.mod_pos_bound. lia. Qed.

Lemma u32_idemp x : u32 (u32 x) = u32 x.
Proof. apply u32_small, u32_range. Qed.

Lemma u32_add_l x y : u32 (u32 x + y) = u32 (x + y).
Proof. unfold u32. apply Zplus_mod_idemp_l. Qed.

(** Masking with [k] low zero bits clears them. *)
Lemma land_low_ones x k : 0 ≤ k → Z.land x (2 ^ k - 1) = x `mod` 2 ^ k.
Proof.
  intros Hk. rewrite <- Z.land_ones by done.
  f_equal. rewrite Z.ones_equiv. lia.
Qed.

(** Or-ing low bits into an aligned value is an addition. *)
Lemma lor_aligned a c k :
  0 ≤ k → a `mod` 2 ^ k = 0 → 0 ≤ c < 2 ^ k → Z.lor a c = a + c.
Proof.
  intros Hk Ha Hc. symmetry. apply Z.add_nocarry_lor.
  rewrite <- (Z.mod_small c (2 ^ k)) by done.
  rewrite <- Z.land_ones by done.
  rewrite (Z.land_comm c), Z.land_assoc, Z.land_ones by done.
  rewrite Ha. apply Z.land_0_l.
Qed.

Lemma pow32_high_aligned k :
  0 ≤ k ≤ 32 → (4294967296 - 2 ^ k) `mod` 2 ^ k = 0.
Proof.
  intros Hk.
  replace 4294967296 with (2 ^ (32 - k) * 2 ^ k).
  - rewrite Zminus_mod, Z_mod_mult, Z_mod_same_full. done.
  - rewrite <- Z.pow_add_r by lia. replace (32 - k + k) with 32 by lia. done.
Qed.

(** The high part of a 32-bit value: what a mask of the bits [k..31] keeps. *)
Lemma land_high_ones x k :
  0 ≤ k ≤ 32 → is_u32 x →
  Z.land x (4294967296 - 2 ^ k) = x - x `mod` 2 ^ k.
Proof.
  intros Hk Hx.
  assert (H : Z.land x (4294967296 - 2 ^ k) + Z.land x (2 ^ k - 1) = x).
  { rewrite Z.add_nocarry_lor; last first.
    { rewrite (Z.land_comm x (2 ^ k - 1)), Z.land_assoc.
      rewrite <- (Z.land_assoc x), (land_low_ones _ k) by lia.
      rewrite pow32_high_aligned by done. by rewrite Z.land_0_r, Z.land_0_l. }
    rewrite <- Z.land_lor_distr_r.
    replace (Z.lor (4294967296 - 2 ^ k) (2 ^ k - 1)) with (Z.ones 32).
    { rewrite Z.land_ones by lia. apply Z.mod_small. exact Hx. }
    rewrite (lor_aligned _ _ k);
      [|lia|by apply pow32_high_aligned|pose proof (Z.pow_pos_nonneg 2 k); lia].
    rewrite Z.ones_equiv. cbn. lia. }
  rewrite land_low_ones in H by lia. lia.
Qed.

#[export] Hint Resolve u32_range : redmagic.

(** ** Shared list lemmas *)

Lemma filter_keeps {A} (P : A → Prop) `{∀ x, Decision (P x)} (l : list A) :
  (∀ x, x ∈ l → P x) → filter P l = l.
Proof.
  induction l as [|x l IH]; intros Hl; [done|].
  rewrite filter_cons_True, IH by set_solver. done.
Qed.

Lemma filter_drops {A} (P : A → Prop) `{∀ x, Decision (P x)} (l : list A) :
  (∀ x, x ∈ l → ¬ P x) → filter P l = [].
Proof.
  induction l as [|x l IH]; intros Hl; [done|].
  rewrite filter_cons_False by set_solver. apply IH. set_solver.
Qed.

Lemma filter_ne_perm (x : Z) (l : list Z) :
  NoDup l → x ∈ l → l ≡ₚ x :: filter (λ y, y ≠ x) l.
Proof.
  intros Hnd (l1&l2&->)%list_elem_of_split.
  apply NoDup_app in Hnd as (_&Hd&[Hx _]%NoDup_cons).
  rewrite filter_app, filter_cons_False by tauto.
  rewrite !filter_keeps; [by rewrite Permutation_middle|..].
  - intros y Hy ->. done.
  - intros y Hy ->. apply (Hd x Hy). left.
Qed.

