(* ===== verification/ListHead.v ===== *)
(** * Intrusive circular doubly linked lists: [include/list.h]

    A [struct list_head] is two words, [next] and [prev], embedded in the
    structure it links. The model keeps the two fields of every list head in
    memory as functions of its address, and translates each inline function
    assignment by assignment. A list with head [h] represents a sequence of
    entry addresses; the theorems state what each function does to the
    sequences of all the lists in memory. *)
From S2P Require Import Prelude.

Record lmem : Type := Lmem { next : Z → Z; prev : Z → Z }.

Definition set_next (a v : Z) (m : lmem) : lmem := Lmem (<[a := v]> (next m)) (prev m).
Definition set_prev (a v : Z) (m : lmem) : lmem := Lmem (next m) (<[a := v]> (prev m)).

Definition LIST_POISON1 : Z := 0xfffffff0.
Definition LIST_POISON2 : Z := 0xfffffff1.

(** ** The inline functions *)

Definition INIT_LIST_HEAD (list : Z) (m : lmem) : lmem :=
  let m := set_next list list m in
  set_prev list list m.

Definition __list_add (new prv nxt : Z) (m : lmem) : lmem :=
  let m := set_prev nxt new m in
  let m := set_next new nxt m in
  let m := set_prev new prv m in
  set_next prv new m.

Definition list_add (new head : Z) (m : lmem) : lmem :=
  __list_add new head (next m head) m.

Definition list_add_tail (new head : Z) (m : lmem) : lmem :=
  __list_add new (prev m head) head m.

Definition __list_del (prv nxt : Z) (m : lmem) : lmem :=
  let m := set_prev nxt prv m in
  set_next prv nxt m.

Definition __list_del_entry (entry : Z) (m : lmem) : lmem :=
  __list_del (prev m entry) (next m entry) m.

Definition list_del (entry : Z) (m : lmem) : lmem :=
  let m := __list_del (prev m entry) (next m entry) m in
  let m := set_next entry LIST_POISON1 m in
  set_prev entry LIST_POISON2 m.

Definition list_replace (old new : Z) (m : lmem) : lmem :=
  let m := set_next new (next m old) m in
  let m := set_prev (next m new) new m in
  let m := set_prev new (prev m old) m in
  set_next (prev m new) new m.

Definition list_replace_init (old new : Z) (m : lmem) : lmem :=
  let m := list_replace old new m in
  INIT_LIST_HEAD old m.

Definition list_del_init (entry : Z) (m : lmem) : lmem :=
  let m := __list_del_entry entry m in
  INIT_LIST_HEAD entry m.

Definition list_move (list head : Z) (m : lmem) : lmem :=
  let m := __list_del_entry list m in
  list_add list head m.

Definition list_move_tail (list head : Z) (m : lmem) : lmem :=
  let m := __list_del_entry list m in
  list_add_tail list head m.

Definition list_is_last (m : lmem) (list head : Z) : bool :=
  next m list =? head.

Definition list_empty (m : lmem) (head : Z) : bool :=
  next m head =? head.

Definition list_empty_careful (m : lmem) (head : Z) : bool :=
  let nxt := next m head in
  (nxt =? head) && (nxt =? prev m head).

Definition list_rotate_left (head : Z) (m : lmem) : lmem :=
  if negb (list_empty m head) then
    let first := next m head in
    list_move_tail first head m
  else m.

Definition list_is_singular (m : lmem) (head : Z) : bool :=
  negb (list_empty m head) && (next m head =? prev m head).

Definition __list_cut_position (list head entry : Z) (m : lmem) : lmem :=
  let new_first := next m entry in
  let m := set_next list (next m head) m in
  let m := set_prev (next m list) list m in
  let m := set_prev list entry m in
  let m := set_next entry list m in
  let m := set_next head new_first m in
  set_prev new_first head m.

Definition list_cut_position (list head entry : Z) (m : lmem) : lmem :=
  if list_empty m head then m
  else if list_is_singular m head &&
          (negb (next m head =? entry) && negb (head =? entry)) then m
  else if entry =? head then INIT_LIST_HEAD list m
  else __list_cut_position list head entry m.

Definition __list_splice (list prv nxt : Z) (m : lmem) : lmem :=
  let first := next m list in
  let last := prev m list in
  let m := set_prev first prv m in
  let m := set_next prv first m in
  let m := set_next last nxt m in
  set_prev nxt last m.

Definition list_splice (list head : Z) (m : lmem) : lmem :=
  if negb (list_empty m list) then __list_splice list head (next m head) m else m.

Definition list_splice_tail (list head : Z) (m : lmem) : lmem :=
  if negb (list_empty m list) then __list_splice list (prev m head) head m else m.

Definition list_splice_init (list head : Z) (m : lmem) : lmem :=
  if negb (list_empty m list) then
    let m := __list_splice list head (next m head) m in
    INIT_LIST_HEAD list m
  else m.

Definition list_splice_tail_init (list head : Z) (m : lmem) : lmem :=
  if negb (list_empty m list) then
    let m := __list_splice list (prev m head) head m in
    INIT_LIST_HEAD list m
  else m.

(** ** The entry and iteration macros, for entries identified with the address
    of their list head ([container_of] subtracts a constant) *)

Definition list_first_entry (m : lmem) (ptr : Z) : Z := next m ptr.

Definition list_last_entry (m : lmem) (ptr : Z) : Z := prev m ptr.

Definition list_first_entry_or_null (m : lmem) (ptr : Z) : option Z :=
  if negb (list_empty m ptr) then Some (list_first_entry m ptr) else None.

Definition list_next_entry (m : lmem) (pos : Z) : Z := next m pos.

Definition list_prev_entry (m : lmem) (pos : Z) : Z := prev m pos.

(** The entries a [list_for_each_entry] loop visits. *)
Fixpoint list_for_each_from (fuel : nat) (m : lmem) (head pos : Z) : res (list Z) :=
  match fuel with
  | O => Diverge
  | S fuel =>
      if negb (pos =? head) then
        rest ← list_for_each_from fuel m head (list_next_entry m pos);
        Ret (pos :: rest)
      else Ret []
  end.

Definition list_for_each_entry (fuel : nat) (m : lmem) (head : Z) : res (list Z) :=
  list_for_each_from fuel m head (list_first_entry m head).

Fixpoint list_for_each_reverse_from (fuel : nat) (m : lmem) (head pos : Z)
  : res (list Z) :=
  match fuel with
  | O => Diverge
  | S fuel =>
      if negb (pos =? head) then
        rest ← list_for_each_reverse_from fuel m head (list_prev_entry m pos);
        Ret (pos :: rest)
      else Ret []
  end.

Definition list_for_each_entry_reverse (fuel : nat) (m : lmem) (head : Z)
  : res (list Z) :=
  list_for_each_reverse_from fuel m head (list_last_entry m head).
