(* ===== verification/ListProofs.v ===== *)
(** * The list functions act on sequences as documented

    [reps m W]: the list memory [m] holds, for every head [h] with
    [W !! h = Some l], a well-formed ring whose entries are the sequence [l];
    the rings share no node. Every theorem below is a simulation step: a
    function of [list.h] on [m] is matched by an operation on the sequences of
    [W], for all lists in memory at once. *)
From S2P Require Import Prelude ListHead.

(** ** Chains and rings *)

Definition linked (m : lmem) (x y : Z) : Prop := next m x = y ∧ prev m y = x.

Fixpoint chain (m : lmem) (l : list Z) : Prop :=
  match l with
  | x :: ((y :: _) as l') => linked m x y ∧ chain m l'
  | _ => True
  end.

Definition ring (m : lmem) (h : Z) (l : list Z) : Prop := chain m (h :: l ++ [h]).

Lemma chain_app m l1 x y l2 :
  chain m (l1 ++ x :: y :: l2) ↔ chain m (l1 ++ [x]) ∧ linked m x y ∧ chain m (y :: l2).
Proof.
  induction l1 as [|a [|b l1] IH]; cbn in *; [tauto|tauto|].
  rewrite IH. tauto.
Qed.

(** Only the [next] fields of all but the last node and the [prev] fields of
    all but the first matter. *)
Lemma chain_ext m m' l x y :
  (∀ z, z ∈ x :: l → next m' z = next m z) →
  (∀ z, z ∈ l ++ [y] → prev m' z = prev m z) →
  chain m (x :: l ++ [y]) → chain m' (x :: l ++ [y]).
Proof.
  revert x. induction l as [|a l IH]; intros x Hn Hp; cbn -[elem_of] in *.
  - unfold linked. rewrite Hn, Hp by set_solver. done.
  - intros [Hl Hc]. split.
    + unfold linked in *. rewrite Hn, Hp by set_solver. done.
    + apply IH; [set_solver..|done].
Qed.

Lemma ring_ext m m' h l :
  (∀ z, z ∈ h :: l → next m' z = next m z ∧ prev m' z = prev m z) →
  ring m h l → ring m' h l.
Proof. intros H. apply chain_ext; intros z Hz; apply H; set_solver. Qed.

(** First and last node of a ring segment, with the head at both ends. *)
Definition first_of (h : Z) (l : list Z) : Z := hd h l.
Definition last_of (h : Z) (l : list Z) : Z := List.last l h.

Lemma last_of_snoc h l x : last_of h (l ++ [x]) = x.
Proof. unfold last_of. by rewrite last_last. Qed.

(** A ring seen from the link between [l1] and [l2]. *)
Lemma ring_split m h l1 l2 :
  ring m h (l1 ++ l2) ↔
  chain m (h :: l1) ∧ linked m (last_of h l1) (first_of h l2) ∧ chain m (l2 ++ [h]).
Proof.
  unfold ring. destruct l1 as [|a l1 _] using rev_ind.
  - destruct l2 as [|b l2]; cbn; tauto.
  - rewrite last_of_snoc. destruct l2 as [|b l2]; cbn [first_of hd app].
    + replace (h :: ((l1 ++ [a]) ++ []) ++ [h]) with ((h :: l1) ++ [a; h])
        by (cbn; rewrite app_nil_r, <- app_assoc; done).
      rewrite chain_app. cbn. tauto.
    + replace (h :: ((l1 ++ [a]) ++ b :: l2) ++ [h])
        with ((h :: l1) ++ a :: b :: (l2 ++ [h]))
        by (cbn; rewrite <- !app_assoc; done).
      rewrite chain_app. cbn. tauto.
Qed.

Lemma last_of_elem h l : last_of h l ∈ h :: l.
Proof.
  destruct l as [|a l _] using rev_ind; [set_solver|].
  rewrite last_of_snoc. set_solver.
Qed.

Lemma first_of_elem h l : first_of h l ∈ l ++ [h].
Proof. destruct l; set_solver. Qed.

Lemma ring_next m h l : ring m h l → next m h = first_of h l.
Proof. intros H. apply (ring_split m h [] l) in H. apply H. Qed.

Lemma ring_prev m h l : ring m h l → prev m h = last_of h l.
Proof.
  intros H. rewrite <- (app_nil_r l) in H. apply ring_split in H. apply H.
Qed.

Lemma ring_node m h l1 e l2 :
  ring m h (l1 ++ e :: l2) →
  prev m e = last_of h l1 ∧ next m e = first_of h l2.
Proof.
  intros H. split.
  - apply ring_split in H. apply H.
  - replace (l1 ++ e :: l2) with ((l1 ++ [e]) ++ l2) in H by by rewrite <- app_assoc.
    apply ring_split in H as (_&[H _]&_). by rewrite last_of_snoc in H.
Qed.

(** Transfer of the two end chains to another memory. *)
Lemma chain_left_ext m m' h l :
  NoDup (h :: l) →
  (∀ z, z ∈ h :: l → z ≠ last_of h l → next m' z = next m z) →
  (∀ z, z ∈ l → prev m' z = prev m z) →
  chain m (h :: l) → chain m' (h :: l).
Proof.
  intros Hnd. destruct l as [|a l _] using rev_ind; [done|]. rewrite last_of_snoc.
  intros Hn Hp. apply chain_ext; [|done].
  intros z Hz. apply Hn; [set_solver|]. intros ->.
  rewrite app_comm_cons in Hnd. apply NoDup_app in Hnd as (_&Hd&_).
  by apply (Hd a Hz), list_elem_of_singleton.
Qed.

Lemma chain_right_ext m m' h l :
  NoDup (h :: l) →
  (∀ z, z ∈ l → next m' z = next m z) →
  (∀ z, z ∈ l ++ [h] → z ≠ first_of h l → prev m' z = prev m z) →
  chain m (l ++ [h]) → chain m' (l ++ [h]).
Proof.
  intros Hnd Hn Hp. destruct l as [|a l]; [done|]. cbn [app].
  apply chain_ext; [done|]. intros z Hz. apply Hp; [set_solver|].
  cbn. intros ->. apply NoDup_cons in Hnd as [? [??]%NoDup_cons]. set_solver.
Qed.

Lemma chain_cons_first m x h l :
  chain m (x :: l ++ [h]) ↔ linked m x (first_of h l) ∧ chain m (l ++ [h]).
Proof. destruct l; cbn; tauto. Qed.

(** ** The field updates of the two primitive functions *)

Lemma next_list_add new p n m z :
  next (__list_add new p n m) z =
  if decide (z = p) then new else if decide (z = new) then n else next m z.
Proof.
  unfold __list_add; cbn. unfold insert, fn_insert.
  repeat case_decide; congruence.
Qed.

Lemma prev_list_add new p n m z :
  prev (__list_add new p n m) z =
  if decide (z = new) then p else if decide (z = n) then new else prev m z.
Proof.
  unfold __list_add; cbn. unfold insert, fn_insert.
  repeat case_decide; congruence.
Qed.

Lemma next_list_del p n m z :
  next (__list_del p n m) z = if decide (z = p) then n else next m z.
Proof.
  unfold __list_del; cbn. unfold insert, fn_insert. repeat case_decide; congruence.
Qed.

Lemma prev_list_del p n m z :
  prev (__list_del p n m) z = if decide (z = n) then p else prev m z.
Proof.
  unfold __list_del; cbn. unfold insert, fn_insert. repeat case_decide; congruence.
Qed.

(** Decide a field of an updated memory from the membership facts at hand. *)
Ltac fields :=
  intros;
  rewrite ?next_list_add, ?prev_list_add, ?next_list_del, ?prev_list_del;
  repeat case_decide; subst; try done; try congruence; exfalso; set_solver.

(** Splitting a duplicate-free ring. *)
Lemma ring_nodup (h : Z) (l1 l2 : list Z) :
  NoDup (h :: l1 ++ l2) →
  NoDup (h :: l1) ∧ NoDup (h :: l2) ∧
  (∀ z, z ∈ h :: l1 → z ∉ l2) ∧ (∀ z, z ∈ l2 ++ [h] → z ∉ l1).
Proof.
  intros [Hh (?&Hd&?)%NoDup_app]%NoDup_cons.
  split_and!; [constructor; [set_solver|done]..|set_solver|set_solver].
Qed.

(** [__list_add] only needs the two halves of the ring, not the link between
    them. *)
Lemma halves_insert m h l1 l2 new :
  NoDup (h :: l1 ++ l2) → new ∉ h :: l1 ++ l2 →
  chain m (h :: l1) → chain m (l2 ++ [h]) →
  ring (__list_add new (last_of h l1) (first_of h l2) m) h (l1 ++ new :: l2).
Proof.
  intros Hnd Hnew Hc1 Hc2. apply ring_nodup in Hnd as (Hn1&Hn2&Hd1&Hd2).
  pose proof (last_of_elem h l1). pose proof (first_of_elem h l2).
  apply ring_split.
  cbn [first_of hd app]. rewrite chain_cons_first. split_and!.
  - revert Hc1. apply chain_left_ext; [done|..]; fields.
  - split; fields.
  - split; fields.
  - revert Hc2. apply chain_right_ext; [done|..]; fields.
Qed.

Lemma ring_insert m h l1 l2 new :
  NoDup (h :: l1 ++ l2) → new ∉ h :: l1 ++ l2 → ring m h (l1 ++ l2) →
  ring (__list_add new (last_of h l1) (first_of h l2) m) h (l1 ++ new :: l2).
Proof. intros Hnd Hnew (?&_&?)%ring_split. by apply halves_insert. Qed.

Lemma ring_delete m h l1 e l2 :
  NoDup (h :: l1 ++ e :: l2) → ring m h (l1 ++ e :: l2) →
  ring (__list_del (last_of h l1) (first_of h l2) m) h (l1 ++ l2).
Proof.
  intros Hnd Hr.
  assert (Hnd' : NoDup (h :: l1 ++ l2)).
  { eapply sublist_NoDup; [exact Hnd|].
    apply sublist_skip, sublist_app; [done|]. by apply sublist_cons. }
  apply ring_nodup in Hnd' as (Hn1&Hn2&Hd1&Hd2).
  pose proof (last_of_elem h l1). pose proof (first_of_elem h l2).
  apply ring_split in Hr as (Hc1&_&Hc2). cbn [app] in Hc2.
  rewrite chain_cons_first in Hc2. destruct Hc2 as [_ Hc2].
  apply ring_split. split_and!.
  - revert Hc1. apply chain_left_ext; [done|..]; fields.
  - split; fields.
  - revert Hc2. apply chain_right_ext; [done|..]; fields.
Qed.

(** ** All the lists of a memory *)

Definition world : Type := gmap Z (list Z).

Definition in_ring (W : gmap Z (list Z)) (x : Z) : Prop :=
  ∃ h l, W !! h = Some l ∧ x ∈ (h :: l).

Record reps (m : lmem) (W : gmap Z (list Z)) : Prop := {
  reps_ring : ∀ h l, W !! h = Some l → ring m h l;
  reps_nodup : ∀ h l, W !! h = Some l → NoDup (h :: l);
  reps_disj : ∀ h1 l1 h2 l2 x, W !! h1 = Some l1 → W !! h2 = Some l2 →
    x ∈ h1 :: l1 → x ∈ h2 :: l2 → h1 = h2;
}.

(** Replacing the sequence of one list: the new ring may only gain nodes that
    belong to no other ring, and the other rings' fields must be untouched. *)
Lemma reps_update m m' W h l' :
  reps m W → ring m' h l' → NoDup (h :: l') →
  (∀ h2 l2 x, h2 ≠ h → W !! h2 = Some l2 → x ∈ h2 :: l2 →
     (x ∉ h :: l') ∧ next m' x = next m x ∧ prev m' x = prev m x) →
  reps m' (<[h := l']> W).
Proof.
  intros [Hr Hn Hd] Hr' Hn' Ho. split.
  - intros h2 l2. rewrite lookup_insert. case_decide as E; [by intros [= <-]; subst|].
    intros H2. apply (ring_ext m); [|by apply Hr].
    intros z Hz. by apply (Ho h2 l2).
  - intros h2 l2. rewrite lookup_insert. case_decide; [by intros [= <-]; subst|].
    apply Hn.
  - intros h1 l1 h2 l2 x. rewrite !lookup_insert.
    repeat case_decide; subst; intros H1 H2 Hx1 Hx2; simplify_eq; [done|..].
    + by destruct (Ho h2 l2 x) as [[] _].
    + by destruct (Ho h1 l1 x) as [[] _].
    + by apply (Hd h1 l1 h2 l2 x).
Qed.

(** A list that disappears from the world (its head is no longer used). *)
Lemma reps_delete m W h : reps m W → reps m (delete h W).
Proof.
  intros [Hr Hn Hd]. split.
  - intros h2 l2 [_ H2]%lookup_delete_Some. by apply Hr.
  - intros h2 l2 [_ H2]%lookup_delete_Some. by apply Hn.
  - intros h1 l1 h2 l2 x [_ H1]%lookup_delete_Some [_ H2]%lookup_delete_Some.
    by apply Hd.
Qed.

(** A ring's nodes are not in the other rings. *)
Lemma reps_other m W h l h2 l2 x y :
  reps m W → W !! h = Some l → W !! h2 = Some l2 → h2 ≠ h →
  x ∈ h2 :: l2 → y ∈ h :: l → x ≠ y.
Proof. intros HR H1 H2 Hne Hx Hy ->. by apply Hne, (reps_disj _ _ HR h2 l2 h l y). Qed.

(** ** Operations on sequences *)

Definition w_seq (W : gmap Z (list Z)) (h : Z) : list Z := default [] (W !! h).

Definition w_add (x h : Z) (W : gmap Z (list Z)) : gmap Z (list Z) :=
  alter (λ l, x :: l) h W.

Definition w_add_tail (x h : Z) (W : gmap Z (list Z)) : gmap Z (list Z) :=
  alter (λ l, l ++ [x]) h W.

Definition w_del (x : Z) (W : gmap Z (list Z)) : gmap Z (list Z) :=
  (λ l, filter (λ y, y ≠ x) l) <$> W.

Definition w_move (x h : Z) (W : gmap Z (list Z)) : gmap Z (list Z) :=
  w_add x h (w_del x W).

Definition w_move_tail (x h : Z) (W : gmap Z (list Z)) : gmap Z (list Z) :=
  w_add_tail x h (w_del x W).

(** An entry of some list. *)
Definition is_entry (W : gmap Z (list Z)) (x : Z) : Prop :=
  ∃ h l, W !! h = Some l ∧ x ∈ l.

(** The contract of a list function: what it does to the sequences, and when. *)
Class ListSim (op : lmem → lmem) (wop : gmap Z (list Z) → gmap Z (list Z))
    (pre : gmap Z (list Z) → Prop) : Prop :=
  list_sim m W : reps m W → pre W → reps (op m) (wop W).

#[export] Instance list_sim_seq op1 w1 p1 op2 w2 p2 :
  ListSim op1 w1 p1 → ListSim op2 w2 p2 →
  ListSim (λ m, op2 (op1 m)) (λ W, w2 (w1 W)) (λ W, p1 W ∧ p2 (w1 W)).
Proof. intros H1 H2 m W HR [Hp1 Hp2]. by apply H2, Hp2; apply H1. Qed.

Lemma filter_ne_id (x : Z) (l : list Z) : x ∉ l → filter (λ y, y ≠ x) l = l.
Proof.
  intros Hx. induction l as [|a l IH]; [done|].
  rewrite filter_cons_True by set_solver. f_equal. apply IH. set_solver.
Qed.

Lemma w_add_lookup x h W l : W !! h = Some l → w_add x h W = <[h := x :: l]> W.
Proof.
  intros H. apply map_eq. intros h'. unfold w_add.
  rewrite lookup_alter, lookup_insert. case_decide; [subst; by rewrite H|done].
Qed.

Lemma w_add_tail_lookup x h W l :
  W !! h = Some l → w_add_tail x h W = <[h := l ++ [x]]> W.
Proof.
  intros H. apply map_eq. intros h'. unfold w_add_tail.
  rewrite lookup_alter, lookup_insert. case_decide; [subst; by rewrite H|done].
Qed.

Lemma w_del_lookup m x h W l1 l2 :
  reps m W → W !! h = Some (l1 ++ x :: l2) → w_del x W = <[h := l1 ++ l2]> W.
Proof.
  intros HR H. pose proof (reps_nodup _ _ HR _ _ H) as Hn.
  apply NoDup_cons in Hn as [Hh Hn]. apply NoDup_app in Hn as (Hn1&Hd&Hn2).
  apply NoDup_cons in Hn2 as [Hx2 Hn2].
  apply map_eq. intros h'. unfold w_del. rewrite lookup_fmap, lookup_insert.
  case_decide as E; [subst|].
  - rewrite H; cbn. rewrite filter_app, filter_cons_False by naive_solver.
    rewrite !filter_ne_id; [done|done|set_solver].
  - destruct (W !! h') as [l'|] eqn:H'; [cbn|done]. f_equal.
    apply filter_ne_id. intros Hx'. apply E.
    apply (reps_disj _ _ HR h (l1 ++ x :: l2) h' l' x); set_solver.
Qed.

(** ** The simulation instances *)

#[export] Instance list_add_sim x h :
  ListSim (list_add x h) (w_add x h) (λ W, is_Some (W !! h) ∧ ¬ in_ring W x).
Proof.
  intros m W HR [[l H] Hx]. unfold list_add.
  pose proof (reps_ring _ _ HR _ _ H) as Hr. pose proof (reps_nodup _ _ HR _ _ H) as Hn.
  rewrite (ring_next _ _ _ Hr), (w_add_lookup _ _ _ _ H).
  assert (Hxl : x ∉ h :: l) by (intros ?; apply Hx; by exists h, l).
  apply (reps_update m); [done| |by apply NoDup_cons in Hn as [??];
    constructor; [set_solver|constructor; set_solver]|].
  - apply (ring_insert m h [] l x); done.
  - intros h2 l2 y Hne H2 Hy. pose proof (first_of_elem h l).
    assert (Hoy : ∀ z, z ∈ h :: l → y ≠ z) by (intros z; by apply (reps_other m W h l h2 l2)).
    assert (y ≠ x) by (intros ->; apply Hx; by exists h2, l2).
    split_and!; [set_solver| |]; fields.
Qed.

#[export] Instance list_add_tail_sim x h :
  ListSim (list_add_tail x h) (w_add_tail x h)
    (λ W, is_Some (W !! h) ∧ ¬ in_ring W x).
Proof.
  intros m W HR [[l H] Hx]. unfold list_add_tail.
  pose proof (reps_ring _ _ HR _ _ H) as Hr. pose proof (reps_nodup _ _ HR _ _ H) as Hn.
  rewrite (ring_prev _ _ _ Hr), (w_add_tail_lookup _ _ _ _ H).
  assert (Hxl : x ∉ h :: l) by (intros ?; apply Hx; by exists h, l).
  apply (reps_update m); [done| | |].
  - apply (ring_insert m h l [] x); rewrite ?app_nil_r; done.
  - rewrite app_comm_cons, Permutation_app_comm. by constructor.
  - intros h2 l2 y Hne H2 Hy. pose proof (last_of_elem h l).
    assert (Hoy : ∀ z, z ∈ h :: l → y ≠ z) by (intros z; by apply (reps_other m W h l h2 l2)).
    assert (y ≠ x) by (intros ->; apply Hx; by exists h2, l2).
    split_and!; [set_solver| |]; fields.
Qed.

Lemma del_entry_frees x W m :
  reps m W → is_entry W x → ¬ in_ring (w_del x W) x.
Proof.
  intros HR (h0&l0&H0&Hx0) (h&l&H&Hx). unfold w_del in H.
  rewrite lookup_fmap in H. destruct (W !! h) as [l'|] eqn:E; [|done].
  cbn in H. injection H as <-.
  apply elem_of_cons in Hx as [->|Hx].
  - pose proof (reps_disj _ _ HR h l' h0 l0 h E H0 ltac:(set_solver) ltac:(set_solver)).
    subst. by apply (reps_nodup _ _ HR) in H0 as [? _]%NoDup_cons.
  - apply list_elem_of_filter in Hx as [? _]. done.
Qed.

#[export] Instance list_del_entry_sim x :
  ListSim (__list_del_entry x) (w_del x) (λ W, is_entry W x).
Proof.
  intros m W HR (h&l&H&Hx). apply list_elem_of_split in Hx as (l1&l2&->).
  pose proof (reps_ring _ _ HR _ _ H) as Hr. pose proof (reps_nodup _ _ HR _ _ H) as Hn.
  unfold __list_del_entry. rewrite (w_del_lookup m x h W l1 l2) by done.
  destruct (ring_node _ _ _ _ _ Hr) as [-> ->].
  apply (reps_update m); [done|by apply (ring_delete m h l1 x l2)| |].
  - eapply sublist_NoDup; [exact Hn|].
    apply sublist_skip, sublist_app; [done|]. by apply sublist_cons.
  - intros h2 l2' y Hne H2 Hy. pose proof (last_of_elem h l1).
    pose proof (first_of_elem h l2).
    assert (Hoy : ∀ z, z ∈ h :: l1 ++ x :: l2 → y ≠ z)
      by (intros z; by apply (reps_other m W h (l1 ++ x :: l2) h2 l2')).
    split_and!; [set_solver| |]; fields.
Qed.

(** Writing the fields of a node that is in no ring changes nothing. *)
Lemma reps_outside m m' W x :
  reps m W → ¬ in_ring W x →
  (∀ z, z ≠ x → next m' z = next m z ∧ prev m' z = prev m z) → reps m' W.
Proof.
  intros [Hr Hn Hd] Hx Ho. split; [|done..]. intros h l H.
  apply (ring_ext m); [|by apply Hr]. intros z Hz. apply Ho. intros ->.
  apply Hx. by exists h, l.
Qed.

#[export] Instance list_del_sim x :
  ListSim (list_del x) (w_del x) (λ W, is_entry W x).
Proof.
  intros m W HR Hx. apply (reps_outside (__list_del_entry x m) _ _ x).
  - by apply list_del_entry_sim.
  - by apply (del_entry_frees x W m).
  - intros z Hz. unfold list_del; cbn. unfold insert, fn_insert.
    repeat case_decide; congruence || done.
Qed.

#[export] Instance list_del_init_sim x :
  ListSim (list_del_init x) (λ W, <[x := []]> (w_del x W)) (λ W, is_entry W x).
Proof.
  intros m W HR Hx. apply (reps_update (__list_del_entry x m)).
  - by apply list_del_entry_sim.
  - unfold list_del_init, INIT_LIST_HEAD, ring, linked; cbn.
    split; [|done]. unfold linked; cbn. by rewrite !fn_lookup_insert.
  - repeat constructor. set_solver.
  - intros h2 l2 y Hne H2 Hy. assert (y ≠ x).
    { intros ->. apply (del_entry_frees x W m HR Hx). by exists h2, l2. }
    split_and!; [set_solver|..]; cbn; by rewrite fn_lookup_insert_ne.
Qed.

#[export] Instance INIT_LIST_HEAD_sim x :
  ListSim (INIT_LIST_HEAD x) (λ W, <[x := []]> W)
    (λ W, ∀ h l, W !! h = Some l → h = x ∨ x ∉ (h :: l)).
Proof.
  intros m W HR Hx. apply (reps_update m); [done| | |].
  - unfold INIT_LIST_HEAD, ring; cbn. split; [|done]. unfold linked; cbn.
    by rewrite !fn_lookup_insert.
  - repeat constructor. set_solver.
  - intros h2 l2 y Hne H2 Hy. assert (y ≠ x).
    { intros ->. by destruct (Hx h2 l2 H2). }
    split_and!; [set_solver|..]; cbn; by rewrite fn_lookup_insert_ne.
Qed.

Lemma w_del_dom x W h : is_Some (w_del x W !! h) ↔ is_Some (W !! h).
Proof. unfold w_del. rewrite lookup_fmap. apply fmap_is_Some. Qed.

#[export] Instance list_move_sim x h :
  ListSim (list_move x h) (w_move x h) (λ W, is_Some (W !! h) ∧ is_entry W x).
Proof.
  intros m W HR [Hh Hx].
  apply (list_sim_seq _ _ _ _ _ _ (list_del_entry_sim x) (list_add_sim x h)); [done|].
  split; [done|]. split; [by apply w_del_dom|by apply (del_entry_frees x W m)].
Qed.

#[export] Instance list_move_tail_sim x h :
  ListSim (list_move_tail x h) (w_move_tail x h)
    (λ W, is_Some (W !! h) ∧ is_entry W x).
Proof.
  intros m W HR [Hh Hx].
  apply (list_sim_seq _ _ _ _ _ _ (list_del_entry_sim x) (list_add_tail_sim x h));
    [done|].
  split; [done|]. split; [by apply w_del_dom|by apply (del_entry_frees x W m)].
Qed.

(** ** Queries and iteration *)

Lemma first_of_head (h : Z) l : h ∉ l → first_of h l = h ↔ l = [].
Proof. destruct l; cbn; set_solver. Qed.

Lemma list_empty_spec m W h l :
  reps m W → W !! h = Some l → list_empty m h = bool_decide (l = []).
Proof.
  intros HR H. unfold list_empty. rewrite (ring_next m h l) by by apply HR.
  pose proof (reps_nodup _ _ HR _ _ H) as [Hh _]%NoDup_cons.
  pose proof (first_of_head h l Hh).
  case_bool_decide; apply Z.eqb_eq || apply Z.eqb_neq; tauto.
Qed.

Lemma list_is_last_spec m W h l1 x l2 :
  reps m W → W !! h = Some (l1 ++ x :: l2) →
  list_is_last m x h = bool_decide (l2 = []).
Proof.
  intros HR H. unfold list_is_last.
  destruct (ring_node m h l1 x l2) as [_ ->]; [by apply HR|].
  pose proof (reps_nodup _ _ HR _ _ H) as [Hh _]%NoDup_cons.
  pose proof (first_of_head h l2 ltac:(set_solver)).
  case_bool_decide; apply Z.eqb_eq || apply Z.eqb_neq; tauto.
Qed.

Lemma list_is_singular_spec m W h l :
  reps m W → W !! h = Some l →
  list_is_singular m h = bool_decide (length l = 1%nat).
Proof.
  intros HR H. unfold list_is_singular.
  rewrite (list_empty_spec m W h l) by done.
  rewrite (ring_next m h l), (ring_prev m h l) by by apply HR.
  pose proof (reps_nodup _ _ HR _ _ H) as [Hh Hl]%NoDup_cons.
  destruct l as [|a l]; [done|]. rewrite (bool_decide_eq_false_2 (_ :: _ = [])) by done.
  cbn [first_of hd negb andb]. destruct l as [|b l _] using rev_ind.
  - unfold last_of. cbn. by rewrite Z.eqb_refl.
  - rewrite app_comm_cons, last_of_snoc.
    rewrite (bool_decide_eq_false_2 (length _ = 1%nat))
      by (rewrite length_app; cbn; lia).
    apply Z.eqb_neq. intros ->. apply NoDup_cons in Hl as [Hb _]. set_solver.
Qed.

(** The loop of [list_for_each_entry] visits the sequence in order, the one of
    [list_for_each_entry_reverse] in the opposite order. *)
Lemma list_for_each_from_spec fuel m W h l1 l2 :
  reps m W → W !! h = Some (l1 ++ l2) → (length l2 < fuel)%nat →
  list_for_each_from fuel m h (first_of h l2) = Ret l2.
Proof.
  intros HR. revert l1 l2. induction fuel as [|fuel IH]; intros l1 l2 H Hf; [lia|].
  pose proof (reps_nodup _ _ HR _ _ H) as [Hh _]%NoDup_cons.
  destruct l2 as [|a l2]; cbn [list_for_each_from first_of hd].
  - by rewrite Z.eqb_refl.
  - destruct (Z.eqb_spec a h) as [->|]; [set_solver|]. cbn [negb].
    unfold list_next_entry. destruct (ring_node m h l1 a l2) as [_ ->]; [by apply HR|].
    rewrite (IH (l1 ++ [a]) l2); [done|by rewrite <- app_assoc|cbn in Hf; lia].
Qed.

Lemma list_for_each_entry_spec fuel m W h l :
  reps m W → W !! h = Some l → (length l < fuel)%nat →
  list_for_each_entry fuel m h = Ret l.
Proof.
  intros HR H Hf. unfold list_for_each_entry, list_first_entry.
  rewrite (ring_next m h l) by by apply HR.
  by apply (list_for_each_from_spec fuel m W h []).
Qed.

Lemma list_for_each_reverse_spec fuel m W h l1 l2 :
  reps m W → W !! h = Some (l1 ++ l2) → (length l1 < fuel)%nat →
  list_for_each_reverse_from fuel m h (last_of h l1) = Ret (reverse l1).
Proof.
  intros HR. revert l1 l2. induction fuel as [|fuel IH]; intros l1 l2 H Hf; [lia|].
  pose proof (reps_nodup _ _ HR _ _ H) as [Hh _]%NoDup_cons.
  destruct l1 as [|a l1 _] using rev_ind; cbn [list_for_each_reverse_from].
  - unfold last_of; cbn. by rewrite Z.eqb_refl.
  - rewrite last_of_snoc, reverse_snoc. destruct (Z.eqb_spec a h) as [->|]; [set_solver|].
    cbn [negb]. unfold list_prev_entry. rewrite <- app_assoc in H; cbn in H.
    destruct (ring_node m h l1 a l2) as [-> _]; [by apply HR|].
    rewrite (IH l1 (a :: l2)); [done|done|rewrite length_app in Hf; cbn in Hf; lia].
Qed.

(** ** Splicing and cutting *)

Lemma chain_app2 m a l1 l2 d :
  l2 ≠ [] →
  chain m ((a :: l1) ++ l2) ↔
  chain m (a :: l1) ∧ linked m (last_of a l1) (hd d l2) ∧ chain m l2.
Proof.
  intros H. destruct l2 as [|b l2]; [done|].
  destruct l1 as [|c l1 _] using rev_ind; [cbn; tauto|].
  rewrite last_of_snoc. replace ((a :: l1 ++ [c]) ++ b :: l2)
    with ((a :: l1) ++ c :: b :: l2) by (cbn; by rewrite <- app_assoc).
  rewrite chain_app. cbn. tauto.
Qed.

Lemma next_list_splice g p n m z :
  next (__list_splice g p n m) z =
  if decide (z = prev m g) then n
  else if decide (z = p) then next m g else next m z.
Proof.
  unfold __list_splice; cbn. unfold insert, fn_insert. repeat case_decide; congruence.
Qed.

Lemma prev_list_splice g p n m z :
  prev (__list_splice g p n m) z =
  if decide (z = n) then prev m g
  else if decide (z = next m g) then p else prev m z.
Proof.
  unfold __list_splice; cbn. unfold insert, fn_insert. repeat case_decide; congruence.
Qed.

(** Close a goal by two memberships that exclude each other. *)
Ltac mem :=
  first [assumption | apply list_elem_of_further; assumption
        | apply elem_of_app; left; assumption
        | match goal with
          | E : ?x = _ |- ?x ∈ _ => rewrite E; assumption
          | E : _ = ?x |- ?x ∈ _ => rewrite <- E; assumption
          end].
Ltac clash :=
  exfalso;
  multimatch goal with
  | D : ∀ z, z ∈ _ → z ∉ _, H : ?x ∈ _ |- _ => solve [apply (D x); mem]
  | D : ∀ z, z ∈ _ → z ∈ _ → False, H : ?x ∈ _ |- _ => solve [apply (D x); mem]
  | D : _ ∉ _ |- _ => solve [apply D; mem]
  end.
Ltac splice_fields En Ep :=
  intros; rewrite ?next_list_splice, ?prev_list_splice, ?En, ?Ep;
  repeat case_decide; subst; first [done | congruence | clash].

Lemma ring_splice m h l1 l2 g a lg :
  NoDup (h :: l1 ++ l2) → NoDup (g :: a :: lg) →
  (∀ z, z ∈ h :: l1 ++ l2 → z ∉ g :: a :: lg) →
  ring m h (l1 ++ l2) → ring m g (a :: lg) →
  ring (__list_splice g (last_of h l1) (first_of h l2) m) h (l1 ++ (a :: lg) ++ l2).
Proof.
  intros Hnd Hng Hdis Hr Hrg.
  assert (Hx1 : ∀ z, z ∈ h :: l1 → z ∈ a :: lg → False).
  { intros z Hz Hz'. apply (Hdis z); clear -Hz Hz'; set_solver. }
  assert (Hx2 : ∀ z, z ∈ l2 ++ [h] → z ∈ a :: lg → False).
  { intros z Hz Hz'. apply (Hdis z); clear -Hz Hz'; set_solver. }
  pose proof (ring_next _ _ _ Hrg) as En. pose proof (ring_prev _ _ _ Hrg) as Ep.
  cbn in En. assert (El : last_of g (a :: lg) = last_of a lg).
  { destruct lg as [|b lg _] using rev_ind; [done|].
    by rewrite app_comm_cons, !last_of_snoc. }
  rewrite El in Ep.
  apply ring_nodup in Hnd as (Hn1&Hn2&Hd1&Hd2). apply NoDup_cons in Hng as [Hg Hng].
  pose proof (last_of_elem h l1). pose proof (first_of_elem h l2).
  pose proof (last_of_elem a lg) as Hla.
  assert (Ha : a ∈ a :: lg) by left.
  clear Hdis Hg. apply NoDup_cons in Hng as Ha'. destruct Ha' as [Ha' _].
  assert (Hcg : chain m (a :: lg)).
  { unfold ring in Hrg. rewrite (chain_app2 m g (a :: lg) [g] g) in Hrg by done.
    destruct Hrg as [Hrg _]. cbn in Hrg. tauto. }
  apply ring_split in Hr as (Hc1&_&Hc2). apply ring_split.
  assert (Hne : l2 ++ [h] ≠ []) by (clear; by destruct l2).
  rewrite <- app_assoc, (chain_app2 _ a lg (l2 ++ [h]) h Hne).
  change (first_of h ((a :: lg) ++ l2)) with a.
  replace (hd h (l2 ++ [h])) with (first_of h l2)
    by (clear; by destruct l2).
  split_and!.
  - revert Hc1. apply chain_left_ext; [done|..]; splice_fields En Ep.
  - split; splice_fields En Ep.
  - revert Hcg. apply chain_left_ext; [done|..]; splice_fields En Ep.
  - split; splice_fields En Ep.
  - revert Hc2. apply chain_right_ext; [done|..]; splice_fields En Ep.
Qed.

Lemma next_list_cut g h e m z :
  next (__list_cut_position g h e m) z =
  if decide (z = h) then next m e else if decide (z = e) then g
  else if decide (z = g) then next m h else next m z.
Proof.
  unfold __list_cut_position; cbn. unfold insert, fn_insert.
  repeat case_decide; congruence.
Qed.

Lemma prev_list_cut g h e m z :
  prev (__list_cut_position g h e m) z =
  if decide (z = next m e) then h else if decide (z = g) then e
  else if decide (z = next m h) then g else prev m z.
Proof.
  unfold __list_cut_position; cbn. unfold insert, fn_insert.
  repeat case_decide; congruence.
Qed.

Ltac cut_fields En Eh :=
  intros; rewrite ?next_list_cut, ?prev_list_cut, ?En, ?Eh;
  repeat case_decide; subst; first [done | congruence | clash].

Lemma ring_cut m g h l1 e l2 :
  NoDup (h :: l1 ++ e :: l2) → g ∉ h :: l1 ++ e :: l2 → ring m h (l1 ++ e :: l2) →
  ring (__list_cut_position g h e m) g (l1 ++ [e]) ∧
  ring (__list_cut_position g h e m) h l2.
Proof.
  intros Hnd Hg Hr.
  destruct (ring_node _ _ _ _ _ Hr) as [_ En].
  assert (Eh : next m h = first_of e l1).
  { rewrite (ring_next _ _ _ Hr). by destruct l1. }
  assert (El : l1 ++ e :: l2 = (l1 ++ [e]) ++ l2) by (by rewrite <- app_assoc).
  rewrite El in Hnd, Hr, Hg. clear El.
  apply ring_split in Hr as (Hc1&_&Hc2). rewrite chain_cons_first in Hc1.
  destruct Hc1 as [_ Hc1].
  apply ring_nodup in Hnd as (Hn1&Hn2&Hd1&Hd2).
  assert (Hg1 : g ∉ l1 ++ [e]) by (clear -Hg; set_solver).
  assert (Hg2 : g ∉ l2 ++ [h]) by (clear -Hg; set_solver). clear Hg.
  apply NoDup_cons in Hn1 as [Hh1 Hn1].
  assert (Hn1' : NoDup (e :: l1)) by (rewrite <- Permutation_cons_append in Hn1; done).
  pose proof (first_of_elem e l1) as Hf1. pose proof (first_of_elem h l2) as Hf2.
  assert (He : e ∈ l1 ++ [e]) by (clear; set_solver).
  assert (Hh : h ∈ l2 ++ [h]) by (clear; set_solver).
  assert (He1 : e ∉ l1) by (by apply NoDup_cons in Hn1' as [??]).
  assert (Hh2 : h ∉ l2) by (by apply NoDup_cons in Hn2 as [??]).
  assert (Hd3 : ∀ z, z ∈ l1 ++ [e] → z ∉ l2) by (clear -Hd1; set_solver).
  split.
  - rewrite <- (app_nil_r (l1 ++ [e])). apply ring_split. rewrite last_of_snoc.
    cbn [first_of hd app]. rewrite chain_cons_first. split_and!; [| | |done].
    + split; cut_fields En Eh.
    + revert Hc1. apply chain_right_ext; [done|..]; cut_fields En Eh.
    + split; cut_fields En Eh.
  - apply (ring_split _ h [] l2). split_and!; [done| |].
    + split; cut_fields En Eh.
    + revert Hc2. apply chain_right_ext; [done|..]; cut_fields En Eh.
Qed.

(** ** Splicing, cutting, rotating and replacing on worlds *)

Lemma reps_join m W g lg h lh z :
  reps m W → W !! g = Some lg → W !! h = Some lh → g ≠ h →
  z ∈ h :: lh → z ∉ g :: lg.
Proof.
  intros HR Hg Hh Hne Hz Hz'. apply Hne.
  by apply (reps_disj _ _ HR g lg h lh z).
Qed.

Lemma splice_world m W g a lg h l1 l2 :
  reps m W → W !! g = Some (a :: lg) → W !! h = Some (l1 ++ l2) → g ≠ h →
  reps (__list_splice g (last_of h l1) (first_of h l2) m)
       (<[h := l1 ++ (a :: lg) ++ l2]> (delete g W)).
Proof.
  intros HR Hg Hh Hne.
  pose proof (reps_ring _ _ HR _ _ Hg) as Hrg. pose proof (reps_ring _ _ HR _ _ Hh) as Hrh.
  pose proof (reps_nodup _ _ HR _ _ Hg) as Hng. pose proof (reps_nodup _ _ HR _ _ Hh) as Hnh.
  assert (Hdis : ∀ z, z ∈ h :: l1 ++ l2 → z ∉ g :: a :: lg)
    by (intros z; by apply (reps_join m W)).
  apply (reps_update m); [by apply reps_delete|by apply ring_splice| |].
  - apply NoDup_cons in Hng as [_ Hng].
    assert (Hp : h :: l1 ++ (a :: lg) ++ l2 ≡ₚ (h :: l1 ++ l2) ++ a :: lg)
      by (cbn; f_equiv; solve_Permutation).
    rewrite Hp. apply NoDup_app. split_and!; [done| |done].
    intros z Hz Hz'. apply (Hdis z Hz). by apply list_elem_of_further.
  - intros h2 l2' y Hne2 [Hne3 H2]%lookup_delete_Some Hy.
    assert (Hoh : ∀ z, z ∈ h :: l1 ++ l2 → y ≠ z)
      by (intros z; by apply (reps_other m W h (l1 ++ l2) h2 l2')).
    assert (Hog : ∀ z, z ∈ g :: a :: lg → y ≠ z)
      by (intros z; by apply (reps_other m W g (a :: lg) h2 l2')).
    assert (Hl1 : y ≠ last_of h l1).
    { apply Hoh. pose proof (last_of_elem h l1). set_solver. }
    assert (Hf2 : y ≠ first_of h l2).
    { apply Hoh. pose proof (first_of_elem h l2). set_solver. }
    assert (Hgn : y ≠ next m g).
    { rewrite (ring_next _ _ _ Hrg). apply Hog. cbn. set_solver. }
    assert (Hgp : y ≠ prev m g).
    { rewrite (ring_prev _ _ _ Hrg). apply Hog. apply last_of_elem. }
    split_and!.
    + intros Hy'. assert (y ∈ h :: l1 ++ l2 ∨ y ∈ a :: lg) as [Hy1|Hy1]
        by (clear -Hy'; set_solver).
      * by apply (Hoh y Hy1).
      * by apply (Hog y); [by apply list_elem_of_further|].
    + rewrite next_list_splice. by repeat case_decide.
    + rewrite prev_list_splice. by repeat case_decide.
Qed.

(** What the four splice functions do to the sequences. *)
Definition w_splice (g h : Z) (W : gmap Z (list Z)) : gmap Z (list Z) :=
  match W !! g with
  | Some ((_ :: _) as lg) => <[h := lg ++ w_seq W h]> (delete g W)
  | _ => W
  end.

Definition w_splice_tail (g h : Z) (W : gmap Z (list Z)) : gmap Z (list Z) :=
  match W !! g with
  | Some ((_ :: _) as lg) => <[h := w_seq W h ++ lg]> (delete g W)
  | _ => W
  end.

Definition two_lists (g h : Z) (W : gmap Z (list Z)) : Prop :=
  is_Some (W !! g) ∧ is_Some (W !! h) ∧ g ≠ h.

#[export] Instance list_splice_sim g h :
  ListSim (list_splice g h) (w_splice g h) (two_lists g h).
Proof.
  intros m W HR ([lg Hg]&[lh Hh]&Hne). unfold list_splice, w_splice, w_seq.
  rewrite (list_empty_spec m W g lg), Hg, Hh by done.
  destruct lg as [|a lg]; [done|]. cbn [negb bool_decide].
  rewrite bool_decide_eq_false_2 by done. cbn [negb default].
  rewrite (ring_next m h lh) by by apply HR.
  by apply (splice_world m W g a lg h [] lh).
Qed.

#[export] Instance list_splice_tail_sim g h :
  ListSim (list_splice_tail g h) (w_splice_tail g h) (two_lists g h).
Proof.
  intros m W HR ([lg Hg]&[lh Hh]&Hne). unfold list_splice_tail, w_splice_tail, w_seq.
  rewrite (list_empty_spec m W g lg), Hg, Hh by done.
  destruct lg as [|a lg]; [done|].
  rewrite bool_decide_eq_false_2 by done. cbn [negb default].
  rewrite (ring_prev m h lh) by by apply HR.
  pose proof (splice_world m W g a lg h lh []) as Hs.
  rewrite app_nil_r in Hs. change (first_of h []) with h in Hs.
  rewrite app_nil_r in Hs. by apply Hs.
Qed.

(** Re-initialising the source list afterwards makes it empty. *)
Lemma splice_init_world m W g lg h lh :
  reps m W → W !! g = Some lg → W !! h = Some lh → g ≠ h → ∀ m' l',
  reps m' (<[h := l']> (delete g W)) → (∀ x, x ∈ l' → x ∈ lg ∨ x ∈ lh) →
  reps (INIT_LIST_HEAD g m') (<[g := []]> (<[h := l']> (delete g W))).
Proof.
  intros HR Hg Hh Hne m' l' HR' Hl'. apply INIT_LIST_HEAD_sim; [done|].
  intros h2 l2 H2. right. intros Hin.
  assert (Hng : g ∉ lg) by by apply (reps_nodup _ _ HR) in Hg as [? _]%NoDup_cons.
  rewrite lookup_insert in H2. case_decide as E.
  - subst. injection H2 as <-. apply elem_of_cons in Hin as [|Hin]; [done|].
    apply Hl' in Hin as [|Hin]; [done|].
    apply Hne, (reps_disj _ _ HR g lg h2 lh g); set_solver.
  - apply lookup_delete_Some in H2 as [Hne2 H2].
    apply Hne2, (reps_disj _ _ HR g lg h2 l2 g); set_solver.
Qed.

#[export] Instance list_splice_init_sim g h :
  ListSim (list_splice_init g h) (λ W, <[g := []]> (w_splice g h W)) (two_lists g h).
Proof.
  intros m W HR ([lg Hg]&[lh Hh]&Hne). pose proof (list_splice_sim g h m W HR) as Hs.
  unfold list_splice, list_splice_init, w_splice, w_seq in *.
  rewrite (list_empty_spec m W g lg), Hg, Hh in * by done.
  destruct lg as [|a lg].
  { rewrite bool_decide_eq_true_2 by done. cbn. by rewrite insert_id. }
  rewrite bool_decide_eq_false_2 in * by done. cbn [negb default] in *.
  apply (splice_init_world m W g (a :: lg) h lh); [done..| |set_solver].
  apply Hs. split_and!; [by eexists..|done].
Qed.

#[export] Instance list_splice_tail_init_sim g h :
  ListSim (list_splice_tail_init g h) (λ W, <[g := []]> (w_splice_tail g h W))
    (two_lists g h).
Proof.
  intros m W HR ([lg Hg]&[lh Hh]&Hne).
  pose proof (list_splice_tail_sim g h m W HR) as Hs.
  unfold list_splice_tail, list_splice_tail_init, w_splice_tail, w_seq in *.
  rewrite (list_empty_spec m W g lg), Hg, Hh in * by done.
  destruct lg as [|a lg].
  { rewrite bool_decide_eq_true_2 by done. cbn. by rewrite insert_id. }
  rewrite bool_decide_eq_false_2 in * by done. cbn [negb default] in *.
  apply (splice_init_world m W g (a :: lg) h lh); [done..| |set_solver].
  apply Hs. split_and!; [by eexists..|done].
Qed.

Lemma cut_frame m g h l1 e l2 x :
  ring m h (l1 ++ e :: l2) → (x ∉ h :: l1 ++ e :: l2) → x ≠ g →
  next (__list_cut_position g h e m) x = next m x ∧
  prev (__list_cut_position g h e m) x = prev m x.
Proof.
  intros Hr Hx Hg. destruct (ring_node _ _ _ _ _ Hr) as [_ En].
  pose proof (first_of_elem h l2). pose proof (first_of_elem h (l1 ++ e :: l2)).
  rewrite next_list_cut, prev_list_cut, En, (ring_next _ _ _ Hr).
  assert (x ≠ h ∧ x ≠ e ∧ x ≠ first_of h l2 ∧ x ≠ first_of h (l1 ++ e :: l2))
    as (?&?&?&?) by (split_and!; intros ->; apply Hx; clear Hx; set_solver).
  split; by repeat case_decide.
Qed.

Lemma cut_is_done m W h l1 e l2 g :
  reps m W → W !! h = Some (l1 ++ e :: l2) →
  list_cut_position g h e m = __list_cut_position g h e m.
Proof.
  intros HR H. pose proof (reps_nodup _ _ HR _ _ H) as [Hn _]%NoDup_cons.
  unfold list_cut_position. rewrite (list_empty_spec m W h (l1 ++ e :: l2)) by done.
  rewrite bool_decide_eq_false_2 by (by destruct l1).
  rewrite (list_is_singular_spec m W h (l1 ++ e :: l2)) by done.
  rewrite (ring_next m h (l1 ++ e :: l2)) by by apply HR.
  destruct (Z.eqb_spec e h) as [->|_]; [set_solver|].
  destruct l1 as [|a l1].
  - cbn [app first_of hd]. by rewrite Z.eqb_refl, andb_false_r.
  - rewrite bool_decide_eq_false_2; [done|]. rewrite length_app; cbn; lia.
Qed.

#[export] Instance list_rotate_left_sim h :
  ListSim (list_rotate_left h) (alter (λ l, tail l ++ take 1 l) h)
    (λ W, is_Some (W !! h)).
Proof.
  intros m W HR [l H]. unfold list_rotate_left.
  rewrite (list_empty_spec m W h l), (ring_next m h l) by (done || by apply HR).
  assert (Ea : ∀ l', tail l ++ take 1 l = l' →
    alter (λ l, tail l ++ take 1 l) h W = <[h := l']> W).
  { intros l' <-. apply map_eq. intros h'. rewrite lookup_alter, lookup_insert.
    case_decide; [subst; by rewrite H|done]. }
  destruct l as [|a l].
  { rewrite bool_decide_eq_true_2 by done. rewrite (Ea []) by done. by rewrite insert_id. }
  rewrite bool_decide_eq_false_2 by done. cbn [negb first_of hd].
  rewrite (Ea (l ++ [a])) by done.
  replace (<[h := l ++ [a]]> W) with (w_move_tail a h W).
  { apply list_move_tail_sim; [done|]. split; [by eexists|]. exists h, (a :: l).
    split; [done|left]. }
  unfold w_move_tail. rewrite (w_del_lookup m a h W [] l) by done.
  rewrite (w_add_tail_lookup _ _ _ l) by apply lookup_insert_eq.
  by rewrite insert_insert_eq.
Qed.

(** [list_replace] on an entry of a list is the insertion of the new node
    between the neighbours of the old one. *)
Lemma list_replace_fields old new m z :
  next m old ≠ old →
  next (list_replace old new m) z = next (__list_add new (prev m old) (next m old) m) z ∧
  prev (list_replace old new m) z = prev (__list_add new (prev m old) (next m old) m) z.
Proof.
  intros Hne. rewrite next_list_add, prev_list_add. unfold list_replace; cbn.
  unfold insert, fn_insert. repeat case_decide; simplify_eq; naive_solver.
Qed.

Lemma list_replace_sim old new h l1 l2 m W :
  reps m W → W !! h = Some (l1 ++ old :: l2) → ¬ in_ring W new →
  reps (list_replace old new m) (<[h := l1 ++ new :: l2]> W).
Proof.
  intros HR H Hnew. pose proof (reps_nodup _ _ HR _ _ H) as Hn.
  pose proof (reps_ring _ _ HR _ _ H) as Hr.
  destruct (ring_node _ _ _ _ _ Hr) as [Ep En].
  assert (Hnn : new ∉ h :: l1 ++ old :: l2) by (intros ?; apply Hnew; by eexists _, _).
  assert (Hn' : NoDup (h :: l1 ++ l2)).
  { apply (sublist_NoDup _ _ Hn).
    apply sublist_skip, sublist_app; [done|]. by apply sublist_cons. }
  assert (Hne : next m old ≠ old).
  { rewrite En. intros E. pose proof (first_of_elem h l2) as Hf. rewrite E in Hf.
    apply NoDup_cons in Hn as [? (_&_&[? _]%NoDup_cons)%NoDup_app]. set_solver. }
  assert (Hf : ∀ z, next (list_replace old new m) z =
      next (__list_add new (last_of h l1) (first_of h l2) m) z ∧
    prev (list_replace old new m) z =
      prev (__list_add new (last_of h l1) (first_of h l2) m) z).
  { intros z. rewrite <- Ep, <- En. by apply list_replace_fields. }
  apply (reps_update m); [done|..].
  - apply (ring_ext (__list_add new (last_of h l1) (first_of h l2) m)).
    { intros z _. apply Hf. }
    apply ring_split in Hr as (Hc1&_&Hc2). cbn [app] in Hc2.
    apply chain_cons_first in Hc2 as [_ Hc2].
    apply halves_insert; [done|set_solver|done..].
  - assert (Hp : h :: l1 ++ new :: l2 ≡ₚ new :: h :: l1 ++ l2) by solve_Permutation.
    rewrite Hp. constructor; [set_solver|done].
  - intros h2 l2' y Hne2 H2 Hy. destruct (Hf y) as [-> ->].
    assert (Ho : ∀ z, z ∈ h :: l1 ++ old :: l2 → y ≠ z)
      by (intros z; by apply (reps_other m W h (l1 ++ old :: l2) h2 l2')).
    assert (y ≠ new) by (intros ->; apply Hnew; by exists h2, l2').
    assert (y ≠ last_of h l1).
    { apply Ho. pose proof (last_of_elem h l1). set_solver. }
    assert (y ≠ first_of h l2).
    { apply Ho. pose proof (first_of_elem h l2). set_solver. }
    rewrite next_list_add, prev_list_add.
    split_and!; [intros Hy'; apply (Ho y); [set_solver|done]|by repeat case_decide..].
Qed.

(** ** Properties *)

(** A memory with the list [100 -> 1, 2, 3] and the empty list [200]. *)
Definition demo_lists : lmem :=
  list_add_tail 3 100 (list_add_tail 2 100 (list_add_tail 1 100
    (INIT_LIST_HEAD 200 (INIT_LIST_HEAD 100 (Lmem (λ _, 0) (λ _, 0)))))).

Lemma demo_world_eq :
  w_add_tail 3 100 (w_add_tail 2 100 (w_add_tail 1 100
    (<[200 := []]> (<[100 := []]> ∅)))) = {[100 := [1; 2; 3]; 200 := []]}.
Proof. by vm_compute. Qed.

Lemma demo_reps : reps demo_lists {[100 := [1; 2; 3]; 200 := []]}.
Proof.
  assert (Hfresh : ∀ (W : gmap Z (list Z)) x,
    map_Forall (λ h l, x ∉ (h :: l)) W → ¬ in_ring W x).
  { intros W x HW (h&l&H&Hx). by apply (HW h l H). }
  rewrite <- demo_world_eq. unfold demo_lists.
  do 3 (apply list_add_tail_sim; [|split;
    [vm_compute; by eexists|apply Hfresh, (bool_decide_unpack _); by vm_compute]]).
  apply INIT_LIST_HEAD_sim; [apply INIT_LIST_HEAD_sim|].
  - split; intros; simplify_map_eq.
  - intros h l H. simplify_map_eq.
  - intros h l [[<- <-]|[_ H]]%lookup_insert_Some; [right; set_solver|simplify_map_eq].
Qed.

(** C3: insertion at the head or the tail, deletion, and moving an entry to the
    head or the tail of a list do to the sequences of entries what their
    comments say, and leave every other list of the memory as it was. *)
Theorem list_functions_refine_sequences m W x h :
  reps m W → is_Some (W !! h) →
  (¬ in_ring W x →
     reps (list_add x h m) (w_add x h W) ∧
     reps (list_add_tail x h m) (w_add_tail x h W)) ∧
  (is_entry W x →
     reps (list_del x m) (w_del x W) ∧
     reps (list_del_init x m) (<[x := []]> (w_del x W)) ∧
     reps (list_move x h m) (w_move x h W) ∧
     reps (list_move_tail x h m) (w_move_tail x h W)).
Proof.
  intros HR Hh. split; intros Hx; split_and!.
  - by apply list_add_sim.
  - by apply list_add_tail_sim.
  - by apply list_del_sim.
  - by apply list_del_init_sim.
  - by apply list_move_sim.
  - by apply list_move_tail_sim.
Qed.

Lemma list_functions_refine_sequences_witness :
  reps (list_move 2 200 demo_lists) (w_move 2 200 {[100 := [1; 2; 3]; 200 := []]}) ∧
  w_move 2 200 {[100 := [1; 2; 3]; 200 := []]} = {[100 := [1; 3]; 200 := [2]]}.
Proof.
  split; [|by vm_compute].
  apply (list_functions_refine_sequences demo_lists _ 2 200 demo_reps);
    [vm_compute; by eexists|].
  exists 100, [1; 2; 3]. split; [by vm_compute|set_solver].
Defined.

(** The splice functions join the sequence of one list into another, at the
    front or at the back, and the [_init] variants leave the source list
    empty; an empty source changes nothing. *)
Theorem list_splice_functions_join m W g h lg lh :
  reps m W → W !! g = Some lg → W !! h = Some lh → g ≠ h → lg ≠ [] →
  reps (list_splice g h m) (<[h := lg ++ lh]> (delete g W)) ∧
  reps (list_splice_tail g h m) (<[h := lh ++ lg]> (delete g W)) ∧
  reps (list_splice_init g h m) (<[g := []]> (<[h := lg ++ lh]> W)) ∧
  reps (list_splice_tail_init g h m) (<[g := []]> (<[h := lh ++ lg]> W)).
Proof.
  intros HR Hg Hh Hne Hlg.
  assert (H2 : two_lists g h W) by (split_and!; [by eexists..|done]).
  assert (E1 : w_splice g h W = <[h := lg ++ lh]> (delete g W)).
  { unfold w_splice, w_seq. rewrite Hg, Hh. by destruct lg. }
  assert (E2 : w_splice_tail g h W = <[h := lh ++ lg]> (delete g W)).
  { unfold w_splice_tail, w_seq. rewrite Hg, Hh. by destruct lg. }
  assert (E3 : ∀ l, <[g := []]> (<[h := l]> W) = <[g := []]> (<[h := l]> (delete g W))).
  { intros l. rewrite <- (insert_delete_eq (<[h := l]> W)), delete_insert_ne; done. }
  rewrite !E3, <- E1, <- E2. split_and!.
  - by apply list_splice_sim.
  - by apply list_splice_tail_sim.
  - by apply list_splice_init_sim.
  - by apply list_splice_tail_init_sim.
Qed.

Lemma list_splice_functions_join_witness :
  reps (list_splice_init 100 200 demo_lists)
    (<[100 := []]> (<[200 := [1; 2; 3] ++ []]> {[100 := [1; 2; 3]; 200 := []]})).
Proof.
  apply (list_splice_functions_join demo_lists {[100 := [1; 2; 3]; 200 := []]}
    100 200 [1; 2; 3] []); [exact demo_reps|by vm_compute..|lia|discriminate].
Defined.

(** [list_cut_position] moves the entries up to and including [e] to the
    list [g] and keeps the rest on [h]. *)
Theorem list_cut_position_cuts g h l1 e l2 m W :
  reps m W → W !! h = Some (l1 ++ e :: l2) → g ≠ h →
  (∀ h' l', W !! h' = Some l' → h' = g ∨ g ∉ (h' :: l')) →
  reps (list_cut_position g h e m) (<[g := l1 ++ [e]]> (<[h := l2]> W)).
Proof.
  intros HR H Hne Hg. pose proof (reps_nodup _ _ HR _ _ H) as Hn.
  pose proof (reps_ring _ _ HR _ _ H) as Hr.
  rewrite (cut_is_done m W h l1 e l2) by done.
  assert (Hgh : g ∉ h :: l1 ++ e :: l2) by (destruct (Hg _ _ H); [congruence|done]).
  destruct (ring_cut m g h l1 e l2 Hn Hgh Hr) as [Hr1 Hr2].
  apply NoDup_cons in Hn as [Hnh (Hn1&Hd&[Hd' Hn2]%NoDup_cons)%NoDup_app].
  rewrite <- (insert_delete_eq (<[h := l2]> W)), delete_insert_ne by done.
  assert (Ho : ∀ h2 l2' x, h2 ≠ h → h2 ≠ g → W !! h2 = Some l2' → x ∈ h2 :: l2' →
    (x ∉ h :: l1 ++ e :: l2) ∧ x ≠ g).
  { intros h2 l2' x Hne2 Hne3 H2 Hx. split.
    - intros Hin. by apply (reps_other m W h _ h2 l2' x x HR H H2).
    - intros ->. by destruct (Hg h2 l2' H2). }
  apply (reps_update (__list_cut_position g h e m)); [apply (reps_update m)|..].
  - by apply reps_delete.
  - done.
  - constructor; [set_solver|done].
  - intros h2 l2' x Hne2 [Hne3 H2]%lookup_delete_Some Hx.
    destruct (Ho h2 l2' x) as [Hx1 Hx2]; [done..|].
    destruct (cut_frame m g h l1 e l2 x Hr Hx1 Hx2). split_and!; [set_solver|done..].
  - done.
  - constructor; [set_solver|]. apply NoDup_app.
    split_and!; [done|set_solver|]. apply NoDup_singleton.
  - intros h2 l2' x Hne2 H2 Hx. split; [|done]. rewrite lookup_insert in H2.
    case_decide; [subst; injection H2 as <-; set_solver|].
    apply lookup_delete_Some in H2 as [_ H2].
    destruct (Ho h2 l2' x) as [Hx1 Hx2]; [done..|set_solver].
Qed.

Lemma list_cut_position_cuts_witness :
  reps (list_cut_position 200 100 2 demo_lists)
    (<[200 := [1] ++ [2]]> (<[100 := [3]]> {[100 := [1; 2; 3]; 200 := []]})).
Proof.
  apply (list_cut_position_cuts 200 100 [1] 2 [3] demo_lists
    {[100 := [1; 2; 3]; 200 := []]}); [exact demo_reps|by vm_compute|lia|].
  intros h' l' H. apply lookup_insert_Some in H as [[<- <-]|[_ H]].
  - right. intros Hin. set_solver.
  - apply lookup_singleton_Some in H as [<- <-]. by left.
Defined.

(** On a well-formed list the iteration macros terminate and visit exactly
    the entries, in order (and in reverse order), and the predicates and
    accessors read the ends of the sequence. *)
Theorem list_iteration_visits m W h l :
  reps m W → W !! h = Some l →
  (∀ fuel, (length l < fuel)%nat →
     list_for_each_entry fuel m h = Ret l ∧
     list_for_each_entry_reverse fuel m h = Ret (reverse l)) ∧
  list_first_entry_or_null m h = head l ∧
  list_empty m h = bool_decide (l = []) ∧
  list_is_singular m h = bool_decide (length l = 1%nat) ∧
  (∀ l1 x l2, l = l1 ++ x :: l2 → list_is_last m x h = bool_decide (l2 = [])).
Proof.
  intros HR H. split_and!.
  - intros fuel Hf. split; [by apply (list_for_each_entry_spec fuel m W)|].
    unfold list_for_each_entry_reverse, list_last_entry.
    rewrite (ring_prev m h l) by by apply HR.
    apply (list_for_each_reverse_spec fuel m W h l []); rewrite ?app_nil_r; done.
  - unfold list_first_entry_or_null, list_first_entry.
    rewrite (list_empty_spec m W h l), (ring_next m h l) by (done || by apply HR).
    destruct l; [done|]. by rewrite bool_decide_eq_false_2.
  - by apply (list_empty_spec m W).
  - by apply (list_is_singular_spec m W).
  - intros l1 x l2 ->. by apply (list_is_last_spec m W h l1).
Qed.

Lemma list_iteration_visits_witness :
  list_for_each_entry 4 demo_lists 100 = Ret [1; 2; 3] ∧
  list_is_last demo_lists 3 100 = true.
Proof.
  destruct (list_iteration_visits demo_lists {[100 := [1; 2; 3]; 200 := []]} 100
    [1; 2; 3]) as (Hit&_&_&_&Hl); [exact demo_reps|by vm_compute|].
  split; [apply Hit; cbn; lia|apply (Hl [1; 2] 3 []); reflexivity].
Defined.
