(* ===== verification/MM.v ===== *)
(** * Page-frame allocator: [src/mm.c] and [include/mm.h]

    A memory-management context ([mmc_t]) manages a range of physical frames
    with a table of one word per frame, kept in the memory it manages: the
    high 20 bits of the word are the frame's address, the low byte its
    "colour". White frames are free; the frames of one allocation have one
    colour, different from the colours of the two neighbouring frames, so that
    [free_frames] can recover the extent of an allocation from a pointer into
    it. *)
From S2P Require Import Prelude.

(** ** Constants and macros of [mm.h] *)

Definition PAGE_SIZE : Z := 0x1000.

Definition PAGE_MASK : Z := 0xFFFFF000.

Definition PAGE_ALIGN (addr : Z) : Z :=
  Z.land (u32 (addr + PAGE_SIZE - 1)) PAGE_MASK.

Definition PAGE_CONTAIN (mem : Z) : Z :=
  u32 (mem / PAGE_SIZE + (if mem `mod` PAGE_SIZE =? 0 then 0 else 1)).

Definition META_ENT_SIZE : Z := 4.

Definition META_ENT_NUM_P_PG : Z := PAGE_SIZE / META_ENT_SIZE.

Definition PGCOLOR_MASK : Z := 0xFF.

Definition PGCOLOR (x : Z) : Z := Z.land x PGCOLOR_MASK.

Definition PGCOLOR_XOR (a b : Z) : Z := Z.lxor a b.

Definition PGCOLOR_SHIFT (a : Z) : Z := a `mod` 3 + 1.

Definition PGCOLOR_RESET (a : Z) : Z := Z.land PAGE_MASK a.

Definition PG_WHITE : Z := 0x00.

Definition PG_RED : Z := 0x01.

Definition PG_GREEN : Z := 0x10.

Definition PG_BLUE : Z := 0x11.

(** ** The context *)

Record mmc_t : Type := Mmc {
  mm_base : Z;
  mm_length : Z;
  meta_base : Z;
  mframes : Z;
  meta_len : Z;
  frame_base : Z;
  nframes : Z;
  nfree : Z;
}.

Definition set_nfree (c : mmc_t) (n : Z) : mmc_t :=
  {| mm_base := mm_base c; mm_length := mm_length c;
     meta_base := meta_base c; mframes := mframes c; meta_len := meta_len c;
     frame_base := frame_base c; nframes := nframes c; nfree := n |}.

(** ** [MM_PAGE_TABLE]: initialisation *)

(** The first half of the function: the page counts of the managed range,
    [(basep, endp, pages)]. *)
Definition minit_pages (base length : Z) : Z * Z * Z :=
  let basep := PAGE_ALIGN base in
  let endp := Z.land (u32 (base + length)) PAGE_MASK in
  (basep, endp, u32 (endp - basep) / PAGE_SIZE).

(** The loop that fills the table. *)
Fixpoint minit_loop (fuel : nat) (m : mem) (meta mpg mlen metap basep : Z)
  : res mem :=
  match fuel with
  | O => Diverge
  | S fuel =>
      if metap <? u32 (meta + mpg * PAGE_SIZE) then
        if metap <? u32 (meta + mlen) then
          minit_loop fuel (<[metap := Z.lor basep PG_WHITE]> m) meta mpg mlen
            (u32 (metap + META_ENT_SIZE)) (u32 (basep + PAGE_SIZE))
        else
          minit_loop fuel (<[metap := 0]> m) meta mpg mlen
            (u32 (metap + META_ENT_SIZE)) basep
      else Ret m
  end.

(** [int MM_PAGE_TABLE(mmc_t *mmcp, void *base, _u32 length)] *)
Definition minit_pgtbl (m : mem) (mmcp : mmc_t) (base length : Z)
  : res (Z * mmc_t * mem) :=
  let '(basep, endp, pages) := minit_pages base length in
  let meta := basep in
  if pages <? 2 then Ret (1, mmcp, m)
  else
    let npg := u32 (pages * META_ENT_NUM_P_PG) / (META_ENT_NUM_P_PG + 1) in
    let mpg := u32 (pages - npg) in
    let mlen := u32 (npg * META_ENT_SIZE) in
    _ ← ASSERT (npg <=? u32 (mpg * META_ENT_NUM_P_PG))
          "mpg * META_ENT_NUM_P_PG >= npg";
    let basep := u32 (basep + mpg * PAGE_SIZE) in
    let c := {| mm_base := base; mm_length := length; meta_base := meta;
                mframes := mpg; meta_len := mlen; frame_base := basep;
                nframes := npg; nfree := npg |} in
    m' ← minit_loop (S (Z.to_nat (mpg * META_ENT_NUM_P_PG)))
           m meta mpg mlen meta basep;
    Ret (0, c, m').

(** ** Searching the table *)

Fixpoint find_seq_loop (fuel : nat) (m : mem) (npages lim cp pp seq_pages : Z)
  : res Z :=
  match fuel with
  | O => Diverge
  | S fuel =>
      if cp <? lim then
        if PGCOLOR (m cp) =? PG_WHITE then
          let pp := if seq_pages =? 0 then cp else pp in
          let seq_pages := u32 (seq_pages + 1) in
          if seq_pages =? npages then Ret pp
          else find_seq_loop fuel m npages lim (u32 (cp + META_ENT_SIZE)) pp
                 seq_pages
        else find_seq_loop fuel m npages lim (u32 (cp + META_ENT_SIZE)) pp 0
      else Ret NULL
  end.

(** [static _u32 *find_seq_pages(mmc_t *mmcp, _u32 npages)] *)
Definition find_seq_pages (m : mem) (mmcp : mmc_t) (npages : Z) : res Z :=
  if npages <=? nfree mmcp then
    find_seq_loop (S (Z.to_nat (meta_len mmcp / META_ENT_SIZE))) m npages
      (u32 (meta_base mmcp + meta_len mmcp))
      (meta_base mmcp) (meta_base mmcp) 0
  else Ret NULL.

Fixpoint find_page_loop (fuel : nat) (m : mem) (page lim p : Z) : res Z :=
  match fuel with
  | O => Diverge
  | S fuel =>
      if p <? lim then
        if Z.land PAGE_MASK (m p) =? page then Ret p
        else find_page_loop fuel m page lim (u32 (p + META_ENT_SIZE))
      else Ret NULL
  end.

(** [static _u32 *find_page_index(mmc_t *mmcp, void *mp)] *)
Definition find_page_index (m : mem) (mmcp : mmc_t) (mp : Z) : res Z :=
  find_page_loop (S (Z.to_nat (meta_len mmcp / META_ENT_SIZE))) m
    (Z.land PAGE_MASK mp) (u32 (meta_base mmcp + meta_len mmcp))
    (meta_base mmcp).

(** ** Allocation *)

(** The colour of a new allocation whose entries are [tp .. tp + npages]. *)
Definition alloc_marker (m : mem) (mmcp : mmc_t) (tp npages : Z) : res Z :=
  let tend := u32 (tp + META_ENT_SIZE * npages) in
  let fin := u32 (meta_base mmcp + META_ENT_SIZE * nframes mmcp) in
  if (tp =? meta_base mmcp) && (tend =? fin) then Ret PG_RED
  else if tp =? meta_base mmcp then
    Ret (PGCOLOR_SHIFT (PGCOLOR (m tend)))
  else if tend =? fin then
    Ret (PGCOLOR_SHIFT (PGCOLOR (m (u32 (tp - META_ENT_SIZE)))))
  else
    let right := PGCOLOR (m tend) in
    let left := PGCOLOR (m (u32 (tp - META_ENT_SIZE))) in
    _ ← ASSERT (negb (left =? PG_WHITE)) "left != PG_WHITE";
    if (right =? left) || (right =? PG_WHITE)
    then Ret (PGCOLOR_SHIFT left)
    else Ret (PGCOLOR_XOR left right).

Fixpoint draw_loop (fuel : nat) (m : mem) (tp npages marker n : Z) : res mem :=
  match fuel with
  | O => Diverge
  | S fuel =>
      if n <? npages then
        let a := u32 (tp + META_ENT_SIZE * n) in
        _ ← ASSERT (PGCOLOR (m a) =? PG_WHITE) "PGCOLOR(*(tp + n)) == PG_WHITE";
        draw_loop fuel (<[a := Z.lor (m a) marker]> m) tp npages marker
          (u32 (n + 1))
      else Ret m
  end.

(** [void *alloc_frames(mmc_t *mmcp, _u32 npages)] *)
Definition alloc_frames (m : mem) (mmcp : mmc_t) (npages : Z)
  : res (Z * mmc_t * mem) :=
  tp ← find_seq_pages m mmcp npages;
  if tp =? NULL then Ret (NULL, mmcp, m)
  else
    marker ← alloc_marker m mmcp tp npages;
    m' ← draw_loop (S (Z.to_nat npages)) m tp npages marker 0;
    Ret (Z.land PAGE_MASK (m' tp),
         set_nfree mmcp (u32 (nfree mmcp - npages)), m').

(** [void *alloc_frame(mmc_t *mmcp)] *)
Definition alloc_frame (m : mem) (mmcp : mmc_t) : res (Z * mmc_t * mem) :=
  alloc_frames m mmcp 1.

(** ** Release *)

Fixpoint left_edge_loop (fuel : nat) (m : mem) (mmcp : mmc_t)
    (marker left edge : Z) : res Z :=
  match fuel with
  | O => Diverge
  | S fuel =>
      if meta_base mmcp <=? left then
        if negb (PGCOLOR (m left) =? marker) then Ret edge
        else left_edge_loop fuel m mmcp marker (u32 (left - META_ENT_SIZE)) left
      else Ret edge
  end.

Fixpoint right_edge_loop (fuel : nat) (m : mem) (mmcp : mmc_t)
    (marker right edge : Z) : res Z :=
  match fuel with
  | O => Diverge
  | S fuel =>
      if right <? u32 (meta_base mmcp + META_ENT_SIZE * nframes mmcp) then
        if negb (PGCOLOR (m right) =? marker) then Ret edge
        else right_edge_loop fuel m mmcp marker (u32 (right + META_ENT_SIZE))
               right
      else Ret edge
  end.

Fixpoint reset_loop (fuel : nat) (m : mem) (left right : Z) : res mem :=
  match fuel with
  | O => Diverge
  | S fuel =>
      if left <=? right then
        reset_loop fuel (<[left := PGCOLOR_RESET (m left)]> m)
          (u32 (left + META_ENT_SIZE)) right
      else Ret m
  end.

(** [int free_frames(mmc_t *mmcp, void *mp)]. The colour is read through [tp]
    before [tp] is compared with [NULL]: for a pointer that is not managed the
    read is of address 0, which the kernel keeps mapped. *)
Definition free_frames (m : mem) (mmcp : mmc_t) (mp : Z)
  : res (Z * mmc_t * mem) :=
  tp ← find_page_index m mmcp mp;
  let marker := PGCOLOR (m tp) in
  if tp =? NULL then Ret (1, mmcp, m)
  else if marker =? PG_WHITE then Ret (1, mmcp, m)
  else
    let fuel := S (Z.to_nat (nframes mmcp)) in
    left ← left_edge_loop fuel m mmcp marker (u32 (tp - META_ENT_SIZE)) tp;
    right ← right_edge_loop fuel m mmcp marker tp tp;
    let c' := set_nfree mmcp
      (u32 (nfree mmcp + ((right - left) / META_ENT_SIZE + 1))) in
    m' ← reset_loop fuel m left right;
    Ret (0, c', m').
