(* ===== verification/MMProofs.v ===== *)
(** * The frame allocator is correct

    Theorems about [MM.v]: the table invariant and its preservation, the exact
    behaviour of allocation and release on every branch, and the refinement of
    an abstract first-fit allocator whose state is the set of live blocks. *)
From S2P Require Import Prelude MM.

(** ** Words of the table *)

Lemma land_page_mask x : is_u32 x → Z.land x PAGE_MASK = x - x `mod` 4096.
Proof. apply (land_high_ones x 12). lia. Qed.

Lemma pgcolor_mod x : PGCOLOR x = x `mod` 256.
Proof. apply (land_low_ones x 8). lia. Qed.

(** A table word is an aligned frame address plus a small colour. *)
Lemma pgcolor_entry a k : a `mod` 4096 = 0 → 0 ≤ k < 256 → PGCOLOR (a + k) = k.
Proof. intros. rewrite pgcolor_mod. dlia. Qed.

Lemma page_mask_entry a k :
  is_u32 a → a `mod` 4096 = 0 → 0 ≤ k < 256 → Z.land PAGE_MASK (a + k) = a.
Proof.
  intros [??] ??. rewrite Z.land_comm, land_page_mask; unfold is_u32; dlia.
Qed.

(** ** Colour functions

    The facts about runs and blocks only depend on the colour of each frame,
    so they are stated for a function [f] from frame numbers to colours and
    the number [N] of frames. *)
Section Colours.
Implicit Types (f g : Z → Z) (N s n i k : Z).

(** A run of [n] free frames from [s]. *)
Definition free_run f s n : Prop := ∀ j, s ≤ j < s + n → f j = 0.

(** A live block: a maximal run of one non-white colour. *)
Definition block f N s n : Prop :=
  0 ≤ s ∧ 0 < n ∧ s + n ≤ N ∧
  f s ≠ 0 ∧ (∀ j, s ≤ j < s + n → f j = f s) ∧
  (s = 0 ∨ f (s - 1) ≠ f s) ∧ (s + n = N ∨ f (s + n) ≠ f s).

(** Number of white frames below [n]. *)
Fixpoint whites f (p : nat) : Z :=
  match p with
  | O => 0
  | S p => whites f p + (if f (Z.of_nat p) =? 0 then 1 else 0)
  end.

Lemma whites_bound f (n : nat) : 0 ≤ whites f n ≤ Z.of_nat n.
Proof. induction n as [|n IH]; cbn; [lia|]. zbool; lia. Qed.

Lemma whites_ext f g (n : nat) :
  (∀ i, 0 ≤ i < Z.of_nat n → f i = g i) → whites f n = whites g n.
Proof.
  induction n as [|n IH]; intros H; cbn; [done|].
  rewrite IH by (intros; apply H; lia). rewrite (H (Z.of_nat n)) by lia. done.
Qed.

(** Turning the free frames of a range into used ones lowers the count by
    the part of the range below [n]. *)
Lemma whites_flip f g s l (n : nat) :
  0 ≤ s → 0 ≤ l → free_run f s l →
  (∀ j, s ≤ j < s + l → g j ≠ 0) →
  (∀ j, j < s ∨ s + l ≤ j → g j = f j) →
  whites g n = whites f n - Z.max 0 (Z.min (Z.of_nat n) (s + l) - s).
Proof.
  intros Hs Hl Hf Hg Hout.
  induction n as [|n IH]; cbn [whites]; [lia|]. rewrite IH.
  destruct (decide (s ≤ Z.of_nat n < s + l)) as [Hin|Hin].
  - rewrite (Hf (Z.of_nat n)) by done. specialize (Hg (Z.of_nat n) Hin).
    zbool; lia.
  - rewrite (Hout (Z.of_nat n)) by lia. zbool; lia.
Qed.

Lemma whites_run f s l (n : nat) :
  0 ≤ s → 0 ≤ l → s + l ≤ Z.of_nat n → free_run f s l → l ≤ whites f n.
Proof.
  intros Hs Hl Hn Hf.
  set (g := λ j, if decide (s ≤ j < s + l) then 1 else f j).
  pose proof (whites_bound g n) as Hb.
  rewrite (whites_flip f g s l) in Hb; try done; [lia|..];
    intros j Hj; unfold g; case_decide; lia.
Qed.

Lemma whites_all f (n : nat) :
  (∀ i, 0 ≤ i < Z.of_nat n → f i = 0) → whites f n = Z.of_nat n.
Proof.
  induction n as [|n IH]; intros H; cbn; [done|].
  rewrite IH by (intros; apply H; lia). rewrite (H (Z.of_nat n)) by lia.
  cbn. lia.
Qed.

(** Every used frame lies in a block. *)
Lemma extend_left f i :
  0 ≤ i → ∃ s, 0 ≤ s ≤ i ∧ (∀ j, s ≤ j ≤ i → f j = f i) ∧
               (s = 0 ∨ f (s - 1) ≠ f i).
Proof.
  intros Hi. pattern i. apply natlike_ind; [| |done].
  - exists 0. repeat split; try lia. intros j Hj. f_equal. lia.
  - intros x Hx (s & Hs & Hrun & Hl). unfold Z.succ.
    destruct (decide (f x = f (x + 1))) as [E|E].
    + exists s. repeat split; try lia.
      intros j Hj. destruct (decide (j = x + 1)) as [->|]; [done|].
      rewrite <- E. apply Hrun. lia.
    + exists (x + 1). repeat split; try lia.
      * intros j Hj. f_equal. lia.
      * right. by replace (x + 1 - 1) with x by lia.
Qed.

Lemma extend_right f N i :
  i < N → ∃ e, i < e ≤ N ∧ (∀ j, i ≤ j < e → f j = f i) ∧
               (e = N ∨ f e ≠ f i).
Proof.
  intros Hi. destruct (extend_left (λ x, f (N - 1 - x)) (N - 1 - i))
    as (s & Hs & Hrun & Hl); [lia|].
  exists (N - s). repeat split; try lia.
  - intros j Hj. specialize (Hrun (N - 1 - j)).
    replace (N - 1 - (N - 1 - j)) with j in Hrun by lia.
    replace (N - 1 - (N - 1 - i)) with i in Hrun by lia. apply Hrun. lia.
  - replace (N - 1 - (N - 1 - i)) with i in Hl by lia.
    replace (N - 1 - (s - 1)) with (N - s) in Hl by lia.
    destruct Hl; [left; lia|by right].
Qed.

Lemma block_cover f N i :
  0 ≤ i < N → f i ≠ 0 → ∃ s n, block f N s n ∧ s ≤ i < s + n.
Proof.
  intros Hi Hf.
  destruct (extend_left f i) as (s & Hs & Hl & Hls); [lia|].
  destruct (extend_right f N i) as (e & He & Hr & Hre); [lia|].
  assert (Hsi : f s = f i) by (apply Hl; lia).
  exists s, (e - s). unfold block. rewrite Hsi.
  replace (s + (e - s)) with e by lia. repeat split; try lia; try done.
  intros j Hj. destruct (decide (j ≤ i)); [apply Hl|apply Hr]; lia.
Qed.

(** Two blocks that share a frame are the same block. *)
Lemma block_inj f N s n s' n' i :
  block f N s n → block f N s' n' → s ≤ i < s + n → s' ≤ i < s' + n' →
  s = s' ∧ n = n'.
Proof.
  intros (?&?&?&?&A&L&R) (?&?&?&?&A'&L'&R') Hi Hi'.
  assert (E : f s = f s') by (rewrite <- (A i), <- (A' i) by lia; done).
  assert (s = s').
  { destruct (Z.lt_trichotomy s s') as [C|[C|C]]; [|done|].
    - specialize (A (s' - 1)). destruct L' as [|L']; [lia|].
      destruct L'. rewrite <- E. apply A. lia.
    - specialize (A' (s - 1)). destruct L as [|L]; [lia|].
      destruct L. rewrite E. apply A'. lia. }
  split; [done|]. subst s'.
  destruct (Z.lt_trichotomy n n') as [C|[C|C]]; [|done|].
  - destruct R as [|R]; [lia|]. destruct R. apply A'. lia.
  - destruct R' as [|R']; [lia|]. destruct R'. apply A. lia.
Qed.

Lemma block_meets_run f N s n s' n' i :
  block f N s n → free_run f s' n' → s ≤ i < s + n → s' ≤ i < s' + n' → False.
Proof.
  intros (?&?&?&Hnz&A&_) Hr Hi Hi'. apply Hnz.
  rewrite <- (A i) by lia. apply Hr. lia.
Qed.

(** Being a block only depends on the colours of the range and on whether
    its two neighbours have the colour of the range. *)
Lemma block_local f g N s n :
  (∀ j, s ≤ j < s + n → g j = f j) →
  (0 < s → s + n ≤ N → g (s - 1) = f s ↔ f (s - 1) = f s) →
  (0 ≤ s → s + n < N → g (s + n) = f s ↔ f (s + n) = f s) →
  block f N s n → block g N s n.
Proof.
  intros Hin HL HR (?&?&?&?&A&L&R). unfold block.
  assert (Es : g s = f s) by (apply Hin; lia). rewrite Es.
  repeat split; try done.
  - intros j Hj. rewrite Hin, A by done. done.
  - destruct (decide (s = 0)); [by left|right].
    rewrite HL by lia. destruct L; [lia|done].
  - destruct (decide (s + n = N)); [by left|right].
    rewrite HR by lia. destruct R; [lia|done].
Qed.

Section Paint.
Context (f g : Z → Z) (N s n k : Z).
Context (Hs : 0 ≤ s) (Hn : 0 < n) (HN : s + n ≤ N).
Context (Hf : free_run f s n) (Hk : k ≠ 0).
Context (Hin : ∀ j, s ≤ j < s + n → g j = k).
Context (Hout : ∀ j, 0 ≤ j < N → j < s ∨ s + n ≤ j → g j = f j).
Context (HL : s = 0 ∨ k ≠ f (s - 1)) (HR : s + n = N ∨ k ≠ f (s + n)).

Lemma paint_new : block g N s n.
Proof.
  unfold block. rewrite !(Hin s) by lia. repeat split; try lia.
  - intros j Hj. apply Hin. lia.
  - destruct (decide (s = 0)); [by left|right]. rewrite Hout; lia.
  - destruct (decide (s + n = N)); [by left|right]. rewrite Hout; lia.
Qed.

(** A range outside the painted one is a block before iff it is after. *)
Lemma paint_other s' n' :
  0 < n' → (∀ j, s' ≤ j < s' + n' → j < s ∨ s + n ≤ j) →
  block g N s' n' ↔ block f N s' n'.
Proof.
  intros Hn' Hd. pose proof (Hd s'). pose proof (Hd (s' + n' - 1)).
  split; intros Hb; pose proof Hb as (?&?&?&Hnz&A&_).
  - assert (Es : f s' = g s') by (symmetry; apply Hout; lia).
    revert Hb. apply block_local.
    + intros j Hj. specialize (Hd j Hj). rewrite Hout; lia.
    + intros. destruct (decide (s ≤ s' - 1 < s + n)).
      * rewrite (Hf (s' - 1)), (Hin (s' - 1)) by lia.
        replace s' with (s + n) in * by lia. lia.
      * rewrite (Hout (s' - 1)) by lia. done.
    + intros. destruct (decide (s ≤ s' + n' < s + n)).
      * rewrite (Hf (s' + n')), (Hin (s' + n')) by lia.
        rewrite <- (A (s' + n' - 1)), (Hout (s' + n' - 1)) in * by lia.
        replace (s' + n' - 1) with (s - 1) in * by lia. lia.
      * rewrite (Hout (s' + n')) by lia. done.
  - assert (Es : f s' = g s') by (symmetry; apply Hout; lia).
    revert Hb. apply block_local.
    + intros j Hj. specialize (Hd j Hj). apply Hout; lia.
    + intros. destruct (decide (s ≤ s' - 1 < s + n)).
      * rewrite (Hf (s' - 1)), (Hin (s' - 1)) by lia.
        replace s' with (s + n) in * by lia. lia.
      * rewrite (Hout (s' - 1)) by lia. done.
    + intros. destruct (decide (s ≤ s' + n' < s + n)).
      * rewrite (Hf (s' + n')), (Hin (s' + n')) by lia.
        rewrite <- (A (s' + n' - 1)) in * by lia.
        replace (s' + n' - 1) with (s - 1) in * by lia. lia.
      * rewrite (Hout (s' + n')) by lia. done.
Qed.

(** Painting a free run with a colour its neighbours do not have adds
    exactly one block. *)
Lemma block_paint s' n' :
  block g N s' n' ↔ (s' = s ∧ n' = n) ∨ block f N s' n'.
Proof.
  split.
  - intros Hb. pose proof Hb as (?&?&?&_).
    destruct (decide (s' < s + n ∧ s < s' + n')).
    + left. destruct (block_inj g N s n s' n' (Z.max s s')) as [-> ->];
        [apply paint_new|done|lia|lia|done].
    + right. apply paint_other; [lia|lia|done].
  - intros [[-> ->]|Hb]; [apply paint_new|]. pose proof Hb as (?&?&?&_).
    apply paint_other; [lia| |done].
    intros j Hj. destruct (decide (s ≤ j < s + n)); [|lia].
    exfalso. by eapply (block_meets_run f N s' n' s n j).
Qed.
End Paint.
End Colours.

(** ** The table invariant *)

(** Address of the table entry of frame [i], address and colour of frame [i]. *)
Definition ent (c : mmc_t) (i : Z) : Z := meta_base c + 4 * i.
Definition frame (c : mmc_t) (i : Z) : Z := frame_base c + 4096 * i.
Definition colour (m : mem) (c : mmc_t) (i : Z) : Z := PGCOLOR (m (ent c i)).

(** The managed range is page aligned, above page 0 and below 4 GB, its table
    precedes its frames and is large enough; the entry of frame [i] holds the
    address of the frame and one of the colours 0..3; [nfree] counts the white
    entries. *)
Record mm_geom (c : mmc_t) : Prop := {
  wf_meta : 0 < meta_base c;
  wf_meta_al : meta_base c `mod` 4096 = 0;
  wf_pos : 0 < nframes c;
  wf_meta_len : meta_len c = 4 * nframes c;
  wf_mframes : nframes c ≤ 1024 * mframes c;
  wf_frame_base : frame_base c = meta_base c + 4096 * mframes c;
  wf_top : frame_base c + 4096 * nframes c < 4294967296;
}.

Record mm_wf (m : mem) (c : mmc_t) : Prop := {
  wf_geom : mm_geom c;
  wf_entries : ∀ i, 0 ≤ i < nframes c → 0 ≤ m (ent c i) - frame c i ≤ 3;
  wf_nfree : nfree c = whites (colour m c) (Z.to_nat (nframes c));
}.

Lemma ent_eqb c i j : (ent c i =? ent c j) = (i =? j).
Proof. unfold ent. destruct (Z.eqb_spec i j); apply Z.eqb_eq || apply Z.eqb_neq; lia. Qed.

Section Geom.
Context (c : mmc_t) (Hg : mm_geom c).

Lemma wf_bounds i :
  0 ≤ i ≤ nframes c → is_u32 (ent c i) ∧ 0 < ent c i ∧
  is_u32 (frame c i) ∧ 0 < frame c i ∧ frame c i `mod` 4096 = 0.
Proof using Hg.
  intros Hi. destruct Hg. unfold is_u32, ent, frame. split_and!; dlia.
Qed.

Lemma wf_lim : u32 (meta_base c + meta_len c) = ent c (nframes c).
Proof using Hg.
  rewrite (wf_meta_len _ Hg). apply u32_small. apply wf_bounds.
  pose proof (wf_pos _ Hg). lia.
Qed.

Lemma wf_at s n : 0 ≤ s + n ≤ nframes c →
  u32 (ent c s + META_ENT_SIZE * n) = ent c (s + n).
Proof using Hg.
  intros Hi. replace (ent c s + META_ENT_SIZE * n) with (ent c (s + n))
    by (unfold ent, META_ENT_SIZE; lia).
  apply u32_small. apply wf_bounds. lia.
Qed.

Lemma wf_next i : 0 ≤ i < nframes c → u32 (ent c i + META_ENT_SIZE) = ent c (i + 1).
Proof using Hg. intros Hi. rewrite <- wf_at by lia. f_equal. Qed.

(** One entry below the table the address does not wrap. *)
Lemma wf_pred i : 0 ≤ i ≤ nframes c → u32 (ent c i - META_ENT_SIZE) = ent c (i - 1).
Proof using Hg.
  intros Hi. replace (ent c i - META_ENT_SIZE) with (ent c (i - 1))
    by (unfold ent, META_ENT_SIZE; lia).
  apply u32_small. destruct Hg. unfold is_u32, ent. dlia.
Qed.

Lemma wf_lim' : u32 (meta_base c + META_ENT_SIZE * nframes c) = ent c (nframes c).
Proof using Hg.
  rewrite <- wf_lim, (wf_meta_len _ Hg). done.
Qed.

Lemma wf_count i : 0 ≤ i ≤ nframes c → u32 i = i.
Proof using Hg. intros. destruct Hg. apply u32_small. unfold is_u32. lia. Qed.

Lemma wf_frame_entry i k :
  0 ≤ i < nframes c → 0 ≤ k < 256 →
  PGCOLOR (frame c i + k) = k ∧ Z.land PAGE_MASK (frame c i + k) = frame c i.
Proof using Hg.
  intros Hi Hk. destruct (wf_bounds i) as (_&_&?&_&?); [lia|].
  split; [by apply pgcolor_entry|by apply page_mask_entry].
Qed.
End Geom.

Section Wf.
Context (m : mem) (c : mmc_t) (Hwf : mm_wf m c).

Lemma wf_entry i :
  0 ≤ i < nframes c → m (ent c i) = frame c i + colour m c i.
Proof using Hwf.
  intros Hi. pose proof (wf_entries _ _ Hwf i Hi).
  destruct (wf_frame_entry c (wf_geom _ _ Hwf) i (m (ent c i) - frame c i))
    as [E _]; [done|lia|].
  rewrite Zplus_minus in E. unfold colour. rewrite E. lia.
Qed.

Lemma wf_colour i : 0 ≤ i < nframes c → 0 ≤ colour m c i ≤ 3.
Proof using Hwf.
  intros Hi. pose proof (wf_entries _ _ Hwf i Hi).
  rewrite (wf_entry i Hi) in H. lia.
Qed.

Let Hg : mm_geom c := wf_geom m c Hwf.

(** *** [find_seq_pages] is a first-fit search *)

Lemma find_seq_loop_spec fuel npages i sq pp :
  let N := nframes c in
  0 ≤ i ≤ N → N - i < Z.of_nat fuel → 0 ≤ sq ≤ i → sq < npages →
  is_u32 npages → (0 < sq → pp = ent c (i - sq)) →
  free_run (colour m c) (i - sq) sq →
  (i - sq = 0 ∨ colour m c (i - sq - 1) ≠ 0) →
  (∀ s, 0 ≤ s → s + npages ≤ i → ¬ free_run (colour m c) s npages) →
  (∃ s, 0 ≤ s ∧ s + npages ≤ N ∧ free_run (colour m c) s npages ∧
     (s = 0 ∨ colour m c (s - 1) ≠ 0) ∧
     (∀ s', 0 ≤ s' < s → ¬ free_run (colour m c) s' npages) ∧
     find_seq_loop fuel m npages (ent c N) (ent c i) pp sq = Ret (ent c s)) ∨
  ((∀ s, 0 ≤ s → s + npages ≤ N → ¬ free_run (colour m c) s npages) ∧
   find_seq_loop fuel m npages (ent c N) (ent c i) pp sq = Ret NULL).
Proof using Hwf.
  intros N. revert i sq pp.
  induction fuel as [|fuel IH]; intros i sq pp Hi Hfuel Hsq Hlt Hu Hpp Hrun Hl Hno;
    [lia|]. cbn [find_seq_loop].
  destruct (Z.ltb_spec (ent c i) (ent c N)) as [HiN|HiN]; last first.
  { right. split; [|done]. replace N with i by (unfold ent in HiN; lia). done. }
  assert (i < N) by (unfold ent in HiN; lia). clear HiN.
  rewrite (wf_next c Hg) by lia. fold (colour m c i).
  destruct (Z.eqb_spec (colour m c i) PG_WHITE) as [Hw|Hw]; unfold PG_WHITE in Hw.
  - assert (Hrun' : free_run (colour m c) (i - sq) (sq + 1)).
    { intros j Hj. destruct (decide (j = i)) as [->|]; [done|apply Hrun; lia]. }
    assert (Hpp' : (if sq =? 0 then ent c i else pp) = ent c (i - sq)).
    { destruct (Z.eqb_spec sq 0); [f_equal; lia|apply Hpp; lia]. }
    rewrite Hpp', u32_small by (unfold is_u32 in *; lia).
    destruct (Z.eqb_spec (sq + 1) npages) as [<-|Hne].
    + left. exists (i - sq). repeat split; try lia; try done.
      intros s' Hs'. apply Hno; lia.
    + apply IH; try done; try lia.
      * intros _. f_equal. lia.
      * by replace (i + 1 - (sq + 1)) with (i - sq) by lia.
      * by replace (i + 1 - (sq + 1)) with (i - sq) by lia.
      * intros s Hs Hs' Hr. destruct (decide (s + npages = i + 1)).
        -- destruct Hl as [Hl|Hl]; [lia|]. apply Hl, Hr. lia.
        -- apply (Hno s); [lia|lia|done].
  - apply IH; try done; try lia.
    + intros j Hj. lia.
    + right. by replace (i + 1 - 0 - 1) with i by lia.
    + intros s Hs Hs' Hr. destruct (decide (s + npages = i + 1)).
      * apply Hw, Hr. lia.
      * apply (Hno s); [lia|lia|done].
Qed.

(** No run of zero pages is ever found. *)
Lemma find_seq_zero fuel i sq pp :
  let N := nframes c in
  0 ≤ i ≤ N → N - i < Z.of_nat fuel → 0 ≤ sq ≤ i →
  find_seq_loop fuel m 0 (ent c N) (ent c i) pp sq = Ret NULL.
Proof using Hwf.
  intros N. revert i sq pp.
  induction fuel as [|fuel IH]; intros i sq pp Hi Hfuel Hsq; [lia|].
  cbn [find_seq_loop].
  destruct (Z.ltb_spec (ent c i) (ent c N)) as [HiN|HiN]; [|done].
  assert (i < N) by (unfold ent in HiN; lia).
  rewrite (wf_count c Hg (sq + 1)), (wf_next c Hg) by lia.
  destruct (Z.eqb_spec (sq + 1) 0); [lia|].
  case_match; apply IH; lia.
Qed.

Lemma find_seq_pages_spec npages :
  let N := nframes c in is_u32 npages →
  (∃ s, 0 ≤ s ∧ 0 < npages ∧ s + npages ≤ N ∧
     free_run (colour m c) s npages ∧
     (s = 0 ∨ colour m c (s - 1) ≠ 0) ∧
     (∀ s', 0 ≤ s' < s → ¬ free_run (colour m c) s' npages) ∧
     find_seq_pages m c npages = Ret (ent c s)) ∨
  ((npages = 0 ∨
    ∀ s, 0 ≤ s → s + npages ≤ N → ¬ free_run (colour m c) s npages) ∧
   find_seq_pages m c npages = Ret NULL).
Proof using Hwf.
  intros N Hu. pose proof (wf_pos _ Hg) as Hpos. unfold find_seq_pages.
  destruct (Z.leb_spec npages (nfree c)) as [Hfree|Hfree]; last first.
  { right. split; [right|done]. intros s Hs HsN Hr.
    apply (whites_run _ _ _ (Z.to_nat N)) in Hr; [|unfold is_u32 in *; lia..].
    rewrite (wf_nfree _ _ Hwf) in Hfree. fold N in Hfree. lia. }
  rewrite (wf_lim c Hg), (wf_meta_len _ Hg).
  replace (4 * nframes c / META_ENT_SIZE) with N
    by (unfold N, META_ENT_SIZE; dlia).
  replace (meta_base c) with (ent c 0) by (unfold ent; lia).
  destruct (decide (npages = 0)) as [->|Hnz].
  { right. split; [by left|]. apply find_seq_zero; lia. }
  destruct (find_seq_loop_spec (S (Z.to_nat N)) npages 0 0 (ent c 0))
    as [(s&?&?&?&?&?&E)|(?&E)]; unfold free_run, is_u32 in *; try lia; try done.
  - left. exists s. split_and!; try done; lia.
  - right. split; [by right|done].
Qed.

(** *** [alloc_frames] *)

(** The marker is a colour 1..3 that the neighbours of the run do not have,
    and the assertion on the left neighbour never fails. *)
Lemma alloc_marker_spec s n :
  let N := nframes c in
  0 ≤ s → 0 < n → s + n ≤ N → (s = 0 ∨ colour m c (s - 1) ≠ 0) →
  ∃ k, alloc_marker m c (ent c s) n = Ret k ∧ 1 ≤ k ≤ 3 ∧
    (s = 0 ∨ k ≠ colour m c (s - 1)) ∧ (s + n = N ∨ k ≠ colour m c (s + n)).
Proof using Hwf.
  intros N Hs Hn HN Hl. unfold alloc_marker.
  rewrite (wf_at c Hg) by lia. rewrite (wf_lim' c Hg).
  replace (meta_base c) with (ent c 0) by (unfold ent; lia).
  rewrite !ent_eqb. fold (colour m c (s + n)).
  assert (Hc : ∀ i, 0 ≤ i < N → colour m c i = 0 ∨ colour m c i = 1 ∨
                 colour m c i = 2 ∨ colour m c i = 3).
  { intros i Hi. pose proof (wf_colour i Hi). lia. }
  destruct (Z.eqb_spec s 0), (Z.eqb_spec (s + n) (nframes c)); cbn [andb].
  - exists PG_RED. unfold PG_RED. split_and!; [done|lia..].
  - destruct (Hc (s + n)) as [E|[E|[E|E]]]; [lia|rewrite E..];
      (eexists; split; [vm_compute; reflexivity|lia]).
  - rewrite (wf_pred c Hg) by lia. fold (colour m c (s - 1)).
    destruct (Hc (s - 1)) as [E|[E|[E|E]]]; [lia|lia|rewrite E..];
      (eexists; split; [vm_compute; reflexivity|lia]).
  - rewrite (wf_pred c Hg) by lia. fold (colour m c (s - 1)).
    destruct (Hc (s - 1)) as [E|[E|[E|E]]]; [lia|lia|..];
      destruct (Hc (s + n)) as [E'|[E'|[E'|E']]]; try lia; rewrite E, E';
      (eexists; split; [vm_compute; reflexivity|lia]).
Qed.
End Wf.

(** [m'] is [m] with [k] added to the entries of the frames [s .. s+n). *)
Definition painted (m m' : mem) (c : mmc_t) (s n k : Z) : Prop :=
  (∀ j, s ≤ j < s + n → m' (ent c j) = m (ent c j) + k) ∧
  (∀ a, (∀ j, s ≤ j < s + n → a ≠ ent c j) → m' a = m a).

Lemma draw_loop_spec fuel m c s n k i :
  mm_geom c → 0 ≤ s → s + n ≤ nframes c → 1 ≤ k ≤ 3 →
  0 ≤ i ≤ n → n - i < Z.of_nat fuel →
  (∀ j, s + i ≤ j < s + n → m (ent c j) = frame c j) →
  ∃ m', draw_loop fuel m (ent c s) n k i = Ret m' ∧
        painted m m' c (s + i) (n - i) k.
Proof.
  intros Hg Hs HN Hk. revert m i.
  induction fuel as [|fuel IH]; intros m i Hi Hfuel Hw; [lia|].
  cbn [draw_loop]. destruct (Z.ltb_spec i n) as [Hlt|Hlt]; last first.
  { exists m. split; [done|]. split; intros; lia || done. }
  rewrite (wf_at c Hg) by lia. rewrite (Hw (s + i)) by lia.
  destruct (wf_frame_entry c Hg (s + i) 0) as [Hcol _]; [lia|lia|].
  rewrite Z.add_0_r in Hcol. rewrite Hcol. cbn.
  rewrite (wf_count c Hg (i + 1)) by lia.
  destruct (wf_bounds c Hg (s + i)) as (_&_&_&_&Hal); [lia|].
  rewrite (lor_aligned _ _ 12) by (done || lia).
  edestruct (IH (<[ent c (s + i) := frame c (s + i) + k]> m) (i + 1))
    as (m' & E & Hin & Hout); [lia|lia| |].
  { intros j Hj. rewrite fn_lookup_insert_ne by (unfold ent; lia). apply Hw. lia. }
  exists m'. split; [exact E|]. split.
  - intros j Hj. destruct (decide (j = s + i)) as [->|].
    + rewrite Hout by (unfold ent; lia). rewrite fn_lookup_insert.
      by rewrite Hw by lia.
    + rewrite Hin by lia. rewrite fn_lookup_insert_ne by (unfold ent; lia). done.
  - intros a Ha. rewrite Hout by (intros; apply Ha; lia).
    apply fn_lookup_insert_ne. intros <-. apply (Ha (s + i)); [lia|done].
Qed.

Lemma painted_colour m m' c s n k :
  mm_wf m c → 0 ≤ s → s + n ≤ nframes c → free_run (colour m c) s n →
  1 ≤ k ≤ 3 → painted m m' c s n k →
  (∀ j, s ≤ j < s + n → colour m' c j = k) ∧
  (∀ j, j < s ∨ s + n ≤ j → colour m' c j = colour m c j).
Proof.
  intros Hwf Hs HN Hr Hk [Hin Hout]. split; intros j Hj; unfold colour.
  - rewrite Hin, (wf_entry m c Hwf), (Hr j Hj), Z.add_0_r by lia.
    apply wf_frame_entry; [apply Hwf|lia..].
  - rewrite Hout; [done|]. intros j' Hj'. unfold ent. lia.
Qed.

Lemma set_nfree_geom c n : mm_geom c → mm_geom (set_nfree c n).
Proof. intros []. by constructor. Qed.

Lemma painted_wf m m' c s n k :
  mm_wf m c → 0 ≤ s → 0 < n → s + n ≤ nframes c →
  free_run (colour m c) s n → 1 ≤ k ≤ 3 → painted m m' c s n k →
  mm_wf m' (set_nfree c (nfree c - n)).
Proof.
  intros Hwf Hs Hn HN Hr Hk Hp.
  destruct (painted_colour m m' c s n k) as [Hin Hout]; [done..|].
  constructor; [by apply set_nfree_geom, Hwf| |].
  - intros i Hi. change (ent (set_nfree c (nfree c - n)) i) with (ent c i).
    change (frame (set_nfree c (nfree c - n)) i) with (frame c i). cbn in Hi.
    destruct (decide (s ≤ i < s + n)) as [Hsi|Hsi].
    + rewrite (proj1 Hp) by done. rewrite (wf_entry m c Hwf), Hr by done. lia.
    + rewrite (proj2 Hp) by (unfold ent; lia). by apply Hwf.
  - cbn. change (colour m' (set_nfree c (nfree c - n))) with (colour m' c).
    rewrite (wf_nfree _ _ Hwf).
    rewrite (whites_flip (colour m c) (colour m' c) s n); try done; try lia.
    intros j Hj. rewrite Hin by done. lia.
Qed.

Lemma alloc_frames_cases m c n :
  let N := nframes c in mm_wf m c → is_u32 n →
  (∃ s k m', 0 ≤ s ∧ 0 < n ∧ s + n ≤ N ∧ free_run (colour m c) s n ∧
     (∀ s', 0 ≤ s' < s → ¬ free_run (colour m c) s' n) ∧
     1 ≤ k ≤ 3 ∧ (s = 0 ∨ k ≠ colour m c (s - 1)) ∧
     (s + n = N ∨ k ≠ colour m c (s + n)) ∧ painted m m' c s n k ∧
     alloc_frames m c n = Ret (frame c s, set_nfree c (nfree c - n), m')) ∨
  ((n = 0 ∨ ∀ s, 0 ≤ s → s + n ≤ N → ¬ free_run (colour m c) s n) ∧
   alloc_frames m c n = Ret (NULL, c, m)).
Proof.
  intros N Hwf Hu. pose proof (wf_geom _ _ Hwf) as Hg. unfold alloc_frames.
  destruct (find_seq_pages_spec m c Hwf n Hu)
    as [(s&Hs&Hn&HN&Hr&Hl&Hff&E)|[Hno E]]; rewrite E; cbn [mbind res_bind];
    [left|by right].
  destruct (wf_bounds c Hg s) as (_&Hp&_); [lia|].
  destruct (Z.eqb_spec (ent c s) NULL); [unfold NULL in *; lia|].
  destruct (alloc_marker_spec m c Hwf s n) as (k&Ek&Hk&HL&HR); [lia..|done|].
  rewrite Ek; cbn [mbind res_bind].
  destruct (draw_loop_spec (S (Z.to_nat n)) m c s n k 0) as (m'&Ed&Hpa);
    [done|lia..| |].
  { intros j Hj. rewrite (wf_entry m c Hwf), Hr by lia. lia. }
  rewrite Z.add_0_r, Z.sub_0_r in Hpa. rewrite Ed; cbn [mbind res_bind].
  exists s, k, m'. split_and!; try done; try lia.
  do 3 f_equal.
  - rewrite (proj1 Hpa s), (wf_entry m c Hwf), Hr, Z.add_0_r by lia.
    apply (wf_frame_entry c Hg); lia.
  - f_equal. apply u32_small. unfold is_u32. rewrite (wf_nfree _ _ Hwf).
    pose proof (whites_bound (colour m c) (Z.to_nat (nframes c))).
    pose proof (whites_run (colour m c) s n (Z.to_nat (nframes c))) as Hw.
    specialize (Hw ltac:(lia) ltac:(lia) ltac:(lia) Hr). destruct Hg. lia.
Qed.

(** ** [free_frames] *)

(** [m'] is [m] with the entries of the frames [s .. s+n) made white. *)
Definition erased (m m' : mem) (c : mmc_t) (s n : Z) : Prop :=
  (∀ j, s ≤ j < s + n → m' (ent c j) = frame c j) ∧
  (∀ a, (∀ j, s ≤ j < s + n → a ≠ ent c j) → m' a = m a).

Section Free.
Context (m : mem) (c : mmc_t) (Hwf : mm_wf m c).
Let N := nframes c.
Let Hg : mm_geom c := wf_geom m c Hwf.

Lemma find_page_loop_spec fuel page i :
  0 ≤ i ≤ N → N - i < Z.of_nat fuel →
  (∃ j, i ≤ j < N ∧ frame c j = page ∧
     find_page_loop fuel m page (ent c N) (ent c i) = Ret (ent c j)) ∨
  ((∀ j, i ≤ j < N → frame c j ≠ page) ∧
   find_page_loop fuel m page (ent c N) (ent c i) = Ret NULL).
Proof using Hwf.
  revert i. induction fuel as [|fuel IH]; intros i Hi Hfuel; [lia|].
  cbn [find_page_loop].
  destruct (Z.ltb_spec (ent c i) (ent c N)) as [HiN|HiN]; unfold ent in HiN;
    [|right; split; [intros; lia|done]].
  pose proof (wf_colour m c Hwf i ltac:(unfold N in *; lia)).
  rewrite (wf_entry m c Hwf) by (unfold N in *; lia).
  rewrite (proj2 (wf_frame_entry c Hg i (colour m c i) ltac:(unfold N in *; lia)
    ltac:(lia))).
  rewrite (wf_next c Hg) by (unfold N in *; lia).
  destruct (Z.eqb_spec (frame c i) page) as [<-|Hne].
  - left. exists i. split_and!; [lia..|done|done].
  - destruct (IH (i + 1)) as [(j&?&?&E)|[Hno E]]; [lia..| |]; rewrite E.
    + left. exists j. split_and!; [lia..|done|done].
    + right. split; [|done]. intros j Hj.
      destruct (decide (j = i)) as [->|]; [done|apply Hno; lia].
Qed.

Lemma find_page_index_spec mp :
  let page := Z.land PAGE_MASK mp in
  (∃ j, 0 ≤ j < N ∧ frame c j = page ∧
     find_page_index m c mp = Ret (ent c j)) ∨
  ((∀ j, 0 ≤ j < N → frame c j ≠ page) ∧ find_page_index m c mp = Ret NULL).
Proof using Hwf.
  intros page. unfold find_page_index.
  rewrite (wf_lim c Hg), (wf_meta_len _ Hg). pose proof (wf_pos _ Hg).
  replace (4 * nframes c / META_ENT_SIZE) with N
    by (unfold N, META_ENT_SIZE; dlia).
  replace (meta_base c) with (ent c 0) by (unfold ent; lia).
  apply find_page_loop_spec; unfold N in *; lia.
Qed.

Section Edges.
Context (s n : Z) (Hb : block (colour m c) N s n).
Let k := colour m c s.

Lemma left_edge_spec fuel i :
  s - 1 ≤ i < s + n → i + 1 < Z.of_nat fuel →
  left_edge_loop fuel m c k (ent c i) (ent c (i + 1)) = Ret (ent c s).
Proof using Hwf Hb.
  destruct Hb as (Hs&Hn&HN&Hk&A&L&R). revert i.
  induction fuel as [|fuel IH]; intros i Hi Hfuel; [lia|].
  cbn [left_edge_loop]. fold (colour m c i).
  destruct (Z.leb_spec (meta_base c) (ent c i)) as [Hle|Hle];
    unfold ent in Hle; last first.
  { replace (i + 1) with s by lia. done. }
  destruct (decide (i = s - 1)) as [->|].
  - destruct L as [|L]; [lia|]. fold k in L.
    destruct (Z.eqb_spec (colour m c (s - 1)) k); [done|]. cbn.
    by replace (s - 1 + 1) with s by lia.
  - rewrite (A i) by lia. fold k. rewrite Z.eqb_refl. cbn.
    rewrite (wf_pred c Hg) by (unfold N in *; lia).
    replace (ent c i) with (ent c (i - 1 + 1)) by (f_equal; lia).
    apply IH; lia.
Qed.

Lemma right_edge_spec fuel i edge :
  s ≤ i ≤ s + n → N - i < Z.of_nat fuel →
  (i = s + n → edge = ent c (i - 1)) →
  right_edge_loop fuel m c k (ent c i) edge = Ret (ent c (s + n - 1)).
Proof using Hwf Hb.
  destruct Hb as (Hs&Hn&HN&Hk&A&L&R). revert i edge.
  induction fuel as [|fuel IH]; intros i edge Hi Hfuel He; [lia|].
  cbn [right_edge_loop]. fold (colour m c i). rewrite (wf_lim' c Hg).
  destruct (decide (i = s + n)) as [->|].
  - rewrite He by done.
    destruct (Z.ltb_spec (ent c (s + n)) (ent c (nframes c))) as [Hlt|]; [|done].
    destruct R as [R|R]; [unfold ent, N in *; lia|]. fold k in R.
    by destruct (Z.eqb_spec (colour m c (s + n)) k).
  - destruct (Z.ltb_spec (ent c i) (ent c (nframes c))) as [Hlt|Hlt];
      [|unfold ent, N in *; lia].
    rewrite (A i) by lia. fold k. rewrite Z.eqb_refl. cbn.
    rewrite (wf_next c Hg) by (unfold N in *; lia).
    apply IH; [lia..|]. intros _. f_equal. lia.
Qed.
End Edges.
End Free.

Lemma reset_loop_spec fuel m c s i e :
  mm_geom c → 0 ≤ s ≤ i → e < nframes c → i ≤ e + 1 → e - i + 1 < Z.of_nat fuel →
  (∀ j, i ≤ j ≤ e → 0 ≤ m (ent c j) - frame c j ≤ 3) →
  ∃ m', reset_loop fuel m (ent c i) (ent c e) = Ret m' ∧
        erased m m' c i (e - i + 1).
Proof.
  intros Hg. revert m i.
  induction fuel as [|fuel IH]; intros m i Hs He Hi Hfuel Hw; [lia|].
  cbn [reset_loop]. destruct (Z.leb_spec (ent c i) (ent c e)) as [Hle|Hle];
    unfold ent in Hle; last first.
  { exists m. split; [done|]. split; intros; [lia|done]. }
  rewrite (wf_next c Hg) by lia.
  destruct (wf_frame_entry c Hg i (m (ent c i) - frame c i)) as [_ Er];
    [lia|specialize (Hw i); lia|].
  rewrite Zplus_minus in Er. unfold PGCOLOR_RESET. rewrite Er.
  destruct (IH (<[ent c i := frame c i]> m) (i + 1)) as (m'&E&Hin&Hout); [lia..| |].
  { intros j Hj. rewrite fn_lookup_insert_ne by (unfold ent; lia). apply Hw. lia. }
  exists m'. split; [exact E|]. split.
  - intros j Hj. destruct (decide (j = i)) as [->|]; [|apply Hin; lia].
    rewrite Hout by (unfold ent; lia). apply fn_lookup_insert.
  - intros a Ha. rewrite Hout by (intros; apply Ha; lia).
    apply fn_lookup_insert_ne. intros <-. apply (Ha i); [lia|done].
Qed.

Lemma erased_colour m m' c s n :
  mm_geom c → 0 ≤ s → s + n ≤ nframes c → erased m m' c s n →
  free_run (colour m' c) s n ∧
  (∀ j, j < s ∨ s + n ≤ j → colour m' c j = colour m c j).
Proof.
  intros Hg Hs HN [Hin Hout]. split; intros j Hj; unfold colour.
  - rewrite Hin, <- (Z.add_0_r (frame c j)) by done.
    apply wf_frame_entry; [done|lia..].
  - rewrite Hout; [done|]. intros j' Hj'. unfold ent. lia.
Qed.

Lemma erased_wf m m' c s n :
  mm_wf m c → block (colour m c) (nframes c) s n → erased m m' c s n →
  mm_wf m' (set_nfree c (nfree c + n)).
Proof.
  intros Hwf Hb He. pose proof Hb as (?&?&?&Hk&A&_).
  destruct (erased_colour m m' c s n) as [Hr Hout]; [apply Hwf|lia..|done|].
  constructor; [by apply set_nfree_geom, Hwf| |].
  - intros i Hi. change (ent (set_nfree c (nfree c + n)) i) with (ent c i).
    change (frame (set_nfree c (nfree c + n)) i) with (frame c i). cbn in Hi.
    destruct (decide (s ≤ i < s + n)) as [Hsi|Hsi].
    + rewrite (proj1 He) by done. lia.
    + rewrite (proj2 He) by (unfold ent; lia). by apply Hwf.
  - cbn. change (colour m' (set_nfree c (nfree c + n))) with (colour m' c).
    rewrite (wf_nfree _ _ Hwf).
    rewrite (whites_flip (colour m' c) (colour m c) s n); try done; try lia.
    + intros j Hj. by rewrite A.
    + intros j Hj. symmetry. by apply Hout.
Qed.

Lemma free_frames_cases m c mp :
  let N := nframes c in mm_wf m c →
  (∃ i s n m', 0 ≤ i < N ∧ frame c i = Z.land PAGE_MASK mp ∧
     block (colour m c) N s n ∧ s ≤ i < s + n ∧ erased m m' c s n ∧
     free_frames m c mp = Ret (0, set_nfree c (nfree c + n), m')) ∨
  ((∀ i, 0 ≤ i < N → colour m c i ≠ 0 → frame c i ≠ Z.land PAGE_MASK mp) ∧
   free_frames m c mp = Ret (1, c, m)).
Proof.
  intros N Hwf. pose proof (wf_geom _ _ Hwf) as Hg. unfold free_frames.
  destruct (find_page_index_spec m c Hwf mp) as [(i&Hi&Ei&E)|[Hno E]];
    rewrite E; cbn [mbind res_bind]; last first.
  { right. split; [|done]. intros i Hi _. by apply Hno. }
  destruct (wf_bounds c Hg i) as (_&Hp&_); [lia|].
  destruct (Z.eqb_spec (ent c i) NULL) as [|_]; [unfold NULL in *; lia|].
  fold (colour m c i). unfold PG_WHITE.
  destruct (Z.eqb_spec (colour m c i) 0) as [Hw|Hw].
  { right. split; [|done]. intros j Hj Hcj Ej. apply Hcj.
    replace j with i; [done|]. unfold frame in *. lia. }
  left. destruct (block_cover (colour m c) N i) as (s&n&Hb&Hsi); [done..|].
  pose proof Hb as (?&?&?&_&A&_). rewrite (A i) by done.
  rewrite (wf_pred c Hg) by lia.
  replace (left_edge_loop _ m c _ (ent c (i - 1)) (ent c i)) with (Ret (ent c s));
    last first.
  { symmetry. replace (ent c i) with (ent c (i - 1 + 1)) by (f_equal; lia).
    apply (left_edge_spec m c Hwf s n Hb); unfold N in *; lia. }
  cbn [mbind res_bind].
  rewrite (right_edge_spec m c Hwf s n Hb); [|unfold N in *; lia..].
  cbn [mbind res_bind].
  destruct (reset_loop_spec (S (Z.to_nat (nframes c))) m c s s (s + n - 1))
    as (m'&Er&He); [done|unfold N in *; lia..| |].
  { intros j Hj. apply Hwf. unfold N in *; lia. }
  rewrite Er; cbn [mbind res_bind].
  replace (s + n - 1 - s + 1) with n in He by lia.
  exists i, s, n, m'. split_and!; try done; try lia.
  do 4 f_equal. replace ((ent c (s + n - 1) - ent c s) / META_ENT_SIZE + 1) with n
    by (unfold ent, META_ENT_SIZE; dlia).
  pose proof (wf_nfree _ _ (erased_wf _ _ _ _ _ Hwf Hb He)) as Hc. cbn in Hc.
  rewrite Hc. pose proof (whites_bound (colour m' (set_nfree c (nfree c + n)))
    (Z.to_nat (nframes c))). apply u32_small. destruct Hg. unfold is_u32. lia.
Qed.

(** Allocation and release add and remove exactly one block. *)
Lemma painted_blocks m m' c s n k :
  mm_wf m c → 0 ≤ s → 0 < n → s + n ≤ nframes c →
  free_run (colour m c) s n → 1 ≤ k ≤ 3 →
  (s = 0 ∨ k ≠ colour m c (s - 1)) →
  (s + n = nframes c ∨ k ≠ colour m c (s + n)) → painted m m' c s n k →
  ∀ s' n', block (colour m' c) (nframes c) s' n' ↔
    (s' = s ∧ n' = n) ∨ block (colour m c) (nframes c) s' n'.
Proof.
  intros Hwf Hs Hn HN Hr Hk HL HR Hp.
  destruct (painted_colour m m' c s n k) as [Hin Hout]; [done..|].
  apply (block_paint (colour m c) (colour m' c) (nframes c) s n k); try done; try lia.
  intros j _. apply Hout.
Qed.

Lemma erased_blocks m m' c s n :
  mm_geom c → block (colour m c) (nframes c) s n → erased m m' c s n →
  ∀ s' n', block (colour m' c) (nframes c) s' n' ↔
    block (colour m c) (nframes c) s' n' ∧ ¬ (s' = s ∧ n' = n).
Proof.
  intros Hg Hb He s' n'. pose proof Hb as (?&?&?&Hk&A&L&R).
  destruct (erased_colour m m' c s n) as [Hr Hout]; [done|lia..|done|].
  assert (Hpaint := block_paint (colour m' c) (colour m c) (nframes c) s n
    (colour m c s) ltac:(lia) ltac:(lia) ltac:(lia) Hr Hk A).
  rewrite Hpaint; clear Hpaint.
  - split; [|tauto]. intros Hb'. split; [by right|]. intros [-> ->].
    destruct Hb' as (_&_&_&Hk'&_). apply Hk', Hr. lia.
  - intros j _ Hj. symmetry. by apply Hout.
  - destruct L as [|L]; [by left|right]. rewrite Hout by lia. done.
  - destruct R as [|R]; [by left|right]. rewrite Hout by lia. done.
Qed.

(** ** [MM_PAGE_TABLE] *)

Lemma minit_loop_spec fuel m meta mpg npg fb i :
  0 < meta → meta `mod` 4096 = 0 → 0 < npg ≤ 1024 * mpg →
  fb = meta + 4096 * mpg → fb + 4096 * npg < 4294967296 →
  0 ≤ i ≤ 1024 * mpg → 1024 * mpg - i < Z.of_nat fuel →
  ∃ m', minit_loop fuel m meta mpg (4 * npg) (meta + 4 * i)
          (fb + 4096 * Z.min i npg) = Ret m' ∧
    (∀ j, i ≤ j < npg → m' (meta + 4 * j) = fb + 4096 * j) ∧
    (∀ j, Z.max i npg ≤ j < 1024 * mpg → m' (meta + 4 * j) = 0) ∧
    (∀ a, a < meta + 4 * i ∨ meta + 4096 * mpg ≤ a → m' a = m a).
Proof.
  intros Hm Hal Hn -> Htop. revert m i.
  induction fuel as [|fuel IH]; intros m i Hi Hfuel; [lia|].
  cbn [minit_loop]. unfold PAGE_SIZE, META_ENT_SIZE.
  rewrite !u32_small by (unfold is_u32; lia).
  destruct (Z.ltb_spec (meta + 4 * i) (meta + mpg * 4096)); last first.
  { exists m. split_and!; [done|intros; lia..|done]. }
  replace (meta + 4 * i + 4) with (meta + 4 * (i + 1)) by lia.
  destruct (Z.ltb_spec (meta + 4 * i) (meta + 4 * npg)) as [Hlt|Hlt].
  - unfold PG_WHITE. rewrite Z.lor_0_r.
    replace (meta + 4096 * mpg + 4096 * Z.min i npg + 4096)
      with (meta + 4096 * mpg + 4096 * Z.min (i + 1) npg) by lia.
    rewrite u32_small by (unfold is_u32; lia).
    edestruct (IH (<[meta + 4 * i := meta + 4096 * mpg + 4096 * Z.min i npg]> m)
      (i + 1)) as (m'&E&Hin&Hz&Hout); [lia..|].
    exists m'. split_and!; [exact E| |intros; apply Hz; lia|].
    + intros j Hj. destruct (decide (j = i)) as [->|]; [|apply Hin; lia].
      rewrite Hout by lia. rewrite fn_lookup_insert. lia.
    + intros a Ha. rewrite Hout by lia. apply fn_lookup_insert_ne. lia.
  - edestruct (IH (<[meta + 4 * i := 0]> m) (i + 1)) as (m'&E&Hin&Hz&Hout); [lia..|].
    replace (Z.min i npg) with (Z.min (i + 1) npg) by lia.
    exists m'. split_and!; [exact E|intros; lia| |].
    + intros j Hj. destruct (decide (j = i)) as [->|]; [|apply Hz; lia].
      rewrite Hout by lia. apply fn_lookup_insert.
    + intros a Ha. rewrite Hout by lia. apply fn_lookup_insert_ne. lia.
Qed.

(** What [minit_pages] computes when the range does not wrap around. *)
Lemma minit_pages_spec base length :
  0 ≤ base → 0 ≤ length → base + length < 4294967296 - 4096 →
  let lo := (base + 4095) / 4096 in let hi := (base + length) / 4096 in
  lo ≤ hi → minit_pages base length = (4096 * lo, 4096 * hi, hi - lo).
Proof.
  intros Hb Hl Htop lo hi Hle. unfold minit_pages, PAGE_ALIGN, PAGE_SIZE.
  rewrite (u32_small (base + 0x1000 - 1)), (u32_small (base + length))
    by (unfold is_u32; lia).
  rewrite !land_page_mask by (unfold is_u32; lia).
  replace (base + 0x1000 - 1 - (base + 0x1000 - 1) `mod` 4096) with (4096 * lo)
    by (unfold lo; dlia).
  replace (base + length - (base + length) `mod` 4096) with (4096 * hi)
    by (unfold hi; dlia).
  f_equal. rewrite u32_small by (unfold is_u32, lo, hi in *; dlia).
  replace (4096 * hi - 4096 * lo) with ((hi - lo) * 4096) by lia.
  apply Z.div_mul. lia.
Qed.

Lemma minit_pgtbl_spec m c0 base length :
  0 < base → 0 ≤ length → base + length < 4294967296 - 4096 →
  let lo := (base + 4095) / 4096 in let hi := (base + length) / 4096 in
  lo + 2 ≤ hi →
  ∃ c m', minit_pgtbl m c0 base length = Ret (0, c, m') ∧ mm_wf m' c ∧
    meta_base c = 4096 * lo ∧ frame_base c + 4096 * nframes c = 4096 * hi ∧
    (∀ i, colour m' c i = 0 ∨ i < 0 ∨ nframes c ≤ i) ∧
    (∀ a, a < 4096 * lo ∨ frame_base c ≤ a → m' a = m a).
Proof.
  intros Hb Hl Htop lo hi Hle. unfold minit_pgtbl.
  rewrite minit_pages_spec by lia. fold lo hi.
  assert (0 < lo ∧ 4096 * hi < 4294967296) by (unfold lo, hi; dlia).
  destruct (Z.ltb_spec (hi - lo) 2); [lia|].
  unfold META_ENT_NUM_P_PG, PAGE_SIZE, META_ENT_SIZE.
  change (0x1000 / 4) with 1024.
  rewrite (u32_small ((hi - lo) * 1024)) by (unfold is_u32; lia).
  set (npg := (hi - lo) * 1024 / (1024 + 1)).
  assert (1 ≤ npg ∧ npg * 1025 ≤ (hi - lo) * 1024) as [??] by (unfold npg; dlia).
  set (mpg := hi - lo - npg). clearbody npg.
  rewrite !u32_small by (unfold is_u32, mpg in *; lia).
  destruct (Z.leb_spec npg (mpg * 1024)); [|unfold mpg in *; lia].
  cbn [ASSERT mbind res_bind].
  destruct (minit_loop_spec (S (Z.to_nat (mpg * 1024))) m (4096 * lo) mpg npg
    (4096 * lo + 4096 * mpg) 0) as (m'&E&Hin&Hz&Hout);
    [unfold mpg in *; dlia..|].
  rewrite Z.min_l, Z.mul_0_r, !Z.add_0_r in E by lia.
  rewrite (Z.mul_comm npg 4), (Z.mul_comm mpg 4096), E. cbn [mbind res_bind].
  eexists _, m'. split; [done|]. cbn [meta_base frame_base nframes].
  match goal with |- mm_wf m' ?d ∧ _ => set (c := d) end.
  assert (Hg : mm_geom c) by (constructor; cbn; unfold mpg in *; dlia).
  assert (Hc : ∀ i, 0 ≤ i < npg → m' (ent c i) = frame c i).
  { intros i Hi. unfold ent, frame; cbn. rewrite Hin; lia. }
  assert (Hcol : ∀ i, 0 ≤ i < npg → colour m' c i = 0).
  { intros i Hi. unfold colour. rewrite Hc, <- (Z.add_0_r (frame c i)) by done.
    apply wf_frame_entry; [done|cbn; lia..]. }
  split_and!; [|done|unfold mpg; lia| |].
  - constructor; [done| |].
    + intros i Hi. rewrite Hc by done. lia.
    + cbn. rewrite whites_all; [lia|]. intros i Hi. apply Hcol. lia.
  - intros i. destruct (decide (0 ≤ i < npg)); [left; auto|right; lia].
  - intros a Ha. apply Hout. lia.
Qed.

(** ** An abstract first-fit allocator

    The contract of the component: the state is the set of live blocks
    [(first frame, number of frames)] of a range of [N] frames at address
    [fb]. *)
Inductive frame_op : Type :=
  | OpAlloc (npages : Z)
  | OpFree (mp : Z).

Definition op_ok (op : frame_op) : Prop :=
  match op with OpAlloc n => is_u32 n | OpFree mp => is_u32 mp end.

(** The concrete operation an abstract one stands for. *)
Definition frame_run (op : frame_op) (m : mem) (c : mmc_t)
  : res (Z * mmc_t * mem) :=
  match op with
  | OpAlloc n => alloc_frames m c n
  | OpFree mp => free_frames m c mp
  end.

Definition covers (b : Z * Z) (i : Z) : Prop := b.1 ≤ i < b.1 + b.2.

Definition unused (L : gset (Z * Z)) (s n : Z) : Prop :=
  ∀ b i, b ∈ L → covers b i → ¬ s ≤ i < s + n.

Definition live_disjoint (L : gset (Z * Z)) : Prop :=
  ∀ b b' i, b ∈ L → b' ∈ L → covers b i → covers b' i → b = b'.

Section FrameSpec.
Context (N fb : Z).

Inductive frame_spec : gset (Z * Z) → frame_op → Z → gset (Z * Z) → Prop :=
  | fs_alloc L n s :
      0 < n → 0 ≤ s → s + n ≤ N → unused L s n →
      (∀ s', 0 ≤ s' < s → ¬ unused L s' n) →
      frame_spec L (OpAlloc n) (fb + 4096 * s) ({[(s, n)]} ∪ L)
  | fs_full L n :
      (n = 0 ∨ ∀ s, 0 ≤ s → s + n ≤ N → ¬ unused L s n) →
      frame_spec L (OpAlloc n) NULL L
  | fs_free L mp b i :
      b ∈ L → covers b i → fb + 4096 * i = Z.land PAGE_MASK mp →
      frame_spec L (OpFree mp) 0 (L ∖ {[b]})
  | fs_bad L mp :
      (∀ b i, b ∈ L → covers b i → fb + 4096 * i ≠ Z.land PAGE_MASK mp) →
      frame_spec L (OpFree mp) 1 L.

Inductive frame_trace : gset (Z * Z) → list frame_op → list Z →
    gset (Z * Z) → Prop :=
  | ft_nil L : frame_trace L [] [] L
  | ft_cons L op v L' ops vs L'' :
      frame_spec L op v L' → frame_trace L' ops vs L'' →
      frame_trace L (op :: ops) (v :: vs) L''.

Lemma frame_spec_disjoint L op v L' :
  frame_spec L op v L' → live_disjoint L → live_disjoint L'.
Proof.
  intros Hst HL b b' i Hb Hb' Hc Hc'.
  destruct Hst as [L0 n s ??? Hun _|L0 n _|L0 mp b0 i0 ???|L0 mp _]; cycle 1.
  { by apply (HL b b' i). }
  { apply (HL b b' i); set_solver. }
  { by apply (HL b b' i). }
  apply elem_of_union in Hb as [Hb%elem_of_singleton|Hb],
    Hb' as [Hb'%elem_of_singleton|Hb']; subst; try done.
  - by destruct (Hun b' i Hb' Hc').
  - by destruct (Hun b i Hb Hc).
  - by apply (HL b b' i).
Qed.

Lemma frame_trace_disjoint L ops vs L' :
  frame_trace L ops vs L' → live_disjoint L → live_disjoint L'.
Proof. induction 1; eauto using frame_spec_disjoint. Qed.
End FrameSpec.

(** The state the concrete table stands for. *)
Definition frame_sim (m : mem) (c : mmc_t) (L : gset (Z * Z)) : Prop :=
  mm_wf m c ∧ ∀ s n, (s, n) ∈ L ↔ block (colour m c) (nframes c) s n.

Lemma unused_free_run m c L s n :
  frame_sim m c L → 0 ≤ s → s + n ≤ nframes c →
  unused L s n ↔ free_run (colour m c) s n.
Proof.
  intros [Hwf HL] Hs HN. split.
  - intros Hun j Hj. destruct (decide (colour m c j = 0)) as [|Hc]; [done|].
    destruct (block_cover (colour m c) (nframes c) j) as (s'&n'&Hb&Hj');
      [lia|done|].
    apply HL in Hb. by destruct (Hun (s', n') j Hb Hj').
  - intros Hr [s' n'] i Hb Hc Hi. apply HL in Hb.
    by eapply (block_meets_run _ _ _ _ _ _ i Hb Hr).
Qed.

Lemma frame_step_refines m c L op :
  frame_sim m c L → op_ok op →
  ∃ v c' m' L', frame_run op m c = Ret (v, c', m') ∧
    frame_spec (nframes c) (frame_base c) L op v L' ∧ frame_sim m' c' L' ∧
    nframes c' = nframes c ∧ frame_base c' = frame_base c.
Proof.
  intros Hsim Hop. pose proof Hsim as [Hwf HL]. destruct op as [n|mp]; cbn in *.
  - destruct (alloc_frames_cases m c n) as
      [(s&k&m'&Hs&Hn&HN&Hr&Hff&Hk&Hl&Hr'&Hp&E)|[Hno E]]; [done..| |].
    + eexists _, _, m', ({[(s, n)]} ∪ L). split; [exact E|].
      split_and!; [|split|done..].
      * apply fs_alloc; try done; [by apply (unused_free_run m c)|].
        intros s' Hs' Hun. apply (Hff s' Hs'), (unused_free_run m c L); (done || lia).
      * by apply (painted_wf m m' c s n k).
      * intros s' n'. rewrite (painted_blocks m m' c s n k) by done.
        rewrite <- HL. set_solver.
    + eexists _, _, m, L. split; [exact E|]. split_and!; [|done..].
      apply fs_full. destruct Hno as [->|Hno]; [by left|right].
      intros s Hs HN Hun. apply (Hno s Hs HN). by apply (unused_free_run m c L).
  - destruct (free_frames_cases m c mp) as [(i&s&n&m'&Hi&Ei&Hb&Hsi&He&E)|[Hno E]];
      [done| |].
    + eexists _, _, m', (L ∖ {[(s, n)]}). split; [exact E|].
      split_and!; [|split|done..].
      * apply (fs_free _ _ _ _ (s, n) i); [by apply HL|done|done].
      * by apply (erased_wf m m' c s n).
      * intros s' n'. rewrite (erased_blocks m m' c s n) by (done || apply Hwf).
        rewrite <- HL. set_solver.
    + eexists _, _, m, L. split; [exact E|]. split_and!; [|done..].
      apply fs_bad. intros [s n] i Hb Hc. apply HL in Hb.
      pose proof Hb as (?&?&?&Hk&A&_). unfold covers in Hc; cbn in Hc.
      apply (Hno i); [lia|]. by rewrite A.
Qed.

(** Running a sequence of operations, collecting the returned values. *)
Fixpoint frame_runs (ops : list frame_op) (m : mem) (c : mmc_t)
  : res (list Z * mmc_t * mem) :=
  match ops with
  | [] => Ret ([], c, m)
  | op :: ops =>
      '(v, c', m') ← frame_run op m c;
      '(vs, c'', m'') ← frame_runs ops m' c';
      Ret (v :: vs, c'', m'')
  end.

Lemma frame_runs_refine ops m c L :
  frame_sim m c L → Forall op_ok ops →
  ∃ vs c' m' L', frame_runs ops m c = Ret (vs, c', m') ∧
    frame_trace (nframes c) (frame_base c) L ops vs L' ∧ frame_sim m' c' L'.
Proof.
  revert m c L. induction ops as [|op ops IH]; intros m c L Hsim Hok.
  { exists [], c, m, L. split_and!; [done|constructor|done]. }
  apply Forall_cons in Hok as [Hop Hok].
  destruct (frame_step_refines m c L op) as (v&c1&m1&L1&E1&Hs1&Hsim1&EN&Efb);
    [done..|].
  destruct (IH m1 c1 L1) as (vs&c2&m2&L2&E2&Ht&Hsim2); [done..|].
  exists (v :: vs), c2, m2, L2. cbn. rewrite E1; cbn. rewrite E2; cbn.
  split_and!; [done| |done]. rewrite EN, Efb in Ht. by econstructor.
Qed.

Lemma page_of_offset c s d :
  mm_geom c → 0 ≤ s → 0 ≤ d → s + d / 4096 < nframes c →
  Z.land PAGE_MASK (frame c s + d) = frame c (s + d / 4096).
Proof.
  intros Hg Hs Hd HN. pose proof (wf_top _ Hg). pose proof (wf_meta _ Hg).
  destruct (wf_bounds c Hg s) as (_&_&_&Hp&Hal); [dlia|].
  rewrite Z.land_comm, land_page_mask by (unfold is_u32, frame in *; dlia).
  unfold frame in *. dlia.
Qed.

Lemma set_nfree_id c n : n = nfree c → set_nfree c n = c.
Proof. intros ->. by destruct c. Qed.

(** Erasing what was painted gives the memory back. *)
Lemma erased_painted m m' m'' c s n k :
  mm_wf m c → 0 ≤ s → s + n ≤ nframes c → free_run (colour m c) s n →
  painted m m' c s n k → erased m' m'' c s n → ∀ a, m'' a = m a.
Proof.
  intros Hwf Hs HN Hr [_ Hout] [Hin' Hout'] a.
  destruct (decide (Exists (λ j, a = ent c j) (seqZ s n))) as [Hex|Hex].
  - apply Exists_exists in Hex as (j & Hj%elem_of_seqZ & ->).
    rewrite Hin' by lia. rewrite (wf_entry m c Hwf), Hr by lia. lia.
  - assert (Ha : ∀ j, s ≤ j < s + n → a ≠ ent c j).
    { intros j Hj ->. apply Hex, Exists_exists. exists j.
      split; [apply elem_of_seqZ; lia|done]. }
    by rewrite Hout', Hout.
Qed.

(** ** Properties *)

(** C1: starting from [MM_PAGE_TABLE] on a range that holds at least two whole
    pages, every sequence of allocations and releases runs to completion (no
    assertion fails, no search runs forever) and returns exactly the values
    the abstract first-fit allocator allows, ending in a state that represents
    the abstract one; live allocations never share a frame. *)
Theorem mm_refines_first_fit m c0 base length ops :
  0 < base → 0 ≤ length → base + length < 4294967296 - 4096 →
  (base + 4095) / 4096 + 2 ≤ (base + length) / 4096 → Forall op_ok ops →
  ∃ c1 m1 vs c2 m2 L,
    minit_pgtbl m c0 base length = Ret (0, c1, m1) ∧
    frame_runs ops m1 c1 = Ret (vs, c2, m2) ∧
    frame_trace (nframes c1) (frame_base c1) ∅ ops vs L ∧
    frame_sim m2 c2 L ∧ live_disjoint L.
Proof.
  intros Hb Hl Htop Hpg Hok.
  destruct (minit_pgtbl_spec m c0 base length) as (c1&m1&E1&Hwf&_&_&Hw&_); [done..|].
  assert (Hsim : frame_sim m1 c1 ∅).
  { split; [done|]. intros s n. split; [set_solver|].
    intros (?&?&?&Hk&_). destruct (Hw s) as [|[|]]; [done|lia..]. }
  destruct (frame_runs_refine ops m1 c1 ∅) as (vs&c2&m2&L&E2&Ht&Hsim2); [done..|].
  exists c1, m1, vs, c2, m2, L. split_and!; try done.
  apply (frame_trace_disjoint _ _ _ _ _ _ Ht). intros b b' i Hin. set_solver.
Qed.

Lemma mm_refines_first_fit_witness :
  let ops := [OpAlloc 2; OpAlloc 1; OpFree 0x102000] in
  ∃ c1 m1 vs c2 m2 L,
    minit_pgtbl (λ _, 0) (Mmc 0 0 0 0 0 0 0 0) 0x100000 0x6000 = Ret (0, c1, m1) ∧
    frame_runs ops m1 c1 = Ret (vs, c2, m2) ∧
    frame_trace (nframes c1) (frame_base c1) ∅ ops vs L ∧
    frame_sim m2 c2 L ∧ live_disjoint L.
Proof.
  intros ops. apply mm_refines_first_fit; [lia|lia|lia|vm_compute; discriminate|].
  repeat constructor; vm_compute; (discriminate || reflexivity).
Defined.

(** [alloc_frames] on a well-formed table: it returns, keeps the table
    well formed, and either hands out the lowest run of [n] free frames, which
    becomes one live block while every other word of memory is unchanged, or
    returns [NULL] and changes nothing, and then there is no such run (or [n]
    is 0). *)
Theorem alloc_frames_correct m c n :
  mm_wf m c → is_u32 n →
  ∃ p c' m', alloc_frames m c n = Ret (p, c', m') ∧ mm_wf m' c' ∧
    ((∃ s, p = frame c s ∧ p ≠ NULL ∧ 0 ≤ s ∧ s + n ≤ nframes c ∧
        free_run (colour m c) s n ∧
        (∀ s', 0 ≤ s' < s → ¬ free_run (colour m c) s' n) ∧
        c' = set_nfree c (nfree c - n) ∧
        (∀ s' n', block (colour m' c) (nframes c) s' n' ↔
           (s' = s ∧ n' = n) ∨ block (colour m c) (nframes c) s' n') ∧
        (∀ a, (∀ j, s ≤ j < s + n → a ≠ ent c j) → m' a = m a)) ∨
     (p = NULL ∧ c' = c ∧ m' = m ∧
        (n = 0 ∨ ∀ s, 0 ≤ s → s + n ≤ nframes c →
                      ¬ free_run (colour m c) s n))).
Proof.
  intros Hwf Hu. destruct (alloc_frames_cases m c n) as
    [(s&k&m'&Hs&Hn&HN&Hr&Hff&Hk&Hl&Hr'&Hp&E)|[Hno E]]; [done..| |].
  - eexists _, _, m'. split; [exact E|]. split; [by apply (painted_wf m m' c s n k)|].
    left. exists s. destruct (wf_bounds c (wf_geom _ _ Hwf) s) as (_&_&_&?&_); [lia|].
    split_and!; try done; [unfold NULL; lia| |apply Hp].
    by apply (painted_blocks m m' c s n k).
  - eexists _, _, m. split; [exact E|]. split; [done|by right].
Qed.

(** A table of four frames at [0x2000] with its meta page at [0x1000]. *)
Definition mm_demo : mmc_t * mem :=
  match minit_pgtbl (λ _, 0) (Mmc 0 0 0 0 0 0 0 0) 0x1000 0x5000 with
  | Ret (_, c, m) => (c, m)
  | _ => (Mmc 0 0 0 0 0 0 0 0, λ _, 0)
  end.

Lemma mm_demo_wf : mm_wf mm_demo.2 mm_demo.1.
Proof.
  destruct (minit_pgtbl_spec (λ _, 0) (Mmc 0 0 0 0 0 0 0 0) 0x1000 0x5000)
    as (c&m&E&Hwf&_); [lia..|vm_compute; discriminate|].
  unfold mm_demo. rewrite E. exact Hwf.
Qed.

Lemma alloc_frames_correct_witness :
  ∃ p c' m', alloc_frames mm_demo.2 mm_demo.1 2 = Ret (p, c', m') ∧
    mm_wf m' c'.
Proof.
  destruct (alloc_frames_correct mm_demo.2 mm_demo.1 2) as (p&c'&m'&E&Hwf&_);
    [exact mm_demo_wf|unfold is_u32; lia|].
  exists p, c', m'. split; [exact E|exact Hwf].
Defined.

(** Releasing an allocation through any pointer into it succeeds and
    restores the context and every word of memory to what they were before
    the allocation. *)
Theorem free_frames_undoes_alloc m c n p c' m' d :
  mm_wf m c → is_u32 n → alloc_frames m c n = Ret (p, c', m') → p ≠ NULL →
  0 ≤ d < 4096 * n →
  ∃ m'', free_frames m' c' (p + d) = Ret (0, c, m'') ∧ ∀ a, m'' a = m a.
Proof.
  intros Hwf Hu E Hnull Hd. destruct (alloc_frames_cases m c n) as
    [(s&k&m1&Hs&Hn&HN&Hr&Hff&Hk&Hl&Hr'&Hp&E1)|[Hno E1]];
    [done..| |]; rewrite E in E1; simplify_eq.
  pose proof (painted_wf m m1 c s n k Hwf Hs Hn HN Hr Hk Hp) as Hwf1.
  pose proof (painted_blocks m m1 c s n k Hwf Hs Hn HN Hr Hk Hl Hr' Hp) as Hbl.
  assert (Hb : block (colour m1 c) (nframes c) s n) by (apply Hbl; by left).
  assert (s ≤ s + d / 4096 < s + n) by dlia.
  assert (Epg := page_of_offset c s d (wf_geom _ _ Hwf) Hs ltac:(lia) ltac:(lia)).
  destruct (free_frames_cases m1 _ (frame c s + d) Hwf1)
    as [(i&s1&n1&m2&Hi&Ei&Hb1&Hi1&He&E2)|[Hno _]]; last first.
  { destruct (Hno (s + d / 4096)); [cbn; lia| |done].
    destruct Hb as (_&_&_&Hk0&A&_).
    change (colour m1 (set_nfree c (nfree c - n)) (s + d / 4096))
      with (colour m1 c (s + d / 4096)). by rewrite A. }
  change (frame (set_nfree c (nfree c - n)) i) with (frame c i) in Ei.
  assert (i = s + d / 4096) as -> by (rewrite Epg in Ei; unfold frame in Ei; lia).
  destruct (block_inj _ _ s1 n1 s n (s + d / 4096) Hb1 Hb) as [-> ->]; [done..|].
  exists m2. split.
  - rewrite E2. do 3 f_equal. destruct c. unfold set_nfree; cbn. f_equal. lia.
  - by apply (erased_painted m m1 m2 c s n k).
Qed.

Lemma free_frames_undoes_alloc_witness :
  ∃ p c' m' m'', alloc_frames mm_demo.2 mm_demo.1 2 = Ret (p, c', m') ∧
    free_frames m' c' (p + 0x1234) = Ret (0, mm_demo.1, m'') ∧
    ∀ a, m'' a = mm_demo.2 a.
Proof.
  assert (Hr : match alloc_frames mm_demo.2 mm_demo.1 2 with
               | Ret (q, _, _) => q | _ => 0 end = 0x2000)
    by (vm_compute; reflexivity).
  destruct (alloc_frames mm_demo.2 mm_demo.1 2) as [[[p c'] m']|msg|] eqn:E;
    [|discriminate Hr..].
  assert (Hp : p ≠ NULL) by (clear E; unfold NULL; lia). clear Hr.
  destruct (free_frames_undoes_alloc mm_demo.2 mm_demo.1 2 p c' m' 0x1234)
    as (m''&Ef&Ha); [exact mm_demo_wf|clear; unfold is_u32; lia|exact E|exact Hp|clear; lia|].
  exists p, c', m', m''. split; [reflexivity|]. split; [exact Ef|exact Ha].
Defined.

(** [free_frames] on a well-formed table: it returns; a pointer into a
    live block releases exactly that block, whole, and returns 0; any other
    pointer (outside the managed frames, or into a free one) returns 1 and
    changes nothing. *)
Theorem free_frames_correct m c mp :
  mm_wf m c →
  ∃ rc c' m', free_frames m c mp = Ret (rc, c', m') ∧ mm_wf m' c' ∧
    ((∃ i s n, rc = 0 ∧ frame c i = Z.land PAGE_MASK mp ∧
        block (colour m c) (nframes c) s n ∧ s ≤ i < s + n ∧
        c' = set_nfree c (nfree c + n) ∧
        (∀ s' n', block (colour m' c) (nframes c) s' n' ↔
           block (colour m c) (nframes c) s' n' ∧ ¬ (s' = s ∧ n' = n))) ∨
     (rc = 1 ∧ c' = c ∧ m' = m ∧
        ∀ i, 0 ≤ i < nframes c → frame c i = Z.land PAGE_MASK mp →
             colour m c i = PG_WHITE)).
Proof.
  intros Hwf. destruct (free_frames_cases m c mp)
    as [(i&s&n&m'&Hi&Ei&Hb&Hsi&He&E)|[Hno E]]; [done| |].
  - eexists _, _, m'. split; [exact E|]. split; [by apply (erased_wf m m' c s n)|].
    left. exists i, s, n. split_and!; try done; try lia.
    apply erased_blocks; [apply Hwf|done..].
  - eexists _, _, m. split; [exact E|]. split; [done|right].
    split_and!; try done. intros i Hi Ei.
    destruct (decide (colour m c i = 0)); [done|]. by destruct (Hno i).
Qed.

Lemma free_frames_correct_witness :
  ∃ rc c' m', free_frames mm_demo.2 mm_demo.1 0x3000 = Ret (rc, c', m') ∧
    mm_wf m' c'.
Proof.
  destruct (free_frames_correct mm_demo.2 mm_demo.1 0x3000) as (rc&c'&m'&E&Hwf&_);
    [exact mm_demo_wf|].
  exists rc, c', m'. split; [exact E|exact Hwf].
Defined.

(** [MM_PAGE_TABLE] on a range with at least two whole pages returns 0
    with a well-formed, all-white table at the first page boundary of the
    range; table and frames exactly fill the whole pages of the range, and
    nothing outside the table is written. *)
Theorem minit_pgtbl_correct m c0 base length :
  0 < base → 0 ≤ length → base + length < 4294967296 - 4096 →
  (base + 4095) / 4096 + 2 ≤ (base + length) / 4096 →
  ∃ c m', minit_pgtbl m c0 base length = Ret (0, c, m') ∧ mm_wf m' c ∧
    meta_base c = PAGE_ALIGN base ∧
    frame_base c + PAGE_SIZE * nframes c = Z.land (base + length) PAGE_MASK ∧
    nfree c = nframes c ∧
    (∀ i, 0 ≤ i < nframes c → colour m' c i = PG_WHITE) ∧
    (∀ a, a < meta_base c ∨ frame_base c ≤ a → m' a = m a).
Proof.
  intros Hb Hl Htop Hpg.
  destruct (minit_pgtbl_spec m c0 base length) as (c&m'&E&Hwf&Em&Ef&Hw&Hout);
    [done..|].
  assert (Hw' : ∀ i, 0 ≤ i < nframes c → colour m' c i = 0).
  { intros i Hi. destruct (Hw i) as [|[|]]; [done|lia..]. }
  exists c, m'. unfold PAGE_ALIGN, PAGE_SIZE, PG_WHITE. split_and!; try done.
  - rewrite Em, u32_small, land_page_mask by (unfold is_u32; lia). dlia.
  - rewrite Ef, land_page_mask by (unfold is_u32; lia). dlia.
  - rewrite (wf_nfree _ _ Hwf), whites_all; pose proof (wf_pos _ (wf_geom _ _ Hwf));
      [lia|]. intros i Hi. apply Hw'. lia.
  - intros a Ha. apply Hout. lia.
Qed.

Lemma minit_pgtbl_correct_witness :
  ∃ c m', minit_pgtbl (λ _, 7) (Mmc 0 0 0 0 0 0 0 0) 0x1234 0x9000 = Ret (0, c, m') ∧
    mm_wf m' c ∧ meta_base c = PAGE_ALIGN 0x1234.
Proof.
  destruct (minit_pgtbl_correct (λ _, 7) (Mmc 0 0 0 0 0 0 0 0) 0x1234 0x9000)
    as (c&m'&E&Hwf&Em&_); [lia..|vm_compute; discriminate|].
  exists c, m'. split; [exact E|]. split; [exact Hwf|exact Em].
Defined.

(** The guard against ranges of fewer than two pages does not see the
    smallest ranges: when the range crosses no page boundary the unsigned
    difference of its rounded ends wraps, [pages] is 1048575, and
    [MM_PAGE_TABLE] does not take the [return 1] branch. *)
Theorem minit_pgtbl_guard_wraps m c0 base length :
  0 ≤ base → 0 ≤ length → base + length < 4294967296 - 4096 →
  (base + length) / 4096 < (base + 4095) / 4096 →
  (minit_pages base length).2 = 1048575 ∧
  minit_pgtbl m c0 base length ≠ Ret (1, c0, m).
Proof.
  intros Hb Hl Htop Hlt.
  assert (Hp : (minit_pages base length).2 = 1048575).
  { unfold minit_pages, PAGE_ALIGN, PAGE_SIZE; cbn [snd].
    rewrite (u32_small (base + 0x1000 - 1)), (u32_small (base + length))
      by (unfold is_u32; lia).
    rewrite !land_page_mask by (unfold is_u32; lia). unfold u32. dlia. }
  split; [done|]. unfold minit_pgtbl.
  destruct (minit_pages base length) as [[basep endp] pages]; cbn in Hp; subst.
  destruct (Z.ltb_spec 1048575 2); [lia|].
  destruct (ASSERT _ _); cbn [mbind res_bind]; [|done..].
  by destruct (minit_loop _ _ _ _ _ _ _).
Qed.

Lemma minit_pgtbl_guard_wraps_witness :
  (minit_pages 0x1001 0x10).2 = 1048575 ∧
  minit_pgtbl (λ _, 0) (Mmc 0 0 0 0 0 0 0 0) 0x1001 0x10
    ≠ Ret (1, Mmc 0 0 0 0 0 0 0 0, λ _, 0).
Proof.
  apply minit_pgtbl_guard_wraps; [lia..|vm_compute; reflexivity].
Defined.
