(* ===== verification/FrameSource.v ===== *)
(** * What the page-frame allocator promises to its clients

    [kmalloc.c] and the paging code only ask [mm.c] for frames. [FrameSource]
    states what they rely on, and [mm_frames] discharges it with the allocator
    of [MM.v]: a request on a consistent allocator returns, and hands out
    either nothing or page-aligned, non-null frames that nobody holds. *)
From S2P Require Import Prelude MM MMProofs.

Class FrameSource (F : Type) : Type := {
  fs_alloc : F → Z → res (Z * F);
  fs_ok : F → Prop;
  (** the frame at this address is handed out *)
  fs_live : F → Z → Prop;
  fs_alloc_spec f n : fs_ok f → is_u32 n →
    ∃ p f', fs_alloc f n = Ret (p, f') ∧ fs_ok f' ∧
      ((p = NULL ∧ f' = f) ∨
       (0 < p ∧ p `mod` 4096 = 0 ∧ 0 < n ∧ p + 4096 * n < 4294967296 ∧
        (∀ i, 0 ≤ i < n → ¬ fs_live f (p + 4096 * i)) ∧
        (∀ a, fs_live f' a ↔ fs_live f a ∨ ∃ i, 0 ≤ i < n ∧ a = p + 4096 * i)));
}.

Definition mm_alloc (f : mmc_t * mem) (n : Z) : res (Z * (mmc_t * mem)) :=
  '(p, c', m') ← alloc_frames f.2 f.1 n; Ret (p, (c', m')).

Definition mm_live (f : mmc_t * mem) (a : Z) : Prop :=
  ∃ i, 0 ≤ i < nframes f.1 ∧ a = frame f.1 i ∧ colour f.2 f.1 i ≠ 0.

#[export] Program Instance mm_frames : FrameSource (mmc_t * mem) := {|
  fs_alloc := mm_alloc;
  fs_ok f := mm_wf f.2 f.1;
  fs_live := mm_live;
|}.
Next Obligation.
  intros [c m] n Hwf Hu; cbn in *. unfold mm_alloc; cbn.
  pose proof (wf_geom _ _ Hwf) as Hg.
  destruct (alloc_frames_cases m c n Hwf Hu) as
    [(s&k&m'&Hs&Hn&HN&Hr&_&Hk&_&_&Hp&->)|[_ ->]]; cbn; last first.
  { eexists _, _. split; [done|]. split; [done|by left]. }
  eexists _, _. split; [done|]. split; [by apply (painted_wf m m' c s n k)|right].
  destruct (painted_colour m m' c s n k) as [Hin Hout]; [done..|].
  destruct (wf_bounds c Hg s) as (_&_&_&?&?); [lia|].
  assert (Ef : ∀ i, frame c s + 4096 * i = frame c (s + i)) by (unfold frame; lia).
  split_and!; try done.
  - rewrite Ef. pose proof (wf_top _ Hg). unfold frame. lia.
  - intros i Hi (j&Hj&Ej&Hc). cbn in *. rewrite Ef in Ej.
    replace j with (s + i) in Hc by (unfold frame in Ej; lia). apply Hc, Hr. lia.
  - intros a. split.
    + intros (j&Hj&->&Hc); cbn in *. destruct (decide (s ≤ j < s + n)).
      * right. exists (j - s). split; [lia|]. rewrite Ef.
        change (frame (set_nfree c (nfree c - n)) j) with (frame c j). f_equal. lia.
      * left. exists j. split; [done|]. split; [done|]. cbn.
        rewrite <- Hout by lia. exact Hc.
    + intros [(j&Hj&->&Hc)|(i&Hi&->)]; cbn in *.
      * exists j. split; [done|]. split; [done|]. cbn.
        change (colour m' (set_nfree c (nfree c - n)) j) with (colour m' c j).
        destruct (decide (s ≤ j < s + n)); [by destruct Hc; apply Hr|].
        by rewrite Hout by lia.
      * exists (s + i). cbn. split; [lia|]. split; [by rewrite Ef|].
        change (colour m' (set_nfree c (nfree c - n)) (s + i)) with (colour m' c (s + i)).
        rewrite Hin by lia. lia.
Qed.
