(* ===== verification/Heap.v ===== *)
(** * Kernel heap: [src/kmalloc.c] and [include/heap.h]

    A heap hands out variable-size blocks of one contiguous area. Each block
    (free or reserved) is described by a [heap_block_t] in a metadata page:
    its base address, its size and a list head. The descriptors are on three
    lists: [free], [res] (reserved) and [avail] (unused descriptors).

    The model keeps the [base]/[size] fields of every descriptor address in
    [fields] and the three lists as sequences of descriptor addresses, changed
    only by the operations for which [ListProofs.v] shows that the functions
    of [list.h] implement them. Frames come from any [FrameSource]. *)
From S2P Require Import Prelude MM MMProofs FrameSource ListHead ListProofs.

(** [sizeof(heap_block_t)]: two words and a list head. *)
Definition HBLK_SIZE : Z := 16.

Definition HBLK_NUM_P_PG : Z := PAGE_SIZE / HBLK_SIZE.

Definition K_HEAP_SIZE : Z := 0x100000.

(** [heap_desc_t]; [heap_name] is only printed. *)
Record heap_desc_t : Type := HeapDesc {
  heap_start : Z;
  heap_end : Z;
  heap_free : Z;
  heap_res : Z;
  heap_avail : Z;
}.

Section Heap.
Context {F : Type} `{FrameSource F}.

(** The memory the heap code works on: the frame allocator, the descriptor
    fields and the lists. *)
Record kmem : Type := Kmem {
  k_frames : F;
  fields : Z → Z * Z;
  k_lists : gmap Z (list Z);
}.

Definition blk_base (st : kmem) (p : Z) : Z := (fields st p).1.
Definition blk_size (st : kmem) (p : Z) : Z := (fields st p).2.

Definition set_frames (f : F) (st : kmem) : kmem := Kmem f (fields st) (k_lists st).
Definition set_field (p : Z) (v : Z * Z) (st : kmem) : kmem :=
  Kmem (k_frames st) (<[p := v]> (fields st)) (k_lists st).
Definition on_lists (g : gmap Z (list Z) → gmap Z (list Z)) (st : kmem) : kmem :=
  Kmem (k_frames st) (fields st) (g (k_lists st)).

(** [bzero] of a metadata page. *)
Definition bzero_page (page : Z) (st : kmem) : kmem :=
  Kmem (k_frames st)
    (λ a, if (page <=? a) && (a <? page + PAGE_SIZE) then (0, 0) else fields st a)
    (k_lists st).

(** [for (; p < lim; p++) list_add_tail(&p->lh, avail)] *)
Fixpoint avail_fill (fuel : nat) (p lim avail : Z) (st : kmem) : res kmem :=
  match fuel with
  | O => Diverge
  | S fuel =>
      if p <? lim then
        avail_fill fuel (u32 (p + HBLK_SIZE)) lim avail
          (on_lists (w_add_tail p avail) st)
      else Ret st
  end.

(** [static int HEAP_FB(heap_desc_t *heap)] *)
Definition HEAP_FB (start end_ : Z) (st : kmem) : res (Z * option heap_desc_t * kmem) :=
  '(metap, f) ← fs_alloc (k_frames st) 1;
  let st := set_frames f st in
  if metap =? NULL then Ret (1, None, st)
  else
    let heap := HeapDesc start end_ metap (metap + HBLK_SIZE) (metap + 2 * HBLK_SIZE) in
    let p := metap + 3 * HBLK_SIZE in
    let st := on_lists (λ W, <[heap_free heap := []]> W) st in
    let st := on_lists (λ W, <[heap_res heap := []]> W) st in
    let st := on_lists (λ W, <[heap_avail heap := []]> W) st in
    let st := set_field p (start, u32 (end_ - start)) st in
    let st := on_lists (w_add p (heap_free heap)) st in
    let p := p + HBLK_SIZE in
    st ← avail_fill (S (Z.to_nat HBLK_NUM_P_PG)) p (u32 (metap + PAGE_SIZE))
           (heap_avail heap) st;
    Ret (0, Some heap, st).

(** [int init_heap(heap_desc_t *heap, mmc_t *mp, const char *name, size_t size)] *)
Definition init_heap (size : Z) (st : kmem) : res (Z * option heap_desc_t * kmem) :=
  let pages := PAGE_CONTAIN size in
  '(start, f) ← fs_alloc (k_frames st) pages;
  let st := set_frames f st in
  if start =? NULL then Ret (1, None, st)
  else HEAP_FB start (u32 (start + size)) st.

(** [void init_kheap()] *)
Definition init_kheap (st : kmem) : res (heap_desc_t * kmem) :=
  '(rc, heap, st) ← init_heap K_HEAP_SIZE st;
  match heap with
  | Some heap => if rc =? 0 then Ret (heap, st) else Panic "Kernel heap not set up"
  | None => Panic "Kernel heap not set up"
  end.

(** ** [__kmalloc] *)

(** The search of the free list: an exact fit ends it; otherwise the entry
    with the smallest excess [delta] is remembered in [found]. *)
Inductive scan_result : Type :=
  | ScanExact (hbp : Z)
  | ScanBest (found : Z).

Fixpoint kmalloc_scan (l : list Z) (st : kmem) (size delta found : Z) : scan_result :=
  match l with
  | [] => ScanBest found
  | hbp :: l =>
      if size <? blk_size st hbp then
        if u32 (blk_size st hbp - size) <? delta
        then kmalloc_scan l st size (u32 (blk_size st hbp - size)) hbp
        else kmalloc_scan l st size delta found
      else if blk_size st hbp =? size then ScanExact hbp
      else kmalloc_scan l st size delta found
  end.

(** The last part: carve [size] bytes off the front of [found] for the
    descriptor [hbp]. *)
Definition kmalloc_carve (heap : heap_desc_t) (size found hbp : Z) (st : kmem)
  : res (Z * kmem) :=
  let st := set_field hbp (blk_base st found, size) st in
  let st := set_field found
    (u32 (blk_base st found + size), u32 (blk_size st found - size)) st in
  let st := on_lists (w_move hbp (heap_res heap)) st in
  Ret (blk_base st hbp, st).

(** [static void *__kmalloc(size_t size, heap_desc_t *heap)] *)
Definition __kmalloc (size : Z) (heap : heap_desc_t) (st : kmem) : res (Z * kmem) :=
  match kmalloc_scan (w_seq (k_lists st) (heap_free heap)) st size 0xFFFFFFFF NULL with
  | ScanExact hbp =>
      let st := on_lists (w_move hbp (heap_res heap)) st in
      Ret (blk_base st hbp, st)
  | ScanBest found =>
      if found =? NULL then Ret (NULL, st)
      else
        match head (w_seq (k_lists st) (heap_avail heap)) with
        | Some hbp => kmalloc_carve heap size found hbp st
        | None =>
            '(metap, f) ← fs_alloc (k_frames st) 1;
            let st := set_frames f st in
            if metap =? NULL then Ret (NULL, st)
            else
              let st := bzero_page metap st in
              st ← avail_fill (S (Z.to_nat HBLK_NUM_P_PG)) metap
                     (u32 (metap + PAGE_SIZE)) (heap_avail heap) st;
              match head (w_seq (k_lists st) (heap_avail heap)) with
              | Some hbp => kmalloc_carve heap size found hbp st
              | None => Ret (NULL, st)
              end
        end
  end.

(** [void *kmalloc(size_t size)] *)
Definition kmalloc (size : Z) (heap : heap_desc_t) (st : kmem) : res (Z * kmem) :=
  _ ← ASSERT (negb (heap_start heap =? 0) && negb (heap_end heap =? 0))
        "kheap.start && kheap.end";
  __kmalloc size heap st.

(** ** [__kfree] *)

Fixpoint find_base (l : list Z) (st : kmem) (p : Z) : option Z :=
  match l with
  | [] => None
  | hbp :: l => if blk_base st hbp =? p then Some hbp else find_base l st p
  end.

(** The merge loop; [found] is itself on the list it walks. *)
Fixpoint kfree_merge (l : list Z) (found lp rp : Z) (st : kmem) : Z * Z * kmem :=
  match l with
  | [] => (lp, rp, st)
  | hbp :: l =>
      let '(lp, rp, st) :=
        if u32 (blk_base st hbp + blk_size st hbp) =? blk_base st found then
          (hbp, rp, set_field found (blk_base st hbp,
                      u32 (blk_size st found + blk_size st hbp)) st)
        else if blk_base st hbp =? u32 (blk_base st found + blk_size st found) then
          (lp, hbp, set_field found (blk_base st found,
                      u32 (blk_size st found + blk_size st hbp)) st)
        else (lp, rp, st) in
      if negb (lp =? NULL) && negb (rp =? NULL) then (lp, rp, st)
      else kfree_merge l found lp rp st
  end.

(** [static int __kfree(void *p, heap_desc_t *heap)] *)
Definition __kfree (p : Z) (heap : heap_desc_t) (st : kmem) : Z * kmem :=
  match find_base (w_seq (k_lists st) (heap_res heap)) st p with
  | None => (1, st)
  | Some found =>
      let st := on_lists (w_move found (heap_free heap)) st in
      let '(lp, rp, st) :=
        kfree_merge (w_seq (k_lists st) (heap_free heap)) found NULL NULL st in
      let st := if negb (lp =? NULL)
                then on_lists (w_move lp (heap_avail heap)) st else st in
      let st := if negb (rp =? NULL)
                then on_lists (w_move rp (heap_avail heap)) st else st in
      (0, st)
  end.

(** [int kfree(void *p)] *)
Definition kfree (p : Z) (heap : heap_desc_t) (st : kmem) : res (Z * kmem) :=
  _ ← ASSERT (negb (heap_start heap =? 0) && negb (heap_end heap =? 0))
        "kheap.start && kheap.end";
  Ret (__kfree p heap st).
End Heap.

Arguments kmem F : clear implicits.
