(* ===== verification/HeapProofs.v ===== *)
(** * The kernel heap is correct

    The free and reserved blocks of a heap always tile its area exactly; no two
    free blocks are adjacent; an allocation is a best fit, takes the front of
    the chosen block and overlaps no other; releasing it restores the free
    blocks. *)
From S2P Require Import Prelude MM MMProofs FrameSource ListHead ListProofs Heap.

(** ** Tilings of an address range *)

(** [l] lists regions [(base, size)], each starting where the previous ends. *)
Fixpoint contiguous (s : Z) (l : list (Z * Z)) (e : Z) : Prop :=
  match l with
  | [] => s = e
  | (b, n) :: l => b = s ∧ 0 < n ∧ contiguous (s + n) l e
  end.

(** The regions of [rs], in some order, fill [s, e) exactly. *)
Definition tiles (s : Z) (rs : list (Z * Z)) (e : Z) : Prop :=
  ∃ l, l ≡ₚ rs ∧ contiguous s l e.

#[export] Instance tiles_proper s :
  Proper ((≡ₚ) ==> (=) ==> iff) (tiles s).
Proof.
  intros rs rs' Hp e e' <-. unfold tiles. by setoid_rewrite Hp.
Qed.

Lemma contiguous_app s l1 l2 e :
  contiguous s (l1 ++ l2) e ↔ ∃ m, contiguous s l1 m ∧ contiguous m l2 e.
Proof.
  revert s. induction l1 as [|[b n] l1 IH]; intros s; cbn.
  - split; [eauto|]. by intros (m & -> & ?).
  - rewrite IH. naive_solver.
Qed.

Lemma contiguous_le s l e : contiguous s l e → s ≤ e.
Proof.
  revert s. induction l as [|[b n] l IH]; intros s; cbn; [lia|].
  intros (->&?&?%IH). lia.
Qed.

Lemma contiguous_bounds s l e b n :
  contiguous s l e → (b, n) ∈ l → s ≤ b ∧ 0 < n ∧ b + n ≤ e.
Proof.
  intros Hc (l1&l2&->)%list_elem_of_split.
  apply contiguous_app in Hc as (m&H1%contiguous_le&(->&?&H2%contiguous_le)). lia.
Qed.

Lemma tiles_bounds s rs e b n :
  tiles s rs e → (b, n) ∈ rs → s ≤ b ∧ 0 < n ∧ b + n ≤ e.
Proof. intros (l&Hp&Hc). rewrite <- Hp. by apply contiguous_bounds. Qed.

(** Two regions of a tiling are apart. *)
Lemma tiles_apart s rs e b n b' n' :
  tiles s ((b, n) :: (b', n') :: rs) e → b + n ≤ b' ∨ b' + n' ≤ b.
Proof.
  intros (l&Hp&Hc).
  assert (Hin : (b, n) ∈ l) by (rewrite Hp; left).
  apply list_elem_of_split in Hin as (l1&l2&->).
  rewrite <- Permutation_middle in Hp. apply Permutation_cons_inv in Hp.
  assert (Hin' : (b', n') ∈ l1 ++ l2) by (rewrite Hp; left).
  apply contiguous_app in Hc as (m&H1&(->&?&H2)).
  apply elem_of_app in Hin' as [Hin'|Hin'].
  - apply (contiguous_bounds _ _ _ b' n') in H1; [lia|done].
  - apply (contiguous_bounds _ _ _ b' n') in H2; [lia|done].
Qed.

Lemma tiles_split s rs e b n k :
  0 < k < n → tiles s ((b, n) :: rs) e → tiles s ((b, k) :: (b + k, n - k) :: rs) e.
Proof.
  intros Hk (l&Hp&Hc).
  assert (Hin : (b, n) ∈ l) by (rewrite Hp; left).
  apply list_elem_of_split in Hin as (l1&l2&->).
  rewrite <- Permutation_middle in Hp. apply Permutation_cons_inv in Hp.
  exists (l1 ++ (b, k) :: (b + k, n - k) :: l2). split.
  - rewrite <- Hp. by rewrite <- !Permutation_middle.
  - apply contiguous_app in Hc as (m&H1&(->&?&H2)).
    apply contiguous_app. exists m. split; [done|]. cbn.
    split_and!; try lia. by replace (m + k + (n - k)) with (m + n) by lia.
Qed.

Lemma tiles_join s rs e b n n' :
  tiles s ((b, n) :: (b + n, n') :: rs) e → tiles s ((b, n + n') :: rs) e.
Proof.
  intros (l&Hp&Hc).
  assert (Hin : (b, n) ∈ l) by (rewrite Hp; left).
  apply list_elem_of_split in Hin as (l1&l2&->).
  rewrite <- Permutation_middle in Hp. apply Permutation_cons_inv in Hp.
  assert (Hin' : (b + n, n') ∈ l1 ++ l2) by (rewrite Hp; left).
  apply contiguous_app in Hc as (m&H1&(->&?&H2)).
  apply elem_of_app in Hin' as [Hin'|Hin'].
  { apply (contiguous_bounds _ _ _ _ _ H1) in Hin'. lia. }
  destruct l2 as [|[b' k'] l2]; [set_solver|]. destruct H2 as (->&?&H2).
  apply elem_of_cons in Hin' as [[= <-]|Hin'].
  - exists (l1 ++ (m, n + n') :: l2). split.
    + rewrite <- Permutation_middle in Hp. apply Permutation_cons_inv in Hp.
      rewrite <- Hp. by rewrite <- Permutation_middle.
    + apply contiguous_app. exists m. split; [done|]. cbn.
      split_and!; try lia. by rewrite Z.add_assoc.
  - apply (contiguous_bounds _ _ _ _ _ H2) in Hin'. lia.
Qed.

(** ** Sequences of descriptors *)

Lemma w_seq_move x h W g :
  is_Some (W !! h) →
  w_seq (w_move x h W) g =
  (if decide (g = h) then [x] else []) ++ filter (λ y, y ≠ x) (w_seq W g).
Proof.
  intros [l Hl]. unfold w_move, w_add, w_del, w_seq.
  destruct (decide (g = h)) as [->|Hne].
  - by rewrite lookup_alter_eq, lookup_fmap, Hl.
  - rewrite lookup_alter_ne, lookup_fmap by done. by destruct (W !! g).
Qed.

Lemma w_seq_add_tail x h W g :
  is_Some (W !! h) →
  w_seq (w_add_tail x h W) g = w_seq W g ++ (if decide (g = h) then [x] else []).
Proof.
  intros [l Hl]. unfold w_add_tail, w_seq.
  destruct (decide (g = h)) as [->|Hne].
  - by rewrite lookup_alter_eq, Hl.
  - rewrite lookup_alter_ne by done. by rewrite app_nil_r.
Qed.

(** ** The abstract heap: two bags of regions

    [best_fit size F]: a smallest sufficient free region. [release]: what the
    free regions become when [(p, n)] is given back; its neighbours are merged
    with it. *)

Definition region : Type := Z * Z.

Definition best_fit (size : Z) (F : list region) (r : region) : Prop :=
  r ∈ F ∧ size ≤ r.2 ∧ ∀ r', r' ∈ F → size ≤ r'.2 → r.2 ≤ r'.2.

Definition remainder (size : Z) (r : region) : list region :=
  if size =? r.2 then [] else [(r.1 + size, r.2 - size)].

Definition ends_at (p : Z) (r : region) : Prop := r.1 + r.2 = p.
Definition starts_at (p : Z) (r : region) : Prop := r.1 = p.

#[export] Instance ends_at_dec p r : Decision (ends_at p r).
Proof. unfold ends_at. apply _. Defined.
#[export] Instance starts_at_dec p r : Decision (starts_at p r).
Proof. unfold starts_at. apply _. Defined.

Definition total (F : list region) : Z := foldr Z.add 0 F.*2.

Definition release (p n : Z) (F : list region) : list region :=
  let L := filter (ends_at p) F in
  let R := filter (starts_at (p + n)) F in
  (p - total L, total L + n + total R) ::
  filter (λ r, ¬ (ends_at p r ∨ starts_at (p + n) r)) F.

(** No two free regions touch. *)
Definition coalesced (F : list region) : Prop :=
  ∀ r r', r ∈ F → r' ∈ F → r.1 + r.2 ≠ r'.1.

#[export] Instance coalesced_proper : Proper ((≡ₚ) ==> iff) coalesced.
Proof. intros F F' Hp. unfold coalesced. by setoid_rewrite Hp. Qed.

#[export] Instance total_proper : Proper ((≡ₚ) ==> (=)) total.
Proof. unfold total. induction 1; cbn in *; lia. Qed.

#[export] Instance release_proper p n : Proper ((≡ₚ) ==> (≡ₚ)) (release p n).
Proof. intros F F' Hp. unfold release. by rewrite Hp. Qed.

Lemma tiles_unique_end s rs e r r' :
  tiles s (r :: rs) e → r' ∈ rs → r'.1 + r'.2 ≠ r.1 + r.2.
Proof.
  intros Ht Hin. destruct r as [b n], r' as [b' n']; cbn.
  apply list_elem_of_split in Hin as (l1&l2&->).
  assert (Hb' : 0 < n') by (eapply (tiles_bounds _ _ _ b' n'); [done|set_solver]).
  assert (Hb : 0 < n) by (eapply (tiles_bounds _ _ _ b n); [done|set_solver]).
  rewrite <- Permutation_middle in Ht. apply tiles_apart in Ht. lia.
Qed.

Lemma tiles_unique_start s rs e r r' :
  tiles s (r :: rs) e → r' ∈ rs → r'.1 ≠ r.1.
Proof.
  intros Ht Hin. destruct r as [b n], r' as [b' n']; cbn.
  apply list_elem_of_split in Hin as (l1&l2&->).
  assert (Hb' : 0 < n') by (eapply (tiles_bounds _ _ _ b' n'); [done|set_solver]).
  assert (Hb : 0 < n) by (eapply (tiles_bounds _ _ _ b n); [done|set_solver]).
  rewrite <- Permutation_middle in Ht. apply tiles_apart in Ht. lia.
Qed.

(** [release] with at most one neighbour on each side, the general case. *)
Definition opt_list {A} (o : option A) : list A := match o with Some a => [a] | None => [] end.

Lemma release_neighbours p n L R F :
  (∀ r, r ∈ F → ¬ ends_at p r ∧ ¬ starts_at (p + n) r) →
  (∀ r, r ∈ opt_list L → ends_at p r ∧ ¬ starts_at (p + n) r) →
  (∀ r, r ∈ opt_list R → starts_at (p + n) r ∧ ¬ ends_at p r) →
  release p n (opt_list L ++ opt_list R ++ F) =
  (p - total (opt_list L), total (opt_list L) + n + total (opt_list R)) :: F.
Proof.
  intros HF HL HR. unfold release. rewrite !filter_app.
  rewrite (filter_keeps (ends_at p) (opt_list L)) by naive_solver.
  rewrite (filter_drops (ends_at p) (opt_list R)) by naive_solver.
  rewrite (filter_drops (ends_at p) F) by naive_solver.
  rewrite (filter_drops (starts_at (p + n)) (opt_list L)) by naive_solver.
  rewrite (filter_keeps (starts_at (p + n)) (opt_list R)) by naive_solver.
  rewrite (filter_drops (starts_at (p + n)) F) by naive_solver.
  rewrite (filter_drops _ (opt_list L)) by naive_solver.
  rewrite (filter_drops _ (opt_list R)) by naive_solver.
  rewrite (filter_keeps _ F) by naive_solver.
  cbn [app]. by rewrite !app_nil_r.
Qed.

(** ** Giving [(p, n)] back to a tiled, coalesced heap

    [L] and [R] are its neighbours, [Fr] the other free regions, [Rs] the
    reserved ones. *)
Section Release.
Lemma opt_cases (o : option region) :
  (o = None ∧ total (opt_list o) = 0) ∨ ∃ r, r ∈ opt_list o.
Proof. destruct o as [r|]; [right; exists r; left|by left]. Qed.

Lemma total_nonneg (rs : list region) : (∀ r, r ∈ rs → 0 < r.2) → 0 ≤ total rs.
Proof.
  unfold total. induction rs as [|r rs IH]; intros Hs; cbn; [done|].
  assert (0 < r.2) by (apply Hs; left). specialize (IH ltac:(intros; apply Hs; by right)).
  lia.
Qed.

Context (s e p n : Z) (L R : option region) (Fr Rs : list region).
Context (Ht : tiles s ((p, n) :: (opt_list L ++ opt_list R ++ Fr) ++ Rs) e).
Context (Hc : coalesced (opt_list L ++ opt_list R ++ Fr)).
Context (HL : ∀ r, r ∈ opt_list L → ends_at p r).
Context (HR : ∀ r, r ∈ opt_list R → starts_at (p + n) r).
Context (HLn : L = None → ∀ r, r ∈ Fr → ¬ ends_at p r).
Context (HRn : R = None → ∀ r, r ∈ Fr → ¬ starts_at (p + n) r).

Definition merged_region : region :=
  (p - total (opt_list L), total (opt_list L) + n + total (opt_list R)).

Lemma release_sizes :
  0 < n ∧ ∀ q, q ∈ opt_list L ++ opt_list R ++ Fr → 0 < q.2.
Proof.
  split; [eapply (tiles_bounds _ _ _ p n Ht); left|].
  intros [b k] Hq. eapply (tiles_bounds _ _ _ b k Ht). right. apply elem_of_app. by left.
Qed.

Lemma release_left_ends r : r ∈ opt_list L → r.1 = p - total (opt_list L).
Proof.
  intros Hr. specialize (HL r Hr). unfold ends_at in HL.
  destruct L as [l|]; [|set_solver]. apply list_elem_of_singleton in Hr as ->.
  unfold total; cbn. lia.
Qed.

Lemma release_right_ends r : r ∈ opt_list R → r.1 + r.2 = p + n + total (opt_list R).
Proof.
  intros Hr. specialize (HR r Hr). unfold starts_at in HR.
  destruct R as [l|]; [|set_solver]. apply list_elem_of_singleton in Hr as ->.
  unfold total; cbn. lia.
Qed.

(** Nothing else touches the returned region. *)
Lemma release_apart q : q ∈ Fr → ¬ ends_at p q ∧ ¬ starts_at (p + n) q.
Proof.
  intros Hq. pose proof Ht as T. unfold ends_at, starts_at in *. split.
  - destruct L as [l|]; [|by apply HLn].
    assert (Hl : l.1 + l.2 = p) by (apply HL; left).
    cbn in T. rewrite Permutation_swap in T.
    apply (tiles_unique_end _ _ _ _ q) in T; [lia|]. right. rewrite !elem_of_app. tauto.
  - destruct R as [r|]; [|by apply HRn].
    assert (Hr : r.1 = p + n) by (apply HR; left).
    assert (Hp : (p, n) :: (opt_list L ++ [r] ++ Fr) ++ Rs
                 ≡ₚ r :: (p, n) :: (opt_list L ++ Fr) ++ Rs).
    { cbn [app]. rewrite <- (Permutation_middle (opt_list L) Fr r). apply Permutation_swap. }
    cbn [opt_list] in T. rewrite Hp in T.
    apply (tiles_unique_start _ _ _ _ q) in T; [lia|]. right. rewrite !elem_of_app. tauto.
Qed.

Lemma release_tiles : tiles s (merged_region :: Fr ++ Rs) e.
Proof.
  pose proof Ht as T. unfold merged_region, ends_at, starts_at, total in *.
  destruct L as [[lb ln]|], R as [[rb rn]|]; cbn in *;
    try (specialize (HL (lb, ln) ltac:(left)) as EL; cbn in EL);
    try (specialize (HR (rb, rn) ltac:(left)) as ER; cbn in ER); subst.
  - rewrite (Permutation_swap (lb, ln)) in T. apply tiles_join in T.
    replace (lb + ln + n) with (lb + (ln + n)) in T by lia. apply tiles_join in T.
    replace (lb + ln - (ln + 0)) with lb by lia.
    by replace (ln + 0 + n + (rn + 0)) with (ln + n + rn) by lia.
  - rewrite (Permutation_swap (lb, ln)) in T. apply tiles_join in T.
    replace (lb + ln - (ln + 0)) with lb by lia.
    by replace (ln + 0 + n + 0) with (ln + n) by lia.
  - apply tiles_join in T. replace (p - 0) with p by lia.
    by replace (0 + n + (rn + 0)) with (n + rn) by lia.
  - replace (p - 0) with p by lia. by replace (0 + n + 0) with n by lia.
Qed.

Lemma release_coalesced : coalesced (merged_region :: Fr).
Proof.
  assert (Hend : ∀ q, q ∈ Fr → q.1 + q.2 ≠ merged_region.1).
  { intros q Hq. cbn. destruct (opt_cases L) as [[EL E0]|[l Hl]].
    - rewrite E0, Z.sub_0_r. by apply release_apart.
    - rewrite <- (release_left_ends l Hl). apply Hc; rewrite !elem_of_app; tauto. }
  assert (Hstart : ∀ q, q ∈ Fr → merged_region.1 + merged_region.2 ≠ q.1).
  { intros q Hq. cbn. replace (_ + _) with (p + n + total (opt_list R)) by lia.
    destruct (opt_cases R) as [[ER E0]|[r Hr]].
    - rewrite E0, Z.add_0_r. intros E. by apply (release_apart q Hq).
    - rewrite <- (release_right_ends r Hr). apply Hc; rewrite !elem_of_app; tauto. }
  assert (Hr : 0 < merged_region.2).
  { destruct release_sizes as [Hn Hs]. cbn.
    assert (0 ≤ total (opt_list L)) by (apply total_nonneg; intros; apply Hs; set_solver).
    assert (0 ≤ total (opt_list R)) by (apply total_nonneg; intros; apply Hs; set_solver).
    lia. }
  intros q q' Hq Hq'.
  apply elem_of_cons in Hq as [->|Hq]; apply elem_of_cons in Hq' as [->|Hq'];
    [lia|by apply Hstart|by apply Hend|apply Hc; rewrite !elem_of_app; tauto].
Qed.

Lemma release_merges : release p n (opt_list L ++ opt_list R ++ Fr) = merged_region :: Fr.
Proof.
  destruct release_sizes as [Hn Hs].
  apply release_neighbours; [apply release_apart| |].
  - intros q Hq. assert (Hs' : 0 < q.2) by (apply Hs, elem_of_app; by left).
    specialize (HL q Hq). split; [done|]. unfold ends_at, starts_at in *. lia.
  - intros q Hq. assert (Hs' : 0 < q.2) by (apply Hs; rewrite !elem_of_app; tauto).
    specialize (HR q Hq). split; [done|]. unfold ends_at, starts_at in *. lia.
Qed.
End Release.

(** ** The invariant *)

Section HeapInvariant.
Context {F : Type} `{FS : FrameSource F}.
Implicit Types (st : kmem F) (heap : heap_desc_t).

Definition frees heap st : list Z := w_seq (k_lists st) (heap_free heap).
Definition reserved heap st : list Z := w_seq (k_lists st) (heap_res heap).
Definition avails heap st : list Z := w_seq (k_lists st) (heap_avail heap).
Definition heads heap : list Z := [heap_free heap; heap_res heap; heap_avail heap].
Definition nodes heap st : list Z := frees heap st ++ reserved heap st ++ avails heap st.

(** A descriptor or a list head: an aligned address in a metadata page that
    the heap obtained from the frame allocator. *)
Definition desc_at (f : F) (x : Z) : Prop :=
  0 < x < 4294967296 ∧ x `mod` 16 = 0 ∧ fs_live f (x - x `mod` 4096).

(** The lists: three heads, all descriptors distinct. *)
Record heap_shape heap st : Prop := {
  sh_lists : ∀ h, h ∈ heads heap → is_Some (k_lists st !! h);
  sh_nodup : NoDup (heads heap ++ nodes heap st);
  sh_desc : ∀ x, x ∈ heads heap ++ nodes heap st → desc_at (k_frames st) x;
  sh_frames : fs_ok (k_frames st);
}.

Definition free_regions heap st : list region := fields st <$> frees heap st.
Definition res_regions heap st : list region := fields st <$> reserved heap st.

Record heap_wf heap st : Prop := {
  wf_shape :> heap_shape heap st;
  wf_tiles : tiles (heap_start heap) (free_regions heap st ++ res_regions heap st)
               (heap_end heap);
  wf_coalesced : coalesced (free_regions heap st);
  wf_area : 0 < heap_start heap ∧ heap_end heap < 4294967296;
}.

Lemma shape_nodup heap st :
  heap_shape heap st →
  NoDup (frees heap st) ∧ NoDup (reserved heap st) ∧ NoDup (avails heap st) ∧
  (∀ x, x ∈ frees heap st → (x ∉ reserved heap st) ∧ x ∉ avails heap st) ∧
  (∀ x, x ∈ reserved heap st → x ∉ avails heap st).
Proof.
  intros [_ Hnd _ _]. unfold nodes in Hnd.
  apply NoDup_app in Hnd as (_&_&Hnd). apply NoDup_app in Hnd as (?&Hd&Hnd).
  apply NoDup_app in Hnd as (?&Hd'&?). set_solver.
Qed.

Lemma shape_heads heap st :
  heap_shape heap st →
  heap_free heap ≠ heap_res heap ∧ heap_free heap ≠ heap_avail heap ∧
  heap_res heap ≠ heap_avail heap.
Proof.
  intros [_ Hnd _ _]. apply NoDup_app in Hnd as (Hnd&_&_). unfold heads in Hnd.
  rewrite !NoDup_cons in Hnd. set_solver.
Qed.

(** The three sequences after [list_move]. *)
Lemma seqs_move heap st x h :
  heap_shape heap st → h ∈ heads heap →
  let st' := on_lists (w_move x h) st in
  let part g l := (if decide (g = h) then [x] else []) ++ filter (λ y, y ≠ x) l in
  frees heap st' = part (heap_free heap) (frees heap st) ∧
  reserved heap st' = part (heap_res heap) (reserved heap st) ∧
  avails heap st' = part (heap_avail heap) (avails heap st).
Proof.
  intros Hs Hh st' part. unfold frees, reserved, avails, st'; cbn [on_lists k_lists].
  rewrite !w_seq_move by (by apply (sh_lists _ _ Hs)). done.
Qed.

Lemma shape_perm heap st st' :
  heap_shape heap st →
  (∀ h, h ∈ heads heap → is_Some (k_lists st' !! h)) →
  nodes heap st' ≡ₚ nodes heap st → k_frames st' = k_frames st →
  heap_shape heap st'.
Proof.
  intros Hs Hl Hp Hf. split; [done| | |rewrite Hf; apply Hs].
  - rewrite Hp. apply Hs.
  - intros x. rewrite Hp, Hf. apply Hs.
Qed.

Lemma w_move_dom x h W g : is_Some (W !! h) → is_Some (W !! g) → is_Some (w_move x h W !! g).
Proof.
  intros [l Hl] [l' Hl']. unfold w_move, w_add, w_del.
  destruct (decide (g = h)) as [->|Hne].
  - rewrite lookup_alter_eq, lookup_fmap, Hl. eauto.
  - rewrite lookup_alter_ne, lookup_fmap, Hl' by done. eauto.
Qed.

Lemma filter_part_perm (x : Z) (l : list Z) :
  NoDup l → x ∈ l → [x] ++ filter (λ y, y ≠ x) l ≡ₚ l.
Proof. intros. cbn. symmetry. by apply filter_ne_perm. Qed.

(** A moved descriptor stays one of the heap's. *)
Lemma shape_move heap st x h :
  heap_shape heap st → h ∈ heads heap → x ∈ nodes heap st →
  heap_shape heap (on_lists (w_move x h) st).
Proof.
  intros Hs Hh Hx. apply (shape_perm heap st); [done| | |done].
  { intros g Hg. cbn. apply w_move_dom; by apply (sh_lists _ _ Hs). }
  destruct (seqs_move heap st x h Hs Hh) as (E1&E2&E3). cbv zeta in *.
  unfold nodes at 1. rewrite E1, E2, E3. clear E1 E2 E3.
  destruct (shape_heads _ _ Hs) as (H1&H2&H3).
  pose proof (sh_nodup _ _ Hs) as Hnd. apply NoDup_app in Hnd as (_&_&Hnd).
  transitivity (x :: filter (λ y, y ≠ x) (nodes heap st)); last first.
  { symmetry. by apply filter_ne_perm. }
  unfold nodes, heads in *. rewrite !filter_app.
  rewrite !elem_of_cons in Hh.
  destruct Hh as [->|[->|[->|[]%not_elem_of_nil]]];
    repeat (case_decide; try congruence); cbn [app];
    rewrite <- ?Permutation_middle; done.
Qed.

Lemma seqs_set_field heap st p v :
  frees heap (set_field p v st) = frees heap st ∧
  reserved heap (set_field p v st) = reserved heap st ∧
  avails heap (set_field p v st) = avails heap st.
Proof. done. Qed.

Lemma shape_set_field heap st p v :
  heap_shape heap st → heap_shape heap (set_field p v st).
Proof. intros [????]. by split. Qed.

(** A region read through an updated field. *)
Lemma fields_fmap_ne st (g : Z → Z * Z) (l : list Z) :
  (∀ x, x ∈ l → g x = fields st x) → g <$> l = fields st <$> l.
Proof. intros Hg. apply list_fmap_ext. intros i x Hx%list_elem_of_lookup_2. by apply Hg. Qed.

(** The bounds of every block. *)
Lemma block_bounds heap st x :
  heap_wf heap st → x ∈ frees heap st ∨ x ∈ reserved heap st →
  0 < blk_base st x ∧ 0 < blk_size st x ∧
  blk_base st x + blk_size st x < 4294967296.
Proof.
  intros Hw Hx. destruct (wf_area _ _ Hw) as [? ?].
  pose proof (tiles_bounds _ _ _ (blk_base st x) (blk_size st x) (wf_tiles _ _ Hw)) as Hb.
  enough (Hin : (blk_base st x, blk_size st x) ∈ free_regions heap st ++ res_regions heap st)
    by (specialize (Hb Hin); lia).
  unfold free_regions, res_regions. rewrite <- fmap_app.
  apply list_elem_of_fmap. exists x. split; [by unfold blk_base, blk_size; destruct (fields st x)|].
  set_solver.
Qed.

(** ** Growing the pool of descriptors *)

(** [n] descriptors from address [p] on. *)
Definition descs (p : Z) (n : nat) : list Z := (λ i, p + 16 * i) <$> seqZ 0 (Z.of_nat n).

Lemma elem_of_descs x p n : x ∈ descs p n ↔ ∃ i, 0 ≤ i < Z.of_nat n ∧ x = p + 16 * i.
Proof.
  unfold descs. rewrite list_elem_of_fmap. setoid_rewrite elem_of_seqZ. naive_solver lia.
Qed.

Lemma NoDup_descs p n : NoDup (descs p n).
Proof. apply NoDup_fmap_2; [intros i j ?; lia|apply NoDup_seqZ]. Qed.

Lemma descs_S p n : descs p (S n) = p :: descs (p + 16) n.
Proof.
  unfold descs. rewrite seqZ_cons by lia. cbn. f_equal; [lia|].
  replace (Z.pred (Z.of_nat (S n))) with (Z.of_nat n) by lia.
  rewrite <- (fmap_add_seqZ 1 0). rewrite <- list_fmap_compose.
  apply list_fmap_ext. intros; cbn. lia.
Qed.

(** The descriptors of a metadata page are in that page. *)
Lemma desc_page p x n (k : nat) :
  0 < p → p `mod` 4096 = 0 → p + 4096 < 4294967296 → x ∈ descs (p + 16 * Z.of_nat k) n →
  Z.of_nat k + Z.of_nat n ≤ 256 →
  0 < x < 4294967296 ∧ x `mod` 16 = 0 ∧ x - x `mod` 4096 = p ∧ p + 16 * Z.of_nat k ≤ x.
Proof. intros ??? (i&Hi&->)%elem_of_descs ?. dlia. Qed.

Lemma avail_fill_spec n : ∀ fuel p lim h st,
  is_Some (k_lists st !! h) → 0 ≤ p → p + 16 * Z.of_nat n = lim → is_u32 lim →
  (n < fuel)%nat →
  ∃ st', avail_fill fuel p lim h st = Ret st' ∧
    k_frames st' = k_frames st ∧ fields st' = fields st ∧
    (∀ g, is_Some (k_lists st !! g) → is_Some (k_lists st' !! g)) ∧
    (∀ g, w_seq (k_lists st') g =
          w_seq (k_lists st) g ++ (if decide (g = h) then descs p n else [])).
Proof.
  induction n as [|n IH]; intros [|fuel] p lim h st Hh Hp Hlim Hu Hf; try lia; cbn [avail_fill].
  - replace (p <? lim) with false by (symmetry; apply Z.ltb_ge; lia).
    eexists. split_and!; try done. intros g. case_decide; by rewrite app_nil_r.
  - replace (p <? lim) with true by (symmetry; apply Z.ltb_lt; lia).
    rewrite u32_small by (unfold is_u32, HBLK_SIZE in *; lia).
    destruct (IH fuel (p + HBLK_SIZE) lim h (on_lists (w_add_tail p h) st))
      as (st'&->&Hfr&Hfi&Hd&Hseq); [|unfold HBLK_SIZE; lia|unfold HBLK_SIZE; lia|done|lia|].
    { cbn. unfold w_add_tail. rewrite lookup_alter_eq. destruct Hh as [l ->]. eauto. }
    exists st'. split_and!; [done..| |].
    + intros g Hg. apply Hd. cbn. unfold w_add_tail.
      destruct (decide (g = h)) as [->|].
      * rewrite lookup_alter_eq. destruct Hh as [l ->]. eauto.
      * by rewrite lookup_alter_ne.
    + intros g. rewrite Hseq. cbn. rewrite w_seq_add_tail by done.
      rewrite descs_S. unfold HBLK_SIZE. case_decide; [|by rewrite !app_nil_r].
      by rewrite <- app_assoc.
Qed.

(** A new metadata page of descriptors: [bzero], then all of them on [avail]. *)
Lemma shape_grow heap st p f :
  heap_shape heap st → fs_alloc (k_frames st) 1 = Ret (p, f) → p ≠ NULL →
  ∃ st', avail_fill (S (Z.to_nat HBLK_NUM_P_PG)) p (u32 (p + PAGE_SIZE)) (heap_avail heap)
           (bzero_page p (set_frames f st)) = Ret st' ∧
    heap_shape heap st' ∧ k_frames st' = f ∧
    frees heap st' = frees heap st ∧ reserved heap st' = reserved heap st ∧
    avails heap st' = avails heap st ++ descs p 256 ∧
    (∀ x, x ∈ nodes heap st → fields st' x = fields st x).
Proof.
  intros Hs Ha Hp. destruct (fs_alloc_spec (k_frames st) 1 (sh_frames _ _ Hs))
    as (p'&f'&Ha'&Hok&[[-> _]|(H0&Hm&_&Htop&Hnew&Hlive)]); [done| |].
  { rewrite Ha in Ha'. by injection Ha' as -> ->. }
  rewrite Ha in Ha'. injection Ha' as <- <-.
  assert (Hout : ∀ x, x ∈ heads heap ++ nodes heap st → x - x `mod` 4096 ≠ p).
  { intros x Hx E. apply (Hnew 0 ltac:(lia)). replace (p + 4096 * 0) with p by lia.
    rewrite <- E. by apply (sh_desc _ _ Hs). }
  destruct (avail_fill_spec 256 (S (Z.to_nat HBLK_NUM_P_PG)) p (u32 (p + PAGE_SIZE))
              (heap_avail heap) (bzero_page p (set_frames f st)))
    as (st'&Hst'&Hfr&Hfi&Hd&Hseq).
  { cbn. apply (sh_lists _ _ Hs). unfold heads. set_solver. }
  { lia. }
  { change PAGE_SIZE with 4096. rewrite u32_small; [lia|unfold is_u32; lia]. }
  { apply u32_range. }
  { vm_compute. lia. }
  destruct (shape_heads _ _ Hs) as (N1&N2&N3).
  assert (Ef : frees heap st' = frees heap st).
  { unfold frees. rewrite Hseq, decide_False by done. by rewrite app_nil_r. }
  assert (Er : reserved heap st' = reserved heap st).
  { unfold reserved. rewrite Hseq, decide_False by done. by rewrite app_nil_r. }
  assert (Ea : avails heap st' = avails heap st ++ descs p 256).
  { unfold avails. by rewrite Hseq, decide_True by done. }
  assert (En : heads heap ++ nodes heap st' = (heads heap ++ nodes heap st) ++ descs p 256).
  { unfold nodes. by rewrite Ef, Er, Ea, !app_assoc. }
  assert (Hpg : ∀ x, x ∈ descs p 256 →
    0 < x < 4294967296 ∧ x `mod` 16 = 0 ∧ x - x `mod` 4096 = p).
  { intros x Hx. replace p with (p + 16 * Z.of_nat 0) in Hx by lia.
    apply (desc_page p x 256 0) in Hx as (?&?&?&?); [|lia|done|lia|lia]. done. }
  exists st'. split_and!; try done.
  - split.
    + intros h Hh. apply Hd. cbn. by apply (sh_lists _ _ Hs).
    + rewrite En. apply NoDup_app. split; [apply Hs|]. split; [|apply NoDup_descs].
      intros x Hx Hx'. apply (Hout x Hx). by apply Hpg.
    + intros x. rewrite En, Hfr. change (k_frames (bzero_page p (set_frames f st))) with f.
      intros [Hx|Hx]%elem_of_app; unfold desc_at.
      * destruct (sh_desc _ _ Hs x Hx) as (?&?&?). split_and!; try done; try lia.
        apply Hlive. by left.
      * destruct (Hpg x Hx) as (?&?&->). split_and!; try done; try lia.
        apply Hlive. right. exists 0. lia.
    + by rewrite Hfr.
  - intros x Hx. rewrite Hfi. cbn. assert (Hx' : x ∈ heads heap ++ nodes heap st) by (apply elem_of_app; by right).
    specialize (Hout x Hx'). clear -Hout Hm.
    destruct (Z.leb_spec p x), (Z.ltb_spec x (p + PAGE_SIZE)); cbn; try done.
    exfalso. change PAGE_SIZE with 4096 in *. dlia.
Qed.

(** ** The search of the free list *)

Lemma kmalloc_scan_spec st size : ∀ l done delta found,
  0 < size →
  (∀ x, x ∈ done ++ l → 0 < blk_size st x < 4294967296) →
  (∀ x, x ∈ done → blk_size st x ≠ size) →
  ((found = NULL ∧ delta = 4294967295 ∧ ∀ x, x ∈ done → blk_size st x < size) ∨
   (found ∈ done ∧ size < blk_size st found ∧ delta = blk_size st found - size ∧
    ∀ x, x ∈ done → size ≤ blk_size st x → blk_size st found ≤ blk_size st x)) →
  match kmalloc_scan l st size delta found with
  | ScanExact x => x ∈ done ++ l ∧ blk_size st x = size
  | ScanBest found' =>
      (found' = NULL ∧ ∀ x, x ∈ done ++ l → blk_size st x < size) ∨
      (found' ∈ done ++ l ∧ size < blk_size st found' ∧
       ∀ x, x ∈ done ++ l → size ≤ blk_size st x → blk_size st found' ≤ blk_size st x)
  end.
Proof.
  induction l as [|y l IH]; intros done delta found Hsz Hb Hne Hinv; cbn [kmalloc_scan].
  { rewrite app_nil_r. naive_solver. }
  assert (Hy : 0 < blk_size st y < 4294967296) by (apply Hb; set_solver).
  specialize (IH (done ++ [y])).
  replace ((done ++ [y]) ++ l) with (done ++ y :: l) in IH by by rewrite <- app_assoc.
  assert (Hsnoc : ∀ (P : Z → Prop), (∀ x, x ∈ done → P x) → P y → ∀ x, x ∈ done ++ [y] → P x)
    by (intros P ?? x; rewrite elem_of_app, list_elem_of_singleton; naive_solver).
  destruct (Z.ltb_spec size (blk_size st y)).
  - rewrite u32_small by (unfold is_u32; lia).
    destruct (Z.ltb_spec (blk_size st y - size) delta); apply IH; try done.
    + apply Hsnoc; [done|lia].
    + right. split; [set_solver|]. split; [lia|]. split; [lia|].
      apply (Hsnoc (λ x, size ≤ _ → _ ≤ blk_size st x)); [|lia].
      intros x Hx Hx'. destruct Hinv as [(_&_&Hs)|(_&_&Hd&Hs)].
      * specialize (Hs x Hx). lia.
      * specialize (Hs x Hx Hx'). lia.
    + apply Hsnoc; [done|lia].
    + destruct Hinv as [(->&->&Hs)|(Hf&Hlt&Hd&Hs)]; [lia|right].
      split; [set_solver|]. split; [done|]. split; [done|].
      apply (Hsnoc (λ x, size ≤ _ → _ ≤ blk_size st x)); [done|lia].
  - destruct (Z.eqb_spec (blk_size st y) size); [split; [set_solver|done]|].
    apply IH; try done.
    + apply Hsnoc; [done|lia].
    + destruct Hinv as [(->&->&Hs)|(Hf&Hlt&Hd&Hs)]; [left|right].
      * split; [done|]. split; [done|]. apply Hsnoc; [done|lia].
      * split; [set_solver|]. split; [done|]. split; [done|].
        apply (Hsnoc (λ x, size ≤ _ → _ ≤ blk_size st x)); [done|lia].
Qed.

(** ** Allocation *)

Lemma fields_pair st x : fields st x = (blk_base st x, blk_size st x).
Proof. unfold blk_base, blk_size. by destruct (fields st x). Qed.

Lemma frees_perm heap st x :
  heap_shape heap st → x ∈ frees heap st →
  frees heap st ≡ₚ x :: filter (λ y, y ≠ x) (frees heap st).
Proof. intros Hs Hx. apply filter_ne_perm; [apply (shape_nodup heap st Hs)|done]. Qed.

Lemma coalesced_sub (rs rs' : list region) :
  (∀ r, r ∈ rs → r ∈ rs') → coalesced rs' → coalesced rs.
Proof. intros Hsub Hc r r' Hr Hr'. apply Hc; by apply Hsub. Qed.

(** An exact fit changes hands. *)
Lemma take_exact heap st x :
  heap_wf heap st → x ∈ frees heap st →
  let st' := on_lists (w_move x (heap_res heap)) st in
  heap_wf heap st' ∧ free_regions heap st ≡ₚ fields st x :: free_regions heap st' ∧
  res_regions heap st' = fields st x :: res_regions heap st.
Proof.
  intros Hw Hx st'. pose proof (wf_shape _ _ Hw) as Hs.
  destruct (shape_heads _ _ Hs) as (N1&N2&N3).
  destruct (shape_nodup _ _ Hs) as (_&_&_&Hd&_). destruct (Hd x Hx) as [Hr Ha].
  destruct (seqs_move heap st x (heap_res heap) Hs) as (E1&E2&E3);
    [unfold heads; set_solver|]. fold st' in E1, E2, E3.
  rewrite decide_False in E1 by done. rewrite decide_True in E2 by done. cbn in E1, E2.
  rewrite filter_ne_id in E2 by done.
  assert (Hf : free_regions heap st ≡ₚ fields st x :: free_regions heap st').
  { unfold free_regions. rewrite E1. rewrite (frees_perm heap st x) at 1 by done. done. }
  assert (Hres : res_regions heap st' = fields st x :: res_regions heap st).
  { unfold res_regions. by rewrite E2. }
  split; [|done]. split.
  - apply shape_move; [done|unfold heads; set_solver|]. unfold nodes. set_solver.
  - pose proof (wf_tiles _ _ Hw) as Ht. rewrite Hf in Ht. rewrite Hres.
    rewrite <- Permutation_middle. exact Ht.
  - apply (coalesced_sub _ (free_regions heap st)); [|apply Hw].
    intros r Hr'. rewrite Hf. by right.
  - apply Hw.
Qed.

Lemma coalesced_carve s rs rs' e b n k :
  tiles s ((b, n) :: rs ++ rs') e → 0 < k < n → coalesced ((b, n) :: rs) →
  coalesced ((b + k, n - k) :: rs).
Proof.
  intros Ht Hk Hc r r' Hr Hr'.
  assert (Hap : ∀ q, q ∈ rs → 0 < q.2 ∧ (b + n ≤ q.1 ∨ q.1 + q.2 ≤ b)).
  { intros [qb qn] Hq. split.
    - eapply (tiles_bounds _ _ _ qb qn Ht). set_solver.
    - apply list_elem_of_split in Hq as (l1&l2&->).
      rewrite <- app_assoc in Ht. cbn in Ht. rewrite <- Permutation_middle in Ht.
      by apply tiles_apart in Ht. }
  assert (Hc1 : ∀ q, q ∈ rs → q.1 + q.2 ≠ b ∧ b + n ≠ q.1).
  { intros q Hq. split.
    - apply (Hc q (b, n)); [by right|left].
    - apply (Hc (b, n) q); [left|by right]. }
  apply elem_of_cons in Hr as [->|Hr]; apply elem_of_cons in Hr' as [->|Hr']; cbn.
  - lia.
  - destruct (Hc1 _ Hr'). lia.
  - destruct (Hap _ Hr), (Hc1 _ Hr). lia.
  - apply Hc; by right.
Qed.

(** [size] bytes off the front of a larger block. *)
Lemma carve_spec heap st size x y :
  heap_wf heap st → x ∈ frees heap st → y ∈ avails heap st →
  0 < size < blk_size st x →
  ∃ st' Fr, kmalloc_carve heap size x y st = Ret (blk_base st x, st') ∧
    heap_wf heap st' ∧ free_regions heap st ≡ₚ fields st x :: Fr ∧
    free_regions heap st' ≡ₚ (blk_base st x + size, blk_size st x - size) :: Fr ∧
    res_regions heap st' = (blk_base st x, size) :: res_regions heap st.
Proof.
  intros Hw Hx Hy Hsz. pose proof (wf_shape _ _ Hw) as Hs.
  destruct (block_bounds heap st x Hw (or_introl Hx)) as (B1&B2&B3).
  destruct (shape_heads _ _ Hs) as (N1&N2&N3).
  destruct (shape_nodup _ _ Hs) as (_&_&_&Hd&Hd'). destruct (Hd x Hx) as [Hxr Hxa].
  assert (Hyf : y ∉ frees heap st) by (intros Hyf; by apply (Hd y Hyf)).
  assert (Hyr : y ∉ reserved heap st) by (intros Hyr; by apply (Hd' y Hyr)).
  assert (Hxy : x ≠ y) by (by intros ->).
  unfold kmalloc_carve.
  set (st1 := set_field y (blk_base st x, size) st).
  assert (Ex : fields st1 x = fields st x) by (unfold st1; cbn; by rewrite fn_lookup_insert_ne).
  assert (Ebs : blk_base st1 x = blk_base st x ∧ blk_size st1 x = blk_size st x)
    by (unfold blk_base, blk_size; by rewrite Ex).
  destruct Ebs as [-> ->]. rewrite !u32_small by (unfold is_u32; lia).
  set (st2 := set_field x _ st1). set (st3 := on_lists _ st2).
  assert (Ey : fields st2 y = (blk_base st x, size)).
  { unfold st2, st1; cbn. rewrite fn_lookup_insert_ne, fn_lookup_insert by done. done. }
  assert (Ex2 : fields st2 x = (blk_base st x + size, blk_size st x - size)).
  { unfold st2; cbn. by rewrite fn_lookup_insert. }
  assert (Eo : ∀ z, z ≠ x → z ≠ y → fields st2 z = fields st z).
  { intros z ??. unfold st2, st1; cbn. by rewrite !fn_lookup_insert_ne. }
  assert (Hs2 : heap_shape heap st2) by (do 2 apply shape_set_field; done).
  destruct (seqs_move heap st2 y (heap_res heap) Hs2) as (E1&E2&E3);
    [unfold heads; set_solver|]. fold st3 in E1, E2, E3.
  rewrite decide_False in E1 by done. rewrite decide_True in E2 by done. cbn in E1, E2.
  change (frees heap st2) with (frees heap st) in E1.
  change (reserved heap st2) with (reserved heap st) in E2.
  rewrite filter_ne_id in E1, E2 by done.
  set (Fr := fields st <$> filter (λ z, z ≠ x) (frees heap st)).
  assert (Hf : free_regions heap st ≡ₚ fields st x :: Fr).
  { unfold free_regions, Fr. rewrite (frees_perm heap st x) at 1 by done. done. }
  assert (Hf' : free_regions heap st3
    ≡ₚ (blk_base st x + size, blk_size st x - size) :: Fr).
  { unfold free_regions. rewrite E1. rewrite (frees_perm heap st x) by done.
    change (fields st3) with (fields st2). rewrite fmap_cons, Ex2. f_equiv. unfold Fr.
    erewrite (fields_fmap_ne st); [done|]. intros z [Hz1 Hz2]%list_elem_of_filter.
    apply Eo; [done|]. by intros ->. }
  assert (Hr' : res_regions heap st3 = (blk_base st x, size) :: res_regions heap st).
  { unfold res_regions. rewrite E2. change (fields st3) with (fields st2).
    rewrite fmap_cons, Ey. f_equal.
    apply fields_fmap_ne. intros z Hz. apply Eo; by intros ->. }
  pose proof (wf_tiles _ _ Hw) as Ht. rewrite Hf, fields_pair in Ht. cbn [app] in Ht.
  exists st3, Fr. split_and!; [..|done|done|done].
  - f_equal. f_equal. unfold blk_base. change (fields st3) with (fields st2). by rewrite Ey.
  - split.
    + apply shape_move; [done|unfold heads; set_solver|].
      unfold nodes. change (avails heap st2) with (avails heap st). set_solver.
    + apply (tiles_split _ _ _ _ _ size) in Ht; [|lia].
      rewrite Hf', Hr'. rewrite <- Permutation_middle. exact Ht.
    + rewrite Hf'. apply (coalesced_carve _ _ _ _ _ _ _ Ht); [lia|].
      rewrite <- fields_pair, <- Hf. apply Hw.
    + apply Hw.
Qed.

(** What a request may do to the abstract heap. *)
Definition kmalloc_post heap st size p st' : Prop :=
  heap_wf heap st' ∧
  ((∃ n Fr, best_fit size (free_regions heap st) (p, n) ∧
      free_regions heap st ≡ₚ (p, n) :: Fr ∧
      free_regions heap st' ≡ₚ remainder size (p, n) ++ Fr ∧
      res_regions heap st' = (p, size) :: res_regions heap st) ∨
   (p = NULL ∧ free_regions heap st' = free_regions heap st ∧
      res_regions heap st' = res_regions heap st ∧
      ((∀ r, r ∈ free_regions heap st → r.2 < size) ∨
       (avails heap st = [] ∧ fs_alloc (k_frames st) 1 = Ret (NULL, k_frames st'))))).

Lemma best_fit_frees heap st size x :
  x ∈ frees heap st → size ≤ blk_size st x →
  (∀ y, y ∈ frees heap st → size ≤ blk_size st y → blk_size st x ≤ blk_size st y) →
  best_fit size (free_regions heap st) (blk_base st x, blk_size st x).
Proof.
  intros Hx Hsz Hmin. unfold free_regions. split_and!; [|done|].
  - rewrite <- fields_pair. by apply list_elem_of_fmap_2.
  - intros r (y&->&Hy)%list_elem_of_fmap Hs. by apply Hmin.
Qed.

Lemma carve_post heap st st1 size x y :
  heap_wf heap st1 → x ∈ frees heap st1 → y ∈ avails heap st1 →
  0 < size < blk_size st x →
  (∀ y, y ∈ frees heap st → size ≤ blk_size st y → blk_size st x ≤ blk_size st y) →
  frees heap st1 = frees heap st → fields st1 x = fields st x →
  free_regions heap st1 = free_regions heap st →
  res_regions heap st1 = res_regions heap st →
  ∃ p st', kmalloc_carve heap size x y st1 = Ret (p, st') ∧
           kmalloc_post heap st size p st'.
Proof.
  intros Hw Hx Hy Hsz Hmin Ef Ex Efr Err.
  assert (Eb : blk_base st1 x = blk_base st x ∧ blk_size st1 x = blk_size st x)
    by (unfold blk_base, blk_size; by rewrite Ex).
  destruct Eb as [Eb Es].
  destruct (carve_spec heap st1 size x y Hw Hx Hy) as (st'&Fr&->&Hw'&H1&H2&H3);
    [by rewrite Es|].
  eexists _, _. split; [done|]. split; [done|]. left. exists (blk_size st x), Fr.
  rewrite Eb in *. rewrite Es in *. rewrite Ex, Efr in H1. rewrite Err in H3. split_and!.
  - rewrite Ef in Hx. apply best_fit_frees; [done|lia|done].
  - by rewrite <- fields_pair.
  - unfold remainder; cbn. destruct (Z.eqb_spec size (blk_size st x)); [lia|done].
  - done.
Qed.

Lemma __kmalloc_spec heap st size :
  heap_wf heap st → 0 < size < 4294967296 →
  ∃ p st', __kmalloc size heap st = Ret (p, st') ∧ kmalloc_post heap st size p st'.
Proof.
  intros Hw Hsz. pose proof (wf_shape _ _ Hw) as Hs. unfold __kmalloc.
  fold (frees heap st). fold (avails heap st).
  pose proof (kmalloc_scan_spec st size (frees heap st) [] 4294967295 NULL) as Hscan.
  cbn [app] in Hscan.
  assert (Hb : ∀ x, x ∈ frees heap st → 0 < blk_size st x < 4294967296).
  { intros x Hx. destruct (block_bounds heap st x Hw (or_introl Hx)). lia. }
  specialize (Hscan ltac:(lia) Hb ltac:(set_solver)).
  specialize (Hscan ltac:(left; split_and!; [done..|set_solver])).
  destruct (kmalloc_scan _ st size _ NULL) as [x|x].
  - destruct Hscan as [Hx Hxs]. destruct (take_exact heap st x Hw Hx) as (Hw'&H1&H2).
    exists (blk_base st x). eexists _. split; [done|]. split; [exact Hw'|]. left.
    exists size, (free_regions heap (on_lists (w_move x (heap_res heap)) st)).
    rewrite fields_pair, Hxs in H1, H2.
    split_and!; try done; cycle 1.
    { unfold remainder; cbn. by rewrite Z.eqb_refl. }
    rewrite <- Hxs at 2. apply best_fit_frees; [done|lia|]. intros. lia.
  - destruct Hscan as [[-> Hall]|(Hx&Hxs&Hmin)].
    { eexists _, _. split; [done|]. split; [done|]. right. split_and!; try done.
      left. intros r (y&->&Hy)%list_elem_of_fmap. by apply Hall. }
    assert (Hx0 : x ≠ NULL).
    { destruct (sh_desc _ _ Hs x) as (?&_); [unfold nodes; set_solver|unfold NULL; lia]. }
    rewrite (proj2 (Z.eqb_neq x NULL)) by done.
    destruct (head (avails heap st)) as [y|] eqn:Ey.
    { apply (carve_post heap st); try done; [|lia].
      destruct (avails heap st); [done|]. injection Ey as ->. left. }
    assert (Ea : avails heap st = []) by by destruct (avails heap st).
    destruct (fs_alloc_spec (k_frames st) 1 (sh_frames _ _ Hs)) as (q&f&Ha&Hok&Hq); [done|].
    rewrite Ha. cbn [mbind res_bind]. destruct (Z.eqb_spec q NULL) as [->|Hq0].
    { destruct Hq as [[_ ->]|[? _]]; [|unfold NULL in *; lia].
      eexists _, _. split; [done|]. split.
      { destruct Hw as [[] ? ? ?]. constructor; [constructor|..]; assumption. }
      right. split_and!; try done. by right. }
    destruct (shape_grow heap st q f Hs Ha Hq0) as (st1&->&Hs1&Hf1&E1&E2&E3&Hfi).
    cbn [mbind res_bind]. fold (avails heap st1). rewrite E3, Ea. cbn [head app descs].
    change (head (descs q 256)) with (Some (q + 16 * 0)). cbn iota beta.
    assert (Efr : free_regions heap st1 = free_regions heap st).
    { unfold free_regions. rewrite E1. apply fields_fmap_ne. intros z Hz. apply Hfi.
      unfold nodes. set_solver. }
    assert (Err : res_regions heap st1 = res_regions heap st).
    { unfold res_regions. rewrite E2. apply fields_fmap_ne. intros z Hz. apply Hfi.
      unfold nodes. set_solver. }
    apply (carve_post heap st st1); try done.
    + split; [done| | |apply Hw]; rewrite Efr, ?Err; apply Hw.
    + by rewrite E1.
    + rewrite E3, Ea. cbn [app]. apply elem_of_descs. exists 0. lia.
    + lia.
    + apply Hfi. unfold nodes. set_solver.
Qed.

(** ** Release *)

Lemma find_base_spec l st p :
  match find_base l st p with
  | Some x => x ∈ l ∧ blk_base st x = p
  | None => ∀ x, x ∈ l → blk_base st x ≠ p
  end.
Proof.
  induction l as [|y l IH]; cbn; [set_solver|].
  destruct (Z.eqb_spec (blk_base st y) p); [split; [left|done]|].
  destruct (find_base l st p); set_solver.
Qed.

Lemma snoc_all {A} (P : A → Prop) (l : list A) x :
  (∀ y, y ∈ l → P y) → P x → ∀ y, y ∈ l ++ [x] → P y.
Proof. intros Hl Hx y. rewrite elem_of_app, list_elem_of_singleton. naive_solver. Qed.

Section Merge.
Context (found p n : Z) (st0 : kmem F) (l0 : list Z).
Context (Hp : 0 < p) (Hn : 0 < n) (Hpn : p + n < 4294967296).
Context (Hl0 : found ∉ l0).
Context (Hb0 : ∀ x, x ∈ l0 → x ≠ NULL ∧ 0 < blk_base st0 x ∧ 0 < blk_size st0 x ∧
                blk_base st0 x + blk_size st0 x < 4294967296).
Context (Hc0 : ∀ x y, x ∈ l0 → y ∈ l0 →
                blk_base st0 x + blk_size st0 x ≠ blk_base st0 y).

(** [q] is the neighbour of [(p, n)] among [visited] on the left (right), or
    there is none. *)
Definition left_nb (visited : list Z) (q : Z) : Prop :=
  (q = NULL ∧ ∀ x, x ∈ visited → blk_base st0 x + blk_size st0 x ≠ p) ∨
  (q ∈ l0 ∧ blk_base st0 q + blk_size st0 q = p).
Definition right_nb (visited : list Z) (q : Z) : Prop :=
  (q = NULL ∧ ∀ x, x ∈ visited → blk_base st0 x ≠ p + n) ∨
  (q ∈ l0 ∧ blk_base st0 q = p + n).
Definition merged_base (q : Z) : Z := if q =? NULL then p else blk_base st0 q.
Definition merged_end (q : Z) : Z :=
  if q =? NULL then p + n else blk_base st0 q + blk_size st0 q.

Record merge_inv (visited : list Z) (lp rp : Z) (st : kmem F) : Prop := {
  mi_frame : k_frames st = k_frames st0 ∧ k_lists st = k_lists st0;
  mi_fields : ∀ x, x ≠ found → fields st x = fields st0 x;
  mi_found : fields st found = (merged_base lp, merged_end rp - merged_base lp);
  mi_left : left_nb visited lp;
  mi_right : right_nb visited rp;
}.

Lemma merge_range lp rp visited :
  left_nb visited lp → right_nb visited rp →
  0 < merged_base lp ≤ p ∧ p + n ≤ merged_end rp < 4294967296 ∧
  (lp ≠ NULL → lp ∈ l0) ∧ (rp ≠ NULL → rp ∈ l0).
Proof.
  unfold left_nb, right_nb, merged_base, merged_end. intros HL HR.
  assert (0 < (if lp =? NULL then p else blk_base st0 lp) ≤ p ∧ (lp ≠ NULL → lp ∈ l0)).
  { destruct HL as [[-> _]|[HL1 HL2]]; [split; [cbn; lia|done]|].
    destruct (Hb0 lp HL1) as (?&?&?&?). rewrite (proj2 (Z.eqb_neq lp NULL)) by done.
    split; [lia|done]. }
  enough (p + n ≤ (if rp =? NULL then p + n else blk_base st0 rp + blk_size st0 rp)
            < 4294967296 ∧ (rp ≠ NULL → rp ∈ l0)) by tauto.
  destruct HR as [[-> _]|[HR1 HR2]]; [split; [cbn; lia|done]|].
  destruct (Hb0 rp HR1) as (?&?&?&?). rewrite (proj2 (Z.eqb_neq rp NULL)) by done.
  split; [lia|done].
Qed.

(** One entry of the loop: it is the left neighbour, the right one or none. *)
Lemma kfree_merge_step x visited lp rp st :
  x ∈ l0 → merge_inv visited lp rp st →
  ∃ lp' rp' st',
    (if u32 (blk_base st x + blk_size st x) =? blk_base st found then
       (x, rp, set_field found (blk_base st x,
          u32 (blk_size st found + blk_size st x)) st)
     else if blk_base st x =? u32 (blk_base st found + blk_size st found) then
       (lp, x, set_field found (blk_base st found,
          u32 (blk_size st found + blk_size st x)) st)
     else (lp, rp, st)) = (lp', rp', st') ∧ merge_inv (visited ++ [x]) lp' rp' st'.
Proof.
  intros Hx Hinv.
  assert (Hxf : x ≠ found) by (by intros ->).
  destruct (Hb0 x Hx) as (X0&X1&X2&X3).
  destruct Hinv as [[Hi1 Hi2] Hi3 Hi4 Hi5 Hi6].
  destruct (merge_range _ _ _ Hi5 Hi6) as (R1&R2&R3&R4).
  assert (Ex : blk_base st x = blk_base st0 x ∧ blk_size st x = blk_size st0 x)
    by (unfold blk_base, blk_size; by rewrite Hi3).
  destruct Ex as [-> ->].
  assert (Ef : blk_base st found = merged_base lp ∧
               blk_size st found = merged_end rp - merged_base lp)
    by (unfold blk_base, blk_size; by rewrite Hi4).
  destruct Ef as [-> ->].
  rewrite (u32_small (blk_base st0 x + blk_size st0 x)) by (unfold is_u32; lia).
  rewrite (u32_small (merged_base lp + _)) by (unfold is_u32; lia).
  replace (merged_base lp + (merged_end rp - merged_base lp)) with (merged_end rp) by lia.
  assert (HL : blk_base st0 x + blk_size st0 x = merged_base lp →
               lp = NULL ∧ merged_base lp = p).
  { unfold merged_base. destruct (Z.eqb_spec lp NULL); [done|].
    intros E. exfalso. by apply (Hc0 x lp Hx (R3 n0)). }
  assert (HR : blk_base st0 x = merged_end rp → rp = NULL ∧ merged_end rp = p + n).
  { unfold merged_end. destruct (Z.eqb_spec rp NULL); [done|].
    intros E. exfalso. by apply (Hc0 rp x (R4 n0) Hx). }
  destruct (Z.eqb_spec (blk_base st0 x + blk_size st0 x) (merged_base lp)) as [E|E].
    - destruct (HL E) as [-> Ep]. eexists _, _, _. split; [done|].
      assert (HLx : left_nb (visited ++ [x]) x) by (right; split; [done|lia]).
      assert (HRx : right_nb (visited ++ [x]) rp).
      { destruct Hi6 as [[? Hv]|?]; [left|by right]. split; [done|].
        apply snoc_all; [done|lia]. }
      split; [done| | |done|done].
      + intros y Hy. cbn. rewrite fn_lookup_insert_ne by done. by apply Hi3.
      + cbn. rewrite fn_lookup_insert. assert (Em : merged_base x = blk_base st0 x)
          by (unfold merged_base; by rewrite (proj2 (Z.eqb_neq x NULL))).
        rewrite Em.
        rewrite u32_small by (unfold is_u32; lia). f_equal. lia.
    - assert (HLx : left_nb (visited ++ [x]) lp).
      { destruct Hi5 as [[-> Hv]|?]; [left|by right]. split; [done|].
        by apply snoc_all. }
      destruct (Z.eqb_spec (blk_base st0 x) (merged_end rp)) as [E'|E'].
      + destruct (HR E') as [-> Ep]. eexists _, _, _. split; [done|].
        split; [done| | |done|right; split; [done|lia]].
        * intros y Hy. cbn. rewrite fn_lookup_insert_ne by done. by apply Hi3.
        * cbn. rewrite fn_lookup_insert. assert (Em : merged_end x = blk_base st0 x + blk_size st0 x)
            by (unfold merged_end; by rewrite (proj2 (Z.eqb_neq x NULL))).
          rewrite Em.
          rewrite u32_small by (unfold is_u32; lia). f_equal. lia.
      + eexists _, _, _. split; [done|]. split; [done..|].
        destruct Hi6 as [[-> Hv]|?]; [left|by right]. split; [done|].
        by apply snoc_all.
Qed.

Lemma kfree_merge_spec l : ∀ visited lp rp st,
  visited ++ l = l0 → merge_inv visited lp rp st →
  ∃ lp' rp' st', kfree_merge l found lp rp st = (lp', rp', st') ∧
                 merge_inv l0 lp' rp' st'.
Proof.
  induction l as [|x l IH]; intros visited lp rp st Hl Hinv; cbn [kfree_merge].
  { rewrite app_nil_r in Hl. subst. eauto. }
  assert (Hx : x ∈ l0) by (rewrite <- Hl; set_solver).
  destruct (kfree_merge_step x visited lp rp st Hx Hinv) as (lp'&rp'&st'&->&Hinv').
  destruct (Z.eqb_spec lp' NULL) as [->|Hlp]; cbn [negb andb].
  { apply (IH (visited ++ [x])); [by rewrite <- app_assoc|done]. }
  destruct (Z.eqb_spec rp' NULL) as [->|Hrp]; cbn [negb].
  { apply (IH (visited ++ [x])); [by rewrite <- app_assoc|done]. }
  eexists _, _, _. split; [done|]. destruct Hinv' as [??? [[??]|?] [[??]|?]]; try done.
  split; try done; by right.
Qed.
End Merge.

(** [if (q) list_move(&q->lh, &hd_avail->lh)] *)
Definition retire heap q st : kmem F :=
  if negb (q =? NULL) then on_lists (w_move q (heap_avail heap)) st else st.

Definition opt_node (q : Z) : option Z := if q =? NULL then None else Some q.

Lemma retire_spec heap st q :
  heap_shape heap st → (q ≠ NULL → q ∈ frees heap st) →
  heap_shape heap (retire heap q st) ∧
  frees heap st ≡ₚ opt_list (opt_node q) ++ frees heap (retire heap q st) ∧
  reserved heap (retire heap q st) = reserved heap st ∧
  fields (retire heap q st) = fields st.
Proof.
  intros Hs Hq. unfold retire, opt_node. destruct (Z.eqb_spec q NULL); [done|]. cbn [negb].
  specialize (Hq n). destruct (shape_heads _ _ Hs) as (N1&N2&N3).
  destruct (shape_nodup _ _ Hs) as (_&_&_&Hd&_).
  destruct (seqs_move heap st q (heap_avail heap) Hs) as (E1&E2&_);
    [unfold heads; set_solver|].
  rewrite decide_False in E1 by done. rewrite decide_False in E2 by done.
  cbn [app] in E1, E2. rewrite E1, E2.
  split_and!; [|by apply (frees_perm heap)| |done].
  - apply shape_move; [done|unfold heads; set_solver|unfold nodes; set_solver].
  - apply filter_ne_id. by apply Hd.
Qed.

Definition kfree_post heap st p rc st' : Prop :=
  heap_wf heap st' ∧
  ((rc = 1 ∧ st' = st ∧ p ∉ (res_regions heap st).*1) ∨
   (rc = 0 ∧ ∃ n, res_regions heap st ≡ₚ (p, n) :: res_regions heap st' ∧
      free_regions heap st' ≡ₚ release p n (free_regions heap st))).

(** [found] goes to the front of the free list. *)
Lemma unreserve heap st x :
  heap_shape heap st → x ∈ reserved heap st →
  let st' := on_lists (w_move x (heap_free heap)) st in
  heap_shape heap st' ∧ frees heap st' = x :: frees heap st ∧
  reserved heap st ≡ₚ x :: reserved heap st'.
Proof.
  intros Hs Hx st'. destruct (shape_heads _ _ Hs) as (N1&N2&N3).
  destruct (shape_nodup _ _ Hs) as (_&Hnr&_&Hd&Hd').
  destruct (seqs_move heap st x (heap_free heap) Hs) as (E1&E2&_);
    [unfold heads; set_solver|]. fold st' in E1, E2.
  rewrite decide_True in E1 by done. rewrite decide_False in E2 by congruence.
  cbn [app] in E1, E2. rewrite E1, E2. split_and!.
  - apply shape_move; [done|unfold heads; set_solver|unfold nodes; set_solver].
  - rewrite filter_ne_id; [done|]. intros Hf. by destruct (Hd x Hf).
  - by apply filter_ne_perm.
Qed.

(** The first entry the merge loop meets is [found] itself. *)
Lemma kfree_merge_self st x l :
  0 < blk_base st x → 0 < blk_size st x → blk_base st x + blk_size st x < 4294967296 →
  kfree_merge (x :: l) x NULL NULL st = kfree_merge l x NULL NULL st.
Proof.
  intros. cbn [kfree_merge]. rewrite u32_small by (unfold is_u32; lia).
  destruct (Z.eqb_spec (blk_base st x + blk_size st x) (blk_base st x)); [lia|].
  by destruct (Z.eqb_spec (blk_base st x) (blk_base st x + blk_size st x)); [lia|].
Qed.

(** What is left on the free list after the neighbours are retired. *)
Lemma retire_neighbours heap st x l lp rp :
  heap_shape heap st → frees heap st = x :: l →
  (lp ≠ NULL → lp ∈ l) → (rp ≠ NULL → rp ∈ l) → (lp ≠ NULL → lp ≠ rp) →
  let st' := retire heap rp (retire heap lp st) in
  heap_shape heap st' ∧ reserved heap st' = reserved heap st ∧ fields st' = fields st ∧
  ∃ l', l ≡ₚ opt_list (opt_node lp) ++ opt_list (opt_node rp) ++ l' ∧
        frees heap st' ≡ₚ x :: l'.
Proof.
  intros Hs El Hlp Hrp Hne st'.
  destruct (shape_nodup _ _ Hs) as (Hnd&_). rewrite El in Hnd.
  apply NoDup_cons in Hnd as [Hx Hnd].
  destruct (retire_spec heap st lp Hs) as (Hs1&P1&R1&F1);
    [rewrite El; intros ?; right; auto|].
  set (st1 := retire heap lp st) in *.
  assert (Hrp1 : rp ≠ NULL → rp ∈ frees heap st1).
  { intros Hr. specialize (Hrp Hr). assert (Hin : rp ∈ frees heap st) by (rewrite El; by right).
    rewrite P1 in Hin. apply elem_of_app in Hin as [Hin|Hin]; [|done].
    unfold opt_node in Hin. destruct (Z.eqb_spec lp NULL); [set_solver|].
    apply list_elem_of_singleton in Hin. exfalso. by apply (Hne n). }
  destruct (retire_spec heap st1 rp Hs1 Hrp1) as (Hs2&P2&R2&F2). fold st' in Hs2, P2, R2, F2.
  split; [done|]. split; [congruence|]. split; [congruence|].
  rewrite P2, El in P1.
  assert (Hx' : x ∈ frees heap st').
  { assert (Hin : x ∈ x :: l) by left. rewrite P1 in Hin. rewrite !elem_of_app in Hin.
    unfold opt_node in Hin.
    destruct (Z.eqb_spec lp NULL), (Z.eqb_spec rp NULL); cbn in Hin; set_solver. }
  pose proof (frees_perm heap st' x Hs2 Hx') as P3.
  set (l' := filter (λ y, y ≠ x) (frees heap st')) in *.
  exists l'. split; [|done]. rewrite P3 in P1.
  apply (Permutation_cons_inv (a := x)). rewrite P1.
  rewrite !app_assoc. by rewrite <- Permutation_middle.
Qed.

Lemma opt_list_fmap {A B} (g : A → B) (o : option A) :
  opt_list (g <$> o) = g <$> opt_list o.
Proof. by destruct o. Qed.

(** The merged block of the loop is the region the abstract heap forms. *)
Lemma merged_region_fields p n st l visited lp rp :
  left_nb p st l visited lp → right_nb p n st l visited rp →
  (∀ x, x ∈ l → x ≠ NULL) →
  (merged_base p st lp, merged_end p n st rp - merged_base p st lp) =
  merged_region p n (fields st <$> opt_node lp) (fields st <$> opt_node rp).
Proof.
  unfold left_nb, right_nb, merged_base, merged_end, merged_region, opt_node.
  intros HL HR H0. unfold blk_base, blk_size in *.
  destruct (Z.eqb_spec lp NULL) as [->|Hl], (Z.eqb_spec rp NULL) as [->|Hr];
    destruct HL as [[? _]|[HL1 HL2]]; destruct HR as [[? _]|[HR1 HR2]]; try done;
    try (by destruct (H0 _ HL1)); try (by destruct (H0 _ HR1));
    cbn; unfold total; cbn; f_equal; lia.
Qed.

Lemma kfree_regions heap st x l' lp rp visited Rs :
  heap_wf heap st →
  let p := blk_base st x in let n := blk_size st x in
  left_nb p st (frees heap st) visited lp → right_nb p n st (frees heap st) visited rp →
  (∀ y, y ∈ frees heap st → y ≠ NULL) →
  (∀ y, y ∈ l' → y ∈ visited) →
  frees heap st ≡ₚ opt_list (opt_node lp) ++ opt_list (opt_node rp) ++ l' →
  res_regions heap st ≡ₚ (p, n) :: Rs →
  let r := (merged_base p st lp, merged_end p n st rp - merged_base p st lp) in
  let Fr := fields st <$> l' in
  tiles (heap_start heap) (r :: Fr ++ Rs) (heap_end heap) ∧
  coalesced (r :: Fr) ∧ release p n (free_regions heap st) ≡ₚ r :: Fr.
Proof.
  intros Hw p n HL HR H0 Hv Hp Hres r Fr.
  pose proof (merged_region_fields p n st _ visited lp rp HL HR H0) as Hm. fold r in Hm.
  set (L := fields st <$> opt_node lp) in *. set (R := fields st <$> opt_node rp) in *.
  assert (Hfr : free_regions heap st ≡ₚ opt_list L ++ opt_list R ++ Fr).
  { unfold free_regions, L, R, Fr. rewrite Hp, !opt_list_fmap, !fmap_app. done. }
  pose proof (wf_tiles _ _ Hw) as Ht. rewrite Hres, Hfr in Ht.
  rewrite <- Permutation_middle in Ht.
  pose proof (wf_coalesced _ _ Hw) as Hc. rewrite Hfr in Hc.
  assert (A1 : ∀ q, q ∈ opt_list L → ends_at p q).
  { unfold L, opt_node. intros q. destruct (Z.eqb_spec lp NULL); [set_solver|].
    intros ->%list_elem_of_singleton. destruct HL as [[??]|[_ ?]]; done. }
  assert (A2 : ∀ q, q ∈ opt_list R → starts_at (p + n) q).
  { unfold R, opt_node. intros q. destruct (Z.eqb_spec rp NULL); [set_solver|].
    intros ->%list_elem_of_singleton. destruct HR as [[??]|[_ ?]]; done. }
  assert (A3 : L = None → ∀ q, q ∈ Fr → ¬ ends_at p q).
  { unfold L, opt_node. destruct (Z.eqb_spec lp NULL) as [->|]; [|done].
    intros _ q (y&->&Hy)%list_elem_of_fmap.
    destruct HL as [[_ HL]|[HL _]]; [by apply HL, Hv|by destruct (H0 _ HL)]. }
  assert (A4 : R = None → ∀ q, q ∈ Fr → ¬ starts_at (p + n) q).
  { unfold R, opt_node. destruct (Z.eqb_spec rp NULL) as [->|]; [|done].
    intros _ q (y&->&Hy)%list_elem_of_fmap.
    destruct HR as [[_ HR]|[HR _]]; [by apply HR, Hv|by destruct (H0 _ HR)]. }
  rewrite Hm. split; [|split].
  - by apply release_tiles.
  - by apply (release_coalesced (heap_start heap) (heap_end heap) _ _ _ _ _ Rs).
  - rewrite Hfr. by rewrite (release_merges (heap_start heap) (heap_end heap) _ _ _ _ _ Rs).
Qed.

Lemma frees_nonnull heap st y : heap_shape heap st → y ∈ frees heap st → y ≠ NULL.
Proof.
  intros Hs Hy. destruct (sh_desc _ _ Hs y) as [? _]; [unfold nodes; set_solver|].
  unfold NULL; lia.
Qed.

(** The merge loop of a release, as it is called. *)
Lemma kfree_merge_run heap st x :
  heap_wf heap st → x ∈ reserved heap st →
  let st1 := on_lists (w_move x (heap_free heap)) st in
  ∃ lp rp st2, kfree_merge (frees heap st) x NULL NULL st1 = (lp, rp, st2) ∧
    merge_inv x (blk_base st x) (blk_size st x) st1 (frees heap st) (frees heap st) lp rp st2.
Proof.
  intros Hw Hx st1. pose proof (wf_shape _ _ Hw) as Hs.
  destruct (block_bounds heap st x Hw (or_intror Hx)) as (B1&B2&B3).
  assert (Hxf : x ∉ frees heap st) by (intros Hf; by destruct (shape_nodup _ _ Hs) as (_&_&_&Hd&_); destruct (Hd x Hf)).
  apply (kfree_merge_spec x (blk_base st x) (blk_size st x) st1 (frees heap st) B1 B2 B3 Hxf)
    with (visited := @nil Z).
  - intros y Hy. split; [by apply (frees_nonnull heap st)|]. by apply (block_bounds heap st y Hw); left.
  - intros y z Hy Hz. apply (wf_coalesced _ _ Hw (fields st y) (fields st z));
      by apply list_elem_of_fmap_2.
  - done.
  - split; [done|done| |left; set_solver|left; set_solver].
    unfold merged_base, merged_end; cbn. rewrite fields_pair. f_equal.
    change (blk_base st1 x) with (blk_base st x). change (blk_size st1 x) with (blk_size st x).
    lia.
Qed.

Lemma __kfree_spec heap st p :
  heap_wf heap st →
  ∃ rc st', __kfree p heap st = (rc, st') ∧ kfree_post heap st p rc st'.
Proof.
  intros Hw. pose proof (wf_shape _ _ Hw) as Hs. unfold __kfree. fold (reserved heap st).
  pose proof (find_base_spec (reserved heap st) st p) as Hfind.
  destruct (find_base _ st p) as [x|]; last first.
  { eexists _, _. split; [done|]. split; [done|]. left. split_and!; try done.
    unfold res_regions. intros (r&->&(y&->&Hy)%list_elem_of_fmap)%list_elem_of_fmap.
    by apply (Hfind y). }
  destruct Hfind as [Hx <-].
  destruct (block_bounds heap st x Hw (or_intror Hx)) as (B1&B2&B3).
  destruct (unreserve heap st x Hs Hx) as (Hs1&Ef1&Er1).
  set (st1 := on_lists (w_move x (heap_free heap)) st) in *. fold (frees heap st1).
  rewrite Ef1, kfree_merge_self by done.
  assert (Hxf : x ∉ frees heap st) by (intros Hf; by destruct (shape_nodup _ _ Hs) as (_&_&_&Hd&_); destruct (Hd x Hf)).
  pose proof (kfree_merge_run heap st x Hw Hx) as Hrun. cbv zeta in Hrun. fold st1 in Hrun.
  destruct Hrun as (lp&rp&st2&->&[[Hk1 Hk2] Hoth Hfx HL HR]).
  assert (Hs2 : heap_shape heap st2).
  { destruct Hs1 as [S1 S2 S3 S4]. unfold nodes, frees, reserved, avails in *.
    rewrite <- Hk2 in S1, S2, S3. rewrite <- Hk1 in S3, S4. by split. }
  fold (retire heap lp st2). fold (retire heap rp (retire heap lp st2)).
  change (left_nb (blk_base st x) st (frees heap st) (frees heap st) lp) in HL.
  change (right_nb (blk_base st x) (blk_size st x) st (frees heap st) (frees heap st) rp) in HR.
  assert (Hlp : lp ≠ NULL → lp ∈ frees heap st) by (destruct HL as [[??]|[??]]; done).
  assert (Hrp : rp ≠ NULL → rp ∈ frees heap st) by (destruct HR as [[??]|[??]]; done).
  destruct (retire_neighbours heap st2 x (frees heap st) lp rp) as (Hs3&Er3&Ef3&l'&P1&P2);
    [done|unfold frees in *; by rewrite Hk2|done|done| |].
  { intros Hl <-. destruct HL as [[??]|[HL1 HL2]]; [done|]. destruct HR as [[??]|[_ HR2]]; [done|].
    destruct (block_bounds heap st lp Hw (or_introl HL1)). lia. }
  set (st3 := retire heap rp (retire heap lp st2)) in *.
  assert (Er : res_regions heap st ≡ₚ (blk_base st x, blk_size st x) :: res_regions heap st3).
  { unfold res_regions. rewrite Er1, Er3, Ef3. cbn. rewrite fields_pair. f_equiv.
    unfold reserved at 2. rewrite Hk2. fold (reserved heap st1).
    erewrite (fields_fmap_ne st1 (fields st2)); [done|].
    intros y Hy. apply Hoth. intros ->.
    destruct (shape_nodup _ _ Hs) as (_&Hnd&_). rewrite Er1 in Hnd.
    by apply NoDup_cons in Hnd as [? _]. }
  destruct (kfree_regions heap st x l' lp rp (frees heap st) (res_regions heap st3))
    as (T1&T2&T3); try done.
  { intros y. by apply frees_nonnull. }
  { intros y Hy. rewrite P1, !elem_of_app. tauto. }
  assert (Efr : free_regions heap st3 ≡ₚ
    (merged_base (blk_base st x) st lp, merged_end (blk_base st x) (blk_size st x) st rp -
       merged_base (blk_base st x) st lp) :: (fields st <$> l')).
  { unfold free_regions. rewrite P2, Ef3. cbn. rewrite Hfx. f_equiv.
    erewrite (fields_fmap_ne st (fields st2)); [done|].
    intros y Hy. apply Hoth. intros ->. apply Hxf. rewrite P1, !elem_of_app. tauto. }
  eexists _, _. split; [done|]. split.
  - split; [done| | |apply Hw]; rewrite Efr; done.
  - right. split; [done|]. exists (blk_size st x). split; [done|]. by rewrite Efr, T3.
Qed.

(** ** A new heap *)

Lemma w_seq_insert h l W g : w_seq (<[h := l]> W) g = if decide (g = h) then l else w_seq W g.
Proof.
  unfold w_seq. case_decide as Hd; [subst; by rewrite lookup_insert_eq|].
  by rewrite lookup_insert_ne.
Qed.

(** The three list heads at the start of a metadata page. *)
Definition heap_at (start end_ q : Z) : heap_desc_t :=
  HeapDesc start end_ q (q + 16) (q + 2 * 16).

Lemma heads_at start end_ q h :
  h ∈ heads (heap_at start end_ q) → h = q ∨ h = q + 16 ∨ h = q + 2 * 16.
Proof. unfold heads, heap_at; cbn. set_solver. Qed.

(** The lists after their initialization: one free descriptor. *)
Lemma new_lists start end_ q W h :
  let W' := w_add (q + 3 * 16) q (<[q + 2 * 16 := []]> (<[q + 16 := []]> (<[q := []]> W))) in
  h ∈ heads (heap_at start end_ q) →
  is_Some (W' !! h) ∧ w_seq W' h = if decide (h = q) then [q + 3 * 16] else [].
Proof.
  intros W' Hh%heads_at. unfold W', w_add, w_seq.
  destruct Hh as [->|[->| ->]];
    [rewrite decide_True by done|rewrite decide_False by lia..];
    rewrite ?lookup_alter_eq, ?lookup_alter_ne by lia;
    repeat first [rewrite lookup_insert_eq|rewrite lookup_insert_ne by lia]; cbn; eauto.
Qed.

(** A page of descriptors with one free block is a well-formed heap. *)
Lemma single_block_wf start end_ q st :
  let heap := heap_at start end_ q in
  0 < start < end_ → end_ < 4294967296 → 0 < q → q `mod` 4096 = 0 → q + 4096 < 4294967296 →
  fs_ok (k_frames st) → fs_live (k_frames st) q →
  (∀ h, h ∈ heads heap → is_Some (k_lists st !! h)) →
  frees heap st = [q + 3 * 16] → reserved heap st = [] →
  avails heap st = descs (q + 3 * 16 + 16) 252 →
  fields st (q + 3 * 16) = (start, end_ - start) →
  heap_wf heap st ∧ free_regions heap st = [(start, end_ - start)] ∧ res_regions heap st = [].
Proof.
  intros heap Hse Hend Q0 Qm Qtop Hok Hlive Hd Ef Er Ea Hfi.
  assert (En : heads heap ++ nodes heap st = descs q 256).
  { unfold nodes. rewrite Ef, Er, Ea. unfold heads, heap; cbn [heap_at heap_free heap_res heap_avail app].
    rewrite (descs_S _ 255), (descs_S _ 254), (descs_S _ 253), (descs_S _ 252).
    repeat (f_equal; try lia). }
  assert (Hpg : ∀ x, x ∈ descs q 256 → 0 < x < 4294967296 ∧ x `mod` 16 = 0 ∧ x - x `mod` 4096 = q).
  { intros x Hx. replace q with (q + 16 * Z.of_nat 0) in Hx by lia.
    apply (desc_page q x 256 0) in Hx as (?&?&?&?); [|lia|done|lia|lia]. done. }
  assert (Efree : free_regions heap st = [(start, end_ - start)])
    by (unfold free_regions; rewrite Ef; cbn; by rewrite Hfi).
  assert (Eres : res_regions heap st = []) by (unfold res_regions; by rewrite Er).
  split; [|done]. split.
  - split; [done|rewrite En; apply NoDup_descs| |done].
    intros x. rewrite En. intros Hx. destruct (Hpg x Hx) as (?&?&E).
    split_and!; [lia..|done|]. by rewrite E.
  - rewrite Efree, Eres. exists [(start, end_ - start)]. split; [done|]. cbn. lia.
  - rewrite Efree. intros r r' ->%list_elem_of_singleton ->%list_elem_of_singleton. cbn. lia.
  - cbn. lia.
Qed.

Lemma HEAP_FB_spec start end_ st :
  fs_ok (k_frames st) → 0 < start < end_ → end_ < 4294967296 →
  ∃ rc o st', HEAP_FB start end_ st = Ret (rc, o, st') ∧
    ((rc = 1 ∧ o = None ∧ fs_alloc (k_frames st) 1 = Ret (NULL, k_frames st')) ∨
     (∃ heap, rc = 0 ∧ o = Some heap ∧ heap_start heap = start ∧ heap_end heap = end_ ∧
        heap_wf heap st' ∧ free_regions heap st' = [(start, end_ - start)] ∧
        res_regions heap st' = [] ∧ length (avails heap st') = 252%nat)).
Proof.
  intros Hok Hse Hend. unfold HEAP_FB.
  destruct (fs_alloc_spec (k_frames st) 1 Hok) as (q&f&Ha&Hok'&Hq); [done|].
  rewrite Ha. cbn [mbind res_bind]. destruct (Z.eqb_spec q NULL) as [->|Hq0].
  { eexists _, _, _. split; [done|]. left. done. }
  destruct Hq as [[? _]|(Q0&Qm&_&Qtop&_&Qlive)]; [done|]. rewrite Z.mul_1_r in Qtop.
  cbv zeta. cbn [heap_free heap_res heap_avail]. unfold HBLK_SIZE.
  fold (heap_at start end_ q). set (heap := heap_at start end_ q).
  rewrite (u32_small (end_ - start)) by (unfold is_u32; lia).
  rewrite (u32_small (q + PAGE_SIZE)) by (change PAGE_SIZE with 4096; unfold is_u32; lia).
  set (st1 := on_lists (w_add _ _) _).
  pose proof (new_lists start end_ q (k_lists st)) as Hnew. cbv zeta in Hnew.
  change (w_add _ _ _) with (k_lists st1) in Hnew. fold heap in Hnew.
  destruct (avail_fill_spec 252 (S (Z.to_nat HBLK_NUM_P_PG)) (q + 3 * 16 + 16)
              (q + PAGE_SIZE) (q + 2 * 16) st1) as (st'&->&Hfr&Hfi&Hd&Hseq).
  { apply Hnew. unfold heads, heap; cbn. set_solver. }
  { lia. }
  { change PAGE_SIZE with 4096. lia. }
  { change PAGE_SIZE with 4096. unfold is_u32. lia. }
  { vm_compute. lia. }
  cbn [mbind res_bind].
  assert (Hl : ∀ g, g ∈ heads heap → w_seq (k_lists st') g =
    (if decide (g = q) then [q + 3 * 16] else []) ++
    (if decide (g = q + 2 * 16) then descs (q + 3 * 16 + 16) 252 else [])).
  { intros g Hg. by rewrite Hseq, (proj2 (Hnew g Hg)). }
  assert (Ea : avails heap st' = descs (q + 3 * 16 + 16) 252).
  { unfold avails. rewrite Hl by (unfold heads; set_solver). unfold heap; cbn.
    rewrite decide_False by lia. by rewrite decide_True. }
  destruct (single_block_wf start end_ q st') as (Hw&Efree&Eres); try done; rewrite ?Hfr; try done.
  - apply Qlive. right. exists 0. lia.
  - intros h Hh. by apply Hd, Hnew.
  - unfold frees. rewrite Hl by (unfold heads; set_solver). unfold heap; cbn.
    rewrite decide_True by done. by rewrite decide_False by lia.
  - unfold reserved. rewrite Hl by (unfold heads; set_solver). unfold heap; cbn.
    by rewrite !decide_False by lia.
  - rewrite Hfi. unfold st1; cbn. by rewrite fn_lookup_insert.
  - eexists _, _, _. split; [done|]. right. exists heap. split_and!; try done.
    rewrite Ea. unfold descs. by rewrite length_fmap, length_seqZ.
Qed.

Lemma PAGE_CONTAIN_bounds size :
  0 < size < 4294967296 →
  is_u32 (PAGE_CONTAIN size) ∧ 0 < PAGE_CONTAIN size ∧ size ≤ 4096 * PAGE_CONTAIN size.
Proof.
  intros Hs. unfold PAGE_CONTAIN, is_u32. change PAGE_SIZE with 4096.
  rewrite u32_small by (unfold is_u32; zbool_step; dlia). zbool_step; dlia.
Qed.

Lemma init_heap_spec size st :
  fs_ok (k_frames st) → 0 < size < 4294967296 →
  ∃ rc o st', init_heap size st = Ret (rc, o, st') ∧
    ((rc = 1 ∧ o = None) ∨
     (∃ heap, rc = 0 ∧ o = Some heap ∧ heap_end heap = heap_start heap + size ∧
        heap_wf heap st' ∧ free_regions heap st' = [(heap_start heap, size)] ∧
        res_regions heap st' = [] ∧ length (avails heap st') = 252%nat)).
Proof.
  intros Hok Hsz. unfold init_heap. destruct (PAGE_CONTAIN_bounds size Hsz) as (P1&P2&P3).
  destruct (fs_alloc_spec (k_frames st) (PAGE_CONTAIN size) Hok P1) as (q&f&Ha&Hok'&Hq).
  rewrite Ha. cbn [mbind res_bind]. destruct (Z.eqb_spec q NULL) as [->|Hq0].
  { eexists _, _, _. split; [done|by left]. }
  destruct Hq as [[? _]|(Q0&_&_&Qtop&_)]; [done|].
  rewrite u32_small by (unfold is_u32; lia).
  destruct (HEAP_FB_spec q (q + size) (set_frames f st)) as (rc&o&st'&->&Hc);
    [done|lia|lia|].
  eexists _, _, _. split; [done|].
  destruct Hc as [(->&->&_)|(heap&->&->&E1&E2&Hw&Ef&Er&Ea)]; [by left|right].
  exists heap. rewrite E1, E2. split_and!; try done.
  rewrite Ef. by replace (q + size - q) with size by lia.
Qed.

Lemma heap_asserts heap st :
  heap_wf heap st → negb (heap_start heap =? 0) && negb (heap_end heap =? 0) = true.
Proof.
  intros Hw. destruct (wf_area _ _ Hw) as [Hs _].
  destruct (wf_tiles _ _ Hw) as (l&_&Hle%contiguous_le). zbool.
Qed.

Lemma kmalloc_unfold heap st size :
  heap_wf heap st → kmalloc size heap st = __kmalloc size heap st.
Proof. intros Hw. unfold kmalloc. by rewrite (heap_asserts _ _ Hw). Qed.

Lemma kfree_unfold heap st p :
  heap_wf heap st → kfree p heap st = Ret (__kfree p heap st).
Proof. intros Hw. unfold kfree. by rewrite (heap_asserts _ _ Hw). Qed.

(** The heap does not mind that others draw frames too. *)
Lemma heap_wf_frames heap st f :
  heap_wf heap st → fs_ok f → (∀ a, fs_live (k_frames st) a → fs_live f a) →
  heap_wf heap (set_frames f st).
Proof.
  intros [[H1 H2 H3 _] ? ? ?] Hok Hlive. split; try done. split; try done.
  intros x Hx. destruct (H3 x Hx) as (?&?&?). split; [done|]. split; [done|by apply Hlive].
Qed.

(** ** Sequences of calls *)

Inductive heap_op : Type := Kmalloc (size : Z) | Kfree (p : Z).

Definition heap_call heap (o : heap_op) st : res (Z * kmem F) :=
  match o with Kmalloc size => kmalloc size heap st | Kfree p => kfree p heap st end.

Fixpoint heap_calls heap (ops : list heap_op) st : res (list Z * kmem F) :=
  match ops with
  | [] => Ret ([], st)
  | o :: ops =>
      '(r, st) ← heap_call heap o st;
      '(rs, st) ← heap_calls heap ops st;
      Ret (r :: rs, st)
  end.

Definition valid_op (o : heap_op) : Prop :=
  match o with Kmalloc size => 0 < size < 4294967296 | Kfree _ => True end.

Lemma heap_calls_wf heap ops : ∀ st,
  heap_wf heap st → Forall valid_op ops →
  ∃ rs st', heap_calls heap ops st = Ret (rs, st') ∧ heap_wf heap st' ∧
            length rs = length ops.
Proof.
  induction ops as [|o ops IH]; intros st Hw Hv; [by eexists _, _|].
  apply Forall_cons in Hv as [Ho Hv]. cbn [heap_calls].
  assert (Hc : ∃ r st', heap_call heap o st = Ret (r, st') ∧ heap_wf heap st').
  { destruct o as [size|p]; cbn.
    - rewrite (kmalloc_unfold _ _ _ Hw).
      destruct (__kmalloc_spec heap st size Hw Ho) as (p&st'&E&Hw'&_). eauto.
    - rewrite (kfree_unfold _ _ _ Hw).
      destruct (__kfree_spec heap st p Hw) as (rc&st'&E&Hw'&_). rewrite E. eauto. }
  destruct Hc as (r&st'&->&Hw'). cbn [mbind res_bind].
  destruct (IH st' Hw' Hv) as (rs&st''&->&Hw''&Hl). cbn.
  eexists _, _. split; [done|]. split; [done|]. cbn. lia.
Qed.

(** Freeing what was carved off the front of a free region. *)
Lemma release_remainder s e size p n Fr Rs :
  tiles s ((p, n) :: Fr ++ Rs) e → coalesced ((p, n) :: Fr) → 0 < size ≤ n →
  release p size (remainder size (p, n) ++ Fr) = (p, n) :: Fr.
Proof.
  intros Ht Hc Hsz. unfold remainder; cbn [fst snd].
  assert (Hap : ∀ q, q ∈ Fr → q.1 + q.2 ≠ p ∧ q.1 ≠ p + size).
  { intros q Hq. split; [by apply (Hc q (p, n)); [right|left]|]. destruct q as [qb qn]; cbn.
    assert (Hq2 : 0 < qn) by (eapply (tiles_bounds _ _ _ qb qn Ht); set_solver).
    assert (Hne : p + n ≠ qb) by (apply (Hc (p, n) (qb, qn)); [left|by right]).
    apply list_elem_of_split in Hq as (l1&l2&->).
    rewrite <- app_assoc in Ht. cbn in Ht. rewrite <- Permutation_middle in Ht.
    apply tiles_apart in Ht. lia. }
  destruct (Z.eqb_spec size n) as [->|Hne].
  - change ([] ++ Fr) with (opt_list None ++ opt_list None ++ Fr).
    rewrite release_neighbours; [|set_solver..].
    cbn. f_equal. unfold total; cbn. f_equal; lia.
  - change ([(p + size, n - size)] ++ Fr)
      with (opt_list None ++ opt_list (Some (p + size, n - size)) ++ Fr).
    rewrite release_neighbours.
    + cbn. f_equal. unfold total; cbn. f_equal; lia.
    + intros r Hr. apply (Hap r Hr).
    + set_solver.
    + intros r ->%list_elem_of_singleton. unfold ends_at, starts_at; cbn. lia.
Qed.
End HeapInvariant.

(** ** The properties of the heap *)

(** [init_heap] on a consistent frame allocator returns; it either fails
    with 1, or sets up a well-formed heap of the requested size, all of it one
    free block, with the remaining 252 descriptors of its metadata page
    available. *)
Theorem init_heap_correct {F} `{FrameSource F} size (st : kmem F) :
  fs_ok (k_frames st) → 0 < size < 4294967296 →
  ∃ rc o st', init_heap size st = Ret (rc, o, st') ∧
    ((rc = 1 ∧ o = None) ∨
     (∃ heap, rc = 0 ∧ o = Some heap ∧ heap_end heap = heap_start heap + size ∧
        heap_wf heap st' ∧ free_regions heap st' = [(heap_start heap, size)] ∧
        res_regions heap st' = [] ∧ length (avails heap st') = 252%nat)).
Proof. apply init_heap_spec. Qed.

(** The heap memory of the examples: the frame allocator of [mm_demo]. *)
Definition kmem_demo : kmem (mmc_t * mem) := Kmem mm_demo (λ _, (0, 0)) ∅.

Lemma init_heap_correct_witness :
  fs_ok (k_frames kmem_demo) ∧
  ∃ rc o st', init_heap 0x2000 kmem_demo = Ret (rc, o, st').
Proof.
  split; [exact mm_demo_wf|].
  destruct (init_heap_correct 0x2000 kmem_demo) as (rc&o&st'&E&_);
    [exact mm_demo_wf|clear; lia|].
  exists rc, o, st'. exact E.
Defined.

Lemma heap_demo :
  ∃ heap st, init_heap 0x2000 kmem_demo = Ret (0, Some heap, st) ∧ heap_wf heap st ∧
    free_regions heap st = [(heap_start heap, 0x2000)] ∧ avails heap st ≠ [].
Proof.
  destruct (init_heap_spec 0x2000 kmem_demo) as (rc&o&st'&E&Hc); [exact mm_demo_wf|lia|].
  assert (Hrc : match init_heap 0x2000 kmem_demo with Ret (r, _, _) => r | _ => 7 end = 0)
    by (vm_compute; reflexivity).
  rewrite E in Hrc. destruct Hc as [[-> _]|(heap&->&->&_&Hw&Hf&_&Ha)]; [done|].
  exists heap, st'. split_and!; [done..|]. by destruct (avails heap st').
Qed.

(** C9: [kmalloc] of a positive size on a well-formed heap returns and keeps
    the heap well formed. It hands out the front of a smallest sufficient free
    block, which becomes reserved with exactly the requested size while the
    rest stays free; it returns [NULL] without changing any block only if no
    free block suffices, or no descriptor and no frame for more are left. *)
Theorem kmalloc_correct {F} `{FrameSource F} heap (st : kmem F) size :
  heap_wf heap st → 0 < size < 4294967296 →
  ∃ p st', kmalloc size heap st = Ret (p, st') ∧ heap_wf heap st' ∧
    ((∃ n Fr, best_fit size (free_regions heap st) (p, n) ∧
        free_regions heap st ≡ₚ (p, n) :: Fr ∧
        free_regions heap st' ≡ₚ remainder size (p, n) ++ Fr ∧
        res_regions heap st' = (p, size) :: res_regions heap st) ∨
     (p = NULL ∧ free_regions heap st' = free_regions heap st ∧
        res_regions heap st' = res_regions heap st ∧
        ((∀ r, r ∈ free_regions heap st → r.2 < size) ∨
         (avails heap st = [] ∧ fs_alloc (k_frames st) 1 = Ret (NULL, k_frames st'))))).
Proof. intros Hw Hs. rewrite (kmalloc_unfold _ _ _ Hw). by apply __kmalloc_spec. Qed.

Lemma kmalloc_correct_witness :
  ∃ heap (st : kmem (mmc_t * mem)) p st',
    heap_wf heap st ∧ kmalloc 24 heap st = Ret (p, st') ∧ heap_wf heap st'.
Proof.
  destruct heap_demo as (heap&st&_&Hw&_).
  destruct (kmalloc_correct heap st 24) as (p&st'&E&Hw'&_); [exact Hw|lia|].
  exists heap, st, p, st'. split; [exact Hw|]. split; [exact E|exact Hw'].
Defined.

(** C10: [kfree] on a well-formed heap returns and keeps the heap well formed.
    The base of a reserved block releases that block, merged with its free
    neighbours on both sides, and returns 0; any other pointer returns 1 and
    changes nothing. *)
Theorem kfree_correct {F} `{FrameSource F} heap (st : kmem F) p :
  heap_wf heap st →
  ∃ rc st', kfree p heap st = Ret (rc, st') ∧ heap_wf heap st' ∧
    ((rc = 1 ∧ st' = st ∧ p ∉ (res_regions heap st).*1) ∨
     (rc = 0 ∧ ∃ n, res_regions heap st ≡ₚ (p, n) :: res_regions heap st' ∧
        free_regions heap st' ≡ₚ release p n (free_regions heap st))).
Proof.
  intros Hw. rewrite (kfree_unfold _ _ _ Hw).
  destruct (__kfree_spec heap st p Hw) as (rc&st'&->&Hpost). eauto.
Qed.

Lemma kfree_correct_witness :
  ∃ heap (st : kmem (mmc_t * mem)) rc st',
    heap_wf heap st ∧ kfree 0x2000 heap st = Ret (rc, st') ∧ heap_wf heap st'.
Proof.
  destruct heap_demo as (heap&st&_&Hw&_).
  destruct (kfree_correct heap st 0x2000) as (rc&st'&E&Hw'&_); [exact Hw|].
  exists heap, st, rc, st'. split; [exact Hw|]. split; [exact E|exact Hw'].
Defined.

(** [kfree] undoes [kmalloc]: after a successful allocation, releasing the
    returned pointer succeeds and gives back exactly the free and reserved
    blocks there were. *)
Theorem kfree_undoes_kmalloc {F} `{FrameSource F} heap (st : kmem F) size p st' :
  heap_wf heap st → 0 < size < 4294967296 →
  kmalloc size heap st = Ret (p, st') → p ≠ NULL →
  ∃ st'', kfree p heap st' = Ret (0, st'') ∧ heap_wf heap st'' ∧
    free_regions heap st'' ≡ₚ free_regions heap st ∧
    res_regions heap st'' ≡ₚ res_regions heap st.
Proof.
  intros Hw Hs E Hp. rewrite (kmalloc_unfold _ _ _ Hw) in E.
  destruct (__kmalloc_spec heap st size Hw Hs) as (q&st1&E1&Hw1&Hc).
  rewrite E in E1. injection E1 as <- <-.
  destruct Hc as [(n&Fr&(_&Hn&_)&H1&H2&H3)|[? _]]; [cbn in Hn|done].
  rewrite (kfree_unfold _ _ _ Hw1).
  destruct (__kfree_spec heap st' p Hw1) as (rc&st2&->&Hw2&[(_&_&Hnp)|(->&k&R1&R2)]).
  { destruct Hnp. rewrite H3. left. }
  assert (k = size) as ->.
  { assert (Hin : (p, k) ∈ res_regions heap st') by (rewrite R1; left).
    rewrite H3 in Hin. apply elem_of_cons in Hin as [[=]|Hin]; [done|].
    pose proof (wf_tiles _ _ Hw1) as Ht. rewrite H3 in Ht.
    rewrite <- Permutation_middle in Ht.
    exfalso. apply (tiles_unique_start _ _ _ _ (p, k) Ht); [|done].
    apply elem_of_app. by right. }
  exists st2. split; [done|]. split; [done|]. split.
  - rewrite R2, H2, H1. pose proof (wf_tiles _ _ Hw) as Ht. pose proof (wf_coalesced _ _ Hw) as Hc.
    rewrite H1 in Ht, Hc. by erewrite (release_remainder _ _ size p n Fr); [|done|done|lia].
  - rewrite H3 in R1. by apply Permutation_cons_inv in R1.
Qed.

Lemma kfree_undoes_kmalloc_witness :
  ∃ heap (st : kmem (mmc_t * mem)) p st' st'',
    kmalloc 24 heap st = Ret (p, st') ∧ kfree p heap st' = Ret (0, st'') ∧
    free_regions heap st'' ≡ₚ free_regions heap st.
Proof.
  destruct heap_demo as (heap&st&_&Hw&Hf&Hav).
  destruct (__kmalloc_spec heap st 24 Hw ltac:(lia)) as (p&st'&E&Hw'&Hc).
  rewrite <- (kmalloc_unfold _ _ _ Hw) in E.
  assert (Hp : p ≠ NULL).
  { destruct Hc as [(n&Fr&(Hb&_)&_)|(_&_&_&Hc)].
    - pose proof (wf_area _ _ Hw) as [Ha _]. rewrite Hf in Hb.
      apply list_elem_of_singleton in Hb. injection Hb as -> _. unfold NULL. lia.
    - exfalso. destruct Hc as [Hc|[Hc _]].
      + rewrite Hf in Hc. specialize (Hc _ ltac:(left)). cbn in Hc. lia.
      + by rewrite Hc in Hav. }
  destruct (kfree_undoes_kmalloc heap st 24 p st') as (st''&E'&_&H1&_);
    [exact Hw|lia|exact E|exact Hp|].
  exists heap, st, p, st', st''. split; [exact E|]. split; [exact E'|exact H1].
Defined.


