(* ===== verification/CString.v ===== *)
(** * Memory and string functions: [src/string.c]

    Memory is byte addressed: a cell holds a byte [0..255]. A [char] is signed,
    so a byte read as an integer goes through [s8]. Pointers are 32-bit and
    wrap. The loops counted by a length recurse on it; the loops that look for
    a terminating NUL take fuel. *)
From S2P Require Import Prelude.

Definition ptr_inc (p : Z) : Z := u32 (p + 1).
Definition ptr_dec (p : Z) : Z := u32 (p - 1).

Fixpoint memcpy_loop (len : nat) (dest src : Z) (m : mem) : mem :=
  match len with
  | O => m
  | S len => memcpy_loop len (ptr_inc dest) (ptr_inc src) (<[dest := m src]> m)
  end.

(** [void memcpy(char *dest, const char *src, _u32 len)] *)
Definition memcpy (dest src len : Z) (m : mem) : mem :=
  memcpy_loop (Z.to_nat len) dest src m.

Fixpoint memset_loop (len : nat) (dst val : Z) (m : mem) : mem :=
  match len with
  | O => m
  | S len => memset_loop len (ptr_inc dst) val (<[dst := val]> m)
  end.

(** [void memset(void *dest, char val, _u32 len)] *)
Definition memset (dest val len : Z) (m : mem) : mem :=
  memset_loop (Z.to_nat len) dest (u8 val) m.

Fixpoint memcmp_loop (n : nat) (s1 s2 : Z) (m : mem) : Z :=
  match n with
  | O => 0
  | S n =>
      if negb (m s1 =? m s2) then s8 (m s1) - s8 (m s2)
      else memcmp_loop n (ptr_inc s1) (ptr_inc s2) m
  end.

(** [int memcmp(const void *v1, const void *v2, size_t n)] *)
Definition memcmp (v1 v2 n : Z) (m : mem) : Z := memcmp_loop (Z.to_nat n) v1 v2 m.

(** [while (n-- > 0) *--d = *--s;] *)
Fixpoint memmove_down (n : nat) (d s : Z) (m : mem) : mem :=
  match n with
  | O => m
  | S n => memmove_down n (ptr_dec d) (ptr_dec s) (<[ptr_dec d := m (ptr_dec s)]> m)
  end.

(** [while (n-- > 0) *d++ = *s++;] *)
Fixpoint memmove_up (n : nat) (d s : Z) (m : mem) : mem :=
  match n with
  | O => m
  | S n => memmove_up n (ptr_inc d) (ptr_inc s) (<[d := m s]> m)
  end.

(** [void *memmove(void *dst, const void *src, size_t n)] *)
Definition memmove (dst src n : Z) (m : mem) : Z * mem :=
  if (src <? dst) && (dst <? u32 (src + n))
  then (dst, memmove_down (Z.to_nat n) (u32 (dst + n)) (u32 (src + n)) m)
  else (dst, memmove_up (Z.to_nat n) dst src m).

(** [void bzero(void *dest, _u32 len)] *)
Definition bzero (dest len : Z) (m : mem) : mem := memset dest 0 len m.

(** [while ( *str1 && *str2 && ( *str1++ == *str2++ )) ;] Both pointers have
    moved past a pair that differs when the loop ends there. *)
Fixpoint strcmp_loop (fuel : nat) (str1 str2 : Z) (m : mem) : res (Z * Z) :=
  match fuel with
  | O => Diverge
  | S fuel =>
      if negb (m str1 =? 0) && negb (m str2 =? 0) then
        if m str1 =? m str2 then strcmp_loop fuel (ptr_inc str1) (ptr_inc str2) m
        else Ret (ptr_inc str1, ptr_inc str2)
      else Ret (str1, str2)
  end.

(** [int strcmp(const char *str1, const char *str2)] *)
Definition strcmp (fuel : nat) (str1 str2 : Z) (m : mem) : res Z :=
  '(str1, str2) ← strcmp_loop fuel str1 str2 m;
  if (m str1 =? 0) && (m str2 =? 0) then Ret 0
  else if m str1 =? 0 then Ret (-1)
  else Ret 1.

Fixpoint strcpy_loop (fuel : nat) (dest src : Z) (m : mem) : res (Z * mem) :=
  match fuel with
  | O => Diverge
  | S fuel =>
      if negb (m src =? 0)
      then strcpy_loop fuel (ptr_inc dest) (ptr_inc src) (<[dest := m src]> m)
      else Ret (dest, m)
  end.

(** [char *strcpy(char *dest, const char *src)] *)
Definition strcpy (fuel : nat) (dest src : Z) (m : mem) : res (Z * mem) :=
  '(d, m) ← strcpy_loop fuel dest src m;
  Ret (dest, <[d := 0]> m).

(** [while ( *cp) cp++;] *)
Fixpoint find_nul (fuel : nat) (cp : Z) (m : mem) : res Z :=
  match fuel with
  | O => Diverge
  | S fuel => if negb (m cp =? 0) then find_nul fuel (ptr_inc cp) m else Ret cp
  end.

(** [while (( *cp++ = *src++ )) ;] *)
Fixpoint strcat_copy (fuel : nat) (cp src : Z) (m : mem) : res mem :=
  match fuel with
  | O => Diverge
  | S fuel =>
      let c := m src in
      let m := <[cp := c]> m in
      if negb (c =? 0) then strcat_copy fuel (ptr_inc cp) (ptr_inc src) m else Ret m
  end.

(** [char *strcat(char *dest, const char *src)] *)
Definition strcat (fuel : nat) (dest src : Z) (m : mem) : res (Z * mem) :=
  cp ← find_nul fuel dest m;
  m ← strcat_copy fuel cp src m;
  Ret (dest, m).

(** [while ( *eos++) ;] *)
Fixpoint strlen_loop (fuel : nat) (eos : Z) (m : mem) : res Z :=
  match fuel with
  | O => Diverge
  | S fuel =>
      if negb (m eos =? 0) then strlen_loop fuel (ptr_inc eos) m else Ret (ptr_inc eos)
  end.

(** [int strlen(const char *src)] *)
Definition strlen (fuel : nat) (src : Z) (m : mem) : res Z :=
  eos ← strlen_loop fuel src m;
  Ret (s32 (eos - src - 1)).

(** ** Blocks of bytes and strings in memory *)

(** The bytes [l] are at [p]. *)
Definition bytes_at (m : mem) (p : Z) (l : list Z) : Prop :=
  ∀ i c, l !! i = Some c → m (p + Z.of_nat i) = c.

(** [s] is the NUL-terminated string at [p]; it does not wrap around the end
    of memory. *)
Record cstr (m : mem) (p : Z) (s : list Z) : Prop := {
  cstr_low : 0 ≤ p;
  cstr_high : p + Z.of_nat (length s) + 1 < 4294967296;
  cstr_bytes : bytes_at m p s;
  cstr_chars : Forall (λ c, 0 < c < 256) s;
  cstr_nul : m (p + Z.of_nat (length s)) = 0;
}.

Lemma ptr_inc_small p : 0 ≤ p → p + 1 < 4294967296 → ptr_inc p = p + 1.
Proof. intros. apply u32_small. unfold is_u32; lia. Qed.

Lemma bytes_at_cons m p c l : bytes_at m p (c :: l) ↔ m p = c ∧ bytes_at m (p + 1) l.
Proof.
  unfold bytes_at. split.
  - intros H. split; [by rewrite <- (H 0%nat c), Z.add_0_r|].
    intros i d Hi. rewrite <- (H (S i) d Hi). f_equal. lia.
  - intros [Hp H] [|i] d Hi; [injection Hi as <-; by rewrite Z.add_0_r|].
    rewrite <- (H i d Hi). f_equal. lia.
Qed.

Lemma cstr_nil m p : cstr m p [] ↔ 0 ≤ p ∧ p + 1 < 4294967296 ∧ m p = 0.
Proof.
  split.
  - intros [H1 H2 _ _ H3]. cbn in *. rewrite Z.add_0_r in *. done.
  - intros (?&?&?). split; cbn; rewrite ?Z.add_0_r; [done..|intros i c; set_solver|done|done].
Qed.

Lemma cstr_cons m p c s :
  cstr m p (c :: s) ↔
  0 ≤ p ∧ p + 1 < 4294967296 ∧ m p = c ∧ 0 < c < 256 ∧ cstr m (p + 1) s.
Proof.
  split.
  - intros [H1 H2 [H3 H3']%bytes_at_cons [H4 H4']%Forall_cons H5].
    cbn [length] in *. split_and!; try done; try lia.
    split; [lia..|done|done|]. rewrite <- H5. f_equal. lia.
  - intros (H1&H2&H3&H4&[H5 H6 H7 H8 H9]). split; cbn [length].
    + done.
    + lia.
    + by apply bytes_at_cons.
    + by constructor.
    + rewrite <- H9. f_equal. lia.
Qed.

(** ** Copying *)

Lemma memmove_up_memcpy n d s m : memmove_up n d s m = memcpy_loop n d s m.
Proof. revert d s m. induction n as [|n IH]; intros; cbn; [done|apply IH]. Qed.

Definition no_wrap (p : Z) (n : Z) : Prop := 0 ≤ p ∧ 0 ≤ n ∧ p + n < 4294967296.

(** Where a forward copy takes the byte of [a] from: with [src] below [dest] the
    first [dest - src] bytes are repeated. *)
Definition copy_source (dest src a : Z) : Z :=
  if src <? dest then src + (a - dest) `mod` (dest - src) else src + (a - dest).

Lemma copy_source_step dest src a :
  dest < a →
  copy_source (dest + 1) (src + 1) a =
  if decide (copy_source dest src a = src ∧ src < dest) then dest else copy_source dest src a.
Proof.
  intros Ha. unfold copy_source.
  replace (src + 1 <? dest + 1) with (src <? dest) by zbool.
  destruct (Z.ltb_spec src dest); [|rewrite decide_False by lia; lia].
  replace (dest + 1 - (src + 1)) with (dest - src) by lia.
  set (k := dest - src). assert (Hk : 0 < k) by lia.
  pose proof (Z.mod_pos_bound (a - (dest + 1)) k Hk) as B.
  pose proof (Z.mod_pos_bound (a - dest) k Hk) as B'.
  destruct (decide ((a - (dest + 1)) `mod` k = k - 1)) as [E|E].
  - assert ((a - dest) `mod` k = 0) as ->.
    { symmetry. apply (Z.mod_unique _ _ ((a - (dest + 1)) / k + 1)); [lia|].
      pose proof (Z.div_mod (a - (dest + 1)) k ltac:(lia)). lia. }
    rewrite decide_True by lia. lia.
  - assert (E' : (a - dest) `mod` k = (a - (dest + 1)) `mod` k + 1).
    { symmetry. apply (Z.mod_unique _ _ ((a - (dest + 1)) / k)); [lia|].
      pose proof (Z.div_mod (a - (dest + 1)) k ltac:(lia)). lia. }
    rewrite decide_False by lia. lia.
Qed.

Lemma memcpy_loop_spec n : ∀ dest src m a,
  no_wrap dest (Z.of_nat n) → no_wrap src (Z.of_nat n) →
  memcpy_loop n dest src m a =
  if decide (dest ≤ a < dest + Z.of_nat n) then m (copy_source dest src a) else m a.
Proof.
  induction n as [|n IH]; intros dest src m a Hd Hs; cbn [memcpy_loop].
  { rewrite decide_False by lia. done. }
  unfold no_wrap in *. rewrite !ptr_inc_small by lia. rewrite IH by lia.
  destruct (decide (a = dest)) as [->|Ha].
  { rewrite decide_False, decide_True, fn_lookup_insert by lia. f_equal.
    unfold copy_source. rewrite Z.sub_diag. zbool_step; [|lia].
    rewrite Z.mod_0_l by lia. lia. }
  destruct (decide (dest ≤ a < dest + Z.of_nat (S n))) as [Hr|Hr]; last first.
  { rewrite decide_False by lia. by rewrite fn_lookup_insert_ne. }
  rewrite decide_True, copy_source_step by lia. case_decide as Hc.
  { rewrite fn_lookup_insert. by destruct Hc as [-> _]. }
  rewrite fn_lookup_insert_ne; [done|]. unfold copy_source in *.
  destruct (Z.ltb_spec src dest); [|lia].
  pose proof (Z.mod_pos_bound (a - dest) (dest - src) ltac:(lia)). lia.
Qed.

(** A copy to a lower address, or between disjoint ranges, is exact. *)
Lemma memcpy_loop_exact n dest src m a :
  no_wrap dest (Z.of_nat n) → no_wrap src (Z.of_nat n) →
  dest ≤ src ∨ src + Z.of_nat n ≤ dest →
  memcpy_loop n dest src m a =
  if decide (dest ≤ a < dest + Z.of_nat n) then m (src + (a - dest)) else m a.
Proof.
  intros Hd Hs Ho. rewrite memcpy_loop_spec by done. case_decide as Ha; [|done].
  f_equal. unfold copy_source. zbool_step; [|done]. rewrite Z.mod_small; lia.
Qed.

Lemma memmove_down_spec n : ∀ d s m a,
  no_wrap (d - Z.of_nat n) (Z.of_nat n) → no_wrap (s - Z.of_nat n) (Z.of_nat n) → s < d →
  memmove_down n d s m a =
  if decide (d - Z.of_nat n ≤ a < d) then m (s + (a - d)) else m a.
Proof.
  induction n as [|n IH]; intros d s m a Hd Hs Ho; cbn [memmove_down].
  { rewrite decide_False by lia. done. }
  unfold no_wrap, ptr_dec in *. rewrite !u32_small by (unfold is_u32; lia).
  rewrite IH by lia. destruct (decide (a = d - 1)) as [->|Ha].
  { rewrite decide_False, decide_True, fn_lookup_insert by lia. f_equal. lia. }
  destruct (decide (d - Z.of_nat (S n) ≤ a < d)).
  - rewrite decide_True, fn_lookup_insert_ne by lia. f_equal. lia.
  - rewrite decide_False, fn_lookup_insert_ne by lia. done.
Qed.

Lemma memset_loop_spec n : ∀ dst v m a,
  no_wrap dst (Z.of_nat n) →
  memset_loop n dst v m a = if decide (dst ≤ a < dst + Z.of_nat n) then v else m a.
Proof.
  induction n as [|n IH]; intros dst v m a Hd; cbn [memset_loop].
  { rewrite decide_False by lia. done. }
  unfold no_wrap in *. rewrite ptr_inc_small by lia. rewrite IH by lia.
  destruct (decide (a = dst)) as [->|Ha].
  { rewrite decide_False, decide_True, fn_lookup_insert by lia. done. }
  rewrite fn_lookup_insert_ne by done. repeat case_decide; lia || done.
Qed.

Lemma memcmp_loop_spec n : ∀ s1 s2 m,
  no_wrap s1 (Z.of_nat n) → no_wrap s2 (Z.of_nat n) →
  (∃ i, 0 ≤ i < Z.of_nat n ∧ m (s1 + i) ≠ m (s2 + i) ∧
     (∀ j, 0 ≤ j < i → m (s1 + j) = m (s2 + j)) ∧
     memcmp_loop n s1 s2 m = s8 (m (s1 + i)) - s8 (m (s2 + i))) ∨
  ((∀ j, 0 ≤ j < Z.of_nat n → m (s1 + j) = m (s2 + j)) ∧ memcmp_loop n s1 s2 m = 0).
Proof.
  induction n as [|n IH]; intros s1 s2 m H1 H2; cbn [memcmp_loop].
  { right. split; [lia|done]. }
  unfold no_wrap in *. destruct (Z.eqb_spec (m s1) (m s2)) as [E|E]; cbn [negb].
  - rewrite !ptr_inc_small by lia.
    assert (Hsh : ∀ j, m (s1 + 1 + j) = m (s1 + (j + 1)) ∧ m (s2 + 1 + j) = m (s2 + (j + 1)))
      by (intros; split; f_equal; lia).
    assert (Hj : ∀ k, (∀ j, 0 ≤ j < k → m (s1 + 1 + j) = m (s2 + 1 + j)) →
                      ∀ j, 0 ≤ j < k + 1 → m (s1 + j) = m (s2 + j)).
    { intros k Hk j Hj. destruct (decide (j = 0)) as [->|]; [by rewrite !Z.add_0_r|].
      specialize (Hk (j - 1) ltac:(lia)). destruct (Hsh (j - 1)) as [-> ->] in Hk.
      by replace (j - 1 + 1) with j in Hk by lia. }
    destruct (IH (s1 + 1) (s2 + 1) m) as [(i&Hi&Hne&Hall&->)|[Hall ->]]; [lia..| |].
    + left. exists (i + 1). destruct (Hsh i) as [<- <-]. split_and!; try done; try lia.
      by apply Hj.
    + right. split; [|done]. intros j Hj'. apply (Hj (Z.of_nat n)); [done|lia].
  - left. exists 0. rewrite !Z.add_0_r. split_and!; try done; lia.
Qed.

(** ** Strings *)

Lemma cstr_ext m m' p s :
  (∀ a, p ≤ a ≤ p + Z.of_nat (length s) → m' a = m a) → cstr m p s → cstr m' p s.
Proof.
  intros Hm [H1 H2 H3 H4 H5]. split; try done; [|rewrite Hm; [done|lia]].
  intros i c Hi. rewrite Hm; [by apply H3|]. apply lookup_lt_Some in Hi. lia.
Qed.

Lemma find_nul_spec s : ∀ fuel p m,
  cstr m p s → (length s < fuel)%nat → find_nul fuel p m = Ret (p + Z.of_nat (length s)).
Proof.
  induction s as [|c s IH]; intros [|fuel] p m Hc Hf; cbn in Hf; try lia; cbn [find_nul].
  - apply cstr_nil in Hc as (_&_&->). cbn. by rewrite Z.add_0_r.
  - apply cstr_cons in Hc as (?&?&->&?&Hc). rewrite (proj2 (Z.eqb_neq c 0)) by lia. cbn [negb].
    rewrite ptr_inc_small by lia. rewrite (IH _ _ _ Hc) by lia. f_equal. cbn [length]. lia.
Qed.

Lemma strlen_loop_find_nul fuel : ∀ p m,
  strlen_loop fuel p m = (q ← find_nul fuel p m; Ret (ptr_inc q)).
Proof.
  induction fuel as [|fuel IH]; intros; cbn; [done|]. destruct (negb _); [apply IH|done].
Qed.

(** The two string-copying loops are a [memcpy] of the string's length. *)
Lemma strcpy_loop_memcpy s : ∀ fuel dest src m,
  cstr m src s → no_wrap dest (Z.of_nat (length s) + 1) →
  dest ≤ src ∨ src + Z.of_nat (length s) < dest → (length s < fuel)%nat →
  strcpy_loop fuel dest src m =
  Ret (dest + Z.of_nat (length s), memcpy_loop (length s) dest src m).
Proof.
  induction s as [|c s IH]; intros [|fuel] dest src m Hc Hd Ho Hf; cbn in Hf; try lia;
    cbn [strcpy_loop].
  - apply cstr_nil in Hc as (_&_&->). cbn. by rewrite Z.add_0_r.
  - apply cstr_cons in Hc as (?&?&E&?&Hc). rewrite E.
    rewrite (proj2 (Z.eqb_neq c 0)) by lia. cbn [negb].
    unfold no_wrap in Hd. cbn [length] in *. rewrite !ptr_inc_small by lia.
    rewrite IH; try (unfold no_wrap; lia); try lia.
    + cbn [memcpy_loop]. rewrite !ptr_inc_small, E by lia. f_equal. f_equal. lia.
    + eapply cstr_ext; [|done]. intros a Ha. apply fn_lookup_insert_ne. lia.
Qed.

Lemma strcat_copy_memcpy s : ∀ fuel dest src m,
  cstr m src s → no_wrap dest (Z.of_nat (length s) + 1) →
  dest ≤ src ∨ src + Z.of_nat (length s) < dest → (length s < fuel)%nat →
  strcat_copy fuel dest src m = Ret (memcpy_loop (S (length s)) dest src m).
Proof.
  induction s as [|c s IH]; intros [|fuel] dest src m Hc Hd Ho Hf; cbn in Hf; try lia;
    cbn [strcat_copy].
  - apply cstr_nil in Hc as (_&_&E). rewrite E. cbn. by rewrite E.
  - apply cstr_cons in Hc as (?&?&E&?&Hc). rewrite E.
    rewrite (proj2 (Z.eqb_neq c 0)) by lia. cbn [negb].
    unfold no_wrap in Hd. cbn [length] in *. rewrite !ptr_inc_small by lia.
    rewrite IH; try (unfold no_wrap; lia); try lia.
    + change (memcpy_loop (S (S (length s))) dest src m) with
        (memcpy_loop (S (length s)) (ptr_inc dest) (ptr_inc src) (<[dest := m src]> m)).
      by rewrite !ptr_inc_small, E by lia.
    + eapply cstr_ext; [|done]. intros a Ha. apply fn_lookup_insert_ne. lia.
Qed.

(** A string copied with its NUL. *)
Lemma cstr_copy m m' src dest s :
  cstr m src s → no_wrap dest (Z.of_nat (length s) + 1) →
  (∀ a, dest ≤ a ≤ dest + Z.of_nat (length s) → m' a = m (src + (a - dest))) →
  cstr m' dest s.
Proof.
  intros [H1 H2 H3 H4 H5] Hd Hm. unfold no_wrap in Hd. split; try done; try lia.
  - intros i c Hi. pose proof (lookup_lt_Some _ _ _ Hi). rewrite Hm by lia.
    rewrite <- (H3 i c Hi). f_equal. lia.
  - rewrite Hm by lia. rewrite <- H5. f_equal. lia.
Qed.

Lemma cstr_app m p s t :
  cstr m p (s ++ t) ↔
  0 ≤ p ∧ bytes_at m p s ∧ Forall (λ c, 0 < c < 256) s ∧ cstr m (p + Z.of_nat (length s)) t.
Proof.
  revert p. induction s as [|c s IH]; intros p; cbn [app length].
  { rewrite Z.add_0_r. split; [|naive_solver]. intros H. split; [apply H|].
    split; [intros ??; set_solver|done]. }
  rewrite cstr_cons, IH, bytes_at_cons, Forall_cons.
  replace (p + 1 + Z.of_nat (length s)) with (p + Z.of_nat (S (length s))) by lia.
  split; [naive_solver|]. intros (?&[??]&[??]&Hc). split_and!; try done; try lia.
  pose proof (cstr_high _ _ _ Hc). lia.
Qed.

(** ** [strcmp] as a function of the two strings *)

Definition sign_of_ends (s t : list Z) : Z :=
  match s, t with [], [] => 0 | [], _ => -1 | _, _ => 1 end.

Fixpoint strcmp_fun (s t : list Z) : Z :=
  match s, t with
  | c :: s', d :: t' => if c =? d then strcmp_fun s' t' else sign_of_ends s' t'
  | _, _ => sign_of_ends s t
  end.

Lemma cstr_head m p s : cstr m p s → (m p =? 0) = match s with [] => true | _ => false end.
Proof.
  destruct s as [|c s]; [intros (_&_&->)%cstr_nil; done|].
  intros (_&_&->&?&_)%cstr_cons. zbool.
Qed.

Lemma strcmp_ends m p q s t :
  cstr m p s → cstr m q t →
  (if (m p =? 0) && (m q =? 0) then Ret 0 else if m p =? 0 then Ret (-1) else Ret 1)
  = Ret (sign_of_ends s t).
Proof.
  intros Hp Hq. rewrite (cstr_head _ _ _ Hp), (cstr_head _ _ _ Hq). by destruct s, t.
Qed.

Lemma strcmp_spec s : ∀ t fuel p q m,
  cstr m p s → cstr m q t → (length s < fuel)%nat →
  strcmp fuel p q m = Ret (strcmp_fun s t).
Proof.
  induction s as [|c s IH]; intros t [|fuel] p q m Hp Hq Hf; cbn [length] in Hf; try lia;
    unfold strcmp; cbn [strcmp_loop]; rewrite (cstr_head _ _ _ Hp), (cstr_head _ _ _ Hq).
  { cbn. rewrite (strcmp_ends _ _ _ [] t) by done. by destruct t. }
  destruct t as [|d t]; cbn [negb andb].
  { cbn [mbind res_bind]. by rewrite (strcmp_ends _ _ _ (c :: s) []). }
  apply cstr_cons in Hp as (?&?&->&?&Hp). apply cstr_cons in Hq as (?&?&->&?&Hq).
  rewrite !ptr_inc_small by lia. cbn [strcmp_fun].
  destruct (Z.eqb_spec c d); [by apply IH; [..|lia]|].
  cbn [mbind res_bind]. by apply strcmp_ends.
Qed.

Lemma strcmp_fun_zero s t :
  strcmp_fun s t = 0 ↔ s = t ∨ ∃ u c d, s = u ++ [c] ∧ t = u ++ [d].
Proof.
  revert t. induction s as [|c s IH]; intros [|d t]; cbn [strcmp_fun sign_of_ends].
  - naive_solver.
  - split; [done|]. intros [?|(u&?&?&?&?)]; [done|]. by destruct u.
  - split; [done|]. intros [?|(u&?&?&?&?)]; [done|]. by destruct u.
  - destruct (Z.eqb_spec c d) as [->|Hne].
    + rewrite IH. split.
      * intros [->|(u&e&f&->&->)]; [by left|right]. by exists (d :: u), e, f.
      * intros [[= ->]|([|x u]&e&f&[=]&[=])]; subst; [by left|by left|].
        right. eauto.
    + split.
      * destruct s, t; cbn; try done. intros _. right. by exists [], c, d.
      * intros [[=]|([|x u]&e&f&[=]&[=])]; subst; done.
Qed.

(** [memmove] byte by byte. *)
Lemma memmove_exact dst src n m a :
  no_wrap dst n → no_wrap src n →
  (memmove dst src n m).1 = dst ∧
  (memmove dst src n m).2 a =
    if decide (dst ≤ a < dst + n) then m (src + (a - dst)) else m a.
Proof.
  intros Hd Hs. unfold memmove. unfold no_wrap in *.
  rewrite !u32_small by (unfold is_u32; lia).
  destruct (Z.ltb_spec src dst); cbn [andb]; [destruct (Z.ltb_spec dst (src + n))|];
    (split; [done|]); cbn [snd].
  - rewrite memmove_down_spec by (unfold no_wrap; lia). rewrite Z2Nat.id by lia.
    replace (dst + n - n) with dst by lia. case_decide; [|done]. f_equal. lia.
  - rewrite memmove_up_memcpy, memcpy_loop_exact by (unfold no_wrap; lia).
    by rewrite Z2Nat.id by lia.
  - rewrite memmove_up_memcpy, memcpy_loop_exact by (unfold no_wrap; lia).
    by rewrite Z2Nat.id by lia.
Qed.

(** ** Properties *)

(** [memmove] copies exactly: whatever the overlap of the two ranges (not
    wrapping around the end of memory), every destination byte gets the value
    its source byte had before the call, no other byte changes, and [dst] is
    returned. *)
Theorem memmove_correct dst src n m a :
  no_wrap dst n → no_wrap src n →
  (memmove dst src n m).1 = dst ∧
  (memmove dst src n m).2 a =
    if decide (dst ≤ a < dst + n) then m (src + (a - dst)) else m a.
Proof. apply memmove_exact. Qed.

Lemma memmove_correct_witness :
  (memmove 0x1004 0x1000 16 (λ a, a `mod` 256)).2 0x1008 = 4.
Proof.
  destruct (memmove_correct 0x1004 0x1000 16 (λ a, a `mod` 256) 0x1008) as [_ ->];
    [unfold no_wrap; lia..|]. vm_compute. reflexivity.
Defined.

(** What [memcpy] (a forward byte loop) does for every pair of ranges: it
    copies exactly when the ranges are disjoint or the destination is below
    the source; with the destination inside the source range it repeats the
    first [dest - src] bytes. No byte outside the destination changes. *)
Theorem memcpy_exact dest src len m a :
  no_wrap dest len → no_wrap src len →
  memcpy dest src len m a =
    if decide (dest ≤ a < dest + len) then
      if decide (dest ≤ src ∨ src + len ≤ dest) then m (src + (a - dest))
      else m (src + (a - dest) `mod` (dest - src))
    else m a.
Proof.
  intros Hd Hs. unfold memcpy. unfold no_wrap in *.
  destruct (decide (dest ≤ src ∨ src + len ≤ dest)) as [Ho|Ho].
  - rewrite memcpy_loop_exact by (unfold no_wrap; lia). by rewrite Z2Nat.id by lia.
  - rewrite memcpy_loop_spec by (unfold no_wrap; lia). rewrite Z2Nat.id by lia.
    unfold copy_source. zbool_step; [done|lia].
Qed.

Lemma memcpy_exact_witness :
  memcpy 0x1004 0x1000 16 (λ a, a `mod` 256) 0x100b = 3 ∧
  memcpy 0x1000 0x1004 16 (λ a, a `mod` 256) 0x1003 = 7.
Proof.
  split.
  - rewrite (memcpy_exact 0x1004 0x1000 16 (λ a, a `mod` 256) 0x100b);
      [vm_compute; reflexivity|unfold no_wrap; lia..].
  - rewrite (memcpy_exact 0x1000 0x1004 16 (λ a, a `mod` 256) 0x1003);
      [vm_compute; reflexivity|unfold no_wrap; lia..].
Defined.

(** [memset] and [bzero] set exactly the given range, and [memcmp] returns 0
    precisely when the two ranges are equal, and otherwise the difference of
    the first pair of bytes that differ, read as signed chars. *)
Theorem memset_memcmp_correct p q n v m :
  no_wrap p n → no_wrap q n →
  (∀ a, memset p v n m a = if decide (p ≤ a < p + n) then u8 v else m a) ∧
  (∀ a, bzero p n m a = if decide (p ≤ a < p + n) then 0 else m a) ∧
  ((∃ i, 0 ≤ i < n ∧ m (p + i) ≠ m (q + i) ∧
      (∀ j, 0 ≤ j < i → m (p + j) = m (q + j)) ∧
      memcmp p q n m = s8 (m (p + i)) - s8 (m (q + i))) ∨
   ((∀ j, 0 ≤ j < n → m (p + j) = m (q + j)) ∧ memcmp p q n m = 0)).
Proof.
  intros Hp Hq. unfold bzero, memset, memcmp. unfold no_wrap in *.
  split_and!; [intros a; rewrite memset_loop_spec by (unfold no_wrap; lia)..|].
  - by rewrite Z2Nat.id by lia.
  - by rewrite Z2Nat.id by lia.
  - pose proof (memcmp_loop_spec (Z.to_nat n) p q m) as H. rewrite Z2Nat.id in H by lia.
    apply H; unfold no_wrap; lia.
Qed.

Lemma memset_memcmp_correct_witness :
  bzero 0x1000 16 (λ _, 7) 0x1005 = 0 ∧ memset 0x1000 300 16 (λ _, 7) 0x1005 = 44.
Proof.
  destruct (memset_memcmp_correct 0x1000 0x2000 16 300 (λ _, 7)) as (H1&H2&_);
    [unfold no_wrap; lia..|].
  split; [rewrite H2|rewrite H1]; vm_compute; reflexivity.
Defined.

(** [strcmp] on two NUL-terminated strings, exactly: it always returns, its
    result is that of [strcmp_fun] on the strings, and it is 0 for equal
    strings but also for strings of one length that differ in their last
    character only, because the loop steps past the characters that differ. *)
Theorem strcmp_exact m p q s t fuel :
  cstr m p s → cstr m q t → (length s < fuel)%nat →
  strcmp fuel p q m = Ret (strcmp_fun s t) ∧
  (strcmp fuel p q m = Ret 0 ↔ s = t ∨ ∃ u c d, s = u ++ [c] ∧ t = u ++ [d]).
Proof.
  intros Hp Hq Hf. rewrite (strcmp_spec s t fuel p q m) by done. split; [done|].
  rewrite <- strcmp_fun_zero. split; [by intros [=]|by intros ->].
Qed.

(** The strings "a" at 16 and "b" at 32. *)
Definition ab_demo : mem := <[16 := 97]> (<[32 := 98]> (λ _, 0)).

Lemma strcmp_exact_witness : strcmp 5 16 32 ab_demo = Ret 0.
Proof.
  apply (strcmp_exact ab_demo 16 32 [97] [98] 5).
  - apply cstr_cons. split_and!; try lia; [reflexivity|]. apply cstr_nil.
    split_and!; try lia; reflexivity.
  - apply cstr_cons. split_and!; try lia; [reflexivity|]. apply cstr_nil.
    split_and!; try lia; reflexivity.
  - cbn. lia.
  - right. exists [], 97, 98. split; reflexivity.
Defined.

(** [strlen], [strcpy] and [strcat] on NUL-terminated strings: with room at
    the destination and no overlap with the source, each returns; [strlen]
    gives the length, [strcpy] leaves a copy and [strcat] the concatenation at
    [dest], both return [dest], and no other byte changes. *)
Theorem string_copies_correct m dest src s t fuel :
  cstr m src s → cstr m dest t →
  no_wrap dest (Z.of_nat (length t + length s) + 1) →
  src + Z.of_nat (length s) < dest ∨ dest + Z.of_nat (length t + length s) < src →
  Z.of_nat (length s) < 2147483648 →
  (length s < fuel)%nat → (length t < fuel)%nat →
  strlen fuel src m = Ret (Z.of_nat (length s)) ∧
  (∃ m', strcpy fuel dest src m = Ret (dest, m') ∧ cstr m' dest s ∧
     ∀ a, ¬ (dest ≤ a ≤ dest + Z.of_nat (length s)) → m' a = m a) ∧
  (∃ m', strcat fuel dest src m = Ret (dest, m') ∧ cstr m' dest (t ++ s) ∧
     ∀ a, ¬ (dest ≤ a ≤ dest + Z.of_nat (length t + length s)) → m' a = m a).
Proof.
  intros Hs Ht Hd Ho Hlen Hf Hf'. unfold no_wrap in Hd.
  pose proof (cstr_low _ _ _ Hs). pose proof (cstr_high _ _ _ Hs). split_and!.
  - unfold strlen. rewrite strlen_loop_find_nul, (find_nul_spec s) by done. cbn [mbind res_bind].
    rewrite ptr_inc_small by lia. f_equal. unfold s32.
    rewrite u32_small by (unfold is_u32; lia). zbool_step; lia.
  - unfold strcpy. rewrite (strcpy_loop_memcpy s) by (try (unfold no_wrap; lia); try lia; done).
    cbn [mbind res_bind]. eexists. split; [done|].
    assert (Hm : ∀ a, (<[dest + Z.of_nat (length s) := 0]> (memcpy_loop (length s) dest src m)) a =
      if decide (dest ≤ a ≤ dest + Z.of_nat (length s)) then m (src + (a - dest)) else m a).
    { intros a. destruct (decide (a = dest + Z.of_nat (length s))) as [->|Ha].
      - rewrite fn_lookup_insert, decide_True by lia. rewrite <- (cstr_nul _ _ _ Hs). f_equal. lia.
      - rewrite fn_lookup_insert_ne by done. rewrite memcpy_loop_exact by (unfold no_wrap; lia).
        repeat case_decide; lia || done. }
    split.
    + apply (cstr_copy m _ src); [done|unfold no_wrap; lia|].
      intros a Ha. by rewrite Hm, decide_True.
    + intros a Ha. by rewrite Hm, decide_False.
  - unfold strcat. rewrite (find_nul_spec t) by done. cbn [mbind res_bind].
    rewrite (strcat_copy_memcpy s) by (try (unfold no_wrap; lia); try lia; done).
    cbn [mbind res_bind]. eexists. split; [done|].
    set (cp := dest + Z.of_nat (length t)).
    assert (Hm : ∀ a, memcpy_loop (S (length s)) cp src m a =
      if decide (cp ≤ a ≤ cp + Z.of_nat (length s)) then m (src + (a - cp)) else m a).
    { intros a. rewrite memcpy_loop_exact by (unfold no_wrap, cp; lia).
      repeat case_decide; lia || done. }
    split.
    + apply cstr_app. split_and!; [lia| |by apply Ht|].
      * intros i c Hi. pose proof (lookup_lt_Some _ _ _ Hi).
        rewrite Hm, decide_False by (unfold cp; lia). by apply (cstr_bytes _ _ _ Ht).
      * apply (cstr_copy m _ src); [done|unfold no_wrap; lia|].
        intros a Ha. fold cp in Ha |- *. by rewrite Hm, decide_True.
    + intros a Ha. rewrite Hm, decide_False by (unfold cp; lia). done.
Qed.

Lemma string_copies_correct_witness :
  strlen 5 16 ab_demo = Ret 1 ∧
  ∃ m', strcat 5 32 16 ab_demo = Ret (32, m') ∧ cstr m' 32 [98; 97].
Proof.
  destruct (string_copies_correct ab_demo 32 16 [97] [98] 5) as (H1&_&m'&H2&H3&_).
  - apply cstr_cons. split_and!; try lia; [reflexivity|]. apply cstr_nil.
    split_and!; try lia; reflexivity.
  - apply cstr_cons. split_and!; try lia; [reflexivity|]. apply cstr_nil.
    split_and!; try lia; reflexivity.
  - unfold no_wrap. cbn. lia.
  - cbn. lia.
  - cbn. lia.
  - cbn. lia.
  - cbn. lia.
  - split; [exact H1|]. exists m'. split; [exact H2|exact H3].
Defined.
