(* ===== verification/Paging.v ===== *)
(** * Paging: [include/paging.h] and the first half of [src/mm.c]

    Two-level 32-bit page tables kept in memory: a page directory and its
    tables are arrays of 1024 words. Memory has one cell per word here; the
    page-wide [bzero] and [memcpy] of [CString.v] act on all cells of a page and
    so on its words. [invlpg] and the control registers have no effect on
    memory. *)
From S2P Require Import Prelude CString MM.

(** ** [paging.h] *)

Definition PGD_BASE : Z := 0x00100000.
Definition PGD_MAX : Z := 5.
Definition PGD_IDX_KERNEL : Z := 0.

Definition PDE_INDEX (addr : Z) : Z := Z.land (Z.shiftr addr 22) 0x3FF.
Definition PTE_INDEX (addr : Z) : Z := Z.land (Z.shiftr addr 12) 0x3FF.

Definition K_SPACE_START : Z := 0x0.
Definition K_SPACE_END : Z := 0x1000000.
Definition K_HMEM_END : Z := 0xC0000000.

Definition PAGE_PRESENT : Z := 0x1.
Definition PAGE_WRITE : Z := 0x2.
Definition PAGE_USER : Z := 0x4.

(** [(_u32) p | PAGE_PRESENT | PAGE_WRITE | PAGE_USER] *)
Definition page_entry (p : Z) : Z :=
  Z.lor (Z.lor (Z.lor p PAGE_PRESENT) PAGE_WRITE) PAGE_USER.

(** [__virt_to_phys(pdir, va)] *)
Definition __virt_to_phys (m : mem) (pdir va : Z) : Z :=
  let __addr := Z.land (m (pdir + 4 * PDE_INDEX va)) PAGE_MASK in
  let __addr := Z.land (m (__addr + 4 * PTE_INDEX va)) PAGE_MASK in
  Z.lor __addr (Z.land va 0xFFF).

(** ** Mapping and unmapping *)

(** [static int __page_map(void *virt_addr, void *phys_addr,
    page_directory_t *pdir, mmc_t *mp, int flush)] *)
Definition __page_map (m : mem) (virt_addr phys_addr pdir : Z) (mp : mmc_t)
  : res (Z * mmc_t * mem) :=
  let pdep := pdir + 4 * PDE_INDEX virt_addr in
  '(ptp, mp, m) ←
    (if m pdep =? NULL then
       '(ptp, mp, m) ← alloc_frame m mp;
       let m := bzero ptp PAGE_SIZE m in
       let m := <[pdep := page_entry ptp]> m in
       Ret (ptp, mp, m)
     else Ret (Z.land (m pdep) PAGE_MASK, mp, m));
  let m := <[ptp + 4 * PTE_INDEX virt_addr := page_entry phys_addr]> m in
  Ret (0, mp, m).

(** [int page_map(void *virt_addr, void *phys_addr, page_directory_t *pdir,
    mmc_t *mp)] *)
Definition page_map (m : mem) (virt_addr phys_addr pdir : Z) (mp : mmc_t)
  : res (Z * mmc_t * mem) :=
  __page_map m virt_addr phys_addr pdir mp.

(** [static int __page_unmap(void *virt_addr, page_directory_t *pdir, int flush)] *)
Definition __page_unmap (m : mem) (virt_addr pdir : Z) : Z * mem :=
  let ptp := m (pdir + 4 * PDE_INDEX virt_addr) in
  let ptp := Z.land ptp PAGE_MASK in
  (0, <[ptp + 4 * PTE_INDEX virt_addr := NULL]> m).

(** [int page_unmap(void *virt_addr, page_directory_t *pdir)] *)
Definition page_unmap (m : mem) (virt_addr pdir : Z) : Z * mem :=
  __page_unmap m virt_addr pdir.

(** [void copy_page_directory_from(void *src, void *dst)] *)
Definition copy_page_directory_from (m : mem) (src dst : Z) : mem :=
  memcpy (Z.land dst PAGE_MASK) (Z.land src PAGE_MASK) PAGE_SIZE m.

(** ** The memory map of the boot loader *)

Definition ARDS_TYPE_AVAIL : Z := 1.
Definition MAX_ARDS_ENT : Z := 10.

(** [addr_range_t]: six words. *)
Record addr_range_t : Type := AddrRange {
  ar_size : Z;
  base_addr_low : Z;
  base_addr_high : Z;
  length_low : Z;
  length_high : Z;
  ar_type : Z;
}.

Definition ARDS_SIZE : Z := 24.

Definition read_ards (m : mem) (p : Z) : addr_range_t :=
  AddrRange (m p) (m (p + 4)) (m (p + 8)) (m (p + 12)) (m (p + 16)) (m (p + 20)).

(** [mem_info_t]; the entries are those copied, in order. *)
Record mem_info_t : Type := MemInfo {
  total_memory : Z;
  avail_memory : Z;
  mmap_length : Z;
  mmap_entries : list addr_range_t;
}.

(** The copy loop of [get_mem_info_from_multiboot]. *)
Fixpoint mem_info_loop (fuel : nat) (m : mem) (mmap lim total avail : Z)
    (acc : list addr_range_t) : res (Z * Z * list addr_range_t) :=
  match fuel with
  | O => Diverge
  | S fuel =>
      if mmap <? lim then
        let e := read_ards m mmap in
        mem_info_loop fuel m (u32 (mmap + ARDS_SIZE)) lim
          (u32 (total + length_low e))
          (if ar_type e =? ARDS_TYPE_AVAIL then u32 (avail + length_low e) else avail)
          (acc ++ [e])
      else Ret (total, avail, acc)
  end.

(** [void get_mem_info_from_multiboot(multiboot_t *mbp, mem_info_t *minfo)];
    [total0] and [avail0] are the values the uninitialised locals [mem_total]
    and [mem_avail] start with. *)
Definition get_mem_info_from_multiboot (m : mem) (mmap_addr length total0 avail0 : Z)
  : res mem_info_t :=
  _ ← ASSERT (MAX_ARDS_ENT <? length) "MAX_ARDS_ENT < mmap_length";
  '(total, avail, es) ←
    mem_info_loop (S (Z.to_nat length)) m mmap_addr (u32 (mmap_addr + length)) total0 avail0 [];
  Ret (MemInfo total avail length es).

(** ** [init_paging] *)

(** The globals of [mm.c] and memory. *)
Record paging : Type := Paging {
  pg_mem : mem;
  mm_pgtbls : mmc_t;
  mm_phys : mmc_t;
  high_mem : Z * Z;
  k_pdir : Z;
}.

(** [for (i = ((_u32) p >> 12) % 1024; i < 1024; i++)]: the entries of a table
    from [p] on; [p] moves one page per entry. *)
Fixpoint fill_table (n : nat) (m : mem) (ptp p : Z) : Z * mem :=
  match n with
  | O => (p, m)
  | S n =>
      fill_table n (<[ptp + 4 * PTE_INDEX p := page_entry p]> m) ptp (u32 (p + PAGE_SIZE))
  end.

(** [while ((_u32) p < PAGE_ALIGN(K_SPACE_END))]: one table per round. *)
Fixpoint kernel_map_loop (fuel : nat) (m : mem) (c : mmc_t) (pdp p : Z)
  : res (mmc_t * mem) :=
  match fuel with
  | O => Diverge
  | S fuel =>
      if p <? PAGE_ALIGN K_SPACE_END then
        '(ptp, c, m) ← alloc_frame m c;
        if ptp =? NULL then Panic "No free frames"
        else
          let m := <[pdp + 4 * PDE_INDEX p := page_entry ptp]> m in
          let m := bzero ptp PAGE_SIZE m in
          let i := Z.shiftr p 12 `mod` 1024 in
          let '(p, m) := fill_table (Z.to_nat (1024 - i)) m ptp p in
          kernel_map_loop fuel m c pdp p
      else Ret (c, m)
  end.

(** [while ((_u32) p < (map_end & PAGE_MASK))] *)
Fixpoint map_range (fuel : nat) (m : mem) (c : mmc_t) (pdp va p lim : Z)
  : res (Z * mmc_t * mem) :=
  match fuel with
  | O => Diverge
  | S fuel =>
      if p <? lim then
        '(rc, c, m) ← __page_map m va p pdp c;
        if negb (rc =? OK) then Panic "Page mapping failed"
        else map_range fuel m c pdp (u32 (va + PAGE_SIZE)) (u32 (p + PAGE_SIZE)) lim
      else Ret (va, c, m)
  end.

(** The loop over the memory map: available memory after [va] is mapped. *)
Fixpoint map_entries (es : list addr_range_t) (m : mem) (c : mmc_t) (pdp va : Z)
  : res (Z * mmc_t * mem) :=
  match es with
  | [] => Ret (va, c, m)
  | mp :: es =>
      let map_end := u32 (base_addr_low mp + length_low mp) in
      '(va, c, m) ←
        (if (ar_type mp =? ARDS_TYPE_AVAIL) && (va <=? map_end) then
           let map_start := if base_addr_low mp <? va then va else base_addr_low mp in
           map_range (S (Z.to_nat 0x100000)) m c pdp va (PAGE_ALIGN map_start)
             (Z.land map_end PAGE_MASK)
         else Ret (va, c, m));
      map_entries es m c pdp va
  end.

(** [void init_paging()]; [k_start] is the linker's symbol, [mmap_addr] and
    [length] are the fields of the multiboot structure. The loop that zeroes
    the [PGD_MAX] directories zeroes the first one [PGD_MAX] times. *)
Definition init_paging (m : mem) (k_start mmap_addr length total0 avail0 : Z) : res paging :=
  minfo ← get_mem_info_from_multiboot m mmap_addr length total0 avail0;
  let pgtbls_end := k_start in
  _ ← ASSERT (PGD_BASE + 4096 * PGD_MAX + PAGE_SIZE * 5 <=? pgtbls_end)
        "PGD_BASE + sizeof(page_directory_t) * PGD_MAX + PAGE_SIZE * 5 <= pgtbls_end";
  let pdp := PGD_BASE in
  let m := Nat.iter (Z.to_nat PGD_MAX) (bzero pdp 4096) m in
  let c0 := Mmc 0 0 0 0 0 0 0 0 in
  let tables := pdp + 4096 * PGD_MAX in
  '(rc, c, m) ← minit_pgtbl m c0 tables (u32 (pgtbls_end - tables));
  if negb (rc =? 0) then Panic "MM_INIT failed"
  else
    let k_pdir := pdp + 4096 * PGD_IDX_KERNEL in
    let p := Z.land K_SPACE_START PAGE_MASK in
    '(c, m) ← kernel_map_loop 5 m c k_pdir p;
    let va := PAGE_ALIGN K_SPACE_END in
    '(va', c, m) ← map_entries (mmap_entries minfo) m c k_pdir va;
    '(rc, cp, m) ← minit_pgtbl m c0 va (u32 (va' - va));
    if negb (rc =? 0) then Panic "Physical memory init failed"
    else Ret (Paging m c cp (u32 (mm_base cp + mm_length cp), K_HMEM_END) k_pdir).

(** ** Pages of physical memory *)

Definition set_phys (c : mmc_t) (m : mem) (s : paging) : paging :=
  Paging m (mm_pgtbls s) c (high_mem s) (k_pdir s).

Definition set_pgtbls (c : mmc_t) (m : mem) (s : paging) : paging :=
  Paging m c (mm_phys s) (high_mem s) (k_pdir s).

(** [void *get_free_pages(size_t npg)] *)
Definition get_free_pages (npg : Z) (s : paging) : res (Z * paging) :=
  '(p, c, m) ← alloc_frames (pg_mem s) (mm_phys s) npg; Ret (p, set_phys c m s).

(** [void *get_free_page()] *)
Definition get_free_page (s : paging) : res (Z * paging) :=
  '(p, c, m) ← alloc_frame (pg_mem s) (mm_phys s); Ret (p, set_phys c m s).

(** [void *get_zeroed_page()] *)
Definition get_zeroed_page (s : paging) : res (Z * paging) :=
  '(p, c, m) ← alloc_frame (pg_mem s) (mm_phys s);
  let m := if negb (p =? NULL) then bzero p PAGE_SIZE m else m in
  Ret (p, set_phys c m s).

(** [int free_pages(void *page)] *)
Definition free_pages (page : Z) (s : paging) : res (Z * paging) :=
  '(rc, c, m) ← free_frames (pg_mem s) (mm_phys s) page; Ret (rc, set_phys c m s).

(** [int free_page(void *page)]: does nothing. *)
Definition free_page (page : Z) (s : paging) : Z * paging := (0, s).

(** [addr_t get_high_mem_start()] and [size_t get_high_mem_len()] *)
Definition get_high_mem_start (s : paging) : Z := (high_mem s).1.
Definition get_high_mem_len (s : paging) : Z := (high_mem s).2.

(** [static void page_fault_handler(registers_t *regs)]; [cr2] is the faulting
    address. *)
Definition page_fault_handler (cr2 : Z) (s : paging) : res paging :=
  _ ← ASSERT ((cr2 <? get_high_mem_start s) || (0xfee00000 <=? cr2))
        "cr2 < get_high_mem_start() || cr2 >= 0xfee00000";
  if 0xfee00000 <=? cr2 then
    '(_, c, m) ← page_map (pg_mem s) cr2 cr2 (k_pdir s) (mm_pgtbls s);
    Ret (set_pgtbls c m s)
  else
    '(freep, s) ← get_free_page s;
    if freep =? NULL then Panic "No more phisical memory pages"
    else
      let phys := __virt_to_phys (pg_mem s) (k_pdir s) freep in
      '(_, c, m) ← page_map (pg_mem s) cr2 phys (k_pdir s) (mm_pgtbls s);
      Ret (set_pgtbls c m s).
