(* ===== verification/PagingProofs.v ===== *)
(** * The page tables translate as asked

    Theorems about [Paging.v]: mapping and unmapping a page change the
    translation of that page and of no other, the kernel's identity map, and
    the state [init_paging] leaves. *)
From S2P Require Import Prelude CString MM MMProofs Paging.

(** ** The walk of the MMU *)

Definition translate (m : mem) (pdir va : Z) : option Z :=
  let pde := m (pdir + 4 * PDE_INDEX va) in
  if Z.testbit pde 0 then
    let pte := m (Z.land pde PAGE_MASK + 4 * PTE_INDEX va) in
    if Z.testbit pte 0 then Some (Z.lor (Z.land pte PAGE_MASK) (Z.land va 0xFFF)) else None
  else None.

Lemma translate_virt_to_phys m pdir va pa :
  translate m pdir va = Some pa → __virt_to_phys m pdir va = pa.
Proof. unfold translate, __virt_to_phys. intros H. repeat case_match; by simplify_eq. Qed.

(** ** Indices and entries *)

Lemma land_PAGE_MASK x : is_u32 x → Z.land x PAGE_MASK = x - x `mod` 4096.
Proof. intros Hx. apply (land_high_ones x 12); [lia|done]. Qed.

Lemma PDE_INDEX_div va : is_u32 va → PDE_INDEX va = va / 4194304 ∧ 0 ≤ PDE_INDEX va < 1024.
Proof.
  intros Hv. unfold PDE_INDEX. change 0x3FF with (2 ^ 10 - 1).
  rewrite land_low_ones, Z.shiftr_div_pow2 by lia. change (2 ^ 22) with 4194304.
  change (2 ^ 10) with 1024. unfold is_u32 in Hv. rewrite Z.mod_small; dlia.
Qed.

Lemma PTE_INDEX_div va :
  is_u32 va → PTE_INDEX va = (va / 4096) `mod` 1024 ∧ 0 ≤ PTE_INDEX va < 1024.
Proof.
  intros Hv. unfold PTE_INDEX. change 0x3FF with (2 ^ 10 - 1).
  rewrite land_low_ones, Z.shiftr_div_pow2 by lia. change (2 ^ 12) with 4096.
  change (2 ^ 10) with 1024. split; [done|]. apply Z.mod_pos_bound. lia.
Qed.

(** Two addresses with the same indices are in the same page. *)
Lemma index_page va va' :
  is_u32 va → is_u32 va' → PDE_INDEX va = PDE_INDEX va' → PTE_INDEX va = PTE_INDEX va' →
  va / 4096 = va' / 4096.
Proof.
  intros Hv Hv'. destruct (PDE_INDEX_div va Hv) as [-> _], (PDE_INDEX_div va' Hv') as [-> _].
  destruct (PTE_INDEX_div va Hv) as [-> _], (PTE_INDEX_div va' Hv') as [-> _].
  intros. dlia.
Qed.

Lemma page_index va va' :
  is_u32 va → is_u32 va' → va / 4096 = va' / 4096 →
  PDE_INDEX va = PDE_INDEX va' ∧ PTE_INDEX va = PTE_INDEX va'.
Proof.
  intros Hv Hv' E.
  destruct (PDE_INDEX_div va Hv) as [-> _], (PDE_INDEX_div va' Hv') as [-> _].
  destruct (PTE_INDEX_div va Hv) as [-> _], (PTE_INDEX_div va' Hv') as [-> _].
  rewrite E. split; [|done]. dlia.
Qed.

Lemma page_entry_aligned p : p `mod` 4096 = 0 → page_entry p = p + 7.
Proof.
  intros Hp. unfold page_entry, PAGE_PRESENT, PAGE_WRITE, PAGE_USER.
  rewrite <- !Z.lor_assoc. change (Z.lor 1 (Z.lor 2 4)) with 7.
  apply (lor_aligned p 7 12); [lia|exact Hp|lia].
Qed.

Lemma page_entry_present p : Z.testbit (page_entry p) 0 = true.
Proof. unfold page_entry. rewrite !Z.lor_spec. by destruct (Z.testbit p 0). Qed.

(** The frame an entry refers to; the low bits of [p] only reach the flags. *)
Lemma page_entry_frame p :
  is_u32 p → Z.land (page_entry p) PAGE_MASK = p - p `mod` 4096.
Proof.
  intros Hp. unfold page_entry. rewrite !Z.land_lor_distr_l.
  change (Z.land PAGE_PRESENT PAGE_MASK) with 0. change (Z.land PAGE_WRITE PAGE_MASK) with 0.
  change (Z.land PAGE_USER PAGE_MASK) with 0. rewrite !Z.lor_0_r. by apply land_PAGE_MASK.
Qed.

Lemma land_offset va : Z.land va 0xFFF = va `mod` 4096.
Proof. apply (land_low_ones va 12). lia. Qed.

Lemma lor_offset p va :
  p `mod` 4096 = 0 → Z.lor p (va `mod` 4096) = p + va `mod` 4096.
Proof. intros Hp. apply (lor_aligned _ _ 12); [lia|done|]. apply Z.mod_pos_bound. lia. Qed.

Lemma frame_entry_decode f :
  is_u32 (f + 7) → f `mod` 4096 = 0 →
  Z.testbit (f + 7) 0 = true ∧ Z.land (f + 7) PAGE_MASK = f.
Proof.
  intros Hf Hm. rewrite <- page_entry_aligned by done. split; [apply page_entry_present|].
  rewrite page_entry_aligned, land_PAGE_MASK by done. dlia.
Qed.

(** ** One frame from the allocator *)

Lemma whites_pos f (n : nat) : 0 < whites f n → ∃ i, 0 ≤ i < Z.of_nat n ∧ f i = 0.
Proof.
  induction n as [|n IH]; cbn [whites]; [lia|].
  destruct (Z.eqb_spec (f (Z.of_nat n)) 0) as [E|E].
  - intros _. exists (Z.of_nat n). split; [lia|done].
  - intros H. destruct IH as (i&Hi&Hf); [lia|]. exists i. split; [lia|done].
Qed.

Definition managed (c : mmc_t) (a : Z) : Prop :=
  meta_base c ≤ a < frame_base c + 4096 * nframes c.

Lemma alloc_frame_spec m c :
  mm_wf m c → 0 < nfree c →
  ∃ s m', alloc_frame m c = Ret (frame c s, set_nfree c (nfree c - 1), m') ∧
    0 ≤ s < nframes c ∧ colour m c s = 0 ∧ mm_wf m' (set_nfree c (nfree c - 1)) ∧
    (∀ j, colour m' c j ≠ 0 ↔ j = s ∨ colour m c j ≠ 0) ∧
    (∀ a, a < meta_base c ∨ frame_base c ≤ a → m' a = m a).
Proof.
  intros Hwf Hf. pose proof (wf_geom _ _ Hwf) as Hg. unfold alloc_frame.
  destruct (alloc_frames_cases m c 1 Hwf) as
    [(s&k&m'&Hs&_&HN&Hr&_&Hk&_&_&Hp&->)|[[?|Hno] _]]; [done| |lia|].
  - exists s, m'. destruct (painted_colour m m' c s 1 k) as [Hin Hout]; [done..|].
    assert (Hcs : colour m c s = 0) by (apply Hr; lia).
    split_and!; try done; try lia.
    + by apply (painted_wf m m' c s 1 k).
    + intros j. destruct (decide (j = s)) as [->|Hj].
      * rewrite Hin by lia. split; [by left|lia].
      * rewrite Hout by lia. split; [by right|by intros [?|?]].
    + intros a Ha. apply Hp. intros j Hj ->. unfold ent in Ha. destruct Hg. lia.
  - exfalso. rewrite (wf_nfree _ _ Hwf) in Hf. apply whites_pos in Hf as (i&Hi&Hc).
    apply (Hno i); [lia..|]. intros j Hj. by replace j with i by lia.
Qed.

(** Words outside the table of the allocator do not matter to it. *)
Lemma mm_wf_ext m m' c :
  mm_wf m c → (∀ a, meta_base c ≤ a < frame_base c → m' a = m a) → mm_wf m' c.
Proof.
  intros [Hg He Hn] Hm.
  assert (Ha : ∀ i, 0 ≤ i < nframes c → m' (ent c i) = m (ent c i)).
  { intros i Hi. apply Hm. unfold ent. destruct Hg. lia. }
  split; [done| |].
  - intros i Hi. rewrite Ha by done. by apply He.
  - rewrite Hn. apply whites_ext. intros i Hi. unfold colour. rewrite Ha by lia. done.
Qed.

(** ** Address spaces

    The directory is a page outside what the table allocator manages; each of
    its entries is empty or refers, with all flags set, to a table that is a
    live frame of the allocator, and no two entries share a table. *)
Definition pde (m : mem) (pdir i : Z) : Z := m (pdir + 4 * i).

Record space_wf (m : mem) (c : mmc_t) (pdir : Z) : Prop := {
  sp_mm : mm_wf m c;
  sp_pdir : 0 ≤ pdir ∧ pdir + 4096 < 4294967296 ∧
            (pdir + 4096 ≤ meta_base c ∨ frame_base c + 4096 * nframes c ≤ pdir);
  sp_pde : ∀ i, 0 ≤ i < 1024 → pde m pdir i = 0 ∨
             ∃ j, 0 ≤ j < nframes c ∧ pde m pdir i = frame c j + 7 ∧ colour m c j ≠ 0;
  sp_inj : ∀ i i', 0 ≤ i < 1024 → 0 ≤ i' < 1024 → i ≠ i' →
             pde m pdir i ≠ 0 → pde m pdir i ≠ pde m pdir i';
}.

Lemma bzero_page_at p m a :
  no_wrap p 4096 →
  bzero p PAGE_SIZE m a = if decide (p ≤ a < p + 4096) then 0 else m a.
Proof.
  intros Hp. unfold bzero, memset.
  rewrite memset_loop_spec; rewrite Z2Nat.id by done; [done|exact Hp].
Qed.

Lemma frame_decode c j :
  mm_geom c → 0 ≤ j < nframes c →
  Z.testbit (frame c j + 7) 0 = true ∧ Z.land (frame c j + 7) PAGE_MASK = frame c j.
Proof.
  intros Hg Hj. destruct (wf_bounds c Hg j) as (_&_&Hu&_&Hm); [lia|].
  pose proof (wf_top _ Hg). apply frame_entry_decode; [|done].
  unfold is_u32, frame in *. lia.
Qed.

(** The walk, entry by entry. *)
Lemma translate_cases m c pdir va :
  space_wf m c pdir → is_u32 va →
  (pde m pdir (PDE_INDEX va) = 0 ∧ translate m pdir va = None) ∨
  (∃ j, 0 ≤ j < nframes c ∧ pde m pdir (PDE_INDEX va) = frame c j + 7 ∧ colour m c j ≠ 0 ∧
     translate m pdir va =
     let pte := m (frame c j + 4 * PTE_INDEX va) in
     if Z.testbit pte 0 then Some (Z.lor (Z.land pte PAGE_MASK) (va `mod` 4096)) else None).
Proof.
  intros Hs Hv. destruct (PDE_INDEX_div va Hv) as [_ Hi].
  unfold translate. fold (pde m pdir (PDE_INDEX va)). rewrite land_offset.
  destruct (sp_pde _ _ _ Hs (PDE_INDEX va) Hi) as [E|(j&Hj&E&Hc)].
  - left. by rewrite E.
  - right. exists j. split_and!; try done; try lia. rewrite E.
    destruct (frame_decode c j (wf_geom _ _ (sp_mm _ _ _ Hs)) Hj) as [-> ->]. done.
Qed.

(** Writing one word of a table changes the translation of one page. *)
Lemma table_write m c pdir va j v :
  space_wf m c pdir → is_u32 va → 0 ≤ j < nframes c →
  pde m pdir (PDE_INDEX va) = frame c j + 7 → colour m c j ≠ 0 →
  let m' := <[frame c j + 4 * PTE_INDEX va := v]> m in
  space_wf m' c pdir ∧
  (∀ va', is_u32 va' → va' / 4096 = va / 4096 → translate m' pdir va' =
     if Z.testbit v 0 then Some (Z.lor (Z.land v PAGE_MASK) (va' `mod` 4096)) else None) ∧
  (∀ va', is_u32 va' → va' / 4096 ≠ va / 4096 →
     translate m' pdir va' = translate m pdir va').
Proof.
  intros Hs Hv Hj Hpde Hcj m'.
  pose proof (sp_mm _ _ _ Hs) as Hwf. pose proof (wf_geom _ _ Hwf) as Hg.
  destruct (PTE_INDEX_div va Hv) as [_ Hti]. destruct (sp_pdir _ _ _ Hs) as (P1&P2&P3).
  assert (Hin : ∀ a, a < frame_base c ∨ pdir ≤ a < pdir + 4096 → m' a = m a).
  { intros a Ha. unfold m'. apply fn_lookup_insert_ne. unfold frame. destruct Hg. lia. }
  assert (Hpd : ∀ i, 0 ≤ i < 1024 → pde m' pdir i = pde m pdir i).
  { intros i Hi. apply Hin. lia. }
  assert (Hcol : ∀ i, 0 ≤ i < nframes c → colour m' c i = colour m c i).
  { intros i Hi. unfold colour. rewrite Hin; [done|]. left. unfold ent. destruct Hg. lia. }
  assert (Hs' : space_wf m' c pdir).
  { split.
    - apply (mm_wf_ext m); [done|]. intros a Ha. apply Hin. left. lia.
    - done.
    - intros i Hi. rewrite Hpd by done.
      destruct (sp_pde _ _ _ Hs i Hi) as [?|(k&?&?&?)]; [by left|right].
      exists k. rewrite Hcol by done. done.
    - intros i i' Hi Hi'. rewrite !Hpd by done. by apply (sp_inj _ _ _ Hs). }
  split; [done|]. split.
  - intros va' Hv' Hpg. destruct (page_index va' va Hv' Hv Hpg) as [Ed Et].
    destruct (translate_cases m' c pdir va' Hs' Hv') as [[E _]|(k&Hk&E&_&->)];
      rewrite Ed, Hpd, Hpde in E by (by apply PDE_INDEX_div).
    + destruct (wf_bounds c Hg j) as (_&_&_&?&_); lia.
    + replace k with j by (unfold frame in E; lia). cbv zeta. rewrite Et.
      unfold m'. by rewrite fn_lookup_insert.
  - intros va' Hv' Hne. destruct (PTE_INDEX_div va' Hv') as [_ Hti'].
    destruct (PDE_INDEX_div va' Hv') as [_ Hi'].
    destruct (translate_cases m' c pdir va' Hs' Hv') as [[E ->]|(k&Hk&E&_&->)];
      rewrite Hpd in E by done;
      destruct (translate_cases m c pdir va' Hs Hv') as [[E' ->]|(k'&Hk'&E'&_&->)]; try done.
    + destruct (wf_bounds c Hg k') as (_&_&_&?&_); lia.
    + destruct (wf_bounds c Hg k) as (_&_&_&?&_); lia.
    + replace k' with k by (unfold frame in *; lia). cbv zeta.
      unfold m'. rewrite fn_lookup_insert_ne; [done|].
      intros Heq. assert (k = j) as -> by (unfold frame in *; lia).
      apply Hne, index_page; [done|done| |lia].
      destruct (decide (PDE_INDEX va' = PDE_INDEX va)) as [|Hd]; [done|].
      exfalso. apply (sp_inj _ _ _ Hs (PDE_INDEX va') (PDE_INDEX va)); try done.
      * by apply PDE_INDEX_div.
      * destruct (wf_bounds c Hg j) as (_&_&_&?&_); lia.
      * congruence.
Qed.

(** A new, empty table for an empty entry changes no translation. *)
(** A directory with one more table, in frame [j]. *)
Lemma directory_new m c m' c' pdir i0 j :
  space_wf m c pdir → mm_wf m' c' → frame_base c' = frame_base c → nframes c' = nframes c →
  meta_base c' = meta_base c → 0 ≤ j < nframes c → colour m c j = 0 →
  (∀ i, 0 ≤ i < 1024 →
    pde m' pdir i = if decide (i = i0) then frame c j + 7 else pde m pdir i) →
  (∀ k, 0 ≤ k < nframes c → (colour m' c k ≠ 0 ↔ k = j ∨ colour m c k ≠ 0)) →
  space_wf m' c' pdir.
Proof.
  intros Hs Hwf Efb En Emb Hj Hw Hpd Hcol.
  assert (Ef : ∀ k, frame c' k = frame c k) by (intros; unfold frame; by rewrite Efb).
  assert (Ec : ∀ k, colour m' c' k = colour m' c k) by (intros; unfold colour, ent; by rewrite Emb).
  assert (Hnew : ∀ i, 0 ≤ i < 1024 → pde m pdir i ≠ frame c j + 7).
  { intros i Hi E. destruct (sp_pde _ _ _ Hs i Hi) as [E'|(k&Hk&E'&Hc)].
    - destruct (wf_bounds c (wf_geom _ _ (sp_mm _ _ _ Hs)) j) as (_&_&_&Hp&_); lia.
    - apply Hc. by replace k with j by (unfold frame in *; lia). }
  split; [done| | |].
  - destruct (sp_pdir _ _ _ Hs) as (P1&P2&P3). rewrite ?Efb, ?En, ?Emb. done.
  - intros i Hi. rewrite Hpd, En by done. case_decide.
    + right. exists j. rewrite Ef, Ec. split; [exact Hj|]. split; [done|]. apply Hcol; [lia|by left].
    + destruct (sp_pde _ _ _ Hs i Hi) as [?|(k&Hk&?&?)]; [by left|right].
      exists k. rewrite Ef, Ec. split; [exact Hk|]. split; [done|]. apply Hcol; [lia|by right].
  - intros i i' Hi1 Hi2 Hne. rewrite !Hpd by done. repeat case_decide; try congruence.
    + intros _. by apply not_eq_sym, Hnew.
    + intros _. by apply Hnew.
    + by apply (sp_inj _ _ _ Hs).
Qed.

(** If the new table is empty and the others are as they were, nothing new is
    translated. *)
Lemma translate_new m c m' c' pdir i0 j va :
  space_wf m c pdir → space_wf m' c' pdir → frame_base c' = frame_base c →
  nframes c' = nframes c → 0 ≤ j < nframes c → colour m c j = 0 → pde m pdir i0 = 0 →
  (∀ i, 0 ≤ i < 1024 →
    pde m' pdir i = if decide (i = i0) then frame c j + 7 else pde m pdir i) →
  (∀ a, frame c j ≤ a < frame c j + 4096 → m' a = 0) →
  (∀ k a, 0 ≤ k < nframes c → k ≠ j → frame c k ≤ a < frame c k + 4096 → m' a = m a) →
  is_u32 va → translate m' pdir va = translate m pdir va.
Proof.
  intros Hs Hs' Efb En Hj Hw Hpde Hpd Hzero Hkeep Hv.
  destruct (PTE_INDEX_div va Hv) as [_ Hti]. destruct (PDE_INDEX_div va Hv) as [_ Hi].
  assert (Ef : ∀ k, frame c' k = frame c k) by (intros; unfold frame; by rewrite Efb).
  assert (Hfp : ∀ k, 0 ≤ k < nframes c → 0 < frame c k).
  { intros k Hk. apply wf_bounds; [apply wf_geom with m, Hs|lia]. }
  destruct (translate_cases m' c' pdir va Hs' Hv) as [[E ->]|(k&Hk&E&_&->)];
    rewrite Hpd in E by done.
  - pose proof (Hfp j Hj). case_decide; [lia|].
    destruct (translate_cases m c pdir va Hs Hv) as [[_ ->]|(k'&Hk'&E'&_&_)]; [done|].
    specialize (Hfp k' Hk'). lia.
  - rewrite Ef in *. rewrite En in Hk.
    destruct (translate_cases m c pdir va Hs Hv) as [[E' ->]|(k'&Hk'&E'&Hc'&->)];
      case_decide as Ed; cbv zeta.
    + assert (k = j) as -> by (unfold frame in E; lia). rewrite Hzero by lia. done.
    + specialize (Hfp k Hk). lia.
    + rewrite Ed in E'. specialize (Hfp k' Hk'). lia.
    + assert (k' = k) as -> by (unfold frame in *; lia).
      assert (k ≠ j) by (intros ->; done). by rewrite (Hkeep k) by lia.
Qed.

Lemma table_new m c pdir va :
  space_wf m c pdir → is_u32 va → pde m pdir (PDE_INDEX va) = 0 → 0 < nfree c →
  ∃ j m1, alloc_frame m c = Ret (frame c j, set_nfree c (nfree c - 1), m1) ∧
    0 ≤ j < nframes c ∧
    ∀ m', (∀ a, m' a = if decide (a = pdir + 4 * PDE_INDEX va) then page_entry (frame c j)
                       else if decide (frame c j ≤ a < frame c j + 4096) then 0 else m1 a) →
    space_wf m' (set_nfree c (nfree c - 1)) pdir ∧ colour m' c j ≠ 0 ∧
    pde m' pdir (PDE_INDEX va) = frame c j + 7 ∧
    (∀ va', is_u32 va' → translate m' pdir va' = translate m pdir va') ∧
    (∀ a, ¬ managed c a → ¬ pdir ≤ a < pdir + 4096 → m' a = m a) ∧
    (∀ i, 0 ≤ i < 1024 → i ≠ PDE_INDEX va → pde m' pdir i = pde m pdir i).
Proof.
  intros Hs Hv Hpde Hf.
  pose proof (sp_mm _ _ _ Hs) as Hwf. pose proof (wf_geom _ _ Hwf) as Hg.
  destruct (sp_pdir _ _ _ Hs) as (P1&P2&P3). destruct (PDE_INDEX_div va Hv) as [_ Hi].
  destruct (alloc_frame_spec m c Hwf Hf) as (j&m1&Ea&Hj&Hw&Hwf1&Hcol&Hout).
  exists j, m1. split; [done|]. split; [done|].
  destruct (wf_bounds c Hg j) as (_&_&Hu&Hp&Hm); [lia|].
  rewrite page_entry_aligned by done. intros m' Hm'.
  set (c' := set_nfree c (nfree c - 1)) in *.
  assert (Hmeta : ∀ a, meta_base c ≤ a < frame_base c → m' a = m1 a).
  { intros a Ha. rewrite Hm', !decide_False by (unfold frame; destruct Hg; lia). done. }
  assert (Hpd : ∀ i, 0 ≤ i < 1024 →
    pde m' pdir i = if decide (i = PDE_INDEX va) then frame c j + 7 else pde m pdir i).
  { intros i Hi'. unfold pde. rewrite Hm'. repeat case_decide; try lia; try done.
    - unfold frame in *. destruct Hg. lia.
    - apply Hout. destruct Hg. lia. }
  assert (Hcol' : ∀ k, 0 ≤ k < nframes c → (colour m' c k ≠ 0 ↔ k = j ∨ colour m c k ≠ 0)).
  { intros k Hk. rewrite <- Hcol. unfold colour. rewrite Hmeta; [done|].
    unfold ent. destruct Hg. lia. }
  assert (Hnew : ∀ i, 0 ≤ i < 1024 → pde m pdir i ≠ frame c j + 7).
  { intros i Hi' E. destruct (sp_pde _ _ _ Hs i Hi') as [E'|(k&Hk&E'&Hc)]; [lia|].
    apply Hc. by replace k with j by (unfold frame in *; lia). }
  assert (Hs' : space_wf m' c' pdir).
  { apply (directory_new m c m' c' pdir (PDE_INDEX va) j); try done. by apply (mm_wf_ext m1). }
  split_and!; [done|apply Hcol'; [lia|by left]|by rewrite Hpd, decide_True| | |]; cycle 1.
  { intros a Ha Ha'. unfold managed in Ha. rewrite Hm', !decide_False by (unfold frame; destruct Hg; lia).
    apply Hout. destruct Hg. lia. }
  { intros i Hi' Hne. by rewrite Hpd, decide_False. }
  intros va'. apply (translate_new m c m' c' pdir (PDE_INDEX va) j); try done.
  - intros a Ha. rewrite Hm', decide_False, decide_True by (unfold frame in *; destruct Hg; lia). done.
  - intros k a Hk Hkj Ha. rewrite Hm', !decide_False by (unfold frame in *; destruct Hg; lia).
    apply Hout. unfold frame in *. destruct Hg. lia.
Qed.

(** What a change of the tables keeps: the allocator's geometry and all memory
    outside it and the directory. *)
Record same_area (m : mem) (c : mmc_t) (m' : mem) (c' : mmc_t) (pdir : Z) : Prop := {
  sa_meta : meta_base c' = meta_base c;
  sa_frames : frame_base c' = frame_base c;
  sa_n : nframes c' = nframes c;
  sa_out : ∀ a, ¬ managed c a → ¬ pdir ≤ a < pdir + 4096 → m' a = m a;
}.

Lemma same_area_refl m c pdir : same_area m c m c pdir.
Proof. done. Qed.

Lemma same_area_trans m c m' c' m'' c'' pdir :
  same_area m c m' c' pdir → same_area m' c' m'' c'' pdir → same_area m c m'' c'' pdir.
Proof.
  intros [A1 A2 A3 A4] [B1 B2 B3 B4]. split; try congruence.
  intros a Ha Ha'. rewrite B4; [by apply A4| |done]. unfold managed in *.
  by rewrite A1, A2, A3.
Qed.

(** Enough free frames for a table in every empty entry below [B]. *)
Definition room (m : mem) (c : mmc_t) (pdir : Z) (B : nat) : Prop :=
  whites (pde m pdir) B ≤ nfree c.

Lemma room_nfree m c pdir B i :
  room m c pdir B → 0 ≤ i < Z.of_nat B → pde m pdir i = 0 → 0 < nfree c.
Proof.
  unfold room. intros Hr Hi E.
  assert (1 ≤ whites (pde m pdir) B); [|lia].
  apply (whites_run _ i); [lia..|]. intros j Hj. by replace j with i by lia.
Qed.

Lemma whites_one f g i (n : nat) :
  0 ≤ i < Z.of_nat n → f i = 0 → g i ≠ 0 →
  (∀ j, 0 ≤ j < Z.of_nat n → j ≠ i → g j = f j) → whites g n = whites f n - 1.
Proof.
  intros Hi Hf Hg Ho.
  set (h := λ j, if decide (0 ≤ j < Z.of_nat n) then g j else f j).
  rewrite (whites_ext g h) by (intros j Hj; unfold h; by rewrite decide_True).
  rewrite (whites_flip f h i 1); [lia|lia|lia| | |].
  - intros j Hj. by replace j with i by lia.
  - intros j Hj. replace j with i by lia. unfold h. by rewrite decide_True.
  - intros j Hj. unfold h. case_decide; [apply Ho; lia|done].
Qed.

(** The state after a successful mapping of [va] to [pa]. *)
Record mapped (m : mem) (c : mmc_t) (pdir : Z) (m' : mem) (c' : mmc_t) (va pa : Z) : Prop := {
  mp_space : space_wf m' c' pdir;
  mp_new : ∀ va', is_u32 va' → va' / 4096 = va / 4096 →
             translate m' pdir va' = Some (pa - pa `mod` 4096 + va' `mod` 4096);
  mp_old : ∀ va', is_u32 va' → va' / 4096 ≠ va / 4096 →
             translate m' pdir va' = translate m pdir va';
  mp_area : same_area m c m' c' pdir;
  mp_room : ∀ B : nat, (B ≤ 1024)%nat → PDE_INDEX va < Z.of_nat B → room m c pdir B →
             room m' c' pdir B;
}.

Lemma entry_translation pa va :
  is_u32 pa →
  (if Z.testbit (page_entry pa) 0
   then Some (Z.lor (Z.land (page_entry pa) PAGE_MASK) (va `mod` 4096)) else None)
  = Some (pa - pa `mod` 4096 + va `mod` 4096).
Proof.
  intros Hp. rewrite page_entry_present, page_entry_frame, lor_offset; [done| |done]. dlia.
Qed.

Lemma table_write_out m c pdir j va v :
  space_wf m c pdir → is_u32 va → 0 ≤ j < nframes c →
  let m' := <[frame c j + 4 * PTE_INDEX va := v]> m in
  same_area m c m' c pdir ∧ (∀ i, 0 ≤ i < 1024 → pde m' pdir i = pde m pdir i) ∧
  (∀ i, 0 ≤ i < nframes c → colour m' c i = colour m c i).
Proof.
  intros Hs Hv Hj m'. destruct (PTE_INDEX_div va Hv) as [_ Hti].
  pose proof (wf_geom _ _ (sp_mm _ _ _ Hs)) as Hg. destruct (sp_pdir _ _ _ Hs) as (P1&P2&P3).
  assert (Hin : ∀ a, a < frame_base c ∨ frame_base c + 4096 * nframes c ≤ a → m' a = m a).
  { intros a Ha. unfold m'. apply fn_lookup_insert_ne. unfold frame. destruct Hg. lia. }
  split_and!.
  - split; try done. intros a Ha _. apply Hin. unfold managed in Ha. destruct Hg. lia.
  - intros i Hi. apply Hin. destruct Hg. lia.
  - intros i Hi. unfold colour. rewrite Hin; [done|]. unfold ent. destruct Hg. lia.
Qed.

Lemma __page_map_spec m c pdir va pa :
  space_wf m c pdir → is_u32 va → is_u32 pa →
  pde m pdir (PDE_INDEX va) ≠ 0 ∨ 0 < nfree c →
  ∃ c' m', __page_map m va pa pdir c = Ret (0, c', m') ∧ mapped m c pdir m' c' va pa.
Proof.
  intros Hs Hv Hpa Hroom. unfold __page_map. fold (pde m pdir (PDE_INDEX va)).
  pose proof (wf_geom _ _ (sp_mm _ _ _ Hs)) as Hg.
  destruct (PDE_INDEX_div va Hv) as [_ Hi].
  destruct (Z.eqb_spec (pde m pdir (PDE_INDEX va)) NULL) as [E|E].
  - destruct Hroom as [Hne|Hf]; [done|].
    destruct (table_new m c pdir va Hs Hv E Hf) as (j&m1&->&Hj&Hnew).
    cbn [mbind res_bind]. set (m2 := <[_ := _]> (bzero _ _ m1)).
    destruct (Hnew m2) as (Hs2&Hc2&Hp2&Ht2&Ho2&Hi2).
    { intros a. unfold m2. destruct (wf_bounds c Hg j) as (_&_&Hu&Hp&_); [lia|].
      destruct (decide (a = pdir + 4 * PDE_INDEX va)) as [->|]; [by rewrite fn_lookup_insert|].
      rewrite fn_lookup_insert_ne by done. apply bzero_page_at.
      pose proof (wf_top _ Hg). unfold no_wrap, is_u32, frame in *. lia. }
    set (c' := set_nfree c (nfree c - 1)) in *. change (frame c j) with (frame c' j).
    destruct (table_write m2 c' pdir va j (page_entry pa) Hs2 Hv Hj Hp2 Hc2) as (Hs3&Ht3&Ho3).
    destruct (table_write_out m2 c' pdir j va (page_entry pa) Hs2 Hv Hj) as (Ha3&Hp3&_).
    eexists _, _. split; [done|]. split; [done| | | |].
    + intros va' Hv' Hpg. by rewrite Ht3, entry_translation.
    + intros va' Hv' Hne. rewrite Ho3 by done. by apply Ht2.
    + apply (same_area_trans _ _ m2 c'); [|done]. split; done.
    + intros B HB HiB HR. unfold room in *. change (nfree c') with (nfree c - 1).
      rewrite (whites_one (pde m pdir) _ (PDE_INDEX va)); [lia|lia|done| |].
      * rewrite Hp3, Hp2 by done. destruct (wf_bounds c Hg j) as (_&_&_&?&_); [lia|].
        change (frame c' j) with (frame c j). lia.
      * intros i HiB' Hne. rewrite Hp3 by lia. apply Hi2; [lia|done].
  - destruct (sp_pde _ _ _ Hs (PDE_INDEX va) Hi) as [?|(j&Hj&Ep&Hc)]; [done|].
    cbn [mbind res_bind]. rewrite Ep. destruct (frame_decode c j Hg Hj) as [_ ->].
    destruct (table_write m c pdir va j (page_entry pa) Hs Hv Hj Ep Hc) as (Hs3&Ht3&Ho3).
    destruct (table_write_out m c pdir j va (page_entry pa) Hs Hv Hj) as (Ha3&Hp3&_).
    eexists _, _. split; [done|]. split; [done| |done|done|].
    { intros va' Hv' Hpg. by rewrite Ht3, entry_translation. }
    intros B HB HiB HR. unfold room in *.
    rewrite (whites_ext _ (pde m pdir)); [done|]. intros i Hi'. apply Hp3. lia.
Qed.

(** ** The identity map of kernel space *)

Lemma PDE_INDEX_range q p : 0 ≤ q < 1024 → 4194304 * q ≤ p < 4194304 * (q + 1) → PDE_INDEX p = q.
Proof. intros Hq Hp. destruct (PDE_INDEX_div p) as [-> _]; [unfold is_u32; lia|]. dlia. Qed.

Lemma fill_table_spec n : ∀ m c pdir t j q p,
  space_wf m c pdir → 0 ≤ j < nframes c → t = frame c j → pde m pdir q = frame c j + 7 → colour m c j ≠ 0 →
  0 ≤ q < 1023 → 4194304 * q ≤ p → p + 4096 * Z.of_nat n ≤ 4194304 * (q + 1) →
  p `mod` 4096 = 0 →
  ∃ m', fill_table n m t p = (p + 4096 * Z.of_nat n, m') ∧
    space_wf m' c pdir ∧ same_area m c m' c pdir ∧
    (∀ i, 0 ≤ i < 1024 → pde m' pdir i = pde m pdir i) ∧
    (∀ va, is_u32 va → translate m' pdir va =
       if decide (p ≤ va < p + 4096 * Z.of_nat n) then Some va else translate m pdir va).
Proof.
  induction n as [|n IH]; intros m c pdir t j q p Hs Hj -> Hpde Hc Hq Hp Hpn Hm; cbn [fill_table].
  { exists m. split; [f_equal; lia|]. split_and!; try done.
    intros va Hva. by rewrite decide_False by lia. }
  assert (Hu : is_u32 p) by (unfold is_u32; lia).
  assert (Ei : PDE_INDEX p = q) by (apply PDE_INDEX_range; lia).
  rewrite <- Ei in Hpde.
  destruct (table_write m c pdir p j (page_entry p) Hs Hu Hj Hpde Hc) as (Hs1&Ht1&Ho1).
  destruct (table_write_out m c pdir j p (page_entry p) Hs Hu Hj) as (Ha1&Hp1&Hc1).
  cbv zeta in *. set (m1 := <[_ := _]> m) in *.
  change PAGE_SIZE with 4096. rewrite u32_small by (unfold is_u32; lia).
  destruct (IH m1 c pdir (frame c j) j q (p + 4096)) as (m'&->&Hs'&Ha'&Hp'&Ht'); try lia; try done.
  { by rewrite Hp1, <- Ei by lia. }
  { by rewrite Hc1. }
  { dlia. }
  exists m'. split; [f_equal; lia|]. split; [done|].
  split; [by apply (same_area_trans _ _ m1 c)|].
  split; [intros i Hi; rewrite Hp' by done; by apply Hp1|].
  intros va Hva. rewrite Ht' by done. repeat case_decide; try lia; try done.
  - rewrite Ht1, entry_translation by (done || dlia). f_equal. dlia.
  - apply Ho1; [done|]. dlia.
Qed.

Definition LARGE : Z := 4194304.

(** Expanded last, so that no conversion runs the page-sized loops. *)
#[local] Strategy 1000 [bzero fill_table].

(** One table per round, from directory entry [k] on. *)
Lemma kernel_map_loop_spec r : ∀ fuel k m c pdir,
  k + Z.of_nat r = 4 → 0 ≤ k → (r < fuel)%nat → space_wf m c pdir →
  (∀ i, k ≤ i < 1024 → pde m pdir i = 0) → Z.of_nat r ≤ nfree c →
  ∃ c' m', kernel_map_loop fuel m c pdir (LARGE * k) = Ret (c', m') ∧
    space_wf m' c' pdir ∧ same_area m c m' c' pdir ∧ nfree c' = nfree c - Z.of_nat r ∧
    (∀ i, 4 ≤ i < 1024 → pde m' pdir i = 0) ∧
    (∀ va, is_u32 va → translate m' pdir va =
       if decide (LARGE * k ≤ va < K_SPACE_END) then Some va else translate m pdir va).
Proof.
  induction r as [|r IH]; intros [|fuel] k m c pdir Hk Hk0 Hf Hs Hz Hn; try lia;
    cbn [kernel_map_loop]; change (PAGE_ALIGN K_SPACE_END) with (LARGE * 4).
  { replace k with 4 in * by lia. rewrite Z.ltb_irrefl.
    exists c, m. split; [done|]. split; [done|]. split; [done|]. split; [lia|]. split; [done|].
    intros va Hva. rewrite decide_False; [done|]. change K_SPACE_END with (LARGE * 4). lia. }
  assert (Hku : is_u32 (LARGE * k)) by (unfold is_u32, LARGE; lia).
  rewrite (proj2 (Z.ltb_lt _ _)) by (unfold LARGE; lia).
  assert (Ei : PDE_INDEX (LARGE * k) = k) by (apply PDE_INDEX_range; unfold LARGE; lia).
  pose proof (wf_geom _ _ (sp_mm _ _ _ Hs)) as Hg.
  destruct (table_new m c pdir (LARGE * k) Hs Hku) as (j&m1&->&Hj&Hnew);
    [rewrite Ei; apply Hz; lia|lia|].
  destruct (wf_bounds c Hg j) as (_&_&Hju&Hjp&_); [lia|]. pose proof (wf_top _ Hg) as Htop.
  cbn [mbind res_bind]. rewrite (proj2 (Z.eqb_neq _ _)) by (unfold NULL; lia).
  set (m2 := bzero _ _ _).
  destruct (Hnew m2) as (Hs2&Hc2&Hp2&Ht2&Ho2&Hi2).
  { intros a. unfold m2. rewrite bzero_page_at by (unfold no_wrap, is_u32, frame in *; lia).
    destruct (decide (a = pdir + 4 * PDE_INDEX (LARGE * k))) as [->|].
    - rewrite fn_lookup_insert, decide_False; [done|].
      rewrite Ei. destruct (sp_pdir _ _ _ Hs) as (?&?&?). unfold frame in *. destruct Hg. lia.
    - by rewrite fn_lookup_insert_ne. }
  clearbody m2. clear Hnew. rewrite Ei in *. set (c1 := set_nfree c (nfree c - 1)) in *.
  replace (Z.shiftr (LARGE * k) 12 `mod` 1024) with 0
    by (rewrite Z.shiftr_div_pow2 by lia; unfold LARGE; change (2 ^ 12) with 4096; dlia).
  assert (Hn1 : Z.of_nat (Z.to_nat (1024 - 0)) = 1024) by (rewrite Z2Nat.id; lia).
  destruct (fill_table_spec (Z.to_nat (1024 - 0)) m2 c1 pdir (frame c j) j k (LARGE * k))
    as (m3&->&Hs3&Ha3&Hp3&Ht3);
    [exact Hs2|exact Hj|reflexivity|exact Hp2|exact Hc2|clear -Hk Hk0; lia|done| |
     clear; unfold LARGE; dlia|].
  { rewrite Hn1. clear. unfold LARGE. lia. }
  rewrite Hn1 in *. replace (LARGE * k + 4096 * 1024) with (LARGE * (k + 1)) in *
    by (clear; unfold LARGE; lia).
  destruct (IH fuel (k + 1) m3 c1 pdir) as (c'&m'&->&Hs'&Ha'&Hn'&Hz'&Ht'); try lia; try done.
  { intros i Hi. rewrite Hp3, Hi2 by lia. apply Hz. lia. }
  { cbn. lia. }
  exists c', m'. split; [done|]. split; [done|]. split.
  { apply (same_area_trans _ _ m3 c1); [|done]. apply (same_area_trans _ _ m2 c1); [|done].
    by split. }
  split; [cbn in Hn'; lia|]. split; [done|].
  intros va Hva. rewrite Ht' by done. change K_SPACE_END with (LARGE * 4).
  rewrite Ht3 by done. unfold LARGE in *.
  repeat case_decide; try lia; try done; by apply Ht2.
Qed.

(** ** Ranges and memory maps *)

Lemma map_range_spec n : ∀ fuel m c pdir va p B,
  space_wf m c pdir → room m c pdir B → (B ≤ 1024)%nat → (n < fuel)%nat →
  0 ≤ va → va `mod` 4096 = 0 → va + 4096 * Z.of_nat n ≤ LARGE * Z.of_nat B →
  va + 4096 * Z.of_nat n < 4294967296 →
  0 ≤ p → p `mod` 4096 = 0 → p + 4096 * Z.of_nat n < 4294967296 →
  ∃ c' m', map_range fuel m c pdir va p (p + 4096 * Z.of_nat n)
             = Ret (va + 4096 * Z.of_nat n, c', m') ∧
    space_wf m' c' pdir ∧ room m' c' pdir B ∧ same_area m c m' c' pdir ∧
    (∀ x, is_u32 x → translate m' pdir x =
       if decide (va ≤ x < va + 4096 * Z.of_nat n) then Some (p + (x - va))
       else translate m pdir x).
Proof.
  induction n as [|n IH]; intros [|fuel] m c pdir va p B Hs HR HB Hf Hv Hvm HvB Hvt Hp Hpm Hpt;
    try lia; cbn [map_range].
  { rewrite (proj2 (Z.ltb_ge _ _)) by lia. exists c, m. rewrite !Z.add_0_r.
    split_and!; try done. intros x Hx. by rewrite decide_False by lia. }
  rewrite (proj2 (Z.ltb_lt _ _)) by lia.
  assert (Hvu : is_u32 va) by (unfold is_u32; lia).
  assert (HiB : PDE_INDEX va < Z.of_nat B)
    by (destruct (PDE_INDEX_div va Hvu) as [-> _]; unfold LARGE in *; dlia).
  destruct (__page_map_spec m c pdir va p Hs Hvu) as (c1&m1&->&[Hs1 Hn1 Ho1 Ha1 Hr1]).
  { unfold is_u32; lia. }
  { destruct (decide (pde m pdir (PDE_INDEX va) = 0)) as [E|E]; [right|by left].
    apply (room_nfree m c pdir B (PDE_INDEX va)); [done| |done].
    split; [by apply PDE_INDEX_div|done]. }
  cbn [mbind res_bind negb Z.eqb OK]. change PAGE_SIZE with 4096.
  rewrite !u32_small by (unfold is_u32; lia).
  replace (p + 4096 * Z.of_nat (S n)) with (p + 4096 + 4096 * Z.of_nat n) by lia.
  destruct (IH fuel m1 c1 pdir (va + 4096) (p + 4096) B) as (c'&m'&->&Hs'&HR'&Ha'&Ht');
    try lia; try done; try dlia; [by apply Hr1|].
  exists c', m'. split; [f_equal; f_equal; f_equal; lia|]. split; [done|]. split; [done|].
  split; [by apply (same_area_trans _ _ m1 c1)|].
  intros x Hx. rewrite Ht' by done. repeat case_decide; try lia.
  - f_equal. lia.
  - rewrite Hn1 by (done || dlia). f_equal. dlia.
  - apply Ho1; [done|dlia].
Qed.

(** The length of the available memory of a map. *)
Fixpoint avail_total (es : list addr_range_t) : Z :=
  match es with
  | [] => 0
  | e :: es => (if ar_type e =? ARDS_TYPE_AVAIL then length_low e else 0) + avail_total es
  end.

(** The bounds of an available range: below the last page of 4 GB. *)
Definition sane (e : addr_range_t) : Prop :=
  0 ≤ length_low e ∧
  (ar_type e = ARDS_TYPE_AVAIL →
   0 ≤ base_addr_low e ∧ base_addr_low e + length_low e ≤ 0xFFFFF000).

(** [pa] lies in an available range of the map, above kernel space. *)
Definition usable (es : list addr_range_t) (pa : Z) : Prop :=
  K_SPACE_END ≤ pa ∧
  ∃ e, e ∈ es ∧ ar_type e = ARDS_TYPE_AVAIL ∧
       base_addr_low e ≤ pa < base_addr_low e + length_low e.

Lemma PAGE_ALIGN_up x :
  0 ≤ x ≤ 0xFFFFF000 → PAGE_ALIGN x `mod` 4096 = 0 ∧ x ≤ PAGE_ALIGN x < x + 4096 ∧
  PAGE_ALIGN x ≤ 0xFFFFF000.
Proof.
  intros Hx. unfold PAGE_ALIGN. change PAGE_SIZE with 4096.
  rewrite u32_small, land_PAGE_MASK by (unfold is_u32; lia). dlia.
Qed.

Lemma avail_total_nonneg es : Forall sane es → 0 ≤ avail_total es.
Proof.
  induction 1 as [|e es [He _] _ IH]; cbn; [lia|]. destruct (_ =? _); lia.
Qed.

Lemma map_range_empty fuel m c pdir va p lim :
  lim ≤ p → map_range (S fuel) m c pdir va p lim = Ret (va, c, m).
Proof. intros H. cbn. by rewrite (proj2 (Z.ltb_ge _ _)). Qed.

(** The effect of mapping available memory from [va] up to [va']. *)
Record maps_usable (all : list addr_range_t) (m m' : mem) (pdir va va' : Z) : Prop := {
  mu_old : ∀ x, is_u32 x → x < va ∨ va' ≤ x → translate m' pdir x = translate m pdir x;
  mu_new : ∀ x, va ≤ x < va' → ∃ pa, translate m' pdir x = Some pa ∧ usable all pa;
}.

Lemma map_entry_spec all e fuel m c pdir va B :
  sane e → e ∈ all → ar_type e = ARDS_TYPE_AVAIL →
  space_wf m c pdir → room m c pdir B → (B ≤ 1023)%nat → Z.of_nat fuel = 1048576 →
  K_SPACE_END ≤ va → va `mod` 4096 = 0 → va + length_low e ≤ LARGE * Z.of_nat B →
  va ≤ base_addr_low e + length_low e →
  ∃ va' c' m',
    map_range (S fuel) m c pdir va
      (PAGE_ALIGN (if base_addr_low e <? va then va else base_addr_low e))
      (Z.land (base_addr_low e + length_low e) PAGE_MASK) = Ret (va', c', m') ∧
    va ≤ va' ≤ va + length_low e ∧ va' `mod` 4096 = 0 ∧
    space_wf m' c' pdir ∧ room m' c' pdir B ∧ same_area m c m' c' pdir ∧
    maps_usable all m m' pdir va va' ∧
    (base_addr_low e ≤ va → va' = (base_addr_low e + length_low e) / 4096 * 4096).
Proof.
  intros [Hl Hsane] Hin Hty Hs HR HB Hf Hva Hvm Hlim Hend.
  destruct (Hsane Hty) as [Hb Htop]. clear Hsane.
  change K_SPACE_END with 16777216 in *. unfold LARGE in *.
  set (st := if base_addr_low e <? va then va else base_addr_low e).
  assert (Hst : st = Z.max va (base_addr_low e)) by (unfold st; zbool; lia).
  destruct (PAGE_ALIGN_up st) as (Pm&Pl&Pt); [lia|].
  rewrite land_PAGE_MASK by (unfold is_u32; lia).
  set (en := base_addr_low e + length_low e) in *. set (p := PAGE_ALIGN st) in *.
  assert (Hen : en - en `mod` 4096 = en / 4096 * 4096) by (clear; dlia). rewrite Hen.
  destruct (decide (en / 4096 * 4096 ≤ p)) as [Hle|Hgt].
  { rewrite map_range_empty by done. exists va, c, m.
    assert (base_addr_low e ≤ va → va = en / 4096 * 4096).
    { intros Hba. assert (p = va) by (rewrite Hst, Z.max_l in Pl by lia; clear -Pl Pm Hvm; dlia).
      clear -H Hle Hvm Hend. dlia. }
    split_and!; try done; try lia. split; [done|lia]. }
  set (n := Z.to_nat ((en / 4096 * 4096 - p) / 4096)).
  assert (Hn : p + 4096 * Z.of_nat n = en / 4096 * 4096).
  { unfold n. rewrite Z2Nat.id by (clear -Hgt; dlia). clear -Hgt Pm. dlia. }
  assert (Henle : en / 4096 * 4096 ≤ en) by (clear; dlia).
  assert (Hlen : 4096 * Z.of_nat n ≤ length_low e) by (unfold en in *; lia).
  destruct (map_range_spec n (S fuel) m c pdir va p B) as (c'&m'&E&Hs'&HR'&Ha'&Ht');
    try done; try (unfold LARGE; lia).
  rewrite Hn in E. exists (va + 4096 * Z.of_nat n), c', m'.
  split; [done|]. split; [unfold en in *; lia|]. split; [clear -Hvm; dlia|].
  split_and!; try done.
  - split.
    + intros x Hx Ho. rewrite Ht' by done. by rewrite decide_False by lia.
    + intros x Hx. rewrite Ht' by (unfold is_u32; lia). rewrite decide_True by lia.
      eexists. split; [done|]. split; [change K_SPACE_END with 16777216; lia|].
      exists e. split_and!; try done; unfold en in *; lia.
  - intros Hba. assert (p = va); [|lia]. rewrite Hst, Z.max_l in Pl by lia.
    clear -Pl Pm Hvm. dlia.
Qed.

Lemma map_entries_spec all es : ∀ m c pdir va B,
  Forall sane es → (∀ e, e ∈ es → e ∈ all) →
  space_wf m c pdir → room m c pdir B → (B ≤ 1023)%nat →
  K_SPACE_END ≤ va → va `mod` 4096 = 0 → va + avail_total es ≤ LARGE * Z.of_nat B →
  ∃ va' c' m', map_entries es m c pdir va = Ret (va', c', m') ∧
    va ≤ va' ≤ va + avail_total es ∧ va' `mod` 4096 = 0 ∧
    space_wf m' c' pdir ∧ room m' c' pdir B ∧ same_area m c m' c' pdir ∧
    maps_usable all m m' pdir va va'.
Proof.
  induction es as [|e es IH]; intros m c pdir va B Hsane Hall Hs HR HB Hva Hvm Hlim.
  { exists va, c, m. cbn in *. split_and!; try done; try lia. split; [done|lia]. }
  apply Forall_cons in Hsane as [He Hes]. pose proof (avail_total_nonneg es Hes) as Ht0.
  cbn [map_entries avail_total] in *.
  destruct (Z.eqb_spec (ar_type e) ARDS_TYPE_AVAIL) as [Hty|Hty]; cbn [andb mbind res_bind]; last first.
  { destruct (IH m c pdir va B) as (va'&c'&m'&E&Hv'&H'); try done.
    { intros e' He'. apply Hall. by right. }
    exists va', c', m'. rewrite E. split; [done|]. split; [lia|done]. }
  pose proof He as [Hl Hsn]. destruct (Hsn Hty) as [Hb Htop].
  rewrite u32_small by (unfold is_u32; lia).
  destruct (Z.leb_spec va (base_addr_low e + length_low e)) as [Hle|Hgt]; cbn [mbind res_bind];
    last first.
  { destruct (IH m c pdir va B) as (va'&c'&m'&E&Hv'&H'); try done; [|lia|].
    { intros e' He'. apply Hall. by right. }
    exists va', c', m'. rewrite E. split; [done|]. split; [lia|done]. }
  assert (Hfuel : Z.of_nat (Z.to_nat 0x100000) = 1048576) by (rewrite Z2Nat.id; lia).
  set (fuel := Z.to_nat 0x100000) in *. clearbody fuel.
  destruct (map_entry_spec all e fuel m c pdir va B)
    as (va1&c1&m1&->&Hv1&Hm1&Hs1&HR1&Ha1&[Mo Mn]&_); try done; [apply Hall; left|lia|].
  cbn [mbind res_bind].
  destruct (IH m1 c1 pdir va1 B) as (va'&c'&m'&E&Hv'&Hm'&Hs'&HR'&Ha'&[Mo' Mn']); try done; try lia.
  { intros e' He'. apply Hall. by right. }
  exists va', c', m'. rewrite E. split_and!; try done; try lia.
  - by apply (same_area_trans _ _ m1 c1).
  - split.
    + intros x Hx Ho. rewrite Mo' by (done || lia). apply Mo; [done|lia].
    + intros x Hx. destruct (decide (x < va1)) as [Hlt|]; [|apply Mn'; lia].
      destruct (Mn x ltac:(lia)) as (pa&E1&Hu). exists pa. split; [|done].
      rewrite Mo'; [done| |lia]. unfold LARGE in *. change K_SPACE_END with 16777216 in *.
      unfold is_u32. lia.
Qed.

(** The tables only depend on the directory and the managed area. *)
Lemma space_ext m m' c pdir :
  space_wf m c pdir →
  (∀ a, managed c a ∨ pdir ≤ a < pdir + 4096 → m' a = m a) →
  space_wf m' c pdir ∧ ∀ va, is_u32 va → translate m' pdir va = translate m pdir va.
Proof.
  intros Hs Hm. pose proof (wf_geom _ _ (sp_mm _ _ _ Hs)) as Hg.
  assert (Hp : ∀ i, 0 ≤ i < 1024 → pde m' pdir i = pde m pdir i)
    by (intros i Hi; apply Hm; right; lia).
  assert (Hc : ∀ i, 0 ≤ i < nframes c → colour m' c i = colour m c i).
  { intros i Hi. unfold colour. rewrite Hm; [done|]. left. unfold managed, ent. destruct Hg. lia. }
  split.
  - split; [|apply Hs| |].
    + apply (mm_wf_ext m); [apply Hs|]. intros a Ha. apply Hm. left. unfold managed.
      destruct Hg. lia.
    + intros i Hi. rewrite Hp by done.
      destruct (sp_pde _ _ _ Hs i Hi) as [?|(k&?&?&?)]; [by left|right].
      exists k. by rewrite Hc.
    + intros i i' Hi Hi'. rewrite !Hp by done. by apply (sp_inj _ _ _ Hs).
  - intros va Hva. destruct (PDE_INDEX_div va Hva) as [_ Hi].
    destruct (PTE_INDEX_div va Hva) as [_ Ht].
    unfold translate. fold (pde m' pdir (PDE_INDEX va)). fold (pde m pdir (PDE_INDEX va)).
    rewrite Hp by done. destruct (sp_pde _ _ _ Hs (PDE_INDEX va) Hi) as [->|(k&Hk&->&_)]; [done|].
    destruct (frame_decode c k Hg Hk) as [_ ->]. rewrite Hm; [done|].
    left. unfold managed, frame. destruct Hg. lia.
Qed.

(** ** Reading the memory map *)

Definition ards_table (m : mem) (a n : Z) : list addr_range_t :=
  (λ i, read_ards m (a + 24 * i)) <$> seqZ 0 n.

Lemma ards_table_S m a n :
  0 < n → ards_table m a n = read_ards m a :: ards_table m (a + 24) (n - 1).
Proof.
  intros Hn. unfold ards_table. rewrite seqZ_cons by lia. cbn [fmap list_fmap].
  f_equal; [f_equal; lia|].
  replace (Z.pred n) with (n - 1) by lia. rewrite <- (fmap_add_seqZ 1 0).
  change (list_fmap _ _ ?g ?l) with (g <$> l). rewrite <- list_fmap_compose.
  apply list_fmap_ext. intros i x _. cbn. f_equal. lia.
Qed.

Lemma mem_info_loop_spec n : ∀ fuel m a t v acc,
  0 ≤ a → a + 24 * Z.of_nat n < 4294967296 → (n < fuel)%nat →
  ∃ t' v', mem_info_loop fuel m a (a + 24 * Z.of_nat n) t v acc
           = Ret (t', v', acc ++ ards_table m a (Z.of_nat n)).
Proof.
  induction n as [|n IH]; intros [|fuel] m a t v acc Ha Ht Hf; try lia; cbn [mem_info_loop].
  - rewrite (proj2 (Z.ltb_ge _ _)) by lia. rewrite app_nil_r. eauto.
  - rewrite (proj2 (Z.ltb_lt _ _)) by lia. change ARDS_SIZE with 24.
    rewrite u32_small by (unfold is_u32; lia).
    replace (a + 24 * Z.of_nat (S n)) with (a + 24 + 24 * Z.of_nat n) by lia.
    edestruct (IH fuel m (a + 24)) as (t'&v'&->); [lia..|].
    exists t', v'. rewrite (ards_table_S m a (Z.of_nat (S n))) by lia.
    replace (Z.of_nat (S n) - 1) with (Z.of_nat n) by lia. by rewrite <- app_assoc.
Qed.

Lemma get_mem_info_spec m a n t0 v0 :
  1 ≤ n → 0 ≤ a → a + 24 * n < 4294967296 →
  ∃ i, get_mem_info_from_multiboot m a (24 * n) t0 v0 = Ret i ∧
       mmap_entries i = ards_table m a n.
Proof.
  intros Hn Ha Ht. unfold get_mem_info_from_multiboot.
  rewrite (proj2 (Z.ltb_lt MAX_ARDS_ENT _)) by (unfold MAX_ARDS_ENT; lia).
  cbn [ASSERT mbind res_bind]. rewrite u32_small by (unfold is_u32; lia).
  destruct (mem_info_loop_spec (Z.to_nat n) (S (Z.to_nat (24 * n))) m a t0 v0 [])
    as (t'&v'&E); [lia..|].
  rewrite Z2Nat.id in E by lia. rewrite E. cbn. eauto.
Qed.

(** ** The whole of [init_paging] *)

Lemma minit_pgtbl_nframes m c0 base length c m' :
  0 < base → 0 ≤ length → base + length < 4294967296 - 4096 →
  let lo := (base + 4095) / 4096 in let hi := (base + length) / 4096 in
  lo + 2 ≤ hi → minit_pgtbl m c0 base length = Ret (0, c, m') →
  nframes c = (hi - lo) * 1024 / 1025.
Proof.
  intros Hb Hl Htop lo hi Hle. unfold minit_pgtbl.
  rewrite minit_pages_spec by lia. fold lo hi.
  assert (0 < lo ∧ 4096 * hi < 4294967296) by (unfold lo, hi; dlia).
  destruct (Z.ltb_spec (hi - lo) 2); [lia|].
  unfold META_ENT_NUM_P_PG, PAGE_SIZE, META_ENT_SIZE.
  change (0x1000 / 4) with 1024. change (1024 + 1) with 1025.
  rewrite (u32_small ((hi - lo) * 1024)) by (unfold is_u32; lia).
  set (npg := (hi - lo) * 1024 / 1025). intros E.
  apply res_bind_Ret in E as ([]&_&E). apply res_bind_Ret in E as (m1&_&E).
  by injection E as <- _.
Qed.

(** The frames for page tables below the kernel image. *)
Definition table_frames (k_start : Z) : Z := (k_start / 4096 - 0x105) * 1024 / 1025.

Lemma iter_bzero_page n p m a :
  no_wrap p 4096 →
  Nat.iter (S n) (bzero p 4096) m a = if decide (p ≤ a < p + 4096) then 0 else m a.
Proof.
  intros Hp. induction n as [|n IH].
  - cbn. by apply bzero_page_at.
  - change (Nat.iter (S (S n)) (bzero p 4096) m a)
      with (bzero p 4096 (Nat.iter (S n) (bzero p 4096) m) a).
    change (bzero p 4096) with (bzero p PAGE_SIZE) at 1.
    rewrite bzero_page_at, IH by done. by case_decide.
Qed.

(** The address space before anything is mapped. *)
Lemma empty_space m k_start :
  0x10A000 ≤ k_start ≤ 0x1000000 →
  let m0 := Nat.iter (Z.to_nat PGD_MAX) (bzero PGD_BASE 4096) m in
  ∃ c m1, minit_pgtbl m0 (Mmc 0 0 0 0 0 0 0 0) 0x105000 (k_start - 0x105000) = Ret (0, c, m1) ∧
    space_wf m1 c PGD_BASE ∧ (∀ i, 0 ≤ i < 1024 → pde m1 PGD_BASE i = 0) ∧
    nfree c = table_frames k_start ∧ 4 ≤ nfree c ∧
    meta_base c = 0x105000 ∧ frame_base c + 4096 * nframes c ≤ k_start.
Proof.
  intros Hk m0.
  assert (Hlo : (0x105000 + 4095) / 4096 = 0x105) by reflexivity.
  assert (Hhi : (0x105000 + (k_start - 0x105000)) / 4096 = k_start / 4096) by (f_equal; lia).
  assert (H5 : 0x105 + 5 ≤ k_start / 4096) by dlia.
  destruct (minit_pgtbl_spec m0 (Mmc 0 0 0 0 0 0 0 0) 0x105000 (k_start - 0x105000))
    as (c&m1&E&Hwf&Em&Ef&Hw&Hout); [lia|lia|lia|rewrite Hlo, Hhi; lia|].
  rewrite Hlo in Em, Hout. rewrite Hhi in Ef.
  pose proof (minit_pgtbl_nframes m0 (Mmc 0 0 0 0 0 0 0 0) 0x105000 (k_start - 0x105000) c m1 ltac:(lia) ltac:(lia) ltac:(lia)
    ltac:(rewrite Hlo, Hhi; lia) E) as Hnf. cbv zeta in Hnf. rewrite Hlo, Hhi in Hnf.
  fold (table_frames k_start) in Hnf.
  assert (Hnz : ∀ i, 0 ≤ i < 1024 → pde m1 PGD_BASE i = 0).
  { intros i Hi. unfold pde, PGD_BASE. rewrite Hout by lia. unfold m0.
    change (Z.to_nat PGD_MAX) with 5%nat. rewrite iter_bzero_page by (unfold no_wrap, PGD_BASE; lia).
    by rewrite decide_True by (unfold PGD_BASE; lia). }
  assert (H4 : 4 ≤ table_frames k_start) by (unfold table_frames; dlia).
  exists c, m1. split; [done|].
  assert (Hfree : nfree c = nframes c).
  { rewrite (wf_nfree _ _ Hwf), whites_all; [lia|]. intros i Hi.
    destruct (Hw i) as [|[|]]; [done|lia|]. destruct (wf_geom _ _ Hwf). lia. }
  rewrite Hfree, Hnf. split_and!; try done; try lia; [|dlia].
  split; [done|unfold PGD_BASE; lia| |].
  - intros i Hi. left. by apply Hnz.
  - intros i i' Hi Hi' _ Hne. by rewrite Hnz in Hne.
Qed.

(** Ranges that end below [va] are skipped. *)
Lemma map_entries_skip pre l m c pdir va :
  Forall sane pre →
  (∀ x, x ∈ pre → ar_type x ≠ ARDS_TYPE_AVAIL ∨ base_addr_low x + length_low x < va) →
  map_entries (pre ++ l) m c pdir va = map_entries l m c pdir va.
Proof.
  induction 1 as [|e pre [Hl He] _ IH]; intros Hskip; [done|]. cbn [map_entries app].
  specialize (IH ltac:(intros x Hx; apply Hskip; by right)).
  destruct (Z.eqb_spec (ar_type e) ARDS_TYPE_AVAIL) as [Hty|Hty]; cbn [andb mbind res_bind];
    [|done].
  destruct (He Hty) as [Hb Htop]. rewrite u32_small by (unfold is_u32; lia).
  destruct (Hskip e ltac:(left)) as [?|Hlt]; [done|].
  by rewrite (proj2 (Z.leb_gt _ _)).
Qed.

Lemma avail_total_app l1 l2 : avail_total (l1 ++ l2) = avail_total l1 + avail_total l2.
Proof. induction l1; cbn; lia. Qed.

(** The mapping loop when the first usable range surrounds the end of kernel
    space. *)
Lemma map_entries_reaches es pre e post m c pdir B :
  es = pre ++ e :: post → Forall sane es → space_wf m c pdir → room m c pdir B →
  (B ≤ 1023)%nat → K_SPACE_END + avail_total es ≤ LARGE * Z.of_nat B →
  (∀ x, x ∈ pre → ar_type x ≠ ARDS_TYPE_AVAIL ∨
                  base_addr_low x + length_low x < K_SPACE_END) →
  ar_type e = ARDS_TYPE_AVAIL → base_addr_low e ≤ K_SPACE_END →
  K_SPACE_END + 8192 ≤ base_addr_low e + length_low e →
  ∃ va' c' m', map_entries es m c pdir K_SPACE_END = Ret (va', c', m') ∧
    K_SPACE_END + 8192 ≤ va' ≤ LARGE * Z.of_nat B ∧ va' `mod` 4096 = 0 ∧
    space_wf m' c' pdir ∧ same_area m c m' c' pdir ∧
    maps_usable es m m' pdir K_SPACE_END va'.
Proof.
  intros -> Hsane Hs HR HB Hlim Hpre Hty Hb He.
  apply Forall_app in Hsane as [Hsp [Hse Hspost]%Forall_cons].
  pose proof (avail_total_nonneg pre Hsp). pose proof (avail_total_nonneg post Hspost).
  rewrite avail_total_app in Hlim. cbn [avail_total] in Hlim.
  rewrite Hty, Z.eqb_refl in Hlim.
  rewrite map_entries_skip by done. cbn [map_entries]. rewrite Hty, Z.eqb_refl. cbn [andb].
  pose proof Hse as [Hl Hsn]. destruct (Hsn Hty) as [Hb0 Htop].
  rewrite u32_small by (unfold is_u32; lia). rewrite (proj2 (Z.leb_le _ _)) by lia.
  assert (Hfuel : Z.of_nat (Z.to_nat 0x100000) = 1048576) by (rewrite Z2Nat.id; lia).
  set (fuel := Z.to_nat 0x100000) in *. clearbody fuel.
  set (all := pre ++ e :: post).
  assert (Hin : ∀ x, x ∈ e :: post → x ∈ all) by (intros x Hx; apply elem_of_app; by right).
  destruct (map_entry_spec all e fuel m c pdir K_SPACE_END B)
    as (va1&c1&m1&->&Hv1&Hm1&Hs1&HR1&Ha1&[Mo Mn]&Hva1); try done; [apply Hin; left|lia|lia|].
  specialize (Hva1 Hb). cbn [mbind res_bind].
  destruct (map_entries_spec all post m1 c1 pdir va1 B)
    as (va'&c'&m'&->&Hv'&Hm'&Hs'&HR'&Ha'&[Mo' Mn']); try done; try lia.
  { intros x Hx. apply Hin. by right. }
  assert (Hlow : K_SPACE_END + 8192 ≤ va1)
    by (rewrite Hva1; clear -He; unfold K_SPACE_END in *; dlia).
  exists va', c', m'. split_and!; try done; try lia.
  - by apply (same_area_trans _ _ m1 c1).
  - split.
    + intros x Hx Ho. rewrite Mo' by (done || lia). apply Mo; [done|lia].
    + intros x Hx. destruct (decide (x < va1)) as [Hlt|]; [|apply Mn'; lia].
      destruct (Mn x ltac:(lia)) as (pa&E1&Hu). exists pa. split; [|done].
      rewrite Mo'; [done| |lia]. unfold LARGE, K_SPACE_END, is_u32 in *. lia.
Qed.

Definition bytes_mapped (s : paging) (va va' : Z) (es : list addr_range_t) : Prop :=
  ∀ x, va ≤ x < va' → ∃ pa, translate (pg_mem s) (k_pdir s) x = Some pa ∧ usable es pa.

(** The directory once kernel space is mapped: its first four entries are in use. *)
Lemma kernel_whites m (B : nat) :
  (4 ≤ B ≤ 1024)%nat →
  (∀ i, 0 ≤ i < 4 → translate m PGD_BASE (LARGE * i) ≠ None) →
  (∀ i, 4 ≤ i < 1024 → pde m PGD_BASE i = 0) →
  whites (pde m PGD_BASE) B = Z.of_nat B - 4.
Proof.
  intros HB Ht Hz.
  assert (Hu4 : ∀ i, 0 ≤ i < 4 → pde m PGD_BASE i ≠ 0).
  { intros i Hi E. apply (Ht i Hi). unfold translate.
    fold (pde m PGD_BASE (PDE_INDEX (LARGE * i))).
    by rewrite (PDE_INDEX_range i), E by (unfold LARGE; lia). }
  assert (Hw : ∀ k : nat, (4 ≤ k ≤ 1024)%nat → whites (pde m PGD_BASE) k = Z.of_nat k - 4).
  { induction k as [|k IH]; intros Hk4; [lia|]. cbn [whites].
    destruct (decide (k = 3%nat)) as [->|].
    - cbn. rewrite !(proj2 (Z.eqb_neq _ _)) by (apply Hu4; lia). done.
    - rewrite IH, Hz by lia. cbn. lia. }
  by apply Hw.
Qed.

Lemma init_paging_spec m k_start a n t0 v0 pre e post :
  0x10A000 ≤ k_start ≤ 0x1000000 →
  1 ≤ n → 0 ≤ a → a + 24 * n < 4294967296 →
  let es := ards_table m a n in
  Forall sane es →
  K_SPACE_END + avail_total es ≤ LARGE * Z.min (table_frames k_start) 1023 →
  es = pre ++ e :: post →
  (∀ x, x ∈ pre → ar_type x ≠ ARDS_TYPE_AVAIL ∨
                  base_addr_low x + length_low x < K_SPACE_END) →
  ar_type e = ARDS_TYPE_AVAIL → base_addr_low e ≤ K_SPACE_END →
  K_SPACE_END + 8192 ≤ base_addr_low e + length_low e →
  ∃ s va', init_paging m k_start a (24 * n) t0 v0 = Ret s ∧
    space_wf (pg_mem s) (mm_pgtbls s) (k_pdir s) ∧ mm_wf (pg_mem s) (mm_phys s) ∧
    K_SPACE_END + 8192 ≤ va' ∧ va' < 4294967296 ∧
    (∀ va, 0 ≤ va < K_SPACE_END → translate (pg_mem s) (k_pdir s) va = Some va) ∧
    bytes_mapped s K_SPACE_END va' es ∧
    (∀ va, va' ≤ va < 4294967296 → translate (pg_mem s) (k_pdir s) va = None) ∧
    meta_base (mm_phys s) = K_SPACE_END ∧
    frame_base (mm_phys s) + 4096 * nframes (mm_phys s) = va'.
Proof.
  intros Hk Hn Ha Hat es Hsane Htot Hes Hpre Hty Hb He.
  destruct (get_mem_info_spec m a n t0 v0 Hn Ha Hat) as (info&Ei&Einfo).
  unfold init_paging. rewrite Ei. cbn [mbind res_bind].
  rewrite (proj2 (Z.leb_le _ _)) by (unfold PGD_BASE, PGD_MAX, PAGE_SIZE; lia).
  cbn [ASSERT mbind res_bind].
  change (PGD_BASE + 4096 * PGD_MAX) with 0x105000.
  rewrite (u32_small (k_start - 0x105000)) by (unfold is_u32; lia).
  destruct (empty_space m k_start Hk) as (c&m1&->&Hs1&Hz1&Hf1&H41&Hmb&Htop).
  cbn [mbind res_bind negb Z.eqb].
  change (PGD_BASE + 4096 * PGD_IDX_KERNEL) with PGD_BASE.
  change (Z.land K_SPACE_START PAGE_MASK) with (LARGE * 0).
  destruct (kernel_map_loop_spec 4 5 0 m1 c PGD_BASE) as (c2&m2&->&Hs2&Ha2&Hn2&Hz2&Ht2);
    try done; try lia.
  cbn [mbind res_bind]. change (PAGE_ALIGN K_SPACE_END) with K_SPACE_END.
  set (B := Z.to_nat (Z.min (table_frames k_start) 1023)).
  assert (HB : Z.of_nat B = Z.min (table_frames k_start) 1023) by (unfold B; lia).
  assert (HR2 : room m2 c2 PGD_BASE B).
  { unfold room. rewrite Hn2, Hf1, kernel_whites; [lia|lia| |done].
    intros i Hi. rewrite Ht2, decide_True; [done|unfold LARGE, K_SPACE_END; lia|].
    unfold is_u32, LARGE; lia. }
  rewrite Einfo. fold es.
  destruct (map_entries_reaches es pre e post m2 c2 PGD_BASE B)
    as (va'&c3&m3&->&Hv3&Hm3&Hs3&Ha3&[Mo Mn]); try done; try lia.
  cbn [mbind res_bind]. rewrite HB in Hv3. unfold LARGE in Hv3.
  rewrite u32_small by (unfold is_u32, K_SPACE_END in *; lia).
  destruct (minit_pgtbl_spec m3 (Mmc 0 0 0 0 0 0 0 0) K_SPACE_END (va' - K_SPACE_END))
    as (cp&m4&->&Hwf4&Em4&Ef4&_&Hout4);
    [unfold K_SPACE_END; lia|lia|unfold K_SPACE_END in *; lia|
     unfold K_SPACE_END in *; dlia|].
  cbn [mbind res_bind negb Z.eqb].
  assert (Hsame : ∀ a, managed c3 a ∨ PGD_BASE ≤ a < PGD_BASE + 4096 → m4 a = m3 a).
  { intros x Hx. apply Hout4. left. unfold managed in Hx.
    destruct Ha2 as [A1 A2 A3 _], Ha3 as [B1 B2 B3 _].
    rewrite B1, B2, B3, A1, A2, A3 in Hx. unfold PGD_BASE, K_SPACE_END in *. dlia. }
  destruct (space_ext m3 m4 c3 PGD_BASE Hs3 Hsame) as [Hs4 Ht4].
  exists (Paging m4 c3 cp (u32 (mm_base cp + mm_length cp), K_HMEM_END) PGD_BASE), va'.
  cbn [pg_mem mm_pgtbls mm_phys k_pdir].
  assert (Ht1 : ∀ va, is_u32 va → translate m1 PGD_BASE va = None).
  { intros va Hva. unfold translate. fold (pde m1 PGD_BASE (PDE_INDEX va)).
    by rewrite Hz1 by (by apply PDE_INDEX_div). }
  split_and!; try done; try lia.
  - intros va Hva. assert (Hu : is_u32 va) by (unfold is_u32, K_SPACE_END in *; lia).
    rewrite Ht4, Mo, Ht2, decide_True by (done || lia). done.
  - intros x Hx. destruct (Mn x Hx) as (pa&E1&Hu). exists pa. split; [|done].
    cbn. rewrite Ht4; [done|]. unfold is_u32, K_SPACE_END in *. lia.
  - intros va Hva. assert (Hu : is_u32 va) by (unfold is_u32, K_SPACE_END in *; lia).
    rewrite Ht4, Mo, Ht2, decide_False by (done || lia). by apply Ht1.
  - rewrite Ef4. replace (K_SPACE_END + (va' - K_SPACE_END)) with va' by lia.
    clear -Hm3. dlia.
Qed.

(** ** Properties *)

(** C30: [page_map] on a well-formed address space, with a table for the address
    or a free frame for one: it returns 0; afterwards every byte of the page of
    [virt_addr] translates to the byte at the same offset in the page of
    [phys_addr], the translation of every other page is unchanged, and the
    address space is well formed again. *)
Theorem page_map_correct m c pdir va pa :
  space_wf m c pdir → is_u32 va → is_u32 pa →
  m (pdir + 4 * PDE_INDEX va) ≠ 0 ∨ 0 < nfree c →
  ∃ c' m', page_map m va pa pdir c = Ret (0, c', m') ∧ space_wf m' c' pdir ∧
    (∀ va', is_u32 va' → va' / 4096 = va / 4096 →
       translate m' pdir va' = Some (pa / 4096 * 4096 + va' `mod` 4096) ∧
       __virt_to_phys m' pdir va' = pa / 4096 * 4096 + va' `mod` 4096) ∧
    (∀ va', is_u32 va' → va' / 4096 ≠ va / 4096 →
       translate m' pdir va' = translate m pdir va').
Proof.
  intros Hs Hv Hp Hr.
  destruct (__page_map_spec m c pdir va pa Hs Hv Hp Hr) as (c'&m'&E&[Hs' Hn Ho _ _]).
  exists c', m'. split; [exact E|]. split; [done|]. split; [|done].
  intros va' Hv' Hpg.
  assert (Ht : translate m' pdir va' = Some (pa / 4096 * 4096 + va' `mod` 4096)).
  { rewrite Hn by done. f_equal. clear. dlia. }
  split; [done|]. by apply translate_virt_to_phys.
Qed.

(** An address space with no page mapped and all tables free. *)
Lemma space_demo :
  ∃ c m, space_wf m c PGD_BASE ∧ 0 < nfree c ∧ ∀ i, 0 ≤ i < 1024 → pde m PGD_BASE i = 0.
Proof.
  destruct (empty_space (λ _, 0) 0x200000) as (c&m&_&Hs&Hz&_&Hn&_); [lia|].
  exists c, m. split; [done|]. split; [lia|done].
Qed.

Lemma page_map_correct_witness :
  ∃ c m c' m', page_map m 0x1002345 0x7000 PGD_BASE c = Ret (0, c', m') ∧
    translate m' PGD_BASE 0x1002345 = Some 0x7345.
Proof.
  destruct space_demo as (c&m&Hs&Hn&_).
  destruct (page_map_correct m c PGD_BASE 0x1002345 0x7000) as (c'&m'&E&_&Ht&_);
    [exact Hs|unfold is_u32; lia|unfold is_u32; lia|right; exact Hn|].
  exists c, m, c', m'. split; [exact E|]. apply Ht; [unfold is_u32; lia|reflexivity].
Defined.

(** [page_unmap] of an address whose directory entry is present returns 0,
    leaves the page of the address without a translation, the translation of
    every other page unchanged and the address space well formed. *)
Theorem page_unmap_correct m c pdir va :
  space_wf m c pdir → is_u32 va → m (pdir + 4 * PDE_INDEX va) ≠ 0 →
  ∃ m', page_unmap m va pdir = (0, m') ∧ space_wf m' c pdir ∧
    (∀ va', is_u32 va' → va' / 4096 = va / 4096 → translate m' pdir va' = None) ∧
    (∀ va', is_u32 va' → va' / 4096 ≠ va / 4096 →
       translate m' pdir va' = translate m pdir va').
Proof.
  intros Hs Hv Hne. pose proof (wf_geom _ _ (sp_mm _ _ _ Hs)) as Hg.
  destruct (PDE_INDEX_div va Hv) as [_ Hi].
  destruct (sp_pde _ _ _ Hs (PDE_INDEX va) Hi) as [?|(j&Hj&Ep&Hc)]; [done|].
  unfold page_unmap, __page_unmap. fold (pde m pdir (PDE_INDEX va)).
  rewrite Ep. destruct (frame_decode c j Hg Hj) as [_ ->].
  destruct (table_write m c pdir va j NULL Hs Hv Hj Ep Hc) as (Hs3&Ht3&Ho3).
  eexists. split; [done|]. split; [done|]. split; [|done].
  intros va' Hv' Hpg. by rewrite Ht3.
Qed.

Lemma page_unmap_correct_witness :
  ∃ c m m', translate m PGD_BASE 0x1002345 = Some 0x7345 ∧
    page_unmap m 0x1002345 PGD_BASE = (0, m') ∧
    space_wf m c PGD_BASE ∧ translate m' PGD_BASE 0x1002345 = None.
Proof.
  destruct space_demo as (c0&m0&Hs0&Hn&_).
  destruct (__page_map_spec m0 c0 PGD_BASE 0x1002345 0x7000 Hs0) as (c&m&_&[Hs Ht _ _ _]);
    [unfold is_u32; lia|unfold is_u32; lia|right; exact Hn|].
  specialize (Ht 0x1002345 ltac:(unfold is_u32; lia) eq_refl).
  destruct (page_unmap_correct m c PGD_BASE 0x1002345) as (m'&E&_&Hu&_);
    [exact Hs|unfold is_u32; lia| |].
  { intros E0. unfold translate in Ht. rewrite E0 in Ht. discriminate Ht. }
  exists c, m, m'. split; [exact Ht|]. split; [exact E|]. split; [exact Hs|].
  apply Hu; [unfold is_u32; lia|reflexivity].
Defined.


(** A map with one entry: 31 MB of available memory from 1 MB on. *)
Definition map_demo : mem :=
  <[0x9004 := 0x100000]> (<[0x900C := 0x1F00000]> (<[0x9014 := 1]> (λ _, 0))).

