(* ===== verification/HighMem.v ===== *)
(** * High memory: the interfaces of [src/mm.c] to memory that is not mapped

    [mmp_high] is a pointer to an allocator descriptor; the interfaces are those of [mm_phys] on
    what it points to. No code sets it: it keeps the value 0 of static data, and the
    descriptor is read from physical address 0. *)
From S2P Require Import Prelude MM MMProofs CString Paging PagingProofs.

(** [mmc_t] in memory: eight words. *)
Definition load_mmc (m : mem) (p : Z) : mmc_t :=
  Mmc (m p) (m (p + 4)) (m (p + 8)) (m (p + 12)) (m (p + 16)) (m (p + 20)) (m (p + 24)) (m (p + 28)).

Definition store_mmc (m : mem) (p : Z) (c : mmc_t) : mem :=
  let m := <[p := mm_base c]> m in
  let m := <[p + 4 := mm_length c]> m in
  let m := <[p + 8 := meta_base c]> m in
  let m := <[p + 12 := mframes c]> m in
  let m := <[p + 16 := meta_len c]> m in
  let m := <[p + 20 := frame_base c]> m in
  let m := <[p + 24 := nframes c]> m in
  <[p + 28 := nfree c]> m.

Section High.
(** [static mmc_t *mmp_high] *)
Context (mmp_high : Z).

(** The allocator functions write [nfree] back to the descriptor and nothing else of it. *)
Definition on_high {X} (r : res (X * mmc_t * mem)) : res (X * mem) :=
  '(x, c, m) ← r; Ret (x, <[mmp_high + 28 := nfree c]> m).

(** [void *get_free_pages_high(size_t npg)], [void *get_free_page_high()] *)
Definition get_free_pages_high (m : mem) (npg : Z) : res (Z * mem) :=
  on_high (alloc_frames m (load_mmc m mmp_high) npg).
Definition get_free_page_high (m : mem) : res (Z * mem) :=
  on_high (alloc_frame m (load_mmc m mmp_high)).

(** [void *get_zeroed_page_high()] *)
Definition get_zeroed_page_high (m : mem) : res (Z * mem) :=
  '(p, m) ← on_high (alloc_frame m (load_mmc m mmp_high));
  Ret (p, if negb (p =? 0) then bzero p PAGE_SIZE m else m).

(** [int free_pages_high(void *page)], [int free_page_high(void *page)] *)
Definition free_pages_high (m : mem) (page : Z) : res (Z * mem) :=
  on_high (free_frames m (load_mmc m mmp_high) page).
Definition free_page_high (page : Z) : Z := 0.

(** [static inline int init_high_mem()]; called by nobody. The
    descriptor is written before the table, which does not overlap it. *)
Definition init_high_mem (s : paging) : res (Z * mem) :=
  let m := pg_mem s in
  '(rc, c, m') ← minit_pgtbl m (load_mmc m mmp_high) (get_high_mem_start s) (get_high_mem_len s);
  Ret (rc, if rc =? 0 then store_mmc m' mmp_high c else m').
End High.

(** [static inline void set_high_mem(addr_t addr, size_t len)] *)
Definition set_high_mem (addr len : Z) (s : paging) : paging :=
  Paging (pg_mem s) (mm_pgtbls s) (mm_phys s) (addr, len) (k_pdir s).

(** ** What they do *)

Lemma load_store_mmc m p c : load_mmc (store_mmc m p c) p = c.
Proof.
  destruct c as [f0 f1 f2 f3 f4 f5 f6 f7]. unfold load_mmc, store_mmc. cbv zeta. cbn [mm_base mm_length meta_base mframes meta_len frame_base nframes nfree].
  f_equal; repeat first [rewrite fn_lookup_insert | rewrite fn_lookup_insert_ne by lia]; reflexivity.
Qed.

(** A descriptor of zeros: an allocator without frames. *)
Definition empty_mmc : mmc_t := Mmc 0 0 0 0 0 0 0 0.

Lemma empty_alloc m n : 0 < n → alloc_frames m empty_mmc n = Ret (NULL, empty_mmc, m).
Proof.
  intros Hn. unfold alloc_frames, find_seq_pages. cbn [nfree empty_mmc].
  rewrite (proj2 (Z.leb_gt _ _)) by lia. reflexivity.
Qed.

Lemma empty_free m p : free_frames m empty_mmc p = Ret (1, empty_mmc, m).
Proof. reflexivity. Qed.

Lemma nfree_unchanged (m : mem) a : m a = 0 → ∀ b, (<[a := 0]> m) b = m b.
Proof. intros E b. unfold insert, fn_insert. case_decide; congruence. Qed.

(** The high-memory interfaces never give memory out. [mmp_high] is null and nothing sets
    it; with the words at physical address 0 clear, every request for pages returns
    [NULL] and every release of pages fails, without a change of memory. *)
Theorem high_memory_unavailable m :
  (∀ i, 0 ≤ i < 8 → m (NULL + 4 * i) = 0) →
  (∀ n, 0 < n → ∃ m', get_free_pages_high NULL m n = Ret (NULL, m') ∧ ∀ a, m' a = m a) ∧
  (∃ m', get_free_page_high NULL m = Ret (NULL, m') ∧ ∀ a, m' a = m a) ∧
  (∃ m', get_zeroed_page_high NULL m = Ret (NULL, m') ∧ ∀ a, m' a = m a) ∧
  (∀ p, ∃ m', free_pages_high NULL m p = Ret (1, m') ∧ ∀ a, m' a = m a).
Proof.
  intros Hz. assert (El : load_mmc m NULL = empty_mmc).
  { unfold load_mmc, empty_mmc. f_equal;
      [apply (Hz 0)|apply (Hz 1)|apply (Hz 2)|apply (Hz 3)|apply (Hz 4)|apply (Hz 5)|apply (Hz 6)|apply (Hz 7)]; lia. }
  assert (E0 : m (NULL + 28) = 0) by (apply (Hz 7); lia).
  pose proof (nfree_unchanged m (NULL + 28) E0) as Hm.
  unfold get_free_pages_high, get_free_page_high, get_zeroed_page_high, free_pages_high, alloc_frame, on_high.
  rewrite El. split_and!.
  - intros n Hn. rewrite empty_alloc by done. eexists. split; [reflexivity|]. exact Hm.
  - rewrite empty_alloc by lia. eexists. split; [reflexivity|]. exact Hm.
  - rewrite empty_alloc by lia. eexists. split; [reflexivity|]. exact Hm.
  - intros p. rewrite empty_free. eexists. split; [reflexivity|]. exact Hm.
Qed.

Lemma high_memory_unavailable_witness :
  ∃ m', get_free_pages_high NULL (λ _, 0) 3 = Ret (NULL, m') ∧ ∀ a, m' a = 0.
Proof.
  destruct (high_memory_unavailable (λ _, 0)) as [H _]; [reflexivity|].
  exact (H 3 ltac:(lia)).
Defined.

(** What [init_high_mem] would do with a descriptor at [p], after [init_paging] has called
    [set_high_mem] with the end of the mapped memory and [K_HMEM_END]: the allocator is well
    formed, but its frames end at [K_HMEM_END] past the start of high memory and not at
    [K_HMEM_END]. *)
Lemma init_high_mem_range p s start :
  let s := set_high_mem start K_HMEM_END s in
  0 < start → start `mod` 4096 = 0 → start + K_HMEM_END < 4294967296 - 4096 → p + 32 ≤ start →
  ∃ m, init_high_mem p s = Ret (0, m) ∧
    let c := load_mmc m p in
    meta_base c = start ∧ frame_base c + PAGE_SIZE * nframes c = start + K_HMEM_END ∧
    nfree c = nframes c.
Proof.
  intros s' H0 Ha Ht Hp. unfold K_HMEM_END in *. unfold init_high_mem.
  cbn [s' set_high_mem get_high_mem_start get_high_mem_len high_mem fst snd pg_mem].
  destruct (minit_pgtbl_correct (pg_mem s) (load_mmc (pg_mem s) p) start 0xC0000000)
    as (c&m'&E&Hwf&Em&Ef&En&_); [lia..|dlia|].
  rewrite E. cbn [mbind res_bind Z.eqb]. eexists. split; [reflexivity|].
  rewrite load_store_mmc. split_and!; [|rewrite Ef|done].
  - rewrite Em. unfold PAGE_ALIGN, PAGE_SIZE. rewrite u32_small, land_page_mask by (unfold is_u32; lia). dlia.
  - rewrite land_page_mask by (unfold is_u32; lia). dlia.
Qed.
