(* ===== verification/Spinlock.v ===== *)
(** * Spinlocks: [src/spinlock.c], the raw lock of [include/locking.h], and the
      interrupt-flag functions of [src/idt.c]

    Every function is the sequence of its atomic actions, in source order; any
    number of CPUs interleave theirs. The only read-modify-write action is the
    [xchg] of the raw lock. A CPU's own state is its [preempt_on] and
    [saved_flags] fields ([cpu_state_t]) and its interrupt flag. *)
From S2P Require Import Prelude.

(** ** The raw lock and the lock structure *)

Record spinlock_t : Type := Spin {
  slock : Z;
  owner_cpu : option nat;
}.

(** [uint_t xchg(volatile addr_t *addr, uint_t newval)] *)
Definition xchg (lk : spinlock_t) (newval : Z) : Z * spinlock_t :=
  (slock lk, Spin newval (owner_cpu lk)).

Definition acquire_rlock (lk : spinlock_t) : Z * spinlock_t := xchg lk 1.
Definition release_rlock (lk : spinlock_t) : Z * spinlock_t := xchg lk 0.

(** [void spin_lock_init(spinlock_t *lock)] *)
Definition spin_lock_init : spinlock_t := Spin 0 None.

Definition set_owner (o : option nat) (lk : spinlock_t) : spinlock_t := Spin (slock lk) o.

(** ** Actions *)

Inductive action : Type :=
  | PreemptDisable | PreemptEnable
  | IrqDisable | IrqEnable | IrqSave | IrqRestore
  | Acquire            (* one round of [while (acquire_rlock(&lock->slock)) ;] *)
  | AssertNoOwner      (* [ASSERT(lock->owner_cpu == NULL)] *)
  | SetOwner           (* [lock->owner_cpu = get_processor()] *)
  | ClearOwner         (* [lock->owner_cpu = NULL] *)
  | Release            (* [release_rlock(&lock->slock)] *)
  | TryAcquire.        (* [if (acquire_rlock(&lock->slock))] of [spin_trylock] *)

#[export] Instance action_eq_dec : EqDecision action.
Proof. solve_decision. Defined.

Definition spin_acquire : list action := [Acquire; AssertNoOwner; SetOwner].
Definition spin_release : list action := [ClearOwner; Release].

Definition spin_lock : list action := PreemptDisable :: spin_acquire.
Definition spin_trylock : list action := [PreemptDisable; TryAcquire].
Definition spin_unlock : list action := spin_release ++ [PreemptEnable].
Definition spin_lock_irq : list action := IrqDisable :: PreemptDisable :: spin_acquire.
Definition spin_unlock_irq : list action := spin_release ++ [PreemptEnable; IrqEnable].
Definition spin_lock_irqsave : list action := IrqSave :: PreemptDisable :: spin_acquire.
Definition spin_unlock_irqrestore : list action := spin_release ++ [IrqRestore; PreemptEnable].

(** ** CPUs *)

(** [code] is what is left of the running function. [holds] is not a field of
    the source: it marks the CPU that won the last [xchg]. *)
Record cpu : Type := Cpu {
  code : list action;
  preempt_on : bool;
  irq_on : bool;
  saved_flags : bool;
  holds : bool;
}.

Definition set_code (l : list action) (c : cpu) : cpu :=
  Cpu l (preempt_on c) (irq_on c) (saved_flags c) (holds c).
Definition set_preempt (b : bool) (c : cpu) : cpu :=
  Cpu (code c) b (irq_on c) (saved_flags c) (holds c).
Definition set_irq (b : bool) (c : cpu) : cpu :=
  Cpu (code c) (preempt_on c) b (saved_flags c) (holds c).
Definition set_holds (b : bool) (c : cpu) : cpu :=
  Cpu (code c) (preempt_on c) (irq_on c) (saved_flags c) b.

(** [void local_irq_disable()] and [void local_irq_enable()] *)
Definition local_irq_disable (c : cpu) : cpu := set_irq false c.
Definition local_irq_enable (c : cpu) : cpu := set_irq true c.

(** [void local_irq_save()]: the flag goes to the CPU's one [saved_flags] slot. *)
Definition local_irq_save (c : cpu) : cpu :=
  Cpu (code c) (preempt_on c) false (irq_on c) (holds c).

(** [void local_irq_restore()] *)
Definition local_irq_restore (c : cpu) : cpu := set_irq (saved_flags c) c.

(** One action of CPU [i]. *)
Definition act (i : nat) (a : action) (lk : spinlock_t) (c : cpu) : res (spinlock_t * cpu) :=
  match a with
  | PreemptDisable => Ret (lk, set_preempt false c)
  | PreemptEnable => Ret (lk, set_preempt true c)
  | IrqDisable => Ret (lk, local_irq_disable c)
  | IrqEnable => Ret (lk, local_irq_enable c)
  | IrqSave => Ret (lk, local_irq_save c)
  | IrqRestore => Ret (lk, local_irq_restore c)
  | Acquire =>
      let '(old, lk) := acquire_rlock lk in
      if negb (old =? 0) then Ret (lk, set_code (Acquire :: code c) c)
      else Ret (lk, set_holds true c)
  | AssertNoOwner =>
      match owner_cpu lk with
      | None => Ret (lk, c)
      | Some _ => Panic "lock->owner_cpu == NULL"
      end
  | SetOwner => Ret (set_owner (Some i) lk, c)
  | ClearOwner => Ret (set_owner None lk, c)
  | Release => Ret ((release_rlock lk).2, set_holds false c)
  | TryAcquire =>
      let '(old, lk) := acquire_rlock lk in
      if negb (old =? 0) then Ret (lk, set_code [PreemptEnable] c)
      else Ret (lk, set_holds true c)
  end.

(** ** The system *)

Record sys : Type := Sys { lock : spinlock_t; cpus : nat → cpu }.

Definition run_cpu (i : nat) (s : sys) : option (res sys) :=
  match code (cpus s i) with
  | [] => None
  | a :: rest =>
      Some ('(lk, c) ← act i a (lock s) (set_code rest (cpus s i));
            Ret (Sys lk (<[i := c]> (cpus s))))
  end.

Definition acquiring : list (list action) :=
  [spin_lock; spin_trylock; spin_lock_irq; spin_lock_irqsave].
Definition releasing : list (list action) :=
  [spin_unlock; spin_unlock_irq; spin_unlock_irqrestore].

(** A CPU runs its next action, or calls a function: an acquiring one when it
    does not hold the lock, a releasing one when it does. *)
Inductive step (s : sys) : sys → Prop :=
  | step_run i s' : run_cpu i s = Some (Ret s') → step s s'
  | step_call i f :
      code (cpus s i) = [] →
      f ∈ (if holds (cpus s i) then releasing else acquiring) →
      step s (Sys (lock s) (<[i := set_code f (cpus s i)]> (cpus s))).

(** The lock is initialised and no CPU runs any of the functions. *)
Definition initial (s : sys) : Prop :=
  lock s = spin_lock_init ∧ ∀ i, code (cpus s i) = [] ∧ holds (cpus s i) = false.

(** ** The invariant

    A CPU is at one of these points: what is left to run, whether it holds the
    lock, and whether preemption is off by then. *)

(** Whether a CPU may hold the lock at a point of the code. *)
Definition holding_code (l : list action) : Prop :=
  l = [AssertNoOwner; SetOwner] ∨ l = [SetOwner] ∨ l = [] ∨ l ∈ releasing ∨
  l = [Release; PreemptEnable] ∨ l = [Release; PreemptEnable; IrqEnable] ∨
  l = [Release; IrqRestore; PreemptEnable].

(** Points before the lock is taken; [true] for those after [preempt_disable]. *)
Definition waiting_code (off : bool) (l : list action) : Prop :=
  if off then l = spin_acquire ∨ l = [TryAcquire]
  else l = [] ∨ l ∈ acquiring ∨ l = PreemptDisable :: spin_acquire ∨
       l = [PreemptEnable] ∨ l = [PreemptEnable; IrqEnable] ∨ l = [IrqEnable] ∨
       l = [IrqRestore; PreemptEnable].

Definition cpu_ok (lk : spinlock_t) (i : nat) (c : cpu) : Prop :=
  if holds c then
    holding_code (code c) ∧ preempt_on c = false ∧
    (code c = [AssertNoOwner; SetOwner] ∨ code c = [SetOwner] ∨ head (code c) = Some Release →
     owner_cpu lk = None)
  else waiting_code false (code c) ∨ (waiting_code true (code c) ∧ preempt_on c = false).

Record lock_inv (s : sys) : Prop := {
  inv_excl : ∀ i j, holds (cpus s i) = true → holds (cpus s j) = true → i = j;
  inv_free : slock (lock s) = 0 → ∀ i, holds (cpus s i) = false;
  inv_val : slock (lock s) = 0 ∨ slock (lock s) = 1;
  inv_held : slock (lock s) = 1 → ∃ i, holds (cpus s i) = true;
  inv_owner : ∀ i, owner_cpu (lock s) = Some i → holds (cpus s i) = true;
  inv_cpu : ∀ i, cpu_ok (lock s) i (cpus s i);
}.

Lemma cpu_ok_waiting lk lk' i c : holds c = false → cpu_ok lk i c → cpu_ok lk' i c.
Proof. unfold cpu_ok. by intros ->. Qed.

Lemma cpu_ok_owner lk lk' i c :
  owner_cpu lk' = owner_cpu lk → cpu_ok lk i c → cpu_ok lk' i c.
Proof. unfold cpu_ok. by intros ->. Qed.

(** A change of CPU [i] and the lock keeps the invariant when the raw lock and
    the owner follow [holds]. *)
Lemma inv_update s i c lk :
  lock_inv s → cpu_ok lk i c →
  (holds c = true → holds (cpus s i) = true ∨ slock (lock s) = 0) →
  slock lk = (if holds c then 1 else if holds (cpus s i) then 0 else slock (lock s)) →
  (holds (cpus s i) = false → holds c = false → owner_cpu lk = owner_cpu (lock s)) →
  (holds (cpus s i) = true ∨ holds c = true →
   ∀ k, owner_cpu lk = Some k → k = i ∧ holds c = true) →
  lock_inv (Sys lk (<[i := c]> (cpus s))).
Proof.
  intros [E1 E2 E3 E4 E5 E6] Hok H1 H2 H3 H4.
  assert (Hi : ∀ j, (<[i := c]> (cpus s)) j = if decide (j = i) then c else cpus s j)
    by (intros j; unfold insert, fn_insert; case_decide; case_decide; congruence).
  assert (Hoth : holds (cpus s i) = true ∨ slock (lock s) = 0 →
                 ∀ j, j ≠ i → holds (cpus s j) = false).
  { intros [Hh|H0] j Hj; [|by apply E2]. destruct (holds (cpus s j)) eqn:Ej; [|done].
    exfalso. by apply Hj, E1. }
  split; cbn [lock cpus].
  - intros j k. rewrite !Hi. repeat case_decide; subst; try done; intros Hj Hk.
    + specialize (Hoth (H1 Hj) k ltac:(done)). congruence.
    + specialize (Hoth (H1 Hk) j ltac:(done)). congruence.
    + by apply E1.
  - intros H0 j. rewrite H2 in H0. rewrite Hi. case_decide; subst.
    + by destruct (holds c).
    + destruct (holds c) eqn:Ec; [done|]. destruct (holds (cpus s i)) eqn:Ei.
      * by apply Hoth; [left|].
      * by apply E2.
  - rewrite H2. destruct (holds c); [by right|]. destruct (holds (cpus s i)); [by left|done].
  - rewrite H2. intros Hv. destruct (holds c) eqn:Ec.
    + exists i. rewrite Hi, decide_True by done. done.
    + destruct (holds (cpus s i)) eqn:Ei; [done|]. destruct (E4 Hv) as [j Hj].
      exists j. rewrite Hi. case_decide; subst; congruence.
  - intros k Hk. rewrite Hi. destruct (holds (cpus s i)) eqn:Ei; [|destruct (holds c) eqn:Ec].
    + destruct (H4 (or_introl eq_refl) k Hk) as [-> ?]. by rewrite decide_True.
    + destruct (H4 (or_intror eq_refl) k Hk) as [-> ?]. by rewrite decide_True.
    + rewrite H3 in Hk by done. specialize (E5 k Hk). case_decide; subst; congruence.
  - intros j. rewrite Hi. case_decide; subst; [done|].
    destruct (holds (cpus s i)) eqn:Ei; [|destruct (holds c) eqn:Ec].
    + apply (cpu_ok_waiting (lock s)); [apply Hoth; [by left|done]|done].
    + apply (cpu_ok_waiting (lock s)); [apply Hoth; [by apply H1|done]|done].
    + apply (cpu_ok_owner (lock s)); [by apply H3|done].
Qed.

Lemma holder_owner s i k :
  lock_inv s → holds (cpus s i) = true → owner_cpu (lock s) = Some k → k = i.
Proof. intros H Hi Hk. apply (inv_excl _ H); [by apply (inv_owner _ H)|done]. Qed.

Lemma holder_locked s i : lock_inv s → holds (cpus s i) = true → slock (lock s) = 1.
Proof.
  intros H Hi. destruct (inv_val _ H) as [E|E]; [|done].
  by rewrite (inv_free _ H E i) in Hi.
Qed.

Lemma free_no_owner s : lock_inv s → slock (lock s) = 0 → owner_cpu (lock s) = None.
Proof.
  intros H H0. destruct (owner_cpu (lock s)) as [k|] eqn:E; [|done].
  apply (inv_owner _ H) in E. by rewrite (inv_free _ H H0) in E.
Qed.

(** Discharges the side conditions of [inv_update] for a concrete action. *)
Ltac spin_side Ec :=
  unfold cpu_ok, holding_code, waiting_code, releasing, acquiring,
    spin_acquire, spin_release, spin_lock, spin_trylock, spin_unlock, spin_lock_irq,
    spin_unlock_irq, spin_lock_irqsave, spin_unlock_irqrestore in *;
  rewrite ?Ec; cbn in *; rewrite ?elem_of_cons in *; naive_solver.

Ltac spin_step Hrun Ec :=
  injection Hrun as <-; eexists; split; [reflexivity|];
  apply inv_update; [assumption|spin_side Ec..].

(** The next action of a CPU never fails and keeps the invariant. *)
Lemma run_inv_holder s i r :
  lock_inv s → holds (cpus s i) = true → run_cpu i s = Some r →
  ∃ s', r = Ret s' ∧ lock_inv s'.
Proof.
  intros Hinv Hh Hrun. pose proof (inv_cpu _ Hinv i) as Hok.
  pose proof (holder_locked s i Hinv Hh) as Hlk.
  assert (Hown : ∀ k, owner_cpu (lock s) = Some k → k = i)
    by (intros k; by apply holder_owner).
  unfold run_cpu in Hrun. unfold cpu_ok in Hok. rewrite Hh in Hok.
  destruct (cpus s i) as [l pre irq sav h] eqn:Ec; cbn in *. subst h.
  destruct Hok as (Hl&->&Ho). unfold holding_code, releasing in Hl.
  rewrite !elem_of_cons, elem_of_nil in Hl.
  destruct Hl as [->|[->|[->|[[->|[->|[->|[]]]]|[->|[->| ->]]]]]]; cbn in Hrun;
    try (rewrite Ho in Hrun by tauto); try discriminate Hrun; spin_step Hrun Ec.
Qed.

Lemma run_inv_waiter s i r :
  lock_inv s → holds (cpus s i) = false → run_cpu i s = Some r →
  ∃ s', r = Ret s' ∧ lock_inv s'.
Proof.
  intros Hinv Hh Hrun. pose proof (inv_cpu _ Hinv i) as Hok.
  pose proof (free_no_owner s Hinv) as Hfree. pose proof (inv_val _ Hinv) as Hval.
  unfold run_cpu in Hrun. unfold cpu_ok in Hok. rewrite Hh in Hok.
  destruct (cpus s i) as [l pre irq sav h] eqn:Ec; cbn in *. subst h.
  unfold waiting_code, acquiring in Hok. rewrite !elem_of_cons, elem_of_nil in Hok.
  destruct Hok as [Hok|[Hok ->]].
  - destruct Hok as [->|[[->|[->|[->|[->|[]]]]]|[->|[->|[->|[->| ->]]]]]]; cbn in Hrun;
      try discriminate Hrun; spin_step Hrun Ec.
  - destruct Hok as [->| ->]; cbn in Hrun; destruct Hval as [E0|E1].
    all: rewrite ?E0, ?E1 in Hrun; cbn in Hrun; spin_step Hrun Ec.
Qed.

Lemma run_inv s i r :
  lock_inv s → run_cpu i s = Some r → ∃ s', r = Ret s' ∧ lock_inv s'.
Proof.
  intros Hinv. destruct (holds (cpus s i)) eqn:Hh;
    [by apply run_inv_holder|by apply run_inv_waiter].
Qed.

Lemma step_inv s s' : lock_inv s → step s s' → lock_inv s'.
Proof.
  intros Hinv [i s1 Hrun|i f Hc Hf].
  - destruct (run_inv s i _ Hinv Hrun) as (s2&[= ->]&H2). done.
  - pose proof (inv_cpu _ Hinv i) as Hok. unfold cpu_ok in Hok.
    pose proof (holder_locked s i Hinv) as Hlk. pose proof (holder_owner s i) as Hown.
    destruct (cpus s i) as [l pre irq sav h] eqn:Ec; cbn in *. subst l.
    apply inv_update; [done|..]; rewrite ?Ec; cbn; destruct h; try naive_solver.
    + unfold cpu_ok; cbn. destruct Hok as (_&->&_). split; [unfold holding_code; tauto|].
      split; [done|]. unfold releasing in Hf. rewrite !elem_of_cons, elem_of_nil in Hf.
      destruct Hf as [->|[->|[->|[]]]]; intros [?|[?|?]]; discriminate.
    + unfold cpu_ok; cbn. left. unfold waiting_code. tauto.
Qed.

Lemma initial_inv s : initial s → lock_inv s.
Proof.
  intros [Hl Hc]. split.
  - intros i j Hi. by rewrite (proj2 (Hc i)) in Hi.
  - intros _ i. apply Hc.
  - left. by rewrite Hl.
  - rewrite Hl. done.
  - rewrite Hl. done.
  - intros i. unfold cpu_ok. destruct (Hc i) as [-> ->]. left. by left.
Qed.

Lemma reachable_inv s0 s : initial s0 → rtc step s0 s → lock_inv s.
Proof. intros H0 Hr. apply initial_inv in H0. induction Hr; eauto using step_inv. Qed.

(** ** Properties *)

(** C6: mutual exclusion of spinlocks, for any number of CPUs calling any of
    the locking functions in any interleaving of their atomic actions: at most
    one CPU holds the lock, preemption is off on it, [owner_cpu] never names
    another CPU, and no [ASSERT] fails. *)
Theorem spinlock_mutual_exclusion s0 s :
  initial s0 → rtc step s0 s →
  (∀ i j, holds (cpus s i) = true → holds (cpus s j) = true → i = j) ∧
  (∀ i, holds (cpus s i) = true → preempt_on (cpus s i) = false) ∧
  (∀ i k, holds (cpus s i) = true → owner_cpu (lock s) = Some k → k = i) ∧
  (∀ i r, run_cpu i s = Some r → ∃ s', r = Ret s').
Proof.
  intros H0 Hr. pose proof (reachable_inv s0 s H0 Hr) as Hinv. split_and!.
  - apply Hinv.
  - intros i Hi. pose proof (inv_cpu _ Hinv i) as Hok. unfold cpu_ok in Hok.
    rewrite Hi in Hok. apply Hok.
  - intros i k. by apply holder_owner.
  - intros i r Hrun. destruct (run_inv s i r Hinv Hrun) as (s'&->&_). eauto.
Qed.

(** Two idle CPUs. *)
Definition sys_demo : sys := Sys spin_lock_init (λ _, Cpu [] true true false false).

Lemma spinlock_mutual_exclusion_witness :
  ∃ s, rtc step sys_demo s ∧ code (cpus s 1%nat) = spin_lock ∧
    ∀ i j, holds (cpus s i) = true → holds (cpus s j) = true → i = j.
Proof.
  eexists. split; [apply rtc_once, (step_call sys_demo 1 spin_lock); [reflexivity|left]|].
  split; [reflexivity|].
  apply (spinlock_mutual_exclusion sys_demo).
  - split; [reflexivity|split; reflexivity].
  - apply rtc_once, (step_call sys_demo 1 spin_lock); [reflexivity|left].
Defined.

(** A spinlock is never lost: in every reachable state in which no CPU holds
    it, the raw lock is free, so the next round of any spinning CPU takes it. *)
Theorem spinlock_not_lost s0 s :
  initial s0 → rtc step s0 s → (∀ i, holds (cpus s i) = false) →
  slock (lock s) = 0 ∧
  ∀ i rest, code (cpus s i) = Acquire :: rest →
    ∃ s', run_cpu i s = Some (Ret s') ∧ holds (cpus s' i) = true ∧
          code (cpus s' i) = rest ∧ slock (lock s') = 1.
Proof.
  intros H0 Hr Hn. pose proof (reachable_inv s0 s H0 Hr) as Hinv.
  assert (E : slock (lock s) = 0).
  { destruct (inv_val _ Hinv) as [E|E]; [done|].
    destruct (inv_held _ Hinv E) as [i Hi]. by rewrite Hn in Hi. }
  split; [done|]. intros i rest Hc. unfold run_cpu. rewrite Hc. cbn. rewrite E. cbn.
  eexists. split; [done|]. cbn. rewrite fn_lookup_insert. done.
Qed.

Lemma spinlock_not_lost_witness :
  initial sys_demo ∧ slock (lock sys_demo) = 0.
Proof.
  assert (H0 : initial sys_demo) by (split; [reflexivity|split; reflexivity]).
  split; [exact H0|].
  destruct (spinlock_not_lost sys_demo sys_demo H0 (rtc_refl _ _) (λ _, eq_refl)) as [E _].
  exact E.
Defined.

(** ** The interrupt flag *)

(** The actions of one CPU, uncontended and in order. *)
Fixpoint exec (i : nat) (l : list action) (lk : spinlock_t) (c : cpu) : res (spinlock_t * cpu) :=
  match l with
  | [] => Ret (lk, c)
  | a :: l => '(lk, c) ← act i a lk c; exec i l lk c
  end.

(** Two locks taken with [spin_lock_irqsave], the second inside the first, and
    released in the reverse order. *)
Definition nested_irqsave (i : nat) (c : cpu) : res (spinlock_t * spinlock_t * cpu) :=
  '(a, c) ← exec i spin_lock_irqsave spin_lock_init c;
  '(b, c) ← exec i spin_lock_irqsave spin_lock_init c;
  '(b, c) ← exec i spin_unlock_irqrestore b c;
  '(a, c) ← exec i spin_unlock_irqrestore a c;
  Ret (a, b, c).

(** [spin_lock_irqsave] followed by [spin_unlock_irqrestore] gives the
    interrupt flag back as it was and leaves the lock free; but [saved_flags] is
    one slot per CPU, so a nested pair leaves interrupts off whatever they
    were. *)
Theorem irqsave_restores_once_only i c :
  (∃ c', exec i (spin_lock_irqsave ++ spin_unlock_irqrestore) spin_lock_init c
           = Ret (spin_lock_init, c') ∧ irq_on c' = irq_on c ∧ preempt_on c' = true) ∧
  (∃ c', nested_irqsave i c = Ret (spin_lock_init, spin_lock_init, c') ∧ irq_on c' = false).
Proof. destruct c as [l pre irq sav h]. split; eexists; split; reflexivity || split; reflexivity. Qed.
