(* ===== verification/Threads.v ===== *)
(** * Threads as the sleeping locks see them

    The states of a thread ([include/task.h]) and the two functions of
    [src/sched.c] that put a thread to sleep and wake it up. *)
From S2P Require Import Prelude.

(** [thread_state_t] *)
Inductive thread_state_t : Type :=
  | T_INIT | T_READY | T_RUNNING | T_BLOCKED | T_COMPLETE.

#[export] Instance thread_state_eq_dec : EqDecision thread_state_t.
Proof. solve_decision. Defined.

(** The [status] field of every thread; a thread is its address. *)
Definition statuses : Type := Z → thread_state_t.

(** [__set_thread_status(threadp, state)] *)
Definition set_thread_status (t : Z) (s : thread_state_t) (st : statuses) : statuses :=
  <[t := s]> st.

(** [int make_sleep()], called by thread [t]. *)
Definition make_sleep (t : Z) (st : statuses) : statuses := set_thread_status t T_BLOCKED st.

(** [int wake_up(thread_t *threadp)] *)
Definition wake_up (t : Z) (st : statuses) : Z * statuses :=
  if decide (st t = T_BLOCKED) then (OK, set_thread_status t T_READY st) else (1, st).

(** What else happens to the status of a thread while it is in a lock: it is
    dispatched, preempted, or woken by a third party (an alarm). *)
Inductive sched_event : Type := Dispatch (t : Z) | Preempt (t : Z) | Alarm (t : Z).

Definition sched_effect (e : sched_event) (st : statuses) : option statuses :=
  match e with
  | Dispatch t => if decide (st t = T_READY) then Some (set_thread_status t T_RUNNING st) else None
  | Preempt t => if decide (st t = T_RUNNING) then Some (set_thread_status t T_READY st) else None
  | Alarm t => if decide (st t = T_BLOCKED) then Some (set_thread_status t T_READY st) else None
  end.

Lemma status_same t s st : set_thread_status t s st t = s.
Proof. apply fn_lookup_insert. Qed.

Lemma status_other t u s st : t ≠ u → set_thread_status t s st u = st u.
Proof. apply fn_lookup_insert_ne. Qed.

Lemma wake_up_awake t st : (wake_up t st).2 t ≠ T_BLOCKED.
Proof.
  unfold wake_up. case_decide; cbn; [|done]. by rewrite status_same.
Qed.

Lemma wake_up_other t u st : t ≠ u → (wake_up t st).2 u = st u.
Proof. intros. unfold wake_up. case_decide; cbn; [by rewrite status_other|done]. Qed.

Lemma sched_effect_unblocks e st st' u :
  sched_effect e st = Some st' → st u ≠ T_BLOCKED → st' u ≠ T_BLOCKED.
Proof.
  destruct e as [t|t|t]; cbn; case_decide; intros [= <-] Hu;
    (destruct (decide (t = u)) as [->|]; [by rewrite status_same|by rewrite status_other]).
Qed.
