(* ===== verification/Mutex.v ===== *)
(** * Mutexes: [src/mutex.c]

    The two functions as transitions of the mutex and the thread statuses. All
    of [mutex_lock] between two releases of [wlock] and all of [mutex_unlock]
    run under the spinlock [wlock], so each such part is one transition
    ([Spinlock.v] shows that at most one CPU is inside). A waiter is identified
    with its thread: the wait-queue node is a local of the one [mutex_lock] call
    the thread is in. *)
From S2P Require Import Prelude Threads.

Record mutex_t : Type := Mutex {
  mlock : Z;
  m_owner : option Z;
  m_wq : list Z;
}.

(** [void mutex_init(mutex_t *lock)] *)
Definition mutex_init : mutex_t := Mutex 0 None [].

(** [mutex_add_to_wq]: at the tail, unless it is queued already. *)
Definition mutex_add_to_wq (t : Z) (m : mutex_t) : mutex_t :=
  if decide (t ∈ m_wq m) then m else Mutex (mlock m) (m_owner m) (m_wq m ++ [t]).

(** [mutex_remove_from_wq] *)
Definition mutex_remove_from_wq (t : Z) (m : mutex_t) : mutex_t :=
  if decide (t ∈ m_wq m)
  then Mutex (mlock m) (m_owner m) (filter (λ u, u ≠ t) (m_wq m)) else m.

Definition mutex_clear_owner (m : mutex_t) : mutex_t := Mutex (mlock m) None (m_wq m).
Definition __mutex_set_owner (m : mutex_t) (t : Z) : mutex_t := Mutex (mlock m) (Some t) (m_wq m).
(** [mutex_set_owner]; [t] is the current thread. *)
Definition mutex_set_owner (t : Z) (m : mutex_t) : mutex_t := __mutex_set_owner m t.

(** [acquire_rlock(&lock->mlock)], [release_rlock(&lock->mlock)] *)
Definition acquire_mlock (m : mutex_t) : Z * mutex_t := (mlock m, Mutex 1 (m_owner m) (m_wq m)).
Definition release_mlock (m : mutex_t) : mutex_t := Mutex 0 (m_owner m) (m_wq m).

(** Queue up and sleep: the first half of a round of the waiting loop. *)
Definition mutex_wait (t : Z) (m : mutex_t) (st : statuses) : mutex_t * statuses :=
  (mutex_add_to_wq t m, make_sleep t st).

(** [void mutex_lock(mutex_t *lock)] up to its first [schedule()] or to its
    end; the flag says whether the mutex was taken. *)
Definition mutex_lock_enter (t : Z) (m : mutex_t) (st : statuses)
  : res (bool * mutex_t * statuses) :=
  let '(old, m) := acquire_mlock m in
  if old =? 0 then
    _ ← ASSERT (bool_decide (m_owner m = None)) "lock->owner == NULL";
    Ret (true, mutex_set_owner t m, st)
  else
    let '(m, st) := mutex_wait t m st in Ret (false, m, st).

(** From the return of [schedule()] to the next one or to the end. *)
Definition mutex_lock_resume (t : Z) (m : mutex_t) (st : statuses) : bool * mutex_t * statuses :=
  if decide (m_owner m = Some t) then (true, mutex_remove_from_wq t m, st)
  else let '(m, st) := mutex_wait t m st in (false, m, st).

(** [void mutex_unlock(mutex_t *lock)] *)
Definition mutex_unlock (m : mutex_t) (st : statuses) : mutex_t * statuses :=
  match m_wq m with
  | [] => (release_mlock (mutex_clear_owner m), st)
  | p :: _ => (__mutex_set_owner m p, (wake_up p st).2)
  end.

(** ** Threads using one mutex *)

Inductive place : Type := Outside | Waiting | Inside.

#[export] Instance place_eq_dec : EqDecision place.
Proof. solve_decision. Defined.

Record msys : Type := Msys {
  mtx : mutex_t;
  stat : statuses;
  at_ : Z → place;
}.

Definition after (taken : bool) : place := if taken then Inside else Waiting.

(** A running thread enters [mutex_lock], comes back from [schedule()] inside
    it, or releases the mutex it holds; the scheduler and alarms act in
    between. *)
Inductive mstep (s : msys) : res msys → Prop :=
  | m_enter t : at_ s t = Outside → stat s t = T_RUNNING →
      mstep s ('(b, m, st) ← mutex_lock_enter t (mtx s) (stat s);
               Ret (Msys m st (<[t := after b]> (at_ s))))
  | m_resume t : at_ s t = Waiting → stat s t = T_RUNNING →
      mstep s (let '(b, m, st) := mutex_lock_resume t (mtx s) (stat s) in
               Ret (Msys m st (<[t := after b]> (at_ s))))
  | m_unlock t : at_ s t = Inside → stat s t = T_RUNNING →
      mstep s (let '(m, st) := mutex_unlock (mtx s) (stat s) in
               Ret (Msys m st (<[t := Outside]> (at_ s))))
  | m_sched e st : sched_effect e (stat s) = Some st →
      mstep s (Ret (Msys (mtx s) st (at_ s))).

Definition mnext (s s' : msys) : Prop := mstep s (Ret s').

Definition minitial (s : msys) : Prop := mtx s = mutex_init ∧ ∀ t, at_ s t = Outside.

(** ** The invariant *)

Record mutex_inv (s : msys) : Prop := {
  mi_free : m_owner (mtx s) = None → mlock (mtx s) = 0 ∧ m_wq (mtx s) = [];
  mi_held : ∀ t, m_owner (mtx s) = Some t → mlock (mtx s) = 1 ∧
    (at_ s t = Inside ∨
     (at_ s t = Waiting ∧ head (m_wq (mtx s)) = Some t ∧ stat s t ≠ T_BLOCKED));
  mi_inside : ∀ t, at_ s t = Inside → m_owner (mtx s) = Some t;
  mi_queue : ∀ t, t ∈ m_wq (mtx s) ↔ at_ s t = Waiting;
  mi_nodup : NoDup (m_wq (mtx s));
}.

Lemma at_insert (p : Z → place) t x u :
  (<[t := x]> p) u = if decide (u = t) then x else p u.
Proof. unfold insert, fn_insert. repeat case_decide; congruence. Qed.

(** Queueing a thread: it waits, and everybody else stays where they are. *)
Lemma wait_inv s t :
  mutex_inv s → m_owner (mtx s) ≠ Some t → m_owner (mtx s) ≠ None → at_ s t ≠ Inside →
  let '(m, st) := mutex_wait t (mtx s) (stat s) in
  mutex_inv (Msys m st (<[t := Waiting]> (at_ s))).
Proof.
  intros [I1 I2 I3 I4 I5] Hne Hnn Hp. unfold mutex_wait, mutex_add_to_wq, make_sleep.
  destruct (m_owner (mtx s)) as [o|] eqn:Eo; [|done]. clear I1 Hnn.
  assert (Hot : o ≠ t) by congruence. destruct (I2 o eq_refl) as [Hl Ho].
  assert (Hst : set_thread_status t T_BLOCKED (stat s) o = stat s o) by (by apply status_other).
  case_decide as Hin; split; cbn; rewrite ?Eo; try done.
  - intros u [= <-]. split; [done|]. by rewrite at_insert, decide_False, Hst.
  - intros u. rewrite at_insert. case_decide; [done|]. intros Hu. by apply I3.
  - intros u. rewrite at_insert, I4. case_decide; subst; [|done]. split; [done|by rewrite <- I4].
  - intros u [= <-]. split; [done|]. rewrite at_insert, decide_False, Hst by done.
    destruct Ho as [?|(?&Hh&?)]; [by left|right]. split_and!; try done.
    by destruct (m_wq (mtx s)).
  - intros u. rewrite at_insert. case_decide; [done|]. intros Hu. by apply I3.
  - intros u. rewrite at_insert, elem_of_app, list_elem_of_singleton, I4.
    case_decide; subst; naive_solver.
  - apply NoDup_app. split_and!; [done| |apply NoDup_singleton].
    intros u Hu ->%list_elem_of_singleton. done.
Qed.

Lemma enter_inv s t :
  mutex_inv s → at_ s t = Outside →
  ∃ b m st, mutex_lock_enter t (mtx s) (stat s) = Ret (b, m, st) ∧
            mutex_inv (Msys m st (<[t := after b]> (at_ s))).
Proof.
  intros Hi Ht. pose proof Hi as [I1 I2 I3 I4 I5]. unfold mutex_lock_enter; cbn.
  destruct (m_owner (mtx s)) as [o|] eqn:Eo.
  - destruct (I2 o eq_refl) as [Hl _]. rewrite Hl. cbn.
    pose proof (wait_inv s t Hi) as Hw.
    assert (Hmt : mtx s = Mutex 1 (Some o) (m_wq (mtx s)))
      by (destruct (mtx s); cbn in *; congruence).
    rewrite Hmt in Hw. unfold mutex_wait in *. cbn in *.
    eexists _, _, _. split; [done|]. apply Hw; [|done|congruence].
    intros [= ->]. destruct (I2 t eq_refl) as [_ [?|[? _]]]; congruence.
  - destruct (I1 eq_refl) as [-> Hq]. cbn. eexists _, _, _. split; [done|]. split; cbn; try done.
    + intros u [= <-]. split; [done|]. left. by rewrite at_insert, decide_True.
    + intros u. rewrite at_insert. case_decide; subst; [done|]. intros Hu.
      by apply I3 in Hu.
    + intros u. rewrite at_insert, I4. case_decide; subst; [|done]. by rewrite Ht.
Qed.

Lemma resume_inv s t :
  mutex_inv s → at_ s t = Waiting →
  let '(b, m, st) := mutex_lock_resume t (mtx s) (stat s) in
  mutex_inv (Msys m st (<[t := after b]> (at_ s))).
Proof.
  intros Hi Ht. pose proof Hi as [I1 I2 I3 I4 I5]. unfold mutex_lock_resume.
  case_decide as Ho.
  - unfold mutex_remove_from_wq. destruct (I2 t Ho) as [Hl _].
    rewrite decide_True by (by apply I4). split; cbn; try done.
    + intros E. congruence.
    + intros u Hu. split; [done|]. left. rewrite at_insert. case_decide; [done|congruence].
    + intros u. rewrite at_insert. case_decide; subst; [done|]. intros Hu. by apply I3.
    + intros u. rewrite at_insert, list_elem_of_filter, I4. case_decide; subst; naive_solver.
    + by apply NoDup_filter.
  - apply (wait_inv s t Hi); [done| |congruence].
    intros En. destruct (I1 En) as [_ Hq]. apply I4 in Ht. rewrite Hq in Ht. set_solver.
Qed.

Lemma unlock_inv s t :
  mutex_inv s → at_ s t = Inside →
  let '(m, st) := mutex_unlock (mtx s) (stat s) in
  mutex_inv (Msys m st (<[t := Outside]> (at_ s))).
Proof.
  intros [I1 I2 I3 I4 I5] Ht. pose proof (I3 t Ht) as Ho. destruct (I2 t Ho) as [Hl _].
  unfold mutex_unlock. destruct (m_wq (mtx s)) as [|p q] eqn:Eq.
  - split; cbn; rewrite ?Eq; try done.
    + intros u. rewrite at_insert. case_decide; [done|]. intros Hu. apply I3 in Hu. congruence.
    + intros u. rewrite at_insert, I4. case_decide; subst; [by rewrite Ht|done].
  - assert (Hp : at_ s p = Waiting) by (apply I4; left).
    assert (p ≠ t) by congruence.
    split; cbn; rewrite ?Eq; try done.
    + intros u [= <-]. split; [done|]. right. rewrite at_insert, decide_False by done.
      split_and!; try done. apply wake_up_awake.
    + intros u. rewrite at_insert. case_decide; [done|]. intros Hu. apply I3 in Hu. congruence.
    + intros u. rewrite at_insert, I4. case_decide; subst; [by rewrite Ht|done].
Qed.

(** Every transition returns (no [ASSERT] fails) and keeps the invariant. *)
Lemma mstep_inv s r : mutex_inv s → mstep s r → ∃ s', r = Ret s' ∧ mutex_inv s'.
Proof.
  intros Hi [t Ha Hr|t Ha Hr|t Ha Hr|e st He].
  - destruct (enter_inv s t Hi Ha) as (b&m&st&->&Hi'). cbn. eauto.
  - pose proof (resume_inv s t Hi Ha) as H.
    destruct (mutex_lock_resume _ _ _) as [[b m] st]. eauto.
  - pose proof (unlock_inv s t Hi Ha) as H. destruct (mutex_unlock _ _) as [m st]. eauto.
  - eexists. split; [done|]. destruct Hi as [I1 I2 I3 I4 I5]. split; cbn; try done.
    intros t Ht. destruct (I2 t Ht) as [Hl [?|(?&?&Hb)]]; [by auto|].
    split; [done|]. right. split_and!; try done. by apply (sched_effect_unblocks e (stat s)).
Qed.

Lemma mreachable_inv s0 s : minitial s0 → rtc mnext s0 s → mutex_inv s.
Proof.
  intros [Hm Ha] Hr.
  assert (H0 : mutex_inv s0).
  { split; rewrite ?Hm; cbn; try done.
    - intros t Ht. by rewrite Ha in Ht.
    - intros t. rewrite Ha. set_solver.
    - constructor. }
  clear Hm Ha. induction Hr as [|x y z Hxy _ IH]; [done|]. apply IH.
  destruct (mstep_inv x _ H0 Hxy) as (?&[= <-]&?). done.
Qed.

(** ** Properties *)

(** C5: mutual exclusion of mutexes, with any number of threads, any scheduling
    and wake-ups by third parties: at most one thread is between its
    [mutex_lock] and [mutex_unlock], it is the [owner], and no [ASSERT] fails. *)
Theorem mutex_mutual_exclusion s0 s :
  minitial s0 → rtc mnext s0 s →
  (∀ t u, at_ s t = Inside → at_ s u = Inside → t = u) ∧
  (∀ t, at_ s t = Inside → m_owner (mtx s) = Some t) ∧
  (∀ r, mstep s r → ∃ s', r = Ret s').
Proof.
  intros H0 Hr. pose proof (mreachable_inv s0 s H0 Hr) as Hi. split_and!.
  - intros t u Ht%(mi_inside _ Hi) Hu%(mi_inside _ Hi). congruence.
  - apply Hi.
  - intros r Hs. destruct (mstep_inv s r Hi Hs) as (s'&->&_). eauto.
Qed.

Lemma enter_next s t b m st :
  at_ s t = Outside → stat s t = T_RUNNING →
  mutex_lock_enter t (mtx s) (stat s) = Ret (b, m, st) →
  mnext s (Msys m st (<[t := after b]> (at_ s))).
Proof. intros Ha Hr E. pose proof (m_enter s t Ha Hr) as H. by rewrite E in H. Qed.

(** Three running threads. *)
Definition msys_demo : msys := Msys mutex_init (λ _, T_RUNNING) (λ _, Outside).

Lemma mutex_mutual_exclusion_witness :
  minitial msys_demo ∧ ∃ s, rtc mnext msys_demo s ∧ at_ s 1 = Inside ∧
    ∀ u, at_ s u = Inside → 1 = u.
Proof.
  split; [split; reflexivity|].
  assert (Hs : mnext msys_demo (Msys (Mutex 1 (Some 1) []) (λ _, T_RUNNING)
                 (<[1 := Inside]> (λ _, Outside))))
    by apply (m_enter msys_demo 1 eq_refl eq_refl).
  eexists. split; [apply rtc_once, Hs|]. split; [reflexivity|].
  intros u. apply (mutex_mutual_exclusion msys_demo _ ltac:(split; reflexivity) (rtc_once _ _ Hs)).
  reflexivity.
Defined.

(** C27: no wake-up is lost: in every reachable state the queue holds exactly the
    waiting threads; if any thread waits, the mutex is held by a thread inside,
    or has been handed to the first waiter, and that waiter is awake. *)
Theorem mutex_no_lost_wakeup s0 s :
  minitial s0 → rtc mnext s0 s →
  (∀ t, t ∈ m_wq (mtx s) ↔ at_ s t = Waiting) ∧
  (∀ t, at_ s t = Waiting →
     ∃ o, m_owner (mtx s) = Some o ∧
       (at_ s o = Inside ∨
        (head (m_wq (mtx s)) = Some o ∧ at_ s o = Waiting ∧ stat s o ≠ T_BLOCKED))).
Proof.
  intros H0 Hr. pose proof (mreachable_inv s0 s H0 Hr) as Hi. split; [apply Hi|].
  intros t Ht. destruct (m_owner (mtx s)) as [o|] eqn:Eo.
  - exists o. split; [done|]. destruct (mi_held _ Hi o Eo) as [_ [?|(?&?&?)]]; auto.
  - destruct (mi_free _ Hi Eo) as [_ Hq]. apply (mi_queue _ Hi) in Ht. rewrite Hq in Ht.
    set_solver.
Qed.

Lemma mutex_no_lost_wakeup_witness :
  ∃ s, rtc mnext msys_demo s ∧ at_ s 2 = Waiting ∧ ∃ o, m_owner (mtx s) = Some o.
Proof.
  assert (Hr : ∃ s, rtc mnext msys_demo s ∧ at_ s 2 = Waiting).
  { eexists. split.
    - eapply rtc_l; [eapply (enter_next msys_demo 1); reflexivity|].
      eapply rtc_once. eapply (enter_next _ 2); reflexivity.
    - reflexivity. }
  destruct Hr as (s&Hr&Ht). exists s. split; [exact Hr|]. split; [exact Ht|].
  destruct (mutex_no_lost_wakeup msys_demo s ltac:(split; reflexivity) Hr) as [_ Hw].
  destruct (Hw 2 Ht) as (o&Ho&_). exists o. exact Ho.
Defined.
