(* ===== verification/Semaphore.v ===== *)
(** * Semaphores: [src/semaphore.c]

    As for mutexes, each part of [sem_down] and [sem_up] that runs under the
    spinlock [semlock] is one transition. *)
From S2P Require Import Prelude Threads.

Record semaphore_t : Type := Sem {
  count : Z;
  s_wq : list Z;
}.

(** [void sem_init(semaphore_t *sem, uint_t count)] *)
Definition sem_init (count : Z) : semaphore_t := Sem count [].

(** [sem_add_to_wq] *)
Definition sem_add_to_wq (t : Z) (s : semaphore_t) : semaphore_t :=
  if decide (t ∈ s_wq s) then s else Sem (count s) (s_wq s ++ [t]).

(** [sem_remove_from_wq] *)
Definition sem_remove_from_wq (t : Z) (s : semaphore_t) : semaphore_t :=
  if decide (t ∈ s_wq s) then Sem (count s) (filter (λ u, u ≠ t) (s_wq s)) else s.

(** [__sem_down] up to [schedule()]; after it, [__sem_down] only takes [semlock]
    again and returns [OK]. *)
Definition __sem_down (t : Z) (s : semaphore_t) (st : statuses) : semaphore_t * statuses :=
  (sem_add_to_wq t s, make_sleep t st).

(** [void sem_down(semaphore_t *sem)] up to its [schedule()] or to its end; the
    flag says whether it returned. *)
Definition sem_down (t : Z) (s : semaphore_t) (st : statuses)
  : bool * semaphore_t * statuses :=
  if 0 <? count s then (true, Sem (u32 (count s - 1)) (s_wq s), st)
  else let '(s, st) := __sem_down t s st in (false, s, st).

(** [__sem_down] returned [OK] and so does [sem_down]. *)
Definition sem_down_resume (s : semaphore_t) : semaphore_t := s.

(** [static int __sem_up(semaphore_t *sem)] with [p] the first waiter. *)
Definition __sem_up (p : Z) (s : semaphore_t) (st : statuses) : semaphore_t * statuses :=
  let st := (wake_up p st).2 in (sem_remove_from_wq p s, st).

(** [void sem_up(semaphore_t *sem)] *)
Definition sem_up (s : semaphore_t) (st : statuses) : semaphore_t * statuses :=
  match s_wq s with
  | [] => (Sem (u32 (count s + 1)) (s_wq s), st)
  | p :: _ => __sem_up p s st
  end.

(** ** Threads using one semaphore *)

(** [sleeping t]: thread [t] is inside [sem_down], past its [schedule()] call.
    [downs] and [ups] count the calls that returned. *)
Record ssys : Type := Ssys {
  sem : semaphore_t;
  sstat : statuses;
  sleeping : Z → bool;
  downs : Z;
  ups : Z;
}.

Definition alarms_spare (s : ssys) (e : sched_event) : Prop :=
  match e with Alarm t => sleeping s t = false | _ => True end.

(** With [alarms] any blocked thread may be woken by a third party; without,
    only threads that do not sleep in this semaphore. *)
Inductive sstep (alarms : bool) (s : ssys) : ssys → Prop :=
  | s_down t b m st :
      sleeping s t = false → sstat s t = T_RUNNING →
      sem_down t (sem s) (sstat s) = (b, m, st) →
      sstep alarms s (Ssys m st (<[t := negb b]> (sleeping s))
                        (downs s + (if b then 1 else 0)) (ups s))
  | s_resume t :
      sleeping s t = true → sstat s t = T_RUNNING →
      sstep alarms s (Ssys (sem_down_resume (sem s)) (sstat s) (<[t := false]> (sleeping s))
                        (downs s + 1) (ups s))
  | s_up t m st :
      sleeping s t = false → sstat s t = T_RUNNING →
      sem_up (sem s) (sstat s) = (m, st) →
      sstep alarms s (Ssys m st (sleeping s) (downs s) (ups s + 1))
  | s_sched e st :
      alarms = true ∨ alarms_spare s e →
      sched_effect e (sstat s) = Some st →
      sstep alarms s (Ssys (sem s) st (sleeping s) (downs s) (ups s)).

Definition sinitial (n : Z) (s : ssys) : Prop :=
  sem s = sem_init n ∧ (∀ t, sleeping s t = false) ∧ downs s = 0 ∧ ups s = 0.

(** ** The invariant: units are available, used, or granted to a thread that has
    been woken but has not run yet. *)
Record sem_inv (n : Z) (s : ssys) (G : list Z) : Prop := {
  si_units : count (sem s) + downs s + Z.of_nat (length G) = n + ups s;
  si_count : 0 ≤ count (sem s);
  si_down : 0 ≤ downs s;
  si_empty : s_wq (sem s) ≠ [] → count (sem s) = 0;
  si_nodup : NoDup (s_wq (sem s)) ∧ NoDup G;
  si_queue : ∀ t, t ∈ s_wq (sem s) → sleeping s t = true ∧ sstat s t = T_BLOCKED;
  si_granted : ∀ t, t ∈ G ↔ sleeping s t = true ∧ t ∉ s_wq (sem s);
  si_awake : ∀ t, t ∈ G → sstat s t ≠ T_BLOCKED;
}.

Lemma sl_insert (p : Z → bool) t x u :
  (<[t := x]> p) u = if decide (u = t) then x else p u.
Proof. unfold insert, fn_insert. repeat case_decide; congruence. Qed.

Lemma sem_down_inv n s G t b m st :
  sem_inv n s G → is_u32 (count (sem s)) → sleeping s t = false →
  sem_down t (sem s) (sstat s) = (b, m, st) →
  sem_inv n (Ssys m st (<[t := negb b]> (sleeping s)) (downs s + (if b then 1 else 0)) (ups s)) G.
Proof.
  intros [I1 I2 I2' I3 [I4 I4'] I5 I6 I7] Hu Ht E. unfold sem_down in E.
  assert (Hq : t ∉ s_wq (sem s)) by (intros Hq; apply I5 in Hq as [? _]; congruence).
  assert (Hg : t ∉ G) by (intros Hg; apply I6 in Hg as [? _]; congruence).
  destruct (Z.ltb_spec 0 (count (sem s))).
  - injection E as <- <- <-. rewrite u32_small by (unfold is_u32 in *; lia).
    split; cbn; try done; try lia.
    + intros Hne. specialize (I3 Hne). lia.
    + intros u Hu'. rewrite sl_insert, decide_False by congruence. by apply I5.
    + intros u. rewrite sl_insert, I6. case_decide; subst; [|done]. rewrite Ht. naive_solver.
  - unfold __sem_down, sem_add_to_wq, make_sleep in E. rewrite decide_False in E by done.
    injection E as <- <- <-. split; cbn; try done; try lia.
    + split; [|done]. apply NoDup_app. split_and!; [done| |apply NoDup_singleton].
      by intros u Hu' ->%list_elem_of_singleton.
    + intros u. rewrite elem_of_app, list_elem_of_singleton, sl_insert.
      intros [Hu'| ->].
      * rewrite decide_False, status_other by congruence. by apply I5.
      * by rewrite decide_True, status_same.
    + intros u. rewrite elem_of_app, list_elem_of_singleton, sl_insert, I6.
      case_decide; subst; naive_solver.
    + intros u Hu'. rewrite status_other by congruence. by apply I7.
Qed.

Lemma sem_resume_inv n s G t :
  sem_inv n s G → sleeping s t = true → sstat s t = T_RUNNING →
  ∃ G', sem_inv n (Ssys (sem_down_resume (sem s)) (sstat s) (<[t := false]> (sleeping s))
                     (downs s + 1) (ups s)) G'.
Proof.
  intros [I1 I2 I2' I3 [I4 I4'] I5 I6 I7] Ht Hr. unfold sem_down_resume.
  assert (Hq : t ∉ s_wq (sem s)) by (intros Hq; apply I5 in Hq as [_ ?]; congruence).
  assert (Hg : t ∈ G) by (by apply I6).
  assert (Hp : G ≡ₚ t :: filter (λ u, u ≠ t) G) by (by apply filter_ne_perm).
  exists (filter (λ u, u ≠ t) G). split; cbn -[length]; try done; try lia.
  - apply Permutation_length in Hp. cbn in Hp. unfold sem_down_resume. lia.
  - split; [done|by apply NoDup_filter].
  - intros u Hu. rewrite sl_insert, decide_False by congruence. by apply I5.
  - intros u. rewrite list_elem_of_filter, sl_insert, I6. case_decide; subst; naive_solver.
  - intros u [_ Hu]%list_elem_of_filter. by apply I7.
Qed.

Lemma sem_up_inv n s G m st :
  sem_inv n s G → n + ups s + 1 < 4294967296 →
  sem_up (sem s) (sstat s) = (m, st) →
  ∃ G', sem_inv n (Ssys m st (sleeping s) (downs s) (ups s + 1)) G'.
Proof.
  intros [I1 I2 I2' I3 [I4 I4'] I5 I6 I7] Hu E. unfold sem_up in E.
  destruct (s_wq (sem s)) as [|p q] eqn:Eq.
  - injection E as <- <-. exists G. rewrite u32_small by (unfold is_u32; lia).
    split; cbn; try done; try lia.
  - unfold __sem_up, sem_remove_from_wq in E. rewrite Eq, decide_True in E by left.
    destruct (I5 p ltac:(left)) as [Hp Hb]. unfold wake_up in E. rewrite decide_True in E by done.
    apply NoDup_cons in I4 as [Hpq Hq].
    rewrite filter_cons_False in E by tauto.
    rewrite filter_keeps in E by (intros u Hu' ->; done).
    injection E as <- <-. exists (p :: G).
    assert (HpG : p ∉ G) by (intros [_ Hn]%I6; apply Hn; left).
    split; cbn; try done; try lia.
    + intros _. apply I3. done.
    + split; [done|]. by constructor.
    + intros u Hu'. rewrite status_other by congruence. apply I5. by right.
    + intros u. rewrite elem_of_cons, I6, not_elem_of_cons.
      destruct (decide (u = p)) as [->|]; naive_solver.
    + intros u [->|Hu']%elem_of_cons; [by rewrite status_same|].
      destruct (decide (p = u)) as [->|]; [by rewrite status_same|].
      rewrite status_other by done. by apply I7.
Qed.

Lemma sstep_ups a s s' : sstep a s s' → ups s ≤ ups s'.
Proof. destruct 1; cbn; lia. Qed.

Lemma sstep_inv n s s' G :
  sem_inv n s G → n + ups s' < 4294967296 → sstep false s s' → ∃ G', sem_inv n s' G'.
Proof.
  intros Hi Hu Hs. destruct Hs as [t b m st Ht Hr E|t Ht Hr|t m st Ht Hr E|e st Ha He]; cbn in Hu.
  - exists G. apply (sem_down_inv n s G t); try done.
    destruct Hi. unfold is_u32. lia.
  - by apply (sem_resume_inv n s G).
  - apply (sem_up_inv n s G); [done|lia|done].
  - exists G. destruct Hi as [I1 I2 I2' I3 I4 I5 I6 I7]. split; cbn; try done.
    + intros t Ht. destruct (I5 t Ht) as [Hs Hb]. split; [done|].
      destruct e as [u|u|u]; cbn in He; case_decide as Hc; try done; injection He as <-;
        (destruct (decide (u = t)) as [->|]; [|by rewrite status_other]); try congruence.
      destruct Ha as [?|Ha]; [done|]. cbn in Ha. congruence.
    + intros t Ht. apply (sched_effect_unblocks e (sstat s)); [done|]. by apply I7.
Qed.

Lemma sreachable_inv n s0 s :
  0 ≤ n → sinitial n s0 → rtc (sstep false) s0 s → n + ups s < 4294967296 →
  ∃ G, sem_inv n s G.
Proof.
  intros Hn (Hm&Hsl&Hd&Hup) Hr Hu.
  assert (H0 : sem_inv n s0 []).
  { split; rewrite ?Hm, ?Hd, ?Hup; cbn; try done; try lia.
    - split; constructor.
    - intros t. set_solver.
    - intros t. rewrite Hsl. set_solver.
    - intros t. set_solver. }
  clear Hm Hsl Hd Hup. generalize (@nil Z) H0. clear H0. intros G HG.
  revert G HG. induction Hr as [|x y z Hxy Hyz IH]; intros G HG; [eauto|].
  assert (Hle : ups y ≤ ups z).
  { clear -Hyz. induction Hyz as [|a b c Hab _ IH]; [lia|]. apply sstep_ups in Hab. lia. }
  destruct (sstep_inv n x y G HG ltac:(lia) Hxy) as [G' HG']. by apply (IH Hu G').
Qed.

(** ** Properties *)

(** C28: a semaphore counts, with any number of threads and any scheduling, as
    long as only [sem_up] wakes the threads that sleep in it: the number of
    [sem_down] calls that returned never exceeds the initial count plus the
    number of [sem_up] calls; and when a thread is queued no unit is left over:
    all of them were used or granted to threads that are awake. *)
Theorem semaphore_counts n s0 s :
  0 ≤ n → sinitial n s0 → rtc (sstep false) s0 s → n + ups s < 4294967296 →
  downs s ≤ n + ups s ∧
  (s_wq (sem s) ≠ [] →
   ∃ G, n + ups s = downs s + Z.of_nat (length G) ∧ NoDup G ∧
        ∀ t, t ∈ G ↔ sleeping s t = true ∧ sstat s t ≠ T_BLOCKED).
Proof.
  intros Hn H0 Hr Hu. destruct (sreachable_inv n s0 s Hn H0 Hr Hu) as [G [I1 I2 I2' I3 I4 I5 I6 I7]].
  split; [lia|]. intros Hq. exists G. specialize (I3 Hq). split; [lia|]. split; [apply I4|].
  intros t. split; [intros Ht; split; [by apply I6|by apply I7]|].
  intros [Hs Hb]. apply I6. split; [done|]. intros Hq'. by apply I5 in Hq' as [_ ?].
Qed.

(** Running threads and a semaphore with one unit. *)
Definition ssys_demo (n : Z) : ssys := Ssys (sem_init n) (λ _, T_RUNNING) (λ _, false) 0 0.

Lemma semaphore_counts_witness :
  ∃ s, rtc (sstep false) (ssys_demo 1) s ∧ s_wq (sem s) = [2] ∧ downs s ≤ 1 + ups s.
Proof.
  assert (Hr : ∃ s, rtc (sstep false) (ssys_demo 1) s ∧ s_wq (sem s) = [2] ∧ ups s = 0).
  { eexists. split; [|split].
    - eapply rtc_l; [eapply (s_down _ _ 1); reflexivity|].
      eapply rtc_once. eapply (s_down _ _ 2); reflexivity.
    - reflexivity.
    - reflexivity. }
  destruct Hr as (s&Hr&Hq&Hu). exists s. split; [exact Hr|]. split; [exact Hq|].
  apply (semaphore_counts 1 (ssys_demo 1) s); [lia| |exact Hr|lia].
  split; [reflexivity|split; [reflexivity|split; reflexivity]].
Defined.

(** [sem_down] does not check why it was woken: a third-party wake-up (an
    alarm left from [pause]) of a thread that sleeps in [sem_down] lets it pass
    without any unit. *)
Theorem semaphore_spurious_wakeup :
  ∃ s, rtc (sstep true) (ssys_demo 0) s ∧ ups s = 0 ∧ downs s = 1.
Proof.
  eexists. split; [|split].
  - eapply rtc_l; [eapply (s_down _ _ 1); reflexivity|].
    eapply rtc_l; [eapply (s_sched _ _ (Alarm 1)); [by left|reflexivity]|].
    eapply rtc_l; [eapply (s_sched _ _ (Dispatch 1)); [by left|reflexivity]|].
    eapply rtc_once. eapply (s_resume _ _ 1); reflexivity.
  - reflexivity.
  - reflexivity.
Qed.
