(* ===== verification/Timer.v ===== *)
(** * Ticks and alarms: [src/timer.c], [include/timer.h]

    [ticks] is a 32-bit counter that wraps. [time_after] subtracts as [long] (32
    bits) and looks at the sign. *)
From S2P Require Import Prelude.

Definition CLOCK_INT_HZ : Z := 1000.
Definition CLOCK_TICK_RATE : Z := 1193180.
Definition TICK_SEC : Z := CLOCK_INT_HZ.
Definition SCHED_HZ : Z := 100.
Definition CHK_ALM_HZ : Z := 1000.

(** [#define time_after(a, b) ((long)(b) - (long)(a) < 0)] *)
Definition time_after (a b : Z) : bool := s32 (s32 b - s32 a) <? 0.
(** [#define time_before(a, b) time_after(b, a)] *)
Definition time_before (a b : Z) : bool := time_after b a.

(** [#define _HZ_DIV(hz)] *)
Definition HZ_DIV (hz : Z) : Z := if CLOCK_INT_HZ <=? hz then 1 else CLOCK_INT_HZ / hz.

(** [IF_HZ_EQ(hz)] *)
Definition HZ_EQ (ticks hz : Z) : bool := ticks `mod` HZ_DIV hz =? 0.

(** ** Alarms *)

Record alarm_t : Type := AlarmT {
  enabled : Z;
  up : Z;
  start : Z;
  duration : Z;
}.

Definition alarm_reset : alarm_t := AlarmT 0 0 0 0.
Definition alarm_set (ticks d : Z) : alarm_t := AlarmT 1 0 ticks d.
Definition alarm_unset (a : alarm_t) : alarm_t := AlarmT 0 (up a) (start a) (duration a).
Definition alarm_restart (ticks : Z) (a : alarm_t) : alarm_t := alarm_set ticks (duration a).
Definition alarm_isset (a : alarm_t) : Z := enabled a.

Definition alarm_check (ticks : Z) (a : alarm_t) : bool :=
  if negb (alarm_isset a =? 0) then time_after ticks (u32 (start a + duration a)) else false.

(** ** The timer interrupt *)

(** What a tick makes a CPU do besides counting, in order. *)
Inductive tick_action : Type := TickOthers | CheckAlarms | Schedule.

#[export] Instance tick_action_eq_dec : EqDecision tick_action.
Proof. solve_decision. Defined.

(** [static void timer_callback(registers_t *regs)] *)
Definition timer_callback (flag_bsp preempt_on : bool) (ticks : Z) : Z * list tick_action :=
  let '(ticks, l1) := if flag_bsp then (u32 (ticks + 1), [TickOthers]) else (ticks, []) in
  let l2 := if HZ_EQ ticks CHK_ALM_HZ then [CheckAlarms] else [] in
  let l3 := if HZ_EQ ticks SCHED_HZ then if preempt_on then [Schedule] else [] else [] in
  (ticks, l1 ++ l2 ++ l3).

(** [void init_pit_timer(_u32 frequency)]: the bytes sent to the ports. *)
Definition init_pit_timer (frequency : Z) : list (Z * Z) :=
  let divisor := CLOCK_TICK_RATE / frequency in
  let l := u8 (Z.land divisor 0xFF) in
  let h := u8 (Z.land (Z.shiftr divisor 8) 0xFF) in
  [(0x43, 0x36); (0x40, l); (0x40, h)].

(** The bootstrap processor's ticks, [n] in a row. *)
Fixpoint run_ticks (n : nat) (preempt_on : bool) (ticks : Z) : Z * list tick_action :=
  match n with
  | O => (ticks, [])
  | S n =>
      let '(ticks, l) := timer_callback true preempt_on ticks in
      let '(ticks, l') := run_ticks n preempt_on ticks in (ticks, l ++ l')
  end.

(** ** Lemmas *)

Lemma s32_range x : -2147483648 ≤ x < 2147483648 → s32 x = x.
Proof. intros Hx. unfold s32, u32. zbool_step; dlia. Qed.

Lemma s32_diff a b : s32 (s32 b - s32 a) = s32 (b - a).
Proof.
  assert (Hs : ∀ x, s32 x `mod` 4294967296 = x `mod` 4294967296).
  { intros x. unfold s32, u32. zbool_step; dlia. }
  unfold s32 at 1 4. unfold u32. rewrite Zminus_mod, !Hs, <- Zminus_mod. done.
Qed.

(** The actions of a run that are calls of [schedule]. *)
Definition schedules (l : list tick_action) : Z :=
  Z.of_nat (length (filter (λ a, a = Schedule) l)).

Lemma schedules_app l l' : schedules (l ++ l') = schedules l + schedules l'.
Proof. unfold schedules. rewrite filter_app, length_app. lia. Qed.

Lemma schedules_tick p t :
  0 ≤ t → t + 1 < 4294967296 →
  (timer_callback true p t).1 = t + 1 ∧
  schedules (timer_callback true p t).2 =
    if p then (t + 1) / 10 - t / 10 else 0.
Proof.
  intros Ht Hu. unfold timer_callback. rewrite u32_small by (unfold is_u32; lia).
  unfold HZ_EQ. change (HZ_DIV CHK_ALM_HZ) with 1. change (HZ_DIV SCHED_HZ) with 10.
  split; [done|]. cbn [snd]. rewrite Z.mod_1_r, Z.eqb_refl, !schedules_app.
  change (schedules [TickOthers]) with 0. change (schedules [CheckAlarms]) with 0.
  pose proof (Z.div_mod (t + 1) 10 ltac:(lia)) as D1. pose proof (Z.div_mod t 10 ltac:(lia)) as D2.
  pose proof (Z.mod_pos_bound (t + 1) 10 ltac:(lia)). pose proof (Z.mod_pos_bound t 10 ltac:(lia)).
  destruct p; destruct (Z.eqb_spec ((t + 1) `mod` 10) 0) as [E|E].
  - change (schedules [Schedule]) with 1. lia.
  - change (schedules []) with 0. lia.
  - done.
  - done.
Qed.

Lemma run_ticks_spec n p : ∀ t,
  0 ≤ t → t + Z.of_nat n < 4294967296 →
  (run_ticks n p t).1 = t + Z.of_nat n ∧
  schedules (run_ticks n p t).2 = if p then (t + Z.of_nat n) / 10 - t / 10 else 0.
Proof.
  induction n as [|n IH]; intros t Ht Hu; cbn [run_ticks].
  { cbn [fst snd]. change (schedules []) with 0. rewrite Z.add_0_r.
    split; [done|]. destruct p; lia. }
  destruct (schedules_tick p t) as [E1 E2]; [lia..|].
  destruct (timer_callback true p t) as [t1 l]. cbn in E1, E2. subst t1.
  destruct (IH (t + 1)) as [E3 E4]; [lia..|].
  destruct (run_ticks n p (t + 1)) as [t2 l']. cbn in *.
  rewrite schedules_app, E2, E4. split; [lia|]. destruct p; [|lia].
  replace (t + 1 + Z.of_nat n) with (t + Z.of_nat (S n)) by lia. lia.
Qed.

(** An alarm that is set, [e] ticks later *)
Lemma alarm_set_check t0 d e :
  -2147483648 ≤ d - e < 2147483648 → alarm_check (u32 (t0 + e)) (alarm_set (u32 t0) d) = (d <? e).
Proof.
  intros Hd. unfold alarm_check, alarm_set; cbn.
  unfold time_after. rewrite s32_diff. rewrite u32_add_l.
  assert (E : s32 (u32 (t0 + d) - u32 (t0 + e)) = s32 (d - e)).
  { unfold s32. replace (u32 (u32 (t0 + d) - u32 (t0 + e))) with (u32 (d - e)); [done|].
    unfold u32. rewrite <- Zminus_mod. f_equal. lia. }
  rewrite E, s32_range by done. zbool; lia.
Qed.

(** ** Properties *)

(** C36: an alarm set at tick [t0] for [d] ticks and checked [e] ticks later fires
    exactly when more than [d] ticks have passed, also when the counter wrapped
    around in between, as long as the check is less than 2^31 ticks off; an
    alarm that is not set never fires. *)
Theorem alarm_fires_after_duration t0 d e :
  -2147483648 ≤ d - e < 2147483648 →
  alarm_check (u32 (t0 + e)) (alarm_set (u32 t0) d) = (d <? e) ∧
  alarm_check (u32 (t0 + e)) (alarm_unset (alarm_set (u32 t0) d)) = false ∧
  alarm_check (u32 (t0 + e)) alarm_reset = false.
Proof.
  intros Hd. split; [by apply alarm_set_check|done].
Qed.

Lemma alarm_fires_after_duration_witness :
  alarm_check (u32 (0xFFFFFFF0 + 101)) (alarm_set (u32 0xFFFFFFF0) 100) = true.
Proof.
  destruct (alarm_fires_after_duration 0xFFFFFFF0 100 101) as [-> _]; [lia|reflexivity].
Defined.

(** The scheduler runs at [SCHED_HZ]: any 1000 consecutive ticks (one second)
    of the bootstrap processor with preemption on, not crossing the wrap of the
    counter, call [schedule] exactly 100 times; with preemption off, never. *)
Theorem schedule_rate t :
  0 ≤ t → t + 1000 < 4294967296 →
  schedules (run_ticks (Z.to_nat TICK_SEC) true t).2 = SCHED_HZ ∧
  schedules (run_ticks (Z.to_nat TICK_SEC) false t).2 = 0.
Proof.
  intros Ht Hu. change (Z.to_nat TICK_SEC) with (Z.to_nat 1000).
  destruct (run_ticks_spec (Z.to_nat 1000) true t) as [_ E1]; [lia..|].
  destruct (run_ticks_spec (Z.to_nat 1000) false t) as [_ E2]; [lia..|].
  rewrite E1, E2, Z2Nat.id by lia. split; [|done]. unfold SCHED_HZ. dlia.
Qed.

Lemma schedule_rate_witness : schedules (run_ticks (Z.to_nat TICK_SEC) true 7).2 = SCHED_HZ.
Proof. apply (schedule_rate 7); lia. Defined.

(** The bytes [init_pit_timer] sends to the channel-0 port are the low and the
    high byte of the divisor for every frequency whose divisor fits 16 bits
    (19 Hz and above). *)
Theorem pit_divisor_bytes f :
  19 ≤ f →
  ∃ l h, init_pit_timer f = [(0x43, 0x36); (0x40, l); (0x40, h)] ∧
         0 ≤ l < 256 ∧ 0 ≤ h < 256 ∧ l + 256 * h = CLOCK_TICK_RATE / f.
Proof.
  intros Hf. unfold init_pit_timer. change 0xFF with (2 ^ 8 - 1).
  rewrite !land_low_ones, Z.shiftr_div_pow2 by lia. change (2 ^ 8) with 256.
  set (d := CLOCK_TICK_RATE / f).
  assert (Hd : 0 ≤ d < 65536).
  { unfold d, CLOCK_TICK_RATE. split; [apply Z.div_pos; lia|].
    apply Z.div_lt_upper_bound; lia. }
  unfold u8. eexists _, _. split; [done|]. dlia.
Qed.

Lemma pit_divisor_bytes_witness :
  ∃ l h, init_pit_timer 1000 = [(0x43, 0x36); (0x40, l); (0x40, h)] ∧ l + 256 * h = 1193.
Proof.
  destruct (pit_divisor_bytes 1000) as (l&h&E&_&_&Hs); [lia|].
  exists l, h. split; [exact E|exact Hs].
Defined.
