(* ===== verification/Sched.v ===== *)
(** * The scheduler: [src/sched.c], with the CPU structure of [src/cpu.c]

    A run queue is the sequence of the threads on [cpu->runq]; the nodes are
    allocated one per thread, and a node is identified by its position. A loop
    over the queue that finds nothing leaves its cursor at the list head, seen
    as a node ([AtHead]); the [threadp] field of that pseudo node is the word
    before [runq] in [cpu_state_t], which is [saved_flags].

    Statuses are read and written by thread address, [NULL] included (page 0 is
    mapped in this kernel). While a CPU polls its queue, interrupts may change
    statuses: the polling loop reads them through [env], the statuses at its
    successive rounds. *)
From S2P Require Import Prelude Threads Timer.

Inductive scheduler_t : Type := SCHED_RR | SCHED_PRIOR | SCHED_LAST.

(** The fields of [cpu_state_t] the scheduler uses. *)
Record cpu_state_t : Type := CpuState {
  proc_id : Z;
  flag_bsp : bool;
  preempt_on : bool;
  saved_flags : Z;
  runq : list Z;
  rthread : Z;
  scheduler : scheduler_t;
}.

Definition set_runq (l : list Z) (c : cpu_state_t) : cpu_state_t :=
  CpuState (proc_id c) (flag_bsp c) (preempt_on c) (saved_flags c) l (rthread c) (scheduler c).
Definition set_rthread (t : Z) (c : cpu_state_t) : cpu_state_t :=
  CpuState (proc_id c) (flag_bsp c) (preempt_on c) (saved_flags c) (runq c) t (scheduler c).
Definition set_preempt (b : bool) (c : cpu_state_t) : cpu_state_t :=
  CpuState (proc_id c) (flag_bsp c) b (saved_flags c) (runq c) (rthread c) (scheduler c).
Definition set_scheduler (x : scheduler_t) (c : cpu_state_t) : cpu_state_t :=
  CpuState (proc_id c) (flag_bsp c) (preempt_on c) (saved_flags c) (runq c) (rthread c) x.

(** [void cpu_reset_state(cpu_state_t *cpu)] *)
Definition cpu_reset_state (c : cpu_state_t) : cpu_state_t :=
  CpuState (proc_id c) false false (saved_flags c) [] NULL (scheduler c).

Definition preempt_enable (c : cpu_state_t) : cpu_state_t := set_preempt true c.
Definition preempt_disable (c : cpu_state_t) : cpu_state_t := set_preempt false c.

(** ** Positions on a run queue *)

Inductive pos : Type := AtHead | AtNode (i : nat).

(** [tlist->threadp] *)
Definition threadp (c : cpu_state_t) (p : pos) : Z :=
  match p with
  | AtHead => saved_flags c
  | AtNode i => nth i (runq c) NULL
  end.

(** [list_first_entry(&cur->runq, rthread_list_t, runq)] *)
Definition first_entry (c : cpu_state_t) : pos :=
  match runq c with [] => AtHead | _ => AtNode 0 end.

(** [list_is_last(&tlist->runq, &cur->runq)] *)
Definition is_last (c : cpu_state_t) (p : pos) : bool :=
  match p with
  | AtHead => match runq c with [] => true | _ => false end
  | AtNode i => Nat.eqb (S i) (length (runq c))
  end.

(** [list_next_entry(tlist, runq)] *)
Definition next_entry (c : cpu_state_t) (p : pos) : pos :=
  match p with
  | AtHead => first_entry c
  | AtNode i => if Nat.eqb (S i) (length (runq c)) then AtHead else AtNode (S i)
  end.

(** [static void *find_thread_in_rq(thread_t *threadp, list_head_t *q)]: the
    node of the thread, or the head when it is not queued. *)
Fixpoint find_thread_from (l : list Z) (i : nat) (t : Z) : pos :=
  match l with
  | [] => AtHead
  | u :: l => if u =? t then AtNode i else find_thread_from l (S i) t
  end.

Definition find_thread_in_rq (t : Z) (c : cpu_state_t) : pos := find_thread_from (runq c) 0 t.

(** ** Picking the next thread *)

(** The [do .. while] loop of [__do_sched_rr]; [tlist] is the cursor ([None] for
    [NULL]), [k] counts the rounds. *)
Fixpoint sched_rr_loop (fuel : nat) (cur : cpu_state_t) (tlist : option pos)
    (env : nat → statuses) (k : nat) : res (Z * cpu_state_t * nat) :=
  match fuel with
  | O => Diverge
  | S fuel =>
      let '(tlist, cur) :=
        if negb (rthread cur =? NULL) then
          match tlist with
          | Some p => (Some (if is_last cur p then first_entry cur else next_entry cur p), cur)
          | None => (None, cur)
          end
        else
          match runq cur with
          | [] => (None, cur)
          | t :: _ => (Some (AtNode 0), set_rthread t cur)
          end in
      match tlist with
      | Some p =>
          if bool_decide (env k (threadp cur p) = T_READY) then Ret (threadp cur p, cur, k)
          else sched_rr_loop fuel cur tlist env (S k)
      | None => sched_rr_loop fuel cur tlist env (S k)
      end
  end.

(** [static thread_t *__do_sched_rr(cpu_state_t *cur)] *)
Definition __do_sched_rr (fuel : nat) (cur : cpu_state_t) (env : nat → statuses)
  : res (Z * cpu_state_t * nat) :=
  let tlist := if negb (rthread cur =? NULL)
               then Some (find_thread_in_rq (rthread cur) cur) else None in
  sched_rr_loop fuel cur tlist env 0.

(** [static thread_t *__do_sched_pior(cpu_state_t *cur)] *)
Definition __do_sched_pior (cur : cpu_state_t) : Z := NULL.

(** [static thread_t *__do_sched(cpu_state_t *cur)], [pick_next_thread] *)
Definition pick_next_thread (fuel : nat) (cur : cpu_state_t) (env : nat → statuses)
  : res (Z * cpu_state_t * nat) :=
  match scheduler cur with
  | SCHED_RR => __do_sched_rr fuel cur env
  | SCHED_PRIOR => Ret (__do_sched_pior cur, cur, 0%nat)
  | SCHED_LAST => Panic "#BUG"
  end.

(** [thread_t *get_curr_thread()] on the calling CPU *)
Definition get_curr_thread (c : cpu_state_t) : Z := rthread c.

(** [static inline void set_thread_status(thread_state_t status)] *)
Definition set_curr_status (x : thread_state_t) (c : cpu_state_t) (st : statuses) : statuses :=
  set_thread_status (get_curr_thread c) x st.

(** [void schedule()] on the calling CPU, up to the context switch. [env] tells
    what interrupts make of the statuses during the polling loop. *)
Definition schedule (fuel : nat) (cpu : cpu_state_t) (st : statuses)
    (env : statuses → nat → statuses) : res (cpu_state_t * statuses) :=
  let cpu := preempt_disable cpu in
  let old := rthread cpu in
  let st := if bool_decide (st old = T_RUNNING) then set_thread_status old T_READY st else st in
  '(nextp, cpu, k) ← pick_next_thread fuel cpu (env st);
  let st := set_thread_status nextp T_RUNNING (env st k) in
  Ret (set_rthread nextp cpu, st).

(** [void init_sched()] *)
Definition init_sched (fuel : nat) (cpu : cpu_state_t) (st : statuses)
    (env : statuses → nat → statuses) : res (cpu_state_t * statuses) :=
  _ ← ASSERT (negb (flag_bsp cpu) || (flag_bsp cpu && negb (bool_decide (runq cpu = []))))
        "!cpu->flag_bsp || (cpu->flag_bsp && !list_empty(&cpu->runq))";
  schedule fuel (set_scheduler SCHED_RR cpu) st env.

(** [int make_sleep_resched()] *)
Definition make_sleep_resched (fuel : nat) (cpu : cpu_state_t) (st : statuses)
    (env : statuses → nat → statuses) : res (cpu_state_t * statuses) :=
  schedule fuel cpu (make_sleep (get_curr_thread cpu) st) env.

(** ** Run queues *)

(** [static void rq_calc_len_and_ready(cpu_state_t *cpu, size_t *len, size_t *ready)] *)
Fixpoint rq_count (l : list Z) (st : statuses) (len ready : Z) : Z * Z :=
  match l with
  | [] => (len, ready)
  | t :: l =>
      rq_count l st (u32 (len + 1))
        (if bool_decide (st t = T_READY) then u32 (ready + 1) else ready)
  end.

Definition rq_calc_len_and_ready (c : cpu_state_t) (st : statuses) : Z * Z :=
  rq_count (runq c) st 0 0.

(** The loop of [__pick_processor_fsr]; [best] is the index of [cpu] in
    [cpuset], so that [&cpu[i]] is [&cpuset[best + i]]. [stats j] is what
    [rq_calc_len_and_ready] computes for [cpuset[j]]. *)
Fixpoint pick_loop (n : nat) (i best : nat) (prev : Z * Z) (stats : nat → Z * Z) : nat :=
  match n with
  | O => best
  | S n =>
      let '(len, ready) := stats (best + i)%nat in
      if Nat.eqb i 0 || (len <? prev.1) || ((len =? prev.1) && (ready <? prev.2))
      then pick_loop n (S i) i (len, ready) stats
      else pick_loop n (S i) best prev stats
  end.

(** [static cpu_state_t *__pick_processor_fsr()] as an index of [cpuset] *)
Definition __pick_processor_fsr (ncpu : nat) (stats : nat → Z * Z) : nat :=
  pick_loop ncpu 0 0 (0, 0) stats.

(** [static int add_thread_to_rq(thread_t *threadp)] on the picked CPU; [node] is
    what [kmalloc] returned for the queue node. *)
Definition add_thread_to_rq (node t : Z) (c : cpu_state_t) (st : statuses)
  : Z * cpu_state_t * statuses :=
  if node =? NULL then (1, c, st)
  else (OK, set_runq (runq c ++ [t]) c, set_thread_status t T_READY st).

(** [static int __remove_thread_from_rq(cpu_state_t *cpu, thread_t *threadp)];
    [freed] is what [kfree] returned. For a thread that is not queued the code
    unlinks the list head; the model stops there. *)
Definition __remove_thread_from_rq (freed t : Z) (c : cpu_state_t) : res (Z * cpu_state_t) :=
  match find_thread_in_rq t c with
  | AtHead => Panic "the head of the run queue is unlinked"
  | AtNode i =>
      let c := set_runq (take i (runq c) ++ drop (S i) (runq c)) c in
      if negb (freed =? OK) then Ret (-2, c) else Ret (OK, c)
  end.

(** [static int remove_thread_from_rq()] *)
Definition remove_thread_from_rq (freed : Z) (c : cpu_state_t) : res (Z * cpu_state_t) :=
  __remove_thread_from_rq freed (get_curr_thread c) c.

(** [int clean_thread_sched()] *)
Definition clean_thread_sched (freed : Z) (c : cpu_state_t) (st : statuses)
  : res (Z * cpu_state_t * statuses) :=
  '(status, c) ← remove_thread_from_rq freed c;
  Ret (status, c, set_curr_status T_COMPLETE c st).

(** [uint_t check_runnable_threads()] over the threads of the current task *)
Fixpoint count_runnable (l : list Z) (st : statuses) (n : Z) : Z :=
  match l with
  | [] => n
  | t :: l => count_runnable l st (if bool_decide (st t = T_COMPLETE) then n else u32 (n + 1))
  end.

Definition check_runnable_threads (threads : list Z) (st : statuses) : Z :=
  count_runnable threads st 0.

(** [void check_thread_alarms()]: one entry, then the loop over the run queue. *)
Definition check_alarm_of (ticks t : Z) (al : Z → alarm_t) (st : statuses)
  : (Z → alarm_t) * statuses :=
  if bool_decide (st t = T_BLOCKED) && alarm_check ticks (al t)
  then (<[t := alarm_unset (al t)]> al, (wake_up t st).2) else (al, st).

Fixpoint check_alarms_loop (l : list Z) (ticks : Z) (al : Z → alarm_t) (st : statuses)
  : res ((Z → alarm_t) * statuses) :=
  match l with
  | [] => Ret (al, st)
  | t :: l =>
      _ ← ASSERT (negb (t =? NULL)) "thrp != NULL";
      let '(al, st) := check_alarm_of ticks t al st in
      check_alarms_loop l ticks al st
  end.

Definition check_thread_alarms (ticks : Z) (c : cpu_state_t) (al : Z → alarm_t) (st : statuses)
  : res ((Z → alarm_t) * statuses) :=
  check_alarms_loop (runq c) ticks al st.

(** [void pause(uint_t sec)] up to its [schedule()] *)
Definition pause_set (sec ticks : Z) (c : cpu_state_t) (al : Z → alarm_t) (st : statuses)
  : (Z → alarm_t) * statuses :=
  let threadp := get_curr_thread c in
  (<[threadp := alarm_set ticks (u32 (TICK_SEC * sec))]> al, make_sleep threadp st).
