(* ===== verification/SchedProofs.v ===== *)
(** * The scheduler is round robin *)
From S2P Require Import Prelude Threads Timer Sched.

(** ** Cursor and queue *)

Definition thread_at (c : cpu_state_t) (j : nat) : Z :=
  nth (j mod length (runq c)) (runq c) NULL.

Lemma thread_at_lt c j : (j < length (runq c))%nat → thread_at c j = nth j (runq c) NULL.
Proof. intros Hj. unfold thread_at. by rewrite Nat.mod_small. Qed.

Lemma find_thread_from_spec l : ∀ k i t,
  NoDup l → l !! i = Some t → find_thread_from l k t = AtNode (k + i).
Proof.
  induction l as [|u l IH]; intros k [|i] t Hnd Hi; cbn in *; try done.
  - injection Hi as ->. rewrite Z.eqb_refl. f_equal. lia.
  - apply NoDup_cons in Hnd as [Hu Hnd].
    destruct (Z.eqb_spec u t) as [->|]; [by apply list_elem_of_lookup_2 in Hi|].
    rewrite (IH (S k) i t Hnd Hi). f_equal. lia.
Qed.

Lemma find_thread_from_none l : ∀ k t, t ∉ l → find_thread_from l k t = AtHead.
Proof.
  induction l as [|u l IH]; intros k t Ht; cbn; [done|].
  apply not_elem_of_cons in Ht as [Hne Ht]. destruct (Z.eqb_spec u t); [congruence|auto].
Qed.

(** The node after node [i]; the head counts as the node before the first. *)
Definition pos_of (c : cpu_state_t) (p : pos) (j : nat) : Prop :=
  match p with AtHead => j = 0%nat | AtNode i => (i < length (runq c))%nat ∧ j = S i end.

Lemma advance_pos c p j :
  runq c ≠ [] → pos_of c p j →
  (if is_last c p then first_entry c else next_entry c p) = AtNode (j mod length (runq c)).
Proof.
  intros Hne. destruct p as [|i]; cbn [pos_of is_last next_entry].
  - intros ->. unfold is_last, next_entry, first_entry. destruct (runq c) as [|u l]; [done|].
    by rewrite Nat.Div0.mod_0_l.
  - intros [Hi ->]. destruct (Nat.eqb_spec (S i) (length (runq c))) as [E|E].
    + rewrite E, Nat.Div0.mod_same. unfold first_entry. by destruct (runq c).
    + rewrite Nat.mod_small by lia. done.
Qed.

(** The polling loop from the cursor before position [j]: it stops at the first
    round that finds a ready thread, and visits the queue in cyclic order. *)
Lemma sched_rr_loop_spec m : ∀ fuel c p j env k,
  rthread c ≠ NULL → runq c ≠ [] → pos_of c p j → (m < fuel)%nat →
  (∀ m', (m' < m)%nat → env (k + m')%nat (thread_at c (j + m')) ≠ T_READY) →
  env (k + m)%nat (thread_at c (j + m)) = T_READY →
  sched_rr_loop fuel c (Some p) env k = Ret (thread_at c (j + m), c, (k + m)%nat).
Proof.
  induction m as [|m IH]; intros [|fuel] c p j env k Hr Hne Hp Hf Hmin Hm; try lia;
    cbn [sched_rr_loop]; rewrite (proj2 (Z.eqb_neq _ _)) by done; cbn [negb];
    rewrite (advance_pos c p j) by done; cbn [threadp];
    change (nth (j mod length (runq c)) (runq c) NULL) with (thread_at c j).
  - rewrite !Nat.add_0_r in *. by rewrite bool_decide_eq_true_2.
  - rewrite bool_decide_eq_false_2.
    + assert (Hl : (0 < length (runq c))%nat) by (destruct (runq c); [done|cbn; lia]).
      assert (Hmod : (j mod length (runq c) < length (runq c))%nat) by (apply Nat.mod_upper_bound; lia).
      assert (Et : ∀ x, thread_at c (S (j mod length (runq c)) + x) = thread_at c (j + S x)).
      { intros x. unfold thread_at. f_equal.
        replace (j + S x)%nat with (S x + j)%nat by lia.
        replace (S (j mod length (runq c)) + x)%nat with (S x + j mod length (runq c))%nat by lia.
        by rewrite Nat.Div0.add_mod_idemp_r. }
      rewrite (IH fuel c (AtNode (j mod length (runq c))) (S (j mod length (runq c))) env (S k)).
      * rewrite Et. f_equal. f_equal. lia.
      * done.
      * done.
      * by split.
      * lia.
      * intros m' Hm'. rewrite Et. replace (S k + m')%nat with (k + S m')%nat by lia.
        apply Hmin. lia.
      * rewrite Et. by replace (S k + m)%nat with (k + S m)%nat by lia.
    + specialize (Hmin 0%nat ltac:(lia)). by rewrite !Nat.add_0_r in Hmin.
Qed.

(** With no ready thread at any round the loop polls forever. *)
Lemma sched_rr_loop_idle fuel : ∀ c p j env k,
  rthread c ≠ NULL → runq c ≠ [] → pos_of c p j →
  (∀ m t, t ∈ runq c → env m t ≠ T_READY) →
  sched_rr_loop fuel c (Some p) env k = Diverge.
Proof.
  induction fuel as [|fuel IH]; intros c p j env k Hr Hne Hp Hidle; [done|].
  cbn [sched_rr_loop]. rewrite (proj2 (Z.eqb_neq _ _)) by done. cbn [negb].
  rewrite (advance_pos c p j) by done.
  assert (Hl : (j mod length (runq c) < length (runq c))%nat)
    by (apply Nat.mod_upper_bound; destruct (runq c); [done|cbn; lia]).
  rewrite bool_decide_eq_false_2.
  - apply (IH c _ (S (j mod length (runq c)))); try done.
  - cbn [threadp]. apply Hidle. by apply list_elem_of_In, nth_In.
Qed.

(** What [schedule] does around the polling loop. *)
Definition demote (t : Z) (st : statuses) : statuses :=
  if bool_decide (st t = T_RUNNING) then set_thread_status t T_READY st else st.

Lemma schedule_spec fuel c st env i m :
  scheduler c = SCHED_RR → rthread c ≠ NULL → NoDup (runq c) →
  runq c !! i = Some (rthread c) → (m < fuel)%nat →
  let st1 := demote (rthread c) st in
  (∀ m', (m' < m)%nat → env st1 m' (thread_at c (S i + m')) ≠ T_READY) →
  env st1 m (thread_at c (S i + m)) = T_READY →
  schedule fuel c st env =
    Ret (set_rthread (thread_at c (S i + m)) (preempt_disable c),
         set_thread_status (thread_at c (S i + m)) T_RUNNING (env st1 m)).
Proof.
  intros Hs Hr Hnd Hi Hf st1 Hmin Hm. unfold schedule, pick_next_thread, __do_sched_rr.
  cbn [preempt_disable set_preempt scheduler rthread runq]. rewrite Hs. cbn iota.
  change (if bool_decide _ then _ else st) with st1.
  rewrite (proj2 (Z.eqb_neq _ _)) by done. cbn [negb].
  unfold find_thread_in_rq; cbn [runq].
  rewrite (find_thread_from_spec _ 0 i (rthread c)) by done. cbn [Nat.add].
  assert (Hlt : (i < length (runq c))%nat) by (by apply lookup_lt_Some in Hi).
  rewrite (sched_rr_loop_spec m fuel _ (AtNode i) (S i) (env st1) 0).
  - cbn. done.
  - done.
  - cbn. by destruct (runq c).
  - by split.
  - done.
  - exact Hmin.
  - exact Hm.
Qed.

(** ** Fairness *)

(** Statuses that interrupts leave alone. *)
Definition quiet (st : statuses) (k : nat) : statuses := st.

Fixpoint schedule_times (n fuel : nat) (c : cpu_state_t) (st : statuses)
  : res (cpu_state_t * statuses) :=
  match n with
  | O => Ret (c, st)
  | S n => '(c, st) ← schedule fuel c st quiet; schedule_times n fuel c st
  end.

(** The current thread runs and all others of the queue are ready. *)
Definition all_ready (c : cpu_state_t) (st : statuses) : Prop :=
  ∀ t, t ∈ runq c → st t = if decide (t = rthread c) then T_RUNNING else T_READY.

Lemma thread_at_elem c j : runq c ≠ [] → thread_at c j ∈ runq c.
Proof.
  intros Hne. unfold thread_at. apply list_elem_of_In, nth_In, Nat.mod_upper_bound.
  by destruct (runq c).
Qed.

Lemma schedule_all_ready fuel c st i :
  scheduler c = SCHED_RR → NoDup (runq c) → NULL ∉ runq c →
  runq c !! i = Some (rthread c) → all_ready c st → (0 < fuel)%nat →
  ∃ c' st', schedule fuel c st quiet = Ret (c', st') ∧ scheduler c' = SCHED_RR ∧
    runq c' = runq c ∧ rthread c' = thread_at c (S i) ∧ all_ready c' st'.
Proof.
  intros Hs Hnd H0 Hi Ha Hf.
  assert (Hin : rthread c ∈ runq c) by (by apply list_elem_of_lookup_2 in Hi).
  assert (Hne : runq c ≠ []) by (intros E; rewrite E in Hin; set_solver).
  pose proof (thread_at_elem c (S i + 0) Hne) as Hnext.
  assert (Hdem : ∀ t, t ∈ runq c → demote (rthread c) st t = T_READY).
  { intros t Ht. unfold demote. rewrite (Ha (rthread c)), decide_True by done.
    rewrite bool_decide_eq_true_2 by done.
    destruct (decide (t = rthread c)) as [->|]; [by rewrite status_same|].
    rewrite status_other, Ha, decide_False by done. done. }
  rewrite (schedule_spec fuel c st quiet i 0); try done.
  - eexists _, _. split; [done|]. rewrite Nat.add_0_r. cbn. split_and!; try done.
    intros t Ht. cbn in *. unfold quiet. case_decide; subst; [by rewrite status_same|].
    rewrite status_other by congruence. by apply Hdem.
  - intros E. by rewrite E in Hin.
  - intros m' Hm'. lia.
  - unfold quiet. by apply Hdem.
Qed.

Lemma schedule_times_spec n fuel : ∀ c st i,
  scheduler c = SCHED_RR → NoDup (runq c) → NULL ∉ runq c →
  runq c !! i = Some (rthread c) → all_ready c st → (0 < fuel)%nat →
  ∃ c' st', schedule_times n fuel c st = Ret (c', st') ∧ runq c' = runq c ∧
    rthread c' = thread_at c (i + n) ∧ all_ready c' st'.
Proof.
  induction n as [|n IH]; intros c st i Hs Hnd H0 Hi Ha Hf; cbn [schedule_times].
  { exists c, st. split_and!; try done. pose proof (lookup_lt_Some _ _ _ Hi).
    rewrite thread_at_lt, Nat.add_0_r by lia. by rewrite nth_lookup, Hi. }
  destruct (schedule_all_ready fuel c st i) as (c1&st1&->&Hs1&Hq1&Hr1&Ha1); try done.
  cbn [mbind res_bind].
  assert (Hl : (0 < length (runq c))%nat) by (apply lookup_lt_Some in Hi; lia).
  destruct (IH c1 st1 (S i mod length (runq c))%nat) as (c'&st'&->&Hq'&Hr'&Ha'); rewrite ?Hq1; try done.
  { rewrite Hr1. unfold thread_at.
    destruct (lookup_lt_is_Some_2 (runq c) (S i mod length (runq c))%nat) as [x Hx];
      [apply Nat.mod_upper_bound; lia|]. by rewrite nth_lookup, Hx. }
  exists c', st'. split_and!; try done; [congruence|]. rewrite Hr'. unfold thread_at. rewrite Hq1.
  f_equal. rewrite Nat.Div0.add_mod_idemp_l. f_equal. lia.
Qed.

(** ** Alarms of the queued threads *)

Definition due (ticks : Z) (al : Z → alarm_t) (st : statuses) (t : Z) : bool :=
  bool_decide (st t = T_BLOCKED) && alarm_check ticks (al t).

Lemma check_alarm_of_spec ticks t al st u :
  let '(al', st') := check_alarm_of ticks t al st in
  al' u = (if decide (u = t) then if due ticks al st t then alarm_unset (al t) else al t
           else al u) ∧
  st' u = (if decide (u = t) then if due ticks al st t then T_READY else st t else st u).
Proof.
  unfold check_alarm_of. fold (due ticks al st t). destruct (due ticks al st t) eqn:E.
  - unfold due in E. apply andb_prop in E as [Hb%bool_decide_eq_true _].
    unfold wake_up. rewrite (decide_True (P := st t = T_BLOCKED)) by done. cbn.
    unfold set_thread_status, insert, fn_insert. repeat case_decide; subst; try done; congruence.
  - case_decide; by subst.
Qed.

Lemma check_alarms_loop_spec l : ∀ ticks al st,
  NoDup l → NULL ∉ l →
  ∃ al' st', check_alarms_loop l ticks al st = Ret (al', st') ∧
    ∀ u, al' u = (if decide (u ∈ l ∧ due ticks al st u = true) then alarm_unset (al u) else al u) ∧
         st' u = (if decide (u ∈ l ∧ due ticks al st u = true) then T_READY else st u).
Proof.
  induction l as [|t l IH]; intros ticks al st Hnd H0; cbn [check_alarms_loop].
  { exists al, st. split; [done|]. intros u. rewrite !decide_False by set_solver. done. }
  apply NoDup_cons in Hnd as [Ht Hnd]. apply not_elem_of_cons in H0 as [Ht0 H0].
  rewrite (proj2 (Z.eqb_neq _ _)) by done. cbn [negb ASSERT mbind res_bind].
  pose proof (check_alarm_of_spec ticks t al st) as Hs.
  destruct (check_alarm_of ticks t al st) as [al1 st1].
  destruct (IH ticks al1 st1 Hnd H0) as (al'&st'&->&Hl). exists al', st'. split; [done|].
  intros u. destruct (Hl u) as [-> ->]. destruct (Hs u) as [Ea Es].
  destruct (decide (u = t)) as [->|Hne].
  - rewrite !(decide_False (P := t ∈ l ∧ _)) by tauto. rewrite Ea, Es.
    destruct (due ticks al st t) eqn:E.
    + by rewrite !decide_True by (split; [left|done]).
    + by rewrite !decide_False by (intros [_ ?]; done).
  - assert (Ed : due ticks al1 st1 u = due ticks al st u) by (unfold due; by rewrite Ea, Es).
    rewrite Ed, Ea, Es. destruct (due ticks al st u) eqn:E.
    + destruct (decide (u ∈ l)).
      * rewrite !decide_True; try done; rewrite ?elem_of_cons; tauto.
      * rewrite !decide_False; [done|..]; rewrite ?elem_of_cons; tauto.
    + rewrite !decide_False by (intros [_ ?]; done). done.
Qed.

(** ** Properties *)

(** [schedule] is round robin, whatever interrupts do to the statuses while
    it polls: from the running thread's place in the run queue it visits the
    threads in cyclic order (the thread itself last), and switches to the first
    one it finds ready; the queue is unchanged, preemption is off for the
    switch, and the chosen thread is marked running. *)
Theorem schedule_round_robin fuel c st env i m :
  scheduler c = SCHED_RR → rthread c ≠ NULL → NoDup (runq c) →
  runq c !! i = Some (rthread c) → (m < fuel)%nat →
  let st1 := demote (rthread c) st in
  let next m := thread_at c (i + 1 + m) in
  (∀ m', (m' < m)%nat → env st1 m' (next m') ≠ T_READY) →
  env st1 m (next m) = T_READY →
  ∃ c' st', schedule fuel c st env = Ret (c', st') ∧ runq c' = runq c ∧
    rthread c' = next m ∧ preempt_on c' = false ∧
    st' (next m) = T_RUNNING ∧ (∀ t, t ≠ next m → st' t = env st1 m t).
Proof.
  intros Hs Hr Hnd Hi Hf st1 next Hmin Hm. unfold next in *.
  replace (i + 1)%nat with (S i) in * by lia.
  rewrite (schedule_spec fuel c st env i m) by done.
  eexists _, _. split; [done|]. split_and!; try done; [by rewrite status_same|].
  intros t Ht. by rewrite status_other.
Qed.

(** A CPU with three threads, the first running. *)
Definition cpu_demo : cpu_state_t := CpuState 0 true true 0x202 [10; 20; 30] 10 SCHED_RR.

Lemma schedule_round_robin_witness :
  ∃ c' st', schedule 4 cpu_demo (<[10 := T_RUNNING]> (<[20 := T_BLOCKED]> (λ _, T_READY))) quiet
              = Ret (c', st') ∧ rthread c' = 30.
Proof.
  destruct (schedule_round_robin 4 cpu_demo
              (<[10 := T_RUNNING]> (<[20 := T_BLOCKED]> (λ _, T_READY))) quiet 0 1)
    as (c'&st'&E&_&Hr&_).
  - reflexivity.
  - discriminate.
  - repeat constructor; set_solver.
  - reflexivity.
  - lia.
  - intros m' Hm'. replace m' with 0%nat by lia. vm_compute. discriminate.
  - reflexivity.
  - exists c', st'. split; [exact E|exact Hr].
Defined.

(** No starvation: when all threads of the queue are ready, [n] calls of
    [schedule] move the CPU [n] places on in the queue, so every thread runs
    within as many calls as there are threads; after each, exactly the current
    thread is running. *)
Theorem schedule_fair n fuel c st i :
  scheduler c = SCHED_RR → NoDup (runq c) → NULL ∉ runq c →
  runq c !! i = Some (rthread c) → all_ready c st → (0 < fuel)%nat →
  ∃ c' st', schedule_times n fuel c st = Ret (c', st') ∧ runq c' = runq c ∧
    rthread c' = thread_at c (i + n) ∧ all_ready c' st'.
Proof. apply schedule_times_spec. Qed.

Lemma schedule_fair_witness :
  ∃ c' st', schedule_times 5 1 cpu_demo (<[10 := T_RUNNING]> (λ _, T_READY)) = Ret (c', st') ∧
    rthread c' = 30.
Proof.
  destruct (schedule_fair 5 1 cpu_demo (<[10 := T_RUNNING]> (λ _, T_READY)) 0)
    as (c'&st'&E&_&Hr&_).
  - reflexivity.
  - repeat constructor; set_solver.
  - set_solver.
  - reflexivity.
  - intros t Ht. assert (Hc : t = 10 ∨ t = 20 ∨ t = 30) by (cbn in Ht; set_solver).
    destruct Hc as [->|[->| ->]]; reflexivity.
  - lia.
  - exists c', st'. split; [exact E|exact Hr].
Defined.

(** A thread that has left the run queue (it finished) still gets off the
    CPU: the search for it ends at the list head, and [schedule] goes on with
    the first ready thread from the front of the queue. With no thread ready at
    any round, [schedule] polls forever. *)
Theorem schedule_after_exit fuel c st env m :
  scheduler c = SCHED_RR → rthread c ≠ NULL → rthread c ∉ runq c → runq c ≠ [] →
  let st1 := demote (rthread c) st in
  ((m < fuel)%nat → (∀ m', (m' < m)%nat → env st1 m' (thread_at c m') ≠ T_READY) →
   env st1 m (thread_at c m) = T_READY →
   ∃ c' st', schedule fuel c st env = Ret (c', st') ∧ rthread c' = thread_at c m ∧
             runq c' = runq c) ∧
  ((∀ m t, t ∈ runq c → env st1 m t ≠ T_READY) → schedule fuel c st env = Diverge).
Proof.
  intros Hs Hr Hni Hne st1. unfold schedule, pick_next_thread, __do_sched_rr.
  cbn [preempt_disable set_preempt scheduler rthread runq]. rewrite Hs. cbn iota.
  change (if bool_decide _ then _ else st) with st1.
  rewrite (proj2 (Z.eqb_neq _ _)) by done. cbn [negb].
  unfold find_thread_in_rq; cbn [runq]. rewrite find_thread_from_none by done. split.
  - intros Hf Hmin Hm.
    rewrite (sched_rr_loop_spec m fuel _ AtHead 0 (env st1) 0); [|done..].
    cbn. eexists _, _. split; [done|]. split; done.
  - intros Hidle. by rewrite (sched_rr_loop_idle fuel _ AtHead 0).
Qed.

Lemma schedule_after_exit_witness :
  ∃ c' st', schedule 2 (set_rthread 99 cpu_demo) (λ _, T_READY) quiet = Ret (c', st') ∧
    rthread c' = 10.
Proof.
  destruct (schedule_after_exit 2 (set_rthread 99 cpu_demo) (λ _, T_READY) quiet 0) as [H _].
  - reflexivity.
  - discriminate.
  - cbn. set_solver.
  - discriminate.
  - destruct H as (c'&st'&E&Hr&_); [lia|lia|reflexivity|].
    exists c', st'. split; [exact E|exact Hr].
Defined.

(** [check_thread_alarms] wakes exactly the blocked threads of the queue whose
    alarm is due and turns those alarms off; it changes nothing else. *)
Theorem check_thread_alarms_correct ticks c al st :
  NoDup (runq c) → NULL ∉ runq c →
  ∃ al' st', check_thread_alarms ticks c al st = Ret (al', st') ∧
    ∀ u, al' u = (if decide (u ∈ runq c ∧ due ticks al st u = true)
                  then alarm_unset (al u) else al u) ∧
         st' u = (if decide (u ∈ runq c ∧ due ticks al st u = true) then T_READY else st u).
Proof. apply check_alarms_loop_spec. Qed.

Lemma check_thread_alarms_correct_witness :
  ∃ al' st', check_thread_alarms 50 cpu_demo (λ _, alarm_set 10 20)
               (<[20 := T_BLOCKED]> (λ _, T_READY)) = Ret (al', st') ∧ st' 20 = T_READY.
Proof.
  destruct (check_thread_alarms_correct 50 cpu_demo (λ _, alarm_set 10 20)
              (<[20 := T_BLOCKED]> (λ _, T_READY))) as (al'&st'&E&H).
  - repeat constructor; set_solver.
  - cbn. set_solver.
  - exists al', st'. split; [exact E|]. destruct (H 20) as [_ ->].
    rewrite decide_True; [reflexivity|]. split; [cbn; set_solver|reflexivity].
Defined.

(** [__pick_processor_fsr] compares [cpuset[best + i]], not [cpuset[i]]: with
    one or two CPUs it picks a CPU with the shortest queue (ties by ready
    threads), but with three CPUs, once CPU 1 is ahead of CPU 0, the length it
    takes for CPU 2 is that of [cpuset[3]], which is no CPU of the system. *)
Theorem pick_processor_two_only stats :
  let lt a b := a.1 < b.1 ∨ (a.1 = b.1 ∧ a.2 < b.2) in
  __pick_processor_fsr 1 stats = 0%nat ∧
  (let b := __pick_processor_fsr 2 stats in
   (b = 0 ∨ b = 1)%nat ∧ ∀ i, (i < 2)%nat → ¬ lt (stats i) (stats b)) ∧
  (lt (stats 1%nat) (stats 0%nat) → lt (stats 3%nat) (stats 1%nat) →
   __pick_processor_fsr 3 stats = 2%nat).
Proof.
  intros lt. unfold __pick_processor_fsr.
  assert (Hb : ∀ a b : Z * Z, (a.1 <? b.1) || ((a.1 =? b.1) && (a.2 <? b.2)) = true ↔ lt a b).
  { intros a b. unfold lt. rewrite orb_true_iff, andb_true_iff, !Z.ltb_lt, Z.eqb_eq. done. }
  split; [|split].
  - cbn. by destruct (stats 0%nat).
  - cbn [pick_loop Nat.eqb orb Nat.add fst snd].
    destruct (stats 0%nat) as [l0 r0] eqn:E0. cbn [pick_loop Nat.add fst snd].
    destruct (stats 1%nat) as [l1 r1] eqn:E1. cbn [Nat.eqb orb].
    destruct ((l1 <? l0) || ((l1 =? l0) && (r1 <? r0))) eqn:Ec.
    + apply (Hb (l1, r1) (l0, r0)) in Ec. unfold lt in *; cbn in *. split; [by right|].
      intros i Hi. destruct i as [|[|i]]; [rewrite E0, E1; cbn; lia|rewrite E1; cbn; lia|lia].
    + assert (Hn : ¬ lt (l1, r1) (l0, r0)) by (rewrite <- Hb; cbn; by rewrite Ec).
      unfold lt in *; cbn in *. split; [by left|].
      intros i Hi. destruct i as [|[|i]]; [rewrite E0; cbn; lia|rewrite E0, E1; cbn; lia|lia].
  - intros H1 H3. cbn [pick_loop Nat.eqb orb Nat.add].
    destruct (stats 0%nat) as [l0 r0]. cbn [pick_loop Nat.add fst snd].
    destruct (stats 1%nat) as [l1 r1] eqn:E1. cbn [Nat.eqb orb].
    apply (Hb (l1, r1) (l0, r0)) in H1. cbn in H1. rewrite H1. cbn [pick_loop Nat.add fst snd].
    destruct (stats 3%nat) as [l3 r3] eqn:E3. cbn [Nat.eqb orb].
    apply (Hb (l3, r3) (l1, r1)) in H3. cbn in H3. rewrite H3. done.
Qed.
