(* ===== verification/Printk.v ===== *)
(** * Formatted output: [src/printk.c]

    Strings are lists of character codes. The output pointer only moves forward,
    so each function returns the characters it appends. Variable arguments are a
    list: 32-bit integers (pointers included) and strings. *)
From S2P Require Import Prelude.

Definition ZEROPAD : Z := 1.
Definition SIGN : Z := 2.
Definition PLUS : Z := 4.
Definition SPACE : Z := 8.
Definition LEFT : Z := 16.
Definition SPECIAL : Z := 32.
Definition SMALL : Z := 64.

(** [type & flag] as a condition *)
Definition has (type flag : Z) : bool := negb (Z.land type flag =? 0).

Definition is_digit (c : Z) : bool := (48 <=? c) && (c <=? 57).

(** [static int skip_atoi(const char **s)] *)
Fixpoint skip_atoi_from (i : Z) (s : list Z) : Z * list Z :=
  match s with
  | c :: s' => if is_digit c then skip_atoi_from (s32 (i * 10 + c - 48)) s' else (i, s)
  | [] => (i, s)
  end.

Definition skip_atoi (s : list Z) : Z * list Z := skip_atoi_from 0 s.

(** ** [number] *)

(** [digits[d]]: 0-9 and then the letters. *)
Definition digit (small : bool) (d : Z) : Z :=
  if d <? 10 then 48 + d else (if small then 97 else 65) + (d - 10).

(** [while (num != 0) tmp[i++] = digits[do_div(num, base)]]: [do_div] divides the
    unsigned value. *)
Fixpoint number_digits (fuel : nat) (small : bool) (num base : Z) (tmp : list Z) : list Z :=
  match fuel with
  | O => tmp
  | S fuel =>
      if num =? 0 then tmp
      else number_digits fuel small (num / base) base (tmp ++ [digit small (num `mod` base)])
  end.

(** [while (size-- > 0) *str++ = c;]: the characters and what is left of [size]. *)
Definition pad (size c : Z) : list Z * Z :=
  (replicate (Z.to_nat size) c, Z.min size 0 - 1).

(** [static char *number(char *str, int num, int base, int size, int precision,
    int type)]; [None] is its null result. *)
Definition number (num base size precision type : Z) : option (list Z) :=
  let small := has type SMALL in
  let type := if has type LEFT then Z.land type (Z.lnot ZEROPAD) else type in
  if (base <? 2) || (36 <? base) then None
  else
    let c := if has type ZEROPAD then 48 else 32 in
    let '(sign, num) :=
      if has type SIGN && (s32 num <? 0) then (45, u32 (- num))
      else ((if has type PLUS then 43 else if has type SPACE then 32 else 0), u32 num) in
    let size := if negb (sign =? 0) then size - 1 else size in
    let size := if has type SPECIAL then
                  if base =? 16 then size - 2 else if base =? 8 then size - 1 else size
                else size in
    let tmp := if num =? 0 then [48] else number_digits 33 small num base [] in
    let i := Z.of_nat (length tmp) in
    let precision := if precision <? i then i else precision in
    let size := size - precision in
    let '(o1, size) := if negb (has type (ZEROPAD + LEFT)) then pad size 32 else ([], size) in
    let o2 := if negb (sign =? 0) then [sign] else [] in
    let o3 := if has type SPECIAL then
                if base =? 8 then [48]
                else if base =? 16 then [48; digit small 33] else []
              else [] in
    let '(o4, size) := if negb (has type LEFT) then pad size c else ([], size) in
    let o5 := replicate (Z.to_nat (precision - i)) 48 in
    let o6 := rev tmp in
    let '(o7, _) := pad size 32 in
    Some (o1 ++ o2 ++ o3 ++ o4 ++ o5 ++ o6 ++ o7).

(** ** [vsprintf] *)

Inductive arg : Type :=
  | AInt (z : Z)
  | AStr (s : list Z).

(** [va_arg]: reading past the arguments, or at the wrong type, is undefined; the
    model stops there. *)
Definition arg_int (args : list arg) : res (Z * list arg) :=
  match args with AInt z :: args => Ret (z, args) | _ => Panic "va_arg: int" end.
Definition arg_str (args : list arg) : res (list Z * list arg) :=
  match args with AStr s :: args => Ret (s, args) | _ => Panic "va_arg: char *" end.

(** The flags after [%]; the result starts at the first other character. *)
Fixpoint parse_flags (fmt : list Z) (flags : Z) : Z * list Z :=
  match fmt with
  | c :: fmt' =>
      if c =? 45 then parse_flags fmt' (Z.lor flags LEFT)
      else if c =? 43 then parse_flags fmt' (Z.lor flags PLUS)
      else if c =? 32 then parse_flags fmt' (Z.lor flags SPACE)
      else if c =? 35 then parse_flags fmt' (Z.lor flags SPECIAL)
      else if c =? 48 then parse_flags fmt' (Z.lor flags ZEROPAD)
      else (flags, fmt)
  | [] => (flags, fmt)
  end.

(** The current character of the format, 0 at its end. *)
Definition cur (fmt : list Z) : Z := match fmt with c :: _ => c | [] => 0 end.

(** Field width. A [*] takes the next argument but is not skipped. *)
Definition parse_width (fmt : list Z) (flags : Z) (args : list arg)
  : res (Z * Z * list Z * list arg) :=
  if is_digit (cur fmt) then
    let '(w, fmt) := skip_atoi fmt in Ret (w, flags, fmt, args)
  else if cur fmt =? 42 then
    '(w, args) ← arg_int args;
    if s32 w <? 0 then Ret (s32 (- s32 w), Z.lor flags LEFT, fmt, args)
    else Ret (s32 w, flags, fmt, args)
  else Ret (-1, flags, fmt, args).

(** Precision, after [.]. *)
Definition parse_precision (fmt : list Z) (args : list arg) : res (Z * list Z * list arg) :=
  if cur fmt =? 46 then
    let fmt := tail fmt in
    '(p, fmt, args) ←
      (if is_digit (cur fmt) then let '(p, fmt) := skip_atoi fmt in Ret (p, fmt, args)
       else if cur fmt =? 42 then '(p, args) ← arg_int args; Ret (s32 p, fmt, args)
       else Ret (-1, fmt, args));
    Ret ((if p <? 0 then 0 else p), fmt, args)
  else Ret (-1, fmt, args).

Definition parse_qualifier (fmt : list Z) : list Z :=
  if (cur fmt =? 104) || (cur fmt =? 108) || (cur fmt =? 76) then tail fmt else fmt.

(** [while (--width > 0) *str++ = ' ';] *)
Definition pad_pre (width : Z) : list Z * Z :=
  (replicate (Z.to_nat (width - 1)) 32, Z.min (width - 1) 0).

(** [while (len < width--) *str++ = ' ';] *)
Definition pad_post (len width : Z) : list Z * Z :=
  (replicate (Z.to_nat (width - len)) 32, Z.min width len - 1).

(** A [number] conversion of the next argument. *)
Definition conv_number (args : list arg) (base width precision flags : Z)
  : res (list Z * list arg) :=
  '(n, args) ← arg_int args;
  match number n base width precision flags with
  | Some o => Ret (o, args)
  | None => Panic "null string pointer"
  end.

(** One conversion at the conversion character; [pos] is [str - buff], which
    [%n] stores. The result has the characters, the format from the conversion
    character on, the arguments and the values stored by [%n]. *)
Definition convert (fmt : list Z) (flags width precision : Z) (args : list arg) (pos : Z)
  : res (list Z * list Z * list arg * list (Z * Z)) :=
  let c := cur fmt in
  if c =? 99 then (* c *)
    let '(o1, width) := if negb (has flags LEFT) then pad_pre width else ([], width) in
    '(v, args) ← arg_int args;
    let '(o2, _) := pad_pre width in
    Ret (o1 ++ [u8 v] ++ o2, fmt, args, [])
  else if c =? 115 then (* s *)
    '(s, args) ← arg_str args;
    let len := Z.of_nat (length s) in
    let len := if precision <? 0 then len else if precision <? len then precision else len in
    let '(o1, width) := if negb (has flags LEFT) then pad_post len width else ([], width) in
    let o2 := take (Z.to_nat len) s in
    let '(o3, _) := pad_post len width in
    Ret (o1 ++ o2 ++ o3, fmt, args, [])
  else if c =? 111 then (* o *)
    '(o, args) ← conv_number args 8 width precision flags; Ret (o, fmt, args, [])
  else if c =? 112 then (* p *)
    let '(width, flags) := if width =? -1 then (8, Z.lor flags ZEROPAD) else (width, flags) in
    '(o, args) ← conv_number args 16 width precision flags; Ret (o, fmt, args, [])
  else if c =? 120 then (* x *)
    '(o, args) ← conv_number args 16 width precision (Z.lor flags SMALL); Ret (o, fmt, args, [])
  else if c =? 88 then (* X *)
    '(o, args) ← conv_number args 16 width precision flags; Ret (o, fmt, args, [])
  else if (c =? 100) || (c =? 105) then (* d, i *)
    '(o, args) ← conv_number args 10 width precision (Z.lor flags SIGN); Ret (o, fmt, args, [])
  else if c =? 117 then (* u *)
    '(o, args) ← conv_number args 10 width precision flags; Ret (o, fmt, args, [])
  else if c =? 98 then (* b *)
    '(o, args) ← conv_number args 2 width precision flags; Ret (o, fmt, args, [])
  else if c =? 110 then (* n *)
    '(p, args) ← arg_int args; Ret ([], fmt, args, [(p, pos)])
  else
    let o1 := if negb (c =? 37) then [37] else [] in
    let o2 := if negb (c =? 0) then [c] else [] in
    Ret (o1 ++ o2, fmt, args, []).

(** [static int vsprintf(char *buff, const char *format, va_list args)]: the main
    loop; [out] is what has been written so far. *)
Fixpoint vsprintf_loop (fuel : nat) (fmt : list Z) (args : list arg) (out : list Z)
    (stores : list (Z * Z)) : res (list Z * list (Z * Z)) :=
  match fuel with
  | O => Diverge
  | S fuel =>
      match fmt with
      | [] => Ret (out, stores)
      | c :: fmt =>
          if negb (c =? 37) then vsprintf_loop fuel fmt args (out ++ [c]) stores
          else
            let '(flags, fmt) := parse_flags fmt 0 in
            '(width, flags, fmt, args) ← parse_width fmt flags args;
            '(precision, fmt, args) ← parse_precision fmt args;
            let fmt := parse_qualifier fmt in
            '(o, fmt, args, st) ←
              convert fmt flags width precision args (Z.of_nat (length out));
            vsprintf_loop fuel (tail fmt) args (out ++ o) (stores ++ st)
      end
  end.

Definition vsprintf (fmt : list Z) (args : list arg) : res (list Z * list (Z * Z)) :=
  vsprintf_loop (S (length fmt)) fmt args [] [].

(** [int sprintf(char *buff, const char *format, ...)]: the characters, with the
    final NUL, and the result. *)
Definition sprintf (fmt : list Z) (args : list arg) : res (list Z * Z) :=
  '(out, _) ← vsprintf fmt args;
  Ret (out ++ [0], Z.of_nat (length out)).

(** Format strings of the examples. *)
Definition chars (s : string) : list Z := (λ a, Z.of_N (Ascii.N_of_ascii a)) <$> String.list_ascii_of_string s.

(** ** Digits and their value *)

Definition undigit (c : Z) : Z :=
  if c <? 58 then c - 48 else if c <? 97 then c - 55 else c - 87.

(** The value of digits, least significant first. *)
Definition val (base : Z) (l : list Z) : Z := foldr (λ c acc, undigit c + base * acc) 0 l.

Lemma undigit_digit small d : 0 ≤ d < 36 → undigit (digit small d) = d.
Proof. intros Hd. unfold undigit, digit. destruct small; zbool; lia. Qed.

Lemma val_app base l l' : val base (l ++ l') = val base l + base ^ Z.of_nat (length l) * val base l'.
Proof.
  induction l as [|c l IH].
  - cbn [app length Z.of_nat]. unfold val at 2; cbn. rewrite Z.mul_1_l. done.
  - change (val base ((c :: l) ++ l')) with (undigit c + base * val base (l ++ l')).
    change (val base (c :: l)) with (undigit c + base * val base l).
    rewrite IH. cbn [length]. rewrite Nat2Z.inj_succ, Z.pow_succ_r by lia. ring.
Qed.

Definition is_dig (base : Z) (small : bool) (c : Z) : Prop :=
  ∃ d, 0 ≤ d < base ∧ c = digit small d.

Lemma number_digits_spec fuel small base : ∀ num tmp,
  2 ≤ base ≤ 36 → 0 ≤ num < base ^ Z.of_nat fuel →
  ∃ ds, number_digits fuel small num base tmp = tmp ++ ds ∧ val base ds = num ∧
        Forall (is_dig base small) ds ∧ (0 < num → ds ≠ []).
Proof.
  induction fuel as [|fuel IH]; intros num tmp Hb Hn; cbn [number_digits].
  { change (base ^ Z.of_nat 0) with 1 in Hn. exists []. rewrite app_nil_r.
    unfold val; cbn. split_and!; try done; lia. }
  destruct (Z.eqb_spec num 0) as [->|Hnz].
  { exists []. rewrite app_nil_r. split_and!; try done. }
  rewrite Nat2Z.inj_succ, Z.pow_succ_r in Hn by lia.
  destruct (IH (num / base) (tmp ++ [digit small (num `mod` base)]) Hb) as (ds&->&Hv&Hd&_).
  { split; [apply Z.div_pos; lia|]. apply Z.div_lt_upper_bound; lia. }
  pose proof (Z.mod_pos_bound num base ltac:(lia)) as Hm.
  exists (digit small (num `mod` base) :: ds). rewrite <- app_assoc. split_and!; try done.
  - unfold val in *. cbn [foldr]. rewrite undigit_digit, Hv by lia.
    pose proof (Z.div_mod num base ltac:(lia)). lia.
  - constructor; [by exists (num `mod` base)|done].
Qed.

Lemma number_digits_length fuel small base : 2 ≤ base → ∀ num tmp (k : nat),
  0 ≤ num < base ^ Z.of_nat k → (length (number_digits fuel small num base tmp) ≤ length tmp + k)%nat.
Proof.
  intros Hb. induction fuel as [|fuel IH]; intros num tmp k Hn; cbn [number_digits]; [lia|].
  destruct (Z.eqb_spec num 0); [lia|].
  destruct k as [|k]; [change (base ^ Z.of_nat 0) with 1 in Hn; lia|].
  etrans; [apply (IH _ _ k)|rewrite length_app; cbn; lia].
  rewrite Nat2Z.inj_succ, Z.pow_succ_r in Hn by lia.
  split; [apply Z.div_pos; lia|apply Z.div_lt_upper_bound; lia].
Qed.

(** The digits [number] prints. *)
Lemma number_tmp_spec small num base :
  2 ≤ base ≤ 36 → is_u32 num →
  let tmp := if num =? 0 then [48] else number_digits 33 small num base [] in
  val base tmp = num ∧ Forall (is_dig base small) tmp ∧ tmp ≠ [] ∧
  ∀ k : nat, (0 < k)%nat → num < base ^ Z.of_nat k → (length tmp ≤ k)%nat.
Proof.
  intros Hb Hn. destruct (Z.eqb_spec num 0) as [->|Hnz]; cbv zeta.
  - split; [unfold val; cbn [foldr]; change (undigit 48) with 0; lia|]. split; [|split; [done|cbn; lia]].
    constructor; [|done]. exists 0. split; [lia|]. by destruct small.
  - assert (H33 : num < base ^ Z.of_nat 33).
    { unfold is_u32 in Hn. apply Z.lt_le_trans with (2 ^ Z.of_nat 33); [cbn; lia|].
      apply Z.pow_le_mono_l. lia. }
    destruct (number_digits_spec 33 small base num [] Hb) as (ds&Hds&Hv&Hd&Hne);
      [unfold is_u32 in Hn; lia|]. rewrite Hds.
    cbn [app]. split_and!; try done; [apply Hne; unfold is_u32 in Hn; lia|].
    intros k Hk Hlt. pose proof (number_digits_length 33 small base ltac:(lia) num [] k) as Hl.
    rewrite Hds in Hl. apply Hl. unfold is_u32 in Hn. lia.
Qed.

Lemma pad_spec size c : (pad size c).1 = replicate (Z.to_nat size) c ∧ (pad size c).2 = Z.min size 0 - 1.
Proof. done. Qed.

(** ** [vsprintf] consumes its format *)

Lemma parse_flags_len fmt : ∀ flags, (length (parse_flags fmt flags).2 ≤ length fmt)%nat.
Proof.
  induction fmt as [|c fmt IH]; intros flags; cbn; [lia|].
  repeat (case_match; [etrans; [apply IH|lia]|]). cbn. lia.
Qed.

Lemma skip_atoi_len fmt : ∀ i, (length (skip_atoi_from i fmt).2 ≤ length fmt)%nat.
Proof.
  induction fmt as [|c fmt IH]; intros i; cbn; [lia|].
  case_match; [etrans; [apply IH|lia]|]. cbn. lia.
Qed.

Lemma arg_int_total args : arg_int args ≠ Diverge.
Proof. destruct args as [|[]]; done. Qed.

(** A step that does not diverge and leaves a format no longer than before. *)
Definition shrinks {A} (len : nat) (fmt_of : A → list Z) (r : res A) : Prop :=
  match r with Ret a => (length (fmt_of a) ≤ len)%nat | Panic _ => True | Diverge => False end.

Lemma parse_width_shrinks fmt flags args :
  shrinks (length fmt) (λ a : Z * Z * list Z * list arg, a.1.2) (parse_width fmt flags args).
Proof.
  unfold parse_width, skip_atoi. case_match.
  - pose proof (skip_atoi_len fmt 0). by destruct (skip_atoi_from 0 fmt).
  - case_match; [|cbn; lia]. destruct args as [|[z|s] args]; cbn; try done.
    case_match; cbn; lia.
Qed.

Lemma length_tail (l : list Z) : (length (tail l) ≤ length l)%nat.
Proof. destruct l; cbn; lia. Qed.

Lemma parse_precision_shrinks fmt args :
  shrinks (length fmt) (λ a : Z * list Z * list arg, a.1.2) (parse_precision fmt args).
Proof.
  unfold parse_precision, skip_atoi. case_match; [|cbn; lia].
  pose proof (length_tail fmt). case_match.
  - pose proof (skip_atoi_len (tail fmt) 0). destruct (skip_atoi_from 0 (tail fmt)); cbn in *. lia.
  - case_match; [|cbn; lia]. destruct args as [|[z|s] args]; cbn; try done.
Qed.

Lemma convert_shrinks fmt flags w p args pos :
  shrinks (length fmt) (λ a : list Z * list Z * list arg * list (Z * Z), a.1.1.2)
    (convert fmt flags w p args pos).
Proof.
  assert (Hn : ∀ b w p fl, shrinks (length fmt) (λ a : list Z * list Z * list arg * list (Z * Z), a.1.1.2)
    ('(o, args) ← conv_number args b w p fl; Ret (o, fmt, args, []))).
  { intros. unfold conv_number. destruct args as [|[z|s] args]; cbn; try done.
    destruct (number _ _ _ _ _); cbn; done. }
  unfold convert. destruct (cur fmt =? 99).
  { destruct (if negb (has flags LEFT) then _ else _) as [o1 w1]. destruct args as [|[z|s] args]; cbn; done. }
  destruct (cur fmt =? 115).
  { destruct args as [|[z|s] args]; cbn; try done. destruct (if negb (has flags LEFT) then _ else _) as [o1 w1].
    cbn. done. }
  destruct (cur fmt =? 111); [apply Hn|].
  destruct (cur fmt =? 112); [destruct (if w =? -1 then _ else _) as [w1 f1]; apply Hn|].
  destruct (cur fmt =? 120); [apply Hn|]. destruct (cur fmt =? 88); [apply Hn|].
  destruct ((cur fmt =? 100) || (cur fmt =? 105)); [apply Hn|].
  destruct (cur fmt =? 117); [apply Hn|]. destruct (cur fmt =? 98); [apply Hn|].
  destruct (cur fmt =? 110); [|cbn; lia]. destruct args as [|[z|s] args]; cbn; done || lia.
Qed.

Lemma vsprintf_loop_total fuel : ∀ fmt args out st,
  (length fmt < fuel)%nat → vsprintf_loop fuel fmt args out st ≠ Diverge.
Proof.
  induction fuel as [|fuel IH]; intros fmt args out st Hf; [lia|]. cbn [vsprintf_loop].
  destruct fmt as [|c fmt]; [done|]. cbn [length] in Hf.
  destruct (negb (c =? 37)); [apply IH; lia|].
  pose proof (parse_flags_len fmt 0) as H1. destruct (parse_flags fmt 0) as [flags f1]; cbn in H1.
  pose proof (parse_width_shrinks f1 flags args) as H2.
  destruct (parse_width f1 flags args) as [[[[w fl] f2] a2]|msg|]; cbn in *; [|done|done].
  pose proof (parse_precision_shrinks f2 a2) as H3.
  destruct (parse_precision f2 a2) as [[[p f3] a3]|msg|]; cbn in *; [|done|done].
  pose proof (convert_shrinks (parse_qualifier f3) fl w p a3 (Z.of_nat (length out))) as H4.
  assert (H5 : (length (parse_qualifier f3) ≤ length f3)%nat)
    by (unfold parse_qualifier; case_match; [apply length_tail|lia]).
  destruct (convert _ _ _ _ _ _) as [[[[o f4] a4] s4]|msg|]; cbn in *; [|done|done].
  apply IH. pose proof (length_tail f4). lia.
Qed.

(** ** Flags *)

Lemma has_clear_zeropad t f :
  Z.land (Z.lnot ZEROPAD) f = f → has (Z.land t (Z.lnot ZEROPAD)) f = has t f.
Proof. intros Hf. unfold has. by rewrite <- Z.land_assoc, Hf. Qed.

Lemma has_zeropad_left t : has t LEFT = false → has t (ZEROPAD + LEFT) = has t ZEROPAD.
Proof.
  unfold has. intros H%negb_false_iff%Z.eqb_eq.
  change (ZEROPAD + LEFT) with (Z.lor ZEROPAD LEFT).
  by rewrite Z.land_lor_distr_r, H, Z.lor_0_r.
Qed.

(** ** The layout of a printed number *)

Definition sign_chars (num type : Z) : list Z :=
  if has type SIGN && (s32 num <? 0) then [45]
  else if has type PLUS then [43] else if has type SPACE then [32] else [].

Definition prefix_chars (base type : Z) : list Z :=
  if has type SPECIAL then
    if base =? 8 then [48] else if base =? 16 then [48; digit (has type SMALL) 33] else []
  else [].

Definition magnitude (num type : Z) : Z :=
  if has type SIGN && (s32 num <? 0) then - s32 num else num.

Lemma u32_neg num : is_u32 num → s32 num < 0 → u32 (- num) = - s32 num.
Proof.
  intros Hn. unfold s32. rewrite (u32_small num) by done. zbool_step; [unfold is_u32 in *; lia|].
  intros _. unfold u32, is_u32 in *. dlia.
Qed.

(** The sign character as [number] keeps it: 0 for none. *)
Definition sign_of (num type : Z) : Z :=
  match sign_chars num type with c :: _ => c | [] => 0 end.

Lemma number_sign num type :
  is_u32 num →
  (if has type SIGN && (s32 num <? 0) then (45, u32 (- num))
   else ((if has type PLUS then 43 else if has type SPACE then 32 else 0), u32 num)) =
  (sign_of num type, magnitude num type).
Proof.
  intros Hn. unfold sign_of, sign_chars, magnitude.
  destruct (has type SIGN && (s32 num <? 0)) eqn:E.
  - apply andb_prop in E as [_ E%Z.ltb_lt]. by rewrite u32_neg.
  - rewrite u32_small by done. by destruct (has type PLUS), (has type SPACE).
Qed.

Lemma number_sign_size num type size :
  (if negb (sign_of num type =? 0) then size - 1 else size) =
    size - Z.of_nat (length (sign_chars num type)) ∧
  (if negb (sign_of num type =? 0) then [sign_of num type] else []) = sign_chars num type.
Proof.
  unfold sign_of, sign_chars.
  destruct (has type SIGN && (s32 num <? 0)), (has type PLUS), (has type SPACE);
    cbn; split; lia || done.
Qed.

Lemma number_prefix_size base type size :
  (if has type SPECIAL then
     if base =? 16 then size - 2 else if base =? 8 then size - 1 else size
   else size) = size - Z.of_nat (length (prefix_chars base type)).
Proof.
  unfold prefix_chars. destruct (has type SPECIAL); [|cbn; lia].
  destruct (Z.eqb_spec base 16) as [->|]; [cbn; lia|]. destruct (Z.eqb_spec base 8); cbn; lia.
Qed.

Lemma magnitude_u32 num type : is_u32 num → is_u32 (magnitude num type).
Proof.
  intros Hn. unfold magnitude. destruct (has type SIGN && (s32 num <? 0)) eqn:E; [|done].
  apply andb_prop in E as [_ E%Z.ltb_lt]. rewrite <- (u32_neg num) by done. apply u32_range.
Qed.

Lemma has_left_cleared t :
  has t LEFT = true → has (Z.land t (Z.lnot ZEROPAD)) (ZEROPAD + LEFT) = true.
Proof. unfold has. by rewrite <- Z.land_assoc. Qed.

(** [number] once its digits are known. *)
Lemma number_unfold num base size precision type :
  2 ≤ base ≤ 36 → is_u32 num →
  ∃ ds, val base ds = magnitude num type ∧ Forall (is_dig base (has type SMALL)) ds ∧ ds ≠ [] ∧
    (∀ k : nat, (0 < k)%nat → magnitude num type < base ^ Z.of_nat k → (length ds ≤ k)%nat) ∧
    let sgn := sign_chars num type in
    let pre := prefix_chars base type in
    let prec := Z.max precision (Z.of_nat (length ds)) in
    let space := size - Z.of_nat (length sgn) - Z.of_nat (length pre) - prec in
    number num base size precision type = Some (
      replicate (if has type LEFT || has type ZEROPAD then 0 else Z.to_nat space) 32 ++
      sgn ++ pre ++
      replicate (if has type LEFT then 0 else if has type ZEROPAD then Z.to_nat space else 0) 48 ++
      replicate (Z.to_nat (prec - Z.of_nat (length ds))) 48 ++ rev ds ++
      replicate (if has type LEFT then Z.to_nat space else 0) 32).
Proof.
  intros Hb Hn.
  pose proof (magnitude_u32 num type Hn) as Hmag. set (mag := magnitude num type) in *.
  destruct (number_tmp_spec (has type SMALL) mag base Hb Hmag) as (Hv&Hd&Hne&Hk).
  set (tmp := if mag =? 0 then [48] else number_digits 33 (has type SMALL) mag base []) in *.
  exists tmp. split_and!; try done. cbv zeta. unfold number.
  rewrite (proj2 (Z.ltb_ge base 2)), (proj2 (Z.ltb_ge 36 base)) by lia. cbn [orb].
  set (type' := if has type LEFT then Z.land type (Z.lnot ZEROPAD) else type).
  assert (HT : ∀ f, Z.land (Z.lnot ZEROPAD) f = f → has type' f = has type f).
  { intros f Hf. unfold type'. destruct (has type LEFT); [by apply has_clear_zeropad|done]. }
  rewrite !(HT SIGN), !(HT PLUS), !(HT SPACE), !(HT SPECIAL), !(HT LEFT) by reflexivity.
  rewrite number_sign by done. fold mag tmp. clearbody tmp.
  rewrite number_prefix_size. destruct (number_sign_size num type size) as [-> ->].
  fold (prefix_chars base type).
  replace (if precision <? Z.of_nat (length tmp) then Z.of_nat (length tmp) else precision)
    with (Z.max precision (Z.of_nat (length tmp))) by (zbool_step; lia).
  set (space := size - _ - _ - _).
  assert (Hneg : ∀ x, Z.to_nat (Z.min x 0 - 1) = 0%nat) by lia.
  unfold type'. destruct (has type LEFT) eqn:EL; cbn [negb orb].
  - rewrite has_left_cleared by done. done.
  - rewrite has_zeropad_left by done. destruct (has type ZEROPAD); cbn [negb];
      unfold pad; rewrite ?Hneg; cbn [replicate app]; rewrite ?app_nil_r; done.
Qed.

(** ** Reading numbers back *)

(** A decimal number with an optional minus sign. *)
Definition read_dec (s : list Z) : Z :=
  match s with
  | 45 :: s => - val 10 (rev s)
  | _ => val 10 (rev s)
  end.

Lemma is_dig_not_minus base small c : is_dig base small c → c ≠ 45.
Proof. intros (d&Hd&->). unfold digit. destruct small; zbool; lia. Qed.

Lemma s32_u32_id n : -2147483648 ≤ n < 2147483648 → s32 (u32 n) = n.
Proof. intros Hn. unfold s32. rewrite u32_idemp. unfold u32. zbool_step; dlia. Qed.

(** One conversion of the main loop. *)
Lemma vsprintf_percent fuel fmt args out st fl f1 w fl' f2 a2 p f3 a3 o f4 a4 st' :
  parse_flags fmt 0 = (fl, f1) → parse_width f1 fl args = Ret (w, fl', f2, a2) →
  parse_precision f2 a2 = Ret (p, f3, a3) →
  convert (parse_qualifier f3) fl' w p a3 (Z.of_nat (length out)) = Ret (o, f4, a4, st') →
  vsprintf_loop (S fuel) (37 :: fmt) args out st =
  vsprintf_loop fuel (tail f4) a4 (out ++ o) (st ++ st').
Proof. intros E1 E2 E3 E4. cbn [vsprintf_loop]. by rewrite E1, E2; cbn; rewrite E3; cbn; rewrite E4. Qed.

(** [%d] as a whole. *)
Lemma sprintf_d v o :
  number v 10 (-1) (-1) SIGN = Some o →
  sprintf (chars "%d") [AInt v] = Ret (o ++ [0], Z.of_nat (length o)).
Proof.
  intros E. unfold sprintf, vsprintf. change (chars "%d") with [37; 100].
  rewrite (vsprintf_percent _ [100] [AInt v] [] [] 0 [100] (-1) 0 [100] [AInt v] (-1) [100]
             [AInt v] o [100] [] []); [done..|].
  change (conv_number [AInt v] 10 (-1) (-1) SIGN ≫= (λ '(o, args), Ret (o, [100], args, [])) =
          Ret (o, [100], [], @nil (Z * Z))).
  unfold conv_number. cbn [arg_int mbind res_bind]. by rewrite E.
Qed.

(** ** Properties *)

(** The layout of every number [printk] prints, for every base from 2 to 36,
    width, precision and flags: blanks, sign, prefix, zeros, digits, blanks. The
    digits are those of the magnitude of the number; blanks are on one side
    only; and the length is the field width, or more when the sign, prefix and
    the digits (at least the precision) need more. *)
Theorem number_correct num base size precision type :
  2 ≤ base ≤ 36 → is_u32 num →
  ∃ out l z ds r,
    number num base size precision type = Some out ∧
    out = replicate l 32 ++ sign_chars num type ++ prefix_chars base type ++
          replicate z 48 ++ rev ds ++ replicate r 32 ∧
    val base ds = magnitude num type ∧ Forall (is_dig base (has type SMALL)) ds ∧ ds ≠ [] ∧
    (l = 0 ∨ r = 0)%nat ∧ precision ≤ Z.of_nat (z + length ds) ∧
    Z.of_nat (length out) =
      Z.max size (Z.of_nat (length (sign_chars num type) + length (prefix_chars base type)) +
                  Z.max precision (Z.of_nat (length ds))).
Proof.
  intros Hb Hn. destruct (number_unfold num base size precision type Hb Hn)
    as (ds&Hv&Hd&Hne&Hk&E). cbv zeta in E.
  set (sgn := sign_chars num type) in *. set (pre := prefix_chars base type) in *.
  set (prec := Z.max precision (Z.of_nat (length ds))) in *.
  set (space := size - Z.of_nat (length sgn) - Z.of_nat (length pre) - prec) in *.
  eexists _, (if has type LEFT || has type ZEROPAD then 0%nat else Z.to_nat space),
    ((if has type LEFT then 0 else if has type ZEROPAD then Z.to_nat space else 0) +
    Z.to_nat (prec - Z.of_nat (length ds)))%nat, ds,
    (if has type LEFT then Z.to_nat space else 0%nat).
  split; [exact E|]. split; [rewrite replicate_add, <- !app_assoc; reflexivity|].
  split; [done|]. split; [done|]. split; [done|].
  split; [destruct (has type LEFT); [by left|by right]|].
  split; [destruct (has type LEFT), (has type ZEROPAD); unfold prec; lia|].
  rewrite !length_app, !length_replicate, length_rev.
  destruct (has type LEFT), (has type ZEROPAD); cbn [orb]; unfold space, prec; lia.
Qed.

Lemma number_correct_witness :
  ∃ out, number 0xBEEF 16 8 (-1) ZEROPAD = Some out ∧ length out = 8%nat.
Proof.
  destruct (number_correct 0xBEEF 16 8 (-1) ZEROPAD) as (out&l&z&ds&r&E&_&_&_&_&_&_&_);
    [lia|unfold is_u32; lia|].
  exists out. split; [exact E|]. injection E as <-. reflexivity.
Defined.

(** C35: printing an [int] with [%d] and reading it back gives the [int], for all
    2^32 of them (the most negative one included), and [sprintf] returns the
    number of characters before the NUL. *)
Theorem sprintf_decimal_roundtrip n :
  -2147483648 ≤ n < 2147483648 →
  ∃ out, sprintf (chars "%d") [AInt (u32 n)] = Ret (out ++ [0], Z.of_nat (length out)) ∧
         read_dec out = n.
Proof.
  intros Hn.
  destruct (number_unfold (u32 n) 10 (-1) (-1) SIGN) as (ds&Hv&Hd&Hne&_&E);
    [lia|apply u32_range|].
  cbv zeta in E. eexists. split; [apply sprintf_d, E|]. clear E.
  assert (Hsp : ∀ a b, 0 ≤ a → Z.to_nat (-1 - a - 0 - Z.max (-1) b) = 0%nat) by lia.
  change (has SIGN LEFT || has SIGN ZEROPAD) with false. change (has SIGN LEFT) with false.
  change (has SIGN ZEROPAD) with false. change (prefix_chars 10 SIGN) with (@nil Z).
  cbn [length app Z.of_nat replicate].
  rewrite Hsp by lia. replace (Z.to_nat (Z.max (-1) (Z.of_nat (length ds)) - Z.of_nat (length ds)))
    with 0%nat by lia.
  cbn [replicate app]. rewrite app_nil_r. unfold sign_chars, magnitude in *.
  rewrite s32_u32_id in * by done. change (has SIGN SIGN) with true in *. cbn [andb] in *.
  change (has SIGN PLUS) with false. change (has SIGN SPACE) with false.
  destruct (Z.ltb_spec n 0) as [Hneg|Hpos]; cbn [app].
  - unfold read_dec. rewrite rev_involutive, Hv. lia.
  - rewrite u32_small in Hv by (unfold is_u32; lia). unfold read_dec.
    destruct (rev ds) as [|c l] eqn:Er; [by apply (f_equal (@rev Z)) in Er; rewrite rev_involutive in Er|].
    assert (Hc : c ≠ 45).
    { apply (is_dig_not_minus 10 (has SIGN SMALL)). rewrite Forall_forall in Hd. apply Hd.
      apply list_elem_of_In, in_rev. rewrite Er. by left. }
    assert (Hval : val 10 (rev (c :: l)) = n) by (rewrite <- Er, rev_involutive; done).
    destruct c as [|c|c]; try done. repeat (destruct c as [c|c|]; try done).
Qed.

Lemma sprintf_decimal_roundtrip_witness :
  ∃ out, sprintf (chars "%d") [AInt (u32 (-2147483648))] = Ret (out ++ [0], Z.of_nat (length out)) ∧
         read_dec out = -2147483648.
Proof. apply (sprintf_decimal_roundtrip (-2147483648)). lia. Defined.


(** A [*] field width takes its argument but is not skipped in the format: the
    conversion that follows is not done; [%*d] prints itself. *)
Theorem star_width_not_skipped w n :
  0 ≤ w < 2147483648 →
  sprintf (chars "%*d") [AInt w; AInt n] = Ret (chars "%*d" ++ [0], 3).
Proof.
  intros Hw. unfold sprintf, vsprintf. change (chars "%*d") with [37; 42; 100].
  assert (E : (s32 w <? 0) = false).
  { unfold s32. rewrite u32_small by (unfold is_u32; lia). zbool; lia. }
  rewrite (vsprintf_percent _ [42; 100] [AInt w; AInt n] [] [] 0 [42; 100] (s32 w) 0
             [42; 100] [AInt n] (-1) [42; 100] [AInt n] [37; 42] [42; 100] [AInt n] []);
    [done|done| |done|done].
  unfold parse_width. change (is_digit (cur [42; 100])) with false.
  change (cur [42; 100] =? 42) with true. cbn [arg_int mbind res_bind]. by rewrite E.
Qed.

Lemma star_width_not_skipped_witness :
  sprintf (chars "%*d") [AInt 5; AInt 7] = Ret (chars "%*d" ++ [0], 3).
Proof. apply (star_width_not_skipped 5 7). lia. Defined.
