(* ===== verification/BBuf.v ===== *)
(** * Block buffers: [src/bbuf.c], [include/bbuf.h] and the block device record of
    [include/device.h]

    A block device keeps a list of buffers in order of use and a queue of the
    buffers whose content has still to be written. A buffer is its address; the
    two lists are sequences of addresses (what the functions of [list.h] do to
    such sequences is the subject of [ListProofs.v]).

    Every function of [bbuf.c] takes the mutex of the device around each of its
    accesses; the model runs one call at a time up to the point where it waits for a
    buffer another thread holds. What a device does is an instance of
    [BlockOps]. *)
From S2P Require Import Prelude MM FrameSource Heap Threads.

Definition BLOCK_SIZE : Z := 512.
Definition MAX_BGET_RETRY : nat := 1.

Definition B_BUSY : Z := 0x1.
Definition B_VALID : Z := 0x2.
Definition B_DIRTY : Z := 0x4.
Definition B_UNUSED : Z := 0x8.

(** [buf_cache_t]; its [list] and [io] heads are in the sequences of the device.
    [wq] holds the waiting threads. *)
Record buf_cache_t : Type := Buf {
  bdev : Z;
  blkno : Z;
  flags : Z;
  wq : list Z;
  usr : Z;
  data : list Z;
}.

(** [flags & f] as a condition. *)
Definition flag (f : Z) (b : buf_cache_t) : bool := negb (Z.land (flags b) f =? 0).

Definition set_flags (v : Z) (b : buf_cache_t) : buf_cache_t :=
  Buf (bdev b) (blkno b) v (wq b) (usr b) (data b).
Definition set_wq (l : list Z) (b : buf_cache_t) : buf_cache_t :=
  Buf (bdev b) (blkno b) (flags b) l (usr b) (data b).
Definition set_usr (t : Z) (b : buf_cache_t) : buf_cache_t :=
  Buf (bdev b) (blkno b) (flags b) (wq b) t (data b).
Definition set_data (l : list Z) (b : buf_cache_t) : buf_cache_t :=
  Buf (bdev b) (blkno b) (flags b) (wq b) (usr b) l.

(** [flags |= f] and [flags &= ~f] *)
Definition raise (f : Z) (b : buf_cache_t) : buf_cache_t := set_flags (Z.lor (flags b) f) b.
Definition clear (f : Z) (b : buf_cache_t) : buf_cache_t :=
  set_flags (Z.land (flags b) (Z.lnot f)) b.

(** [blk_dev_ops_t]: the two entry points of a device, and what the buffer layer
    relies on. [bd_block d k] is the content of block [k]; [None] when the
    device has no such block. *)
Class BlockOps (D : Type) : Type := {
  read_block : D → buf_cache_t → res (Z * buf_cache_t);
  write_block : D → buf_cache_t → res (Z * D);
  bd_ok : D → Prop;
  bd_block : D → Z → option (list Z);
  bd_block_length d k c : bd_ok d → bd_block d k = Some c → length c = Z.to_nat BLOCK_SIZE;
  read_block_ok d b c :
    bd_ok d → bdev b ≠ NULL → flag B_DIRTY b = false → 0 ≤ blkno b →
    bd_block d (blkno b) = Some c → length (data b) = Z.to_nat BLOCK_SIZE →
    read_block d b = Ret (OK, set_data c b);
  read_block_bad d b :
    bd_ok d → bdev b ≠ NULL → flag B_DIRTY b = false → 0 ≤ blkno b →
    bd_block d (blkno b) = None → ∃ e, read_block d b = Ret (e, b) ∧ e ≠ OK;
  write_block_ok d b c :
    bd_ok d → bdev b ≠ NULL → flag B_DIRTY b = true → 0 ≤ blkno b →
    bd_block d (blkno b) = Some c → length (data b) = Z.to_nat BLOCK_SIZE →
    ∃ d', write_block d b = Ret (OK, d') ∧ bd_ok d' ∧
      ∀ k, 0 ≤ k → bd_block d' k = if k =? blkno b then Some (data b) else bd_block d k;
  write_block_bad d b :
    bd_ok d → bdev b ≠ NULL → flag B_DIRTY b = true → 0 ≤ blkno b →
    bd_block d (blkno b) = None → ∃ e, write_block d b = Ret (e, d) ∧ e ≠ OK;
}.

Section Buffers.
Context {D : Type} `{BlockOps D}.

(** [self] is the address of the [blk_dev_t]. *)
Variable self : Z.

(** [blk_dev_t] with its buffers, and the statuses of the threads. *)
Record blk_dev_t : Type := BlkDev {
  meta : D;
  bufs : Z → buf_cache_t;
  b_list : list Z;
  b_io : list Z;
  sts : statuses;
}.

Definition set_meta (d : D) (s : blk_dev_t) : blk_dev_t :=
  BlkDev d (bufs s) (b_list s) (b_io s) (sts s).
Definition set_buf (x : Z) (b : buf_cache_t) (s : blk_dev_t) : blk_dev_t :=
  BlkDev (meta s) (<[x := b]> (bufs s)) (b_list s) (b_io s) (sts s).
Definition upd_buf (x : Z) (g : buf_cache_t → buf_cache_t) (s : blk_dev_t) : blk_dev_t :=
  set_buf x (g (bufs s x)) s.
Definition set_list (l : list Z) (s : blk_dev_t) : blk_dev_t :=
  BlkDev (meta s) (bufs s) l (b_io s) (sts s).
Definition set_io (l : list Z) (s : blk_dev_t) : blk_dev_t :=
  BlkDev (meta s) (bufs s) (b_list s) l (sts s).
Definition set_sts (st : statuses) (s : blk_dev_t) : blk_dev_t :=
  BlkDev (meta s) (bufs s) (b_list s) (b_io s) st.

(** ** The queue of dirty buffers *)

(** [queue_buffer]: a buffer already queued is moved to the tail. *)
Definition queue_buffer (x : Z) (s : blk_dev_t) : blk_dev_t :=
  if decide (x ∈ b_io s) then set_io (filter (λ y, y ≠ x) (b_io s) ++ [x]) s
  else set_io (b_io s ++ [x]) s.

(** [dequeue_buffer] *)
Definition dequeue_buffer (x : Z) (s : blk_dev_t) : blk_dev_t :=
  set_io (filter (λ y, y ≠ x) (b_io s)) s.

(** [cache_buffer] *)
Definition cache_buffer (x : Z) (s : blk_dev_t) : blk_dev_t := queue_buffer x s.

(** [list_for_each_entry_safe] over the queue in [sync_buffer]: the body only
    removes the entry it is at. *)
Fixpoint sync_loop (l : list Z) (rv : Z) (s : blk_dev_t) : res (Z * blk_dev_t) :=
  match l with
  | [] => Ret (rv, s)
  | x :: l =>
      if flag B_DIRTY (bufs s x) then
        '(status, d) ← write_block (meta s) (bufs s x);
        let s := set_meta d s in
        if status =? OK
        then sync_loop l rv (upd_buf x (clear B_DIRTY) (dequeue_buffer x s))
        else sync_loop l (rv + 1) s
      else sync_loop l rv s
  end.

(** [sync_buffer] *)
Definition sync_buffer (s : blk_dev_t) : res (Z * blk_dev_t) := sync_loop (b_io s) 0 s.

(** [update_buffer] *)
Definition update_buffer (x : Z) (s : blk_dev_t) : res (Z * blk_dev_t) :=
  '(status, b) ← read_block (meta s) (bufs s x);
  Ret (status, set_buf x b s).

(** ** Waiting *)

(** [wait_buffer] up to its [schedule()] *)
Definition wait_buffer (cur x : Z) (s : blk_dev_t) : blk_dev_t :=
  let s := upd_buf x (λ b, set_wq (wq b ++ [cur]) b) s in
  set_sts (make_sleep cur (sts s)) s.

(** [notify_buffer]; its result is not set when nobody waits. *)
Definition notify_buffer (x : Z) (s : blk_dev_t) : option Z * blk_dev_t :=
  match wq (bufs s x) with
  | [] => (None, s)
  | t :: l =>
      let s := upd_buf x (set_wq l) s in
      let '(rv, st) := wake_up t (sts s) in
      (Some rv, set_sts st s)
  end.

(** ** [get_buffer] and [release_buffer] *)

(** The first loop of [get_buffer]. *)
Fixpoint find_cached (l : list Z) (k : Z) (s : blk_dev_t) : option Z :=
  match l with
  | [] => None
  | x :: l =>
      let b := bufs s x in
      if flag B_UNUSED b then find_cached l k s
      else if (bdev b =? self) && (blkno b =? k) then Some x
      else find_cached l k s
  end.

(** The second loop, over the list in reverse order. *)
Fixpoint find_free (l : list Z) (s : blk_dev_t) : option Z :=
  match l with
  | [] => None
  | x :: l =>
      let b := bufs s x in
      if (negb (flag B_BUSY b) && negb (flag B_DIRTY b)) || flag B_UNUSED b then Some x
      else find_free l s
  end.

(** A call that is done, or that sleeps until buffer [x] is released and then
    goes on with [tries] retries left. *)
Inductive call (A : Type) : Type :=
  | Done (a : A)
  | Waits (x : Z) (tries : nat).
Arguments Done {A} a.
Arguments Waits {A} x tries.

(** [get_buffer], from its [retry] label with [tries] retries left. *)
Fixpoint get_buffer (tries : nat) (cur k : Z) (s : blk_dev_t) : res (call Z * blk_dev_t) :=
  match find_cached (b_list s) k s with
  | Some x =>
      if negb (flag B_BUSY (bufs s x)) && (usr (bufs s x) =? NULL)
      then Ret (Done x, upd_buf x (λ b, set_usr cur (raise B_BUSY b)) s)
      else Ret (Waits x tries, wait_buffer cur x s)
  | None =>
      match find_free (rev (b_list s)) s with
      | Some x =>
          Ret (Done x, upd_buf x (λ b, Buf self k B_BUSY (wq b) cur (data b)) s)
      | None =>
          match tries with
          | S tries => '(_, s) ← sync_buffer s; get_buffer tries cur k s
          | O => Panic "No buffers available"
          end
      end
  end.

(** [release_buffer] *)
Definition release_buffer (cur x : Z) (s : blk_dev_t) : res (option Z * blk_dev_t) :=
  _ ← ASSERT (usr (bufs s x) =? cur) "buf->usr == get_curr_thread()";
  let s := set_list (x :: filter (λ y, y ≠ x) (b_list s)) s in
  let s := upd_buf x (λ b, set_usr NULL (clear B_BUSY b)) s in
  Ret (notify_buffer x s).

(** ** The calls of the layer *)

(** [bdev_read_buffer] between [get_buffer] and the copy to the caller; the
    boolean is [false] for [goto sync_failed]. *)
Definition read_fill (x : Z) (s : blk_dev_t) : res (bool * Z * blk_dev_t) :=
  if negb (flag B_VALID (bufs s x)) then
    '(rv, s) ← (if flag B_DIRTY (bufs s x) then sync_buffer s else Ret (OK, s));
    if negb (rv =? OK) then Ret (false, OK, s)
    else
      '(status, s) ← update_buffer x s;
      Ret (true, status, if status =? OK then upd_buf x (raise B_VALID) s else s)
  else Ret (true, OK, s).

(** [bdev_read_buffer] once it has its buffer: the status and what is copied to
    the caller (nothing when the sync fails). *)
Definition read_with (cur x : Z) (s : blk_dev_t) : res (Z * option (list Z) * blk_dev_t) :=
  '(sync, status, s) ← read_fill x s;
  if sync : bool then
    let out := data (bufs s x) in
    '(_, s) ← release_buffer cur x s;
    Ret (status, Some out, s)
  else
    '(_, s) ← release_buffer cur x s;
    Ret (-2, None, s).

Definition bdev_read_buffer (tries : nat) (cur k : Z) (s : blk_dev_t)
  : res (call (Z * option (list Z)) * blk_dev_t) :=
  '(g, s) ← get_buffer tries cur k s;
  match g with
  | Waits x tries => Ret (Waits x tries, s)
  | Done x =>
      '(status, out, s) ← read_with cur x s;
      Ret (Done (status, out), s)
  end.

(** [bdev_write_buffer] once it has its buffer *)
Definition write_with (cur x : Z) (src : list Z) (s : blk_dev_t) : res (Z * blk_dev_t) :=
  let s := upd_buf x (set_data src) s in
  let s := upd_buf x (raise B_DIRTY) s in
  let s := cache_buffer x s in
  '(_, s) ← release_buffer cur x s;
  Ret (OK, s).

Definition bdev_write_buffer (tries : nat) (cur k : Z) (src : list Z) (s : blk_dev_t)
  : res (call Z * blk_dev_t) :=
  '(g, s) ← get_buffer tries cur k s;
  match g with
  | Waits x tries => Ret (Waits x tries, s)
  | Done x =>
      '(status, s) ← write_with cur x src s;
      Ret (Done status, s)
  end.

(** [bdev_sync_buffer] *)
Definition bdev_sync_buffer (s : blk_dev_t) : res (Z * blk_dev_t) := sync_buffer s.

(** ** [bdev_init_buffer_cache] *)

(** [sizeof(buf_cache_t)]: four words, three list heads and the block. *)
Definition BUF_CACHE_SIZE : Z := 4 * 4 + 3 * 8 + BLOCK_SIZE.

(** A buffer after its initialization. *)
Definition fresh_buffer : buf_cache_t :=
  Buf self 0 B_UNUSED [] NULL (replicate (Z.to_nat BLOCK_SIZE) 0).

Fixpoint bdev_init_buffer_cache {F} `{FrameSource F} (blks : nat) (heap : heap_desc_t)
  (km : kmem F) (s : blk_dev_t) : res (Z * kmem F * blk_dev_t) :=
  match blks with
  | O => Ret (OK, km, s)
  | S blks =>
      '(buf, km) ← kmalloc BUF_CACHE_SIZE heap km;
      if buf =? NULL then Ret (-1, km, s)
      else bdev_init_buffer_cache blks heap km
             (set_list (b_list s ++ [buf]) (set_buf buf fresh_buffer s))
  end.
End Buffers.

Arguments blk_dev_t D : clear implicits.
Arguments Done {A} a.
Arguments Waits {A} x tries.
