(* ===== verification/Ramfs.v ===== *)
(** * The RAM disk: [src/ramfs.c] and [include/ramfs.h]

    The block device whose blocks are the bytes of ten page frames. It is an
    instance of [BlockOps], the interface the buffer layer of [BBuf.v] is proved
    against. *)
From S2P Require Import Prelude MM MMProofs FrameSource Heap HeapProofs CString Threads BBuf.

Definition RAMFS_PAGES : Z := 10.
Definition RAMFS_BUF_BLKS : nat := 100.

(** [dev_ramfs_t] ([ramhead]), the two fields of the [blk_dev_t] that the driver
    uses, and the byte memory. *)
Record dev_ramfs_t : Type := Ramfs {
  ramhead : Z;
  block_size : Z;
  total_blks : Z;
  ram : mem;
}.

(** [memcpy] from the memory into a buffer and back. *)
Definition load (m : mem) (p n : Z) : list Z := (λ i, m (u32 (p + i))) <$> seqZ 0 n.

Fixpoint store (m : mem) (p : Z) (l : list Z) : mem :=
  match l with
  | [] => m
  | b :: l => store (<[p := b]> m) (ptr_inc p) l
  end.

(** [ramfs_validate_rw] *)
Definition ramfs_validate_rw (r : dev_ramfs_t) (b : buf_cache_t) : Z :=
  if bdev b =? NULL then -1
  else if total_blks r <=? blkno b then -1
  else OK.

(** [ramfs_readwrite] *)
Definition ramfs_readwrite (rw : bool) (r : dev_ramfs_t) (b : buf_cache_t)
  : res (Z * dev_ramfs_t * buf_cache_t) :=
  _ ← ASSERT (negb (bdev b =? NULL)) "bdev != NULL";
  if negb (ramfs_validate_rw r b =? OK) then Ret (-1, r, b)
  else
    let seek := u32 (ramhead r + u32 (block_size r * blkno b)) in
    if rw then
      let bytes := load (ram r) seek (block_size r) in
      Ret (OK, r, set_data (bytes ++ drop (length bytes) (data b)) b)
    else
      let bytes := take (Z.to_nat (block_size r)) (data b) in
      Ret (OK, Ramfs (ramhead r) (block_size r) (total_blks r) (store (ram r) seek bytes), b).

(** [ramfs_write_block] *)
Definition ramfs_write_block (r : dev_ramfs_t) (b : buf_cache_t) : res (Z * dev_ramfs_t) :=
  _ ← ASSERT (flag B_DIRTY b) "buf->flags & B_DIRTY";
  '(status, r, _) ← ramfs_readwrite false r b;
  Ret (status, r).

(** [ramfs_read_block] *)
Definition ramfs_read_block (r : dev_ramfs_t) (b : buf_cache_t) : res (Z * buf_cache_t) :=
  _ ← ASSERT (negb (flag B_DIRTY b)) "!(buf->flags & B_DIRTY)";
  '(status, _, b) ← ramfs_readwrite true r b;
  Ret (status, b).

(** ** The driver meets the interface *)

Record ramfs_ok (r : dev_ramfs_t) : Prop := {
  ro_size : block_size r = BLOCK_SIZE;
  ro_head : 0 ≤ ramhead r;
  ro_total : 0 ≤ total_blks r;
  ro_top : ramhead r + BLOCK_SIZE * total_blks r < 4294967296;
}.

Definition ramfs_block (r : dev_ramfs_t) (k : Z) : option (list Z) :=
  if (0 <=? k) && (k <? total_blks r)
  then Some (load (ram r) (ramhead r + BLOCK_SIZE * k) BLOCK_SIZE) else None.

Lemma load_length m p n : length (load m p n) = Z.to_nat n.
Proof. unfold load. by rewrite length_fmap, length_seqZ. Qed.

Lemma store_spec l : ∀ m p,
  0 ≤ p → p + Z.of_nat (length l) < 4294967296 →
  ∀ a, store m p l a = if decide (p ≤ a < p + Z.of_nat (length l))
                       then default 0 (l !! Z.to_nat (a - p)) else m a.
Proof.
  induction l as [|b l IH]; intros m p Hp Hl a; cbn [store length] in *.
  { by rewrite decide_False by lia. }
  unfold ptr_inc. rewrite u32_small by (unfold is_u32; lia). rewrite IH by lia.
  destruct (decide (a = p)) as [->|Hne].
  - rewrite decide_False, decide_True by lia. rewrite Z.sub_diag. apply fn_lookup_insert.
  - destruct (decide (p + 1 ≤ a < p + 1 + Z.of_nat (length l))).
    + rewrite decide_True by lia.
      by replace (Z.to_nat (a - p)) with (S (Z.to_nat (a - (p + 1)))) by lia.
    + rewrite decide_False by lia. by rewrite fn_lookup_insert_ne.
Qed.

Lemma load_store m p l :
  0 ≤ p → p + Z.of_nat (length l) < 4294967296 →
  load (store m p l) p (Z.of_nat (length l)) = l.
Proof.
  intros Hp Hl. apply list_eq. intros i. unfold load. rewrite list_lookup_fmap.
  destruct (decide (i < length l)%nat) as [Hi|Hi].
  - rewrite lookup_seqZ_lt by lia. cbn. rewrite Z.add_0_l.
    rewrite u32_small by (unfold is_u32; lia). rewrite store_spec by done.
    rewrite decide_True by lia. replace (Z.to_nat (p + Z.of_nat i - p)) with i by lia.
    destruct (lookup_lt_is_Some_2 l i Hi) as [c ->]. done.
  - rewrite lookup_seqZ_ge, lookup_ge_None_2 by lia. done.
Qed.

Lemma load_store_apart m p l q n :
  0 ≤ p → p + Z.of_nat (length l) < 4294967296 → 0 ≤ q → q + n < 4294967296 →
  q + n ≤ p ∨ p + Z.of_nat (length l) ≤ q →
  load (store m p l) q n = load m q n.
Proof.
  intros Hp Hl Hq Hn Ha. unfold load. apply list_fmap_ext. intros i j Hj.
  apply list_elem_of_lookup_2, elem_of_seqZ in Hj.
  rewrite u32_small by (unfold is_u32; lia). rewrite store_spec by done.
  by rewrite decide_False by lia.
Qed.

Section Instance_.
Variables (r : dev_ramfs_t) (b : buf_cache_t).
Hypothesis Hok : ramfs_ok r.
Hypothesis Hdev : bdev b ≠ NULL.
Hypothesis Hk : 0 ≤ blkno b.

Lemma ramfs_unfold rw :
  ramfs_readwrite rw r b =
  if total_blks r <=? blkno b then Ret (-1, r, b)
  else
    let seek := ramhead r + BLOCK_SIZE * blkno b in
    if rw then
      Ret (OK, r, set_data (load (ram r) seek BLOCK_SIZE ++ drop (Z.to_nat BLOCK_SIZE) (data b)) b)
    else Ret (OK, Ramfs (ramhead r) (block_size r) (total_blks r)
                    (store (ram r) seek (take (Z.to_nat BLOCK_SIZE) (data b))), b).
Proof.
  unfold ramfs_readwrite, ramfs_validate_rw. rewrite (proj2 (Z.eqb_neq _ _) Hdev).
  cbn [negb ASSERT mbind res_bind].
  destruct (Z.leb_spec (total_blks r) (blkno b)) as [|Hlt]; [done|].
  change (OK =? OK) with true. cbn [negb]. cbv zeta. rewrite load_length, (ro_size _ Hok).
  destruct Hok as [_ H1 H2 H3]. unfold BLOCK_SIZE in *.
  rewrite (u32_small (512 * blkno b)), u32_small by (unfold is_u32; lia). done.
Qed.

Lemma ramfs_in_range c :
  ramfs_block r (blkno b) = Some c →
  blkno b < total_blks r ∧ c = load (ram r) (ramhead r + BLOCK_SIZE * blkno b) BLOCK_SIZE.
Proof. unfold ramfs_block. zbool. naive_solver. Qed.

Lemma ramfs_out_of_range : ramfs_block r (blkno b) = None → total_blks r ≤ blkno b.
Proof. unfold ramfs_block. zbool. Qed.
End Instance_.

Lemma ramfs_write_ok r b c :
  ramfs_ok r → bdev b ≠ NULL → flag B_DIRTY b = true → 0 ≤ blkno b →
  ramfs_block r (blkno b) = Some c → length (data b) = Z.to_nat BLOCK_SIZE →
  ∃ r', ramfs_write_block r b = Ret (OK, r') ∧ ramfs_ok r' ∧
    ∀ k, 0 ≤ k → ramfs_block r' k = if k =? blkno b then Some (data b) else ramfs_block r k.
Proof.
  intros Hok Hdev Hd Hk Hb Hl. apply ramfs_in_range in Hb as [Hlt _].
  unfold ramfs_write_block. rewrite Hd, ramfs_unfold by done. cbn [ASSERT mbind res_bind].
  rewrite (proj2 (Z.leb_gt _ _) Hlt). cbv zeta. rewrite take_ge by lia.
  set (m' := store _ _ _). eexists. split; [done|]. pose proof Hok as [H0 H1 H2 H3].
  split; [by split|]. intros k Hk0. unfold ramfs_block; cbn [total_blks ram ramhead].
  unfold BLOCK_SIZE in *. destruct (Z.leb_spec 0 k); [|lia]. cbn [andb].
  destruct (Z.eqb_spec k (blkno b)) as [->|Hne].
  - rewrite (proj2 (Z.ltb_lt _ _) Hlt). f_equal.
    replace 512 with (Z.of_nat (length (data b))) at 2 by lia. apply load_store; lia.
  - destruct (Z.ltb_spec k (total_blks r)); [|done]. f_equal.
    apply load_store_apart; rewrite ?Hl; lia.
Qed.

#[export] Program Instance ramfs_dev_ops : BlockOps dev_ramfs_t := {|
  read_block := ramfs_read_block;
  write_block := ramfs_write_block;
  bd_ok := ramfs_ok;
  bd_block := ramfs_block;
|}.
Next Obligation.
  intros r k c _. unfold ramfs_block. case_match; [|done]. intros [= <-]. apply load_length.
Qed.
Next Obligation.
  intros r b c Hok Hdev Hd Hk Hb Hl. destruct (ramfs_in_range _ _ _ Hb) as [Hlt ->].
  unfold ramfs_read_block. rewrite Hd, ramfs_unfold by done. cbn [negb ASSERT mbind res_bind].
  rewrite (proj2 (Z.leb_gt _ _) Hlt). by rewrite drop_ge, app_nil_r by lia.
Qed.
Next Obligation.
  intros r b Hok Hdev Hd Hk Hb%ramfs_out_of_range; [|done].
  unfold ramfs_read_block. rewrite Hd, ramfs_unfold by done. cbn [negb ASSERT mbind res_bind].
  rewrite (proj2 (Z.leb_le _ _) Hb). by exists (-1).
Qed.
Next Obligation. apply ramfs_write_ok. Qed.
Next Obligation.
  intros r b Hok Hdev Hd Hk Hb%ramfs_out_of_range; [|done].
  unfold ramfs_write_block. rewrite Hd, ramfs_unfold by done. cbn [negb ASSERT mbind res_bind].
  rewrite (proj2 (Z.leb_le _ _) Hb). by exists (-1).
Qed.

(** ** [init_ramfs] *)

(** [sizeof(dev_ramfs_t)]: a list head, a pointer and a mutex. *)
Definition DEV_RAMFS_SIZE : Z := 8 + 4 + 28.

(** [init_ramfs] on the device [self], whose [blk_dev_t] is [blk]: the status, the
    kernel memory and the device as it is left. The frames come from [mm_phys], the
    allocator that the heap draws from too. *)
Definition init_ramfs (self : Z) (heap : heap_desc_t) (km : kmem (mmc_t * mem))
  (blk : blk_dev_t dev_ramfs_t) : res (Z * kmem (mmc_t * mem) * blk_dev_t dev_ramfs_t) :=
  _ ← ASSERT (negb (self =? NULL)) "blk_dev != NULL";
  '(fs_head, f) ← mm_alloc (k_frames km) RAMFS_PAGES;
  let km := set_frames f km in
  if fs_head =? NULL then Ret (-2, km, blk)
  else
    let r := meta blk in
    let total := RAMFS_PAGES * PAGE_SIZE / block_size r in
    let blk := set_meta (Ramfs (ramhead r) (block_size r) total (ram r)) blk in
    '(err, km, blk) ← bdev_init_buffer_cache self RAMFS_BUF_BLKS heap km blk;
    let give_back km :=
      '(_, c, m) ← free_frames (k_frames km).2 (k_frames km).1 fs_head;
      Ret (set_frames (c, m) km) in
    if negb (err =? 0) then km ← give_back km; Ret (err, km, blk)
    else
      '(ramfs, km) ← kmalloc DEV_RAMFS_SIZE heap km;
      if ramfs =? NULL then km ← give_back km; Ret (-3, km, blk)
      else
        let r := meta blk in
        Ret (OK, km, set_meta (Ramfs fs_head (block_size r) (total_blks r) (ram r)) blk).
