(* ===== verification/BBufProofs.v ===== *)
(** * The block buffer layer is transparent

    Whatever is cached, read, evicted or still unwritten, the calls of [bbuf.c]
    behave like reads and writes of one array of blocks. *)
From S2P Require Import Prelude MM MMProofs FrameSource Heap HeapProofs Threads BBuf Ramfs.

(** ** Flags *)

Definition idle_flags : list Z := [0; 2; 4; 6; 8].
Definition held_flags : list Z := [1; 3; 5; 7].

(** Case analysis on a flag word known to be one of a list. *)
Ltac flag_cases H :=
  repeat (apply elem_of_cons in H as [H|H]); [..|by apply elem_of_nil in H].

Section Transparent.
Context {D : Type} `{BO : BlockOps D}.
Variables self cur : Z.
Implicit Types (s : blk_dev_t D) (x y k : Z) (h : option Z).

Abbreviation dirty s x := (flag B_DIRTY (bufs s x)).
Abbreviation unused s x := (flag B_UNUSED (bufs s x)).
Abbreviation valid s x := (flag B_VALID (bufs s x)).

(** ** The invariant *)

(** Buffer [x], held by thread [cur] when [h = Some x]. *)
Record buf_ok h s x : Prop := {
  ok_dev : bdev (bufs s x) = self;
  ok_null : self ≠ NULL;
  ok_blkno : 0 ≤ blkno (bufs s x);
  ok_wq : wq (bufs s x) = [];
  ok_data : length (data (bufs s x)) = Z.to_nat BLOCK_SIZE;
  ok_held : if decide (h = Some x) then flags (bufs s x) ∈ held_flags ∧ usr (bufs s x) = cur
            else flags (bufs s x) ∈ idle_flags ∧ usr (bufs s x) = NULL;
  ok_queued : x ∈ b_io s ↔ dirty s x = true;
  ok_dirty : dirty s x = true → is_Some (bd_block (meta s) (blkno (bufs s x)));
  ok_valid : valid s x = true → dirty s x = false →
             bd_block (meta s) (blkno (bufs s x)) = Some (data (bufs s x));
}.

Record cache_inv h s : Prop := {
  inv_dev : bd_ok (meta s);
  inv_list : NoDup (b_list s);
  inv_some : b_list s ≠ [];
  inv_io : NoDup (b_io s);
  inv_sub : ∀ x, x ∈ b_io s → x ∈ b_list s;
  inv_held : ∀ x, h = Some x → x ∈ b_list s;
  inv_buf : ∀ x, x ∈ b_list s → buf_ok h s x;
  inv_unique : ∀ x y, x ∈ b_list s → y ∈ b_list s → unused s x = false → unused s y = false →
               blkno (bufs s x) = blkno (bufs s y) → x = y;
}.

(** What the device will hold once the queue is written. *)
Definition pending (l : list Z) s k : option (list Z) :=
  foldr (λ x c, if blkno (bufs s x) =? k then Some (data (bufs s x)) else c)
    (bd_block (meta s) k) l.

Definition content s k : option (list Z) := pending (b_io s) s k.

Definition same_content s s' : Prop := ∀ k, 0 ≤ k → content s' k = content s k.

Lemma pending_miss l s k :
  (∀ x, x ∈ l → blkno (bufs s x) ≠ k) → pending l s k = bd_block (meta s) k.
Proof.
  induction l as [|x l IH]; intros Hl; [done|]. cbn.
  rewrite (proj2 (Z.eqb_neq _ _)) by (apply Hl; left). apply IH. intros y Hy. apply Hl. by right.
Qed.

Lemma pending_hit l s x :
  x ∈ l → (∀ y, y ∈ l → blkno (bufs s y) = blkno (bufs s x) → y = x) →
  pending l s (blkno (bufs s x)) = Some (data (bufs s x)).
Proof.
  induction l as [|y l IH]; intros Hx Hu; [by apply elem_of_nil in Hx|]. cbn.
  destruct (Z.eqb_spec (blkno (bufs s y)) (blkno (bufs s x))) as [E|Hne].
  - rewrite (Hu y) by (done || left). done.
  - apply elem_of_cons in Hx as [->|Hx]; [done|]. apply IH; [done|].
    intros z Hz. apply Hu. by right.
Qed.

Lemma pending_ext l s s' k :
  (∀ x, x ∈ l → blkno (bufs s' x) = blkno (bufs s x) ∧ data (bufs s' x) = data (bufs s x)) →
  bd_block (meta s') k = bd_block (meta s) k → pending l s' k = pending l s k.
Proof.
  intros Hl Hd. unfold pending in *. induction l as [|x l IH]; [done|]. cbn.
  destruct (Hl x) as [-> ->]; [left|]. rewrite IH; [done|]. intros y Hy. apply Hl. by right.
Qed.

(** ** Consequences of the invariant *)

Lemma buf_dev h s x : buf_ok h s x → bdev (bufs s x) ≠ NULL.
Proof. intros Hb. rewrite (ok_dev _ _ _ Hb). apply Hb. Qed.

Lemma dirty_used h s x : buf_ok h s x → dirty s x = true → unused s x = false.
Proof.
  intros [? ? ? ? ? Hh _ _ _]. unfold flag.
  case_decide; destruct Hh as [Hf _]; flag_cases Hf; rewrite Hf; vm_compute; congruence.
Qed.

Lemma queued_unique h s x y :
  cache_inv h s → x ∈ b_io s → y ∈ b_list s → unused s y = false →
  blkno (bufs s y) = blkno (bufs s x) → y = x.
Proof.
  intros Hi Hx Hy Hu E. pose proof (inv_sub _ _ Hi x Hx) as Hx'.
  pose proof (inv_buf _ _ Hi x Hx') as Hb.
  apply (inv_unique _ _ Hi); try done.
  apply (dirty_used h); [done|]. by apply (ok_queued _ _ _ Hb).
Qed.

Lemma io_unique h s x y :
  cache_inv h s → x ∈ b_io s → y ∈ b_io s → blkno (bufs s y) = blkno (bufs s x) → y = x.
Proof.
  intros Hi Hx Hy. apply (queued_unique h); try done; [by apply Hi|].
  pose proof (inv_buf _ _ Hi y (inv_sub _ _ Hi y Hy)) as Hb.
  apply (dirty_used h); [done|]. by apply (ok_queued _ _ _ Hb).
Qed.

Lemma content_dirty h s x :
  cache_inv h s → x ∈ b_io s → content s (blkno (bufs s x)) = Some (data (bufs s x)).
Proof.
  intros Hi Hx. apply pending_hit; [done|]. intros y Hy. by apply (io_unique h).
Qed.

Lemma content_clean h s x :
  cache_inv h s → x ∈ b_list s → unused s x = false → dirty s x = false →
  content s (blkno (bufs s x)) = bd_block (meta s) (blkno (bufs s x)).
Proof.
  intros Hi Hx Hu Hd. apply pending_miss. intros y Hy E.
  pose proof (queued_unique h s y x Hi Hy Hx Hu (eq_sym E)) as ->.
  apply (ok_queued _ _ _ (inv_buf _ _ Hi y Hx)) in Hy. congruence.
Qed.

Lemma content_valid h s x :
  cache_inv h s → x ∈ b_list s → unused s x = false → valid s x = true →
  content s (blkno (bufs s x)) = Some (data (bufs s x)).
Proof.
  intros Hi Hx Hu Hv. pose proof (inv_buf _ _ Hi x Hx) as Hb.
  destruct (dirty s x) eqn:Hd.
  - apply (content_dirty h); [done|]. by apply (ok_queued _ _ _ Hb).
  - rewrite (content_clean h) by done. by apply (ok_valid _ _ _ Hb).
Qed.

(** A block is on the device exactly when it has content. *)
Lemma content_some h s k :
  cache_inv h s → is_Some (content s k) ↔ is_Some (bd_block (meta s) k).
Proof.
  intros Hi. unfold content. assert (Hl : ∀ x, x ∈ b_io s → x ∈ b_io s) by done.
  revert Hl. generalize (b_io s) at 1 3 as l.
  induction l as [|x l IH]; intros Hl; [done|]. cbn.
  destruct (Z.eqb_spec (blkno (bufs s x)) k) as [<-|]; [|apply IH; intros y Hy; apply Hl; by right].
  split; [|eauto]. intros _.
  assert (Hx : x ∈ b_io s) by (apply Hl; left).
  pose proof (inv_buf _ _ Hi x (inv_sub _ _ Hi x Hx)) as Hb.
  apply (ok_dirty _ _ _ Hb). by apply (ok_queued _ _ _ Hb).
Qed.

(** ** Changing one buffer *)

Lemma buf_ok_frame h h' s s' y :
  buf_ok h s y → bufs s' y = bufs s y → (y ∈ b_io s' ↔ y ∈ b_io s) →
  (h' = Some y ↔ h = Some y) →
  (unused s y = false →
   bd_block (meta s') (blkno (bufs s y)) = bd_block (meta s) (blkno (bufs s y))) →
  buf_ok h' s' y.
Proof.
  intros Hb E Hio Hh Hd. pose proof (dirty_used _ _ _ Hb) as Hdu.
  destruct Hb as [? ? ? ? ? Hf ? Ho Hv]. split; rewrite ?E; try done.
  - case_decide as H1; case_decide as H2; tauto.
  - by rewrite Hio.
  - intros Hdi. rewrite Hd by auto. by apply Ho.
  - intros Hva Hcl. rewrite Hd; [by apply Hv|].
    revert Hva. unfold flag. case_decide; destruct Hf as [Hf _]; flag_cases Hf; rewrite Hf;
      vm_compute; congruence.
Qed.

Lemma inv_step h h' s s' x :
  cache_inv h s → x ∈ b_list s → (∀ y, y ≠ x → bufs s' y = bufs s y) →
  b_list s' ≡ₚ b_list s → (∀ y, y ≠ x → y ∈ b_io s' ↔ y ∈ b_io s) →
  NoDup (b_io s') → bd_ok (meta s') → (∀ y, y ≠ x → h' = Some y ↔ h = Some y) →
  (∀ y, y ∈ b_list s → y ≠ x → unused s y = false →
    bd_block (meta s') (blkno (bufs s y)) = bd_block (meta s) (blkno (bufs s y))) →
  buf_ok h' s' x →
  (∀ y, y ∈ b_list s → y ≠ x → unused s' x = false → unused s y = false →
    blkno (bufs s y) ≠ blkno (bufs s' x)) →
  cache_inv h' s'.
Proof.
  intros Hi Hx Hb Hl Hio Hnd Hok Hh Hd Hbx Hu. split; try done.
  - rewrite Hl. apply Hi.
  - intros E. rewrite E in Hl. apply Permutation_nil in Hl. by apply Hi.
  - intros y Hy. rewrite Hl. destruct (decide (y = x)) as [->|Hne]; [done|].
    by apply (inv_sub _ _ Hi), (Hio y Hne).
  - intros y Hy. rewrite Hl. destruct (decide (y = x)) as [->|Hne]; [done|].
    by apply (inv_held _ _ Hi), (Hh y Hne).
  - intros y. rewrite Hl. intros Hy. destruct (decide (y = x)) as [->|Hne]; [done|].
    apply (buf_ok_frame h _ s); auto. by apply Hi.
  - intros y z. rewrite !Hl. intros Hy Hz.
    destruct (decide (y = x)) as [->|Hy'], (decide (z = x)) as [->|Hz']; try done;
      rewrite ?(Hb y), ?(Hb z) by done; intros Uy Uz E.
    + by destruct (Hu z Hz Hz' Uy Uz).
    + by destruct (Hu y Hy Hy' Uz Uy).
    + by apply (inv_unique _ _ Hi).
Qed.

Lemma bufs_set x b s y : bufs (set_buf x b s) y = if decide (y = x) then b else bufs s y.
Proof.
  cbn. case_decide as E; [subst; apply fn_lookup_insert|by apply fn_lookup_insert_ne].
Qed.

Lemma bufs_upd x g s : bufs (upd_buf x g s) x = g (bufs s x).
Proof. unfold upd_buf. rewrite bufs_set. by case_decide. Qed.

Lemma bufs_upd_ne x g s y : y ≠ x → bufs (upd_buf x g s) y = bufs s y.
Proof. intros. unfold upd_buf. rewrite bufs_set. by case_decide. Qed.

(** ** [sync_buffer] *)

(** What a sync leaves alone. *)
Record synced s s' : Prop := {
  sy_list : b_list s' = b_list s;
  sy_sts : sts s' = sts s;
  sy_buf : ∀ y, bufs s' y = bufs s y ∨
                (dirty s y = true ∧ bufs s' y = clear B_DIRTY (bufs s y));
}.

Lemma clear_twice b : clear B_DIRTY (clear B_DIRTY b) = clear B_DIRTY b.
Proof.
  unfold clear, set_flags; cbn. f_equal. by rewrite <- Z.land_assoc, Z.land_diag.
Qed.

Lemma synced_trans s1 s2 s3 : synced s1 s2 → synced s2 s3 → synced s1 s3.
Proof.
  intros [L1 T1 B1] [L2 T2 B2]. split; [congruence..|]. intros y.
  destruct (B1 y) as [E1|[D1 E1]], (B2 y) as [E2|[D2 E2]]; rewrite E2, ?E1; auto.
  - right. by rewrite E1 in D2.
  - right. by rewrite clear_twice.
Qed.

(** The flags of a buffer after [clear B_DIRTY]. *)
Lemma clear_dirty_flags b :
  flags b ∈ idle_flags ∨ flags b ∈ held_flags → flag B_DIRTY b = true →
  flag B_DIRTY (clear B_DIRTY b) = false ∧
  flag B_UNUSED (clear B_DIRTY b) = false ∧
  (flags b ∈ idle_flags → flags (clear B_DIRTY b) ∈ idle_flags) ∧
  (flags b ∈ held_flags → flags (clear B_DIRTY b) ∈ held_flags).
Proof.
  unfold flag, clear; cbn.
  intros [Hf|Hf]; flag_cases Hf; rewrite Hf; vm_compute; intros; try done;
    (split; [done|]; split; [done|]; split; intros Hin; flag_cases Hin; try done; set_solver).
Qed.

Lemma idle_or_held h s x :
  buf_ok h s x → flags (bufs s x) ∈ idle_flags ∨ flags (bufs s x) ∈ held_flags.
Proof. intros Hb. pose proof (ok_held _ _ _ Hb). case_decide; tauto. Qed.

(** One dirty buffer is written: the device takes its content over. *)
Lemma sync_one h s x l :
  cache_inv h s → b_io s = x :: l →
  ∃ d, write_block (meta s) (bufs s x) = Ret (OK, d) ∧
    let s' := upd_buf x (clear B_DIRTY) (dequeue_buffer x (set_meta d s)) in
    cache_inv h s' ∧ b_io s' = l ∧ same_content s s' ∧ synced s s'.
Proof.
  intros Hi Eio. assert (Hx : x ∈ b_io s) by (rewrite Eio; left).
  pose proof (inv_sub _ _ Hi x Hx) as Hxl. pose proof (inv_buf _ _ Hi x Hxl) as Hb.
  pose proof (proj1 (ok_queued _ _ _ Hb) Hx) as Hd.
  destruct (ok_dirty _ _ _ Hb Hd) as [c Hc].
  destruct (write_block_ok (meta s) (bufs s x) c) as (d&Ew&Hok&Hbl); try apply Hb; try done;
    [apply Hi|by apply (buf_dev h)|].
  exists d. split; [done|]. intros s'.
  destruct (clear_dirty_flags _ (idle_or_held _ _ _ Hb) Hd) as (F1&F2&F3&F4).
  assert (Hnd : NoDup (x :: l)) by (rewrite <- Eio; apply Hi).
  apply NoDup_cons in Hnd as [Hnx Hnd].
  assert (El : b_io s' = l).
  { cbn. rewrite Eio, filter_cons_False by tauto. apply filter_keeps. by intros y Hy ->. }
  assert (Ebx : bufs s' x = clear B_DIRTY (bufs s x)) by (unfold s'; by rewrite bufs_upd).
  assert (Eby : ∀ y, y ≠ x → bufs s' y = bufs s y).
  { intros y Hy. unfold s'. by rewrite bufs_upd_ne. }
  split_and!; [|done| |].
  - apply (inv_step h h s s' x); try done.
    + intros y Hy. rewrite El, Eio. set_solver.
    + by rewrite El.
    + intros y Hy Hyx Hu. cbn [s' upd_buf set_buf meta dequeue_buffer set_io set_meta].
      rewrite Hbl by apply (inv_buf _ _ Hi y Hy).
      rewrite (proj2 (Z.eqb_neq _ _)); [done|].
      intros E. by apply Hyx, (queued_unique h s).
    + split; rewrite ?Ebx; cbn [clear set_flags bdev blkno wq data usr flags]; try apply Hb.
      * pose proof (ok_held _ _ _ Hb). case_decide; split; naive_solver.
      * fold (clear B_DIRTY (bufs s x)). rewrite F1, El. done.
      * fold (clear B_DIRTY (bufs s x)). congruence.
      * intros _ _. cbn [s' upd_buf set_buf meta dequeue_buffer set_io set_meta].
        rewrite Hbl, Z.eqb_refl by apply Hb. done.
    + intros y Hy Hyx _ Hu. rewrite Ebx. cbn. intros E. by apply Hyx, (queued_unique h s).
  - intros k Hk. unfold content. rewrite El, Eio. cbn [pending foldr].
    destruct (Z.eqb_spec (blkno (bufs s x)) k) as [<-|Hne].
    + rewrite pending_miss.
      * cbn. by rewrite Hbl, Z.eqb_refl by done.
      * intros y Hy. rewrite Eby by (by intros ->). intros E.
        assert (y = x) as ->; [|done]. apply (io_unique h s); try done. rewrite Eio. by right.
    + apply pending_ext.
      * intros y Hy. by rewrite Eby by (by intros ->).
      * cbn. rewrite Hbl by done. by rewrite (proj2 (Z.eqb_neq _ _)).
  - split; [done..|]. intros y. destruct (decide (y = x)) as [->|Hyx]; [right|left; by apply Eby].
    by rewrite Ebx.
Qed.

Lemma sync_loop_spec h l : ∀ s,
  cache_inv h s → b_io s = l →
  ∃ s', sync_loop l 0 s = Ret (0, s') ∧ cache_inv h s' ∧ b_io s' = [] ∧
        same_content s s' ∧ synced s s'.
Proof.
  induction l as [|x l IH]; intros s Hi E.
  { exists s. split_and!; try done. split; [done..|]. by left. }
  cbn [sync_loop].
  assert (Hx : x ∈ b_io s) by (rewrite E; left).
  rewrite (proj1 (ok_queued _ _ _ (inv_buf _ _ Hi x (inv_sub _ _ Hi x Hx))) Hx).
  destruct (sync_one h s x l Hi E) as (d&->&Hi'&E'&Hc&Hs). cbn [mbind res_bind].
  change (OK =? OK) with true. cbn [negb].
  destruct (IH _ Hi' E') as (s'&Es&Hi''&E''&Hc'&Hs').
  exists s'. split_and!; try done; [|by eapply synced_trans].
  intros k Hk. by rewrite Hc', Hc.
Qed.

Lemma sync_buffer_spec h s :
  cache_inv h s →
  ∃ s', sync_buffer s = Ret (0, s') ∧ cache_inv h s' ∧ b_io s' = [] ∧
        same_content s s' ∧ synced s s'.
Proof. intros Hi. by apply sync_loop_spec. Qed.

(** ** [get_buffer] *)

Lemma find_cached_spec h s k l :
  cache_inv h s → (∀ x, x ∈ l → x ∈ b_list s) →
  match find_cached self l k s with
  | Some x => x ∈ l ∧ unused s x = false ∧ blkno (bufs s x) = k
  | None => ∀ x, x ∈ l → unused s x = false → blkno (bufs s x) ≠ k
  end.
Proof.
  intros Hi. induction l as [|y l IH]; intros Hl; cbn [find_cached].
  { intros x Hx. by apply elem_of_nil in Hx. }
  specialize (IH (λ x Hx, Hl x (list_elem_of_further _ _ _ Hx))).
  assert (Hy : bdev (bufs s y) = self) by (apply (inv_buf _ _ Hi), Hl; left).
  destruct (unused s y) eqn:Hu.
  - destruct (find_cached self l k s); [split; [by right; apply IH|apply IH]|].
    intros x [->|Hx]%elem_of_cons; [congruence|by apply IH].
  - rewrite Hy, Z.eqb_refl. cbn [andb]. destruct (Z.eqb_spec (blkno (bufs s y)) k) as [E|Hne].
    + split; [left|done].
    + destruct (find_cached self l k s); [split; [by right; apply IH|apply IH]|].
      intros x [->|Hx]%elem_of_cons; [done|by apply IH].
Qed.

Lemma not_busy s x : buf_ok None s x → flag B_BUSY (bufs s x) = false.
Proof.
  intros Hb. destruct (ok_held _ _ _ Hb) as [Hf _]. unfold flag.
  flag_cases Hf; rewrite Hf; done.
Qed.

Lemma find_free_spec s l :
  (∀ x, x ∈ l → buf_ok None s x) →
  match find_free l s with
  | Some x => x ∈ l ∧ dirty s x = false
  | None => ∀ x, x ∈ l → dirty s x = true
  end.
Proof.
  induction l as [|y l IH]; intros Hl; cbn [find_free].
  { intros x Hx. by apply elem_of_nil in Hx. }
  assert (Hy : buf_ok None s y) by (apply Hl; left).
  specialize (IH (λ x Hx, Hl x (list_elem_of_further _ _ _ Hx))).
  rewrite (not_busy _ _ Hy). cbn [negb andb].
  pose proof (dirty_used _ _ _ Hy) as Hdu.
  destruct (dirty s y) eqn:Hd; cbn [negb orb]; [|split; [left|done]].
  rewrite Hdu by done.
  destruct (find_free l s); [split; [by right; apply IH|apply IH]|].
  intros x [->|Hx]%elem_of_cons; [done|by apply IH].
Qed.

(** A buffer that the thread holds for block [k]. *)
Definition holding s x k : Prop := cache_inv (Some x) s ∧ blkno (bufs s x) = k.

Lemma held_used s x : buf_ok (Some x) s x → unused s x = false.
Proof.
  intros Hb. pose proof (ok_held _ _ _ Hb) as Hh. rewrite decide_True in Hh by done.
  destruct Hh as [Hf _]. unfold flag. flag_cases Hf; rewrite Hf; done.
Qed.

Lemma raise_busy_flags b :
  flags b ∈ idle_flags → flag B_UNUSED b = false →
  flags (raise B_BUSY b) ∈ held_flags ∧ flag B_DIRTY (raise B_BUSY b) = flag B_DIRTY b ∧
  flag B_VALID (raise B_BUSY b) = flag B_VALID b.
Proof.
  unfold flag, raise; cbn. intros Hf; flag_cases Hf; rewrite Hf; vm_compute; intros; try done;
    (split; [set_solver|done]).
Qed.

(** A buffer found in the cache is taken. *)
Lemma take_cached s x :
  cache_inv None s → x ∈ b_list s → unused s x = false →
  let s' := upd_buf x (λ b, set_usr cur (raise B_BUSY b)) s in
  holding s' x (blkno (bufs s x)) ∧ same_content s s'.
Proof.
  intros Hi Hx Hu s'. pose proof (inv_buf _ _ Hi x Hx) as Hb.
  pose proof (ok_held _ _ _ Hb) as [Hf _].
  destruct (raise_busy_flags _ Hf Hu) as (F1&F2&F3).
  assert (Ebx : bufs s' x = set_usr cur (raise B_BUSY (bufs s x))) by apply bufs_upd.
  assert (Eby : ∀ y, y ≠ x → bufs s' y = bufs s y) by (intros; by apply bufs_upd_ne).
  assert (FD : dirty s' x = dirty s x) by (rewrite Ebx; exact F2).
  assert (FV : valid s' x = valid s x) by (rewrite Ebx; exact F3).
  split; [split; [|by rewrite Ebx]|].
  - apply (inv_step None (Some x) s s' x); try done; try apply Hi.
    + intros y Hy. split; [intros [= ->]|]; done.
    + split; rewrite ?FD, ?FV, ?Ebx; cbn [set_usr raise set_flags bdev blkno wq data usr flags];
        try apply Hb.
      rewrite decide_True by done. done.
    + intros y Hy Hyx _ Hu'. rewrite Ebx. cbn. intros E. by apply Hyx, (inv_unique _ _ Hi).
  - intros k _. apply pending_ext; [|done]. intros y _.
    destruct (decide (y = x)) as [->|Hyx]; [by rewrite Ebx|by rewrite Eby].
Qed.

(** A clean or unused buffer is taken over for a block that is not cached. *)
Lemma take_free s x k :
  cache_inv None s → x ∈ b_list s → dirty s x = false → 0 ≤ k →
  (∀ y, y ∈ b_list s → unused s y = false → blkno (bufs s y) ≠ k) →
  let s' := upd_buf x (λ b, Buf self k B_BUSY (wq b) cur (data b)) s in
  holding s' x k ∧ same_content s s'.
Proof.
  intros Hi Hx Hd Hk Hn s'. pose proof (inv_buf _ _ Hi x Hx) as Hb.
  assert (Ebx : bufs s' x = Buf self k B_BUSY (wq (bufs s x)) cur (data (bufs s x)))
    by apply bufs_upd.
  assert (Eby : ∀ y, y ≠ x → bufs s' y = bufs s y) by (intros; by apply bufs_upd_ne).
  assert (Hq : x ∉ b_io s) by (rewrite (ok_queued _ _ _ Hb), Hd; done).
  split; [split; [|by rewrite Ebx]|].
  - apply (inv_step None (Some x) s s' x); try done; try apply Hi.
    + intros y Hy. split; [intros [= ->]|]; done.
    + split; rewrite ?Ebx; cbn [bdev blkno wq data usr flags]; try done; try apply Hb.
      rewrite decide_True by done. split; [|done]. vm_compute. set_solver.
    + intros y Hy Hyx _ Hu'. rewrite Ebx. by apply Hn.
  - intros j _. apply pending_ext; [|done]. intros y Hy.
    by rewrite Eby by (by intros ->).
Qed.

Lemma get_buffer_spec tries s k :
  cache_inv None s → 0 ≤ k → ((0 < tries)%nat ∨ b_io s = []) →
  ∃ x s', get_buffer self tries cur k s = Ret (Done x, s') ∧ holding s' x k ∧
          same_content s s'.
Proof.
  revert s. induction tries as [|tries IH]; intros s Hi Hk Ht; cbn [get_buffer].
  all: pose proof (find_cached_spec None s k (b_list s) Hi (λ x Hx, Hx)) as Hfc.
  all: destruct (find_cached self (b_list s) k s) as [x|] eqn:Ec.
  1, 3: destruct Hfc as (Hx&Hu&<-); pose proof (inv_buf _ _ Hi x Hx) as Hb;
    rewrite (not_busy _ _ Hb), (proj2 (ok_held _ _ _ Hb)); cbn [negb andb];
    exists x; eexists; split; [done|by apply take_cached].
  all: pose proof (find_free_spec s (rev (b_list s))) as Hff.
  all: assert (Hrev : ∀ x, x ∈ rev (b_list s) → x ∈ b_list s)
    by (intros x; rewrite !list_elem_of_In, <- in_rev; done).
  all: specialize (Hff (λ x Hx, inv_buf _ _ Hi x (Hrev x Hx))).
  all: destruct (find_free (rev (b_list s)) s) as [x|] eqn:Ef.
  1, 3: destruct Hff as [Hx Hd]; exists x; eexists; split; [done|]; apply take_free; auto.
  - exfalso. destruct Ht as [Ht|Ht]; [lia|].
    destruct (b_list s) as [|x l] eqn:El; [by apply Hi|].
    assert (Hx : x ∈ b_list s) by (rewrite El; left).
    assert (Hd : dirty s x = true).
    { apply Hff. rewrite list_elem_of_In, <- in_rev. by left. }
    apply (ok_queued _ _ _ (inv_buf _ _ Hi x Hx)) in Hd. rewrite Ht in Hd. set_solver.
  - destruct (sync_buffer_spec None s Hi) as (s1&->&Hi1&Eio&Hc1&_). cbn [mbind res_bind].
    destruct (IH s1 Hi1 Hk (or_intror Eio)) as (x&s2&->&Hh&Hc2).
    exists x, s2. split; [done|]. split; [done|]. intros j Hj. by rewrite Hc2, Hc1.
Qed.

(** ** [release_buffer] *)

Lemma clear_busy_flags b :
  flags b ∈ held_flags →
  flags (clear B_BUSY b) ∈ idle_flags ∧ flag B_DIRTY (clear B_BUSY b) = flag B_DIRTY b ∧
  flag B_VALID (clear B_BUSY b) = flag B_VALID b.
Proof.
  unfold flag, clear; cbn. intros Hf; flag_cases Hf; rewrite Hf; vm_compute;
    (split; [set_solver|done]).
Qed.

Lemma inv_held_buf x s : cache_inv (Some x) s → x ∈ b_list s ∧ buf_ok (Some x) s x.
Proof.
  intros Hi. assert (Hx : x ∈ b_list s) by (by apply (inv_held _ _ Hi)).
  split; [done|by apply (inv_buf _ _ Hi)].
Qed.

Lemma held_facts x s :
  buf_ok (Some x) s x → flags (bufs s x) ∈ held_flags ∧ usr (bufs s x) = cur.
Proof. intros Hb. pose proof (ok_held _ _ _ Hb) as Hh. by rewrite decide_True in Hh. Qed.

(** What [release_buffer] does to the device, the waiting threads apart. *)
Record released x s s' : Prop := {
  rl_meta : meta s' = meta s;
  rl_io : b_io s' = b_io s;
  rl_list : b_list s' = x :: filter (λ y, y ≠ x) (b_list s);
  rl_buf : bufs s' x = set_usr NULL (clear B_BUSY (bufs s x));
  rl_other : ∀ y, y ≠ x → bufs s' y = bufs s y;
}.

Lemma released_inv x s s' :
  cache_inv (Some x) s → released x s s' → cache_inv None s' ∧ same_content s s'.
Proof.
  intros Hi [Em Ei El Ebx Eby]. destruct (inv_held_buf x s Hi) as [Hx Hb].
  destruct (held_facts x s Hb) as [Hf Hu]. destruct (clear_busy_flags _ Hf) as (F1&F2&F3).
  assert (FD : dirty s' x = dirty s x) by (rewrite Ebx; exact F2).
  assert (FV : valid s' x = valid s x) by (rewrite Ebx; exact F3).
  split.
  - apply (inv_step (Some x) None s s' x); rewrite ?Em, ?Ei, ?El; try done; try apply Hi.
    + symmetry. apply filter_ne_perm; [apply Hi|done].
    + intros y Hy. split; [|intros [= ->]]; done.
    + split; rewrite ?FD, ?FV, ?Ebx, ?Em, ?Ei;
        cbn [set_usr clear set_flags bdev blkno wq data usr flags]; try apply Hb.
      rewrite decide_False by done. done.
    + intros y Hy Hyx _ Hu'. rewrite Ebx. cbn. intros E.
      apply Hyx, (inv_unique _ _ Hi); try done. by apply held_used.
  - intros k _. unfold content. rewrite Ei. apply pending_ext; [|by rewrite Em]. intros y _.
    destruct (decide (y = x)) as [->|Hyx]; [by rewrite Ebx|by rewrite Eby].
Qed.

Lemma release_buffer_spec x s :
  cache_inv (Some x) s →
  ∃ s', release_buffer cur x s = Ret (None, s') ∧ cache_inv None s' ∧ same_content s s'.
Proof.
  intros Hi. destruct (inv_held_buf x s Hi) as [Hx Hb].
  destruct (held_facts x s Hb) as [Hf Hu].
  unfold release_buffer. rewrite Hu, Z.eqb_refl. cbn [ASSERT mbind res_bind].
  set (s1 := set_list _ s). set (s' := upd_buf x _ s1).
  assert (Hr : released x s s').
  { split; try done; [unfold s'; by rewrite bufs_upd|].
    intros y Hy. unfold s'. by rewrite bufs_upd_ne. }
  assert (Hn : notify_buffer x s' = (None, s')).
  { unfold notify_buffer. rewrite (rl_buf _ _ _ Hr). cbn [wq set_usr clear set_flags].
    by rewrite (ok_wq _ _ _ Hb). }
  exists s'. rewrite Hn. split; [done|by apply (released_inv x s)].
Qed.

(** ** [bdev_read_buffer] *)

(** The held buffer is clean: new data and a [VALID] flag that says the truth. *)
Lemma refill x s c fl :
  cache_inv (Some x) s → dirty s x = false → length c = Z.to_nat BLOCK_SIZE →
  fl = flags (bufs s x) ∨
    (fl = Z.lor (flags (bufs s x)) B_VALID ∧
     bd_block (meta s) (blkno (bufs s x)) = Some c) →
  (valid s x = true → c = data (bufs s x)) →
  ∀ s', meta s' = meta s → b_list s' = b_list s → b_io s' = b_io s →
  bufs s' x = set_flags fl (set_data c (bufs s x)) →
  (∀ y, y ≠ x → bufs s' y = bufs s y) →
  cache_inv (Some x) s' ∧ same_content s s'.
Proof.
  intros Hi Hd Hc Hfl Hv s' Em Ell Ei Ebx Eby. destruct (inv_held_buf x s Hi) as [Hx Hb].
  destruct (held_facts x s Hb) as [Hf Hu].
  assert (Hfl' : fl ∈ held_flags ∧ Z.land fl B_DIRTY = 0 ∧
    (Z.land fl B_VALID ≠ 0 → bd_block (meta s) (blkno (bufs s x)) = Some c)).
  { destruct Hfl as [->|[-> Hbl]].
    - split; [done|]. split; [by apply Z.eqb_eq, negb_false_iff|].
      intros Hva. assert (V : valid s x = true) by (by apply negb_true_iff, Z.eqb_neq).
      rewrite (Hv V). by apply (ok_valid _ _ _ Hb).
    - split; [|split; [|done]]; unfold flag in Hd; flag_cases Hf; rewrite Hf in Hd |- *;
        vm_compute in Hd |- *; congruence || set_solver. }
  destruct Hfl' as (G1&G2&G3).
  assert (FD : dirty s' x = false) by (rewrite Ebx; unfold flag; cbn; by rewrite G2).
  assert (Hq : x ∉ b_io s) by (rewrite (ok_queued _ _ _ Hb), Hd; done).
  split.
  - apply (inv_step (Some x) (Some x) s s' x); rewrite ?Em, ?Ell, ?Ei; try done; try apply Hi.
    + split; rewrite ?FD, ?Ebx, ?Em, ?Ei; cbn [set_flags set_data bdev blkno wq data usr flags];
        try done; try apply Hb; [by rewrite decide_True|].
      intros Hva _. apply G3. revert Hva. unfold flag; cbn. by zbool_step.
    + intros y Hy Hyx _ Hu'. rewrite Ebx. cbn. intros E.
      apply Hyx, (inv_unique _ _ Hi); try done. by apply held_used.
  - intros j _. unfold content. rewrite Ei. apply pending_ext; [|by rewrite Em].
    intros y Hy. by rewrite Eby by (by intros ->).
Qed.

(** The held buffer holds what a read of its block gives. *)
Definition filled x s status s' : Prop :=
  holding s' x (blkno (bufs s x)) ∧ same_content s s' ∧
  match content s (blkno (bufs s x)) with
  | Some c => status = OK ∧ data (bufs s' x) = c
  | None => status ≠ OK
  end.

Lemma update_clean x s :
  cache_inv (Some x) s → valid s x = false → dirty s x = false →
  ∃ status s', update_buffer x s = Ret (status, s') ∧
    filled x s status (if status =? OK then upd_buf x (raise B_VALID) s' else s').
Proof.
  intros Hi Hv Hd. destruct (inv_held_buf x s Hi) as [Hx Hb]. unfold update_buffer.
  pose proof (content_clean _ s x Hi Hx (held_used _ _ Hb) Hd) as Hc. unfold filled. rewrite Hc.
  destruct (bd_block (meta s) (blkno (bufs s x))) as [c|] eqn:Eb.
  - pose proof (bd_block_length _ _ _ (inv_dev _ _ Hi) Eb) as Hl.
    rewrite (read_block_ok _ _ c (inv_dev _ _ Hi) (buf_dev _ _ _ Hb) Hd (ok_blkno _ _ _ Hb) Eb (ok_data _ _ _ Hb)).
    cbn [mbind res_bind]. eexists _, _. split; [done|]. rewrite Z.eqb_refl.
    set (s' := upd_buf x _ _).
    assert (Ebx : bufs s' x = set_flags (Z.lor (flags (bufs s x)) B_VALID)
                                (set_data c (bufs s x))).
    { unfold s'. by rewrite bufs_upd, bufs_set, decide_True. }
    destruct (refill x s c (Z.lor (flags (bufs s x)) B_VALID) Hi Hd Hl) with s' as [Hi' Hc'];
      try done; [by right|congruence| |].
    { intros y Hy. unfold s'. by rewrite bufs_upd_ne, bufs_set, decide_False. }
    split; [split; [done|by rewrite Ebx]|]. split; [done|]. by rewrite Ebx.
  - destruct (read_block_bad (meta s) (bufs s x) (inv_dev _ _ Hi) (buf_dev _ _ _ Hb) Hd (ok_blkno _ _ _ Hb) Eb)
      as (e&->&He).
    cbn [mbind res_bind]. eexists _, _. split; [done|].
    rewrite (proj2 (Z.eqb_neq _ _) He).
    assert (Ebx : bufs (set_buf x (bufs s x) s) x = bufs s x)
      by (rewrite bufs_set; by rewrite decide_True).
    destruct (refill x s (data (bufs s x)) (flags (bufs s x)) Hi Hd (ok_data _ _ _ Hb))
      with (set_buf x (bufs s x) s) as [Hi' Hc']; try done; [by left| | |].
    { rewrite Ebx. by destruct (bufs s x). }
    { intros y Hy. rewrite bufs_set. by rewrite decide_False. }
    split; [split; [done|by rewrite Ebx]|]. by split.
Qed.

Lemma read_fill_spec x s :
  cache_inv (Some x) s →
  ∃ status s', read_fill x s = Ret (true, status, s') ∧ filled x s status s'.
Proof.
  intros Hi. destruct (inv_held_buf x s Hi) as [Hx Hb]. unfold read_fill.
  destruct (valid s x) eqn:Hv; cbn [negb].
  { eexists _, _. split; [done|]. split; [by split|]. split; [by intros ?|].
    rewrite (content_valid (Some x)) by (done || by apply held_used). done. }
  assert (Hs : ∃ s1, (if dirty s x then sync_buffer s else Ret (OK, s)) = Ret (0, s1) ∧
    cache_inv (Some x) s1 ∧ same_content s s1 ∧ valid s1 x = false ∧ dirty s1 x = false ∧
    blkno (bufs s1 x) = blkno (bufs s x)).
  { destruct (dirty s x) eqn:Hd; [|exists s; split_and!; try done; by intros ?].
    destruct (sync_buffer_spec _ s Hi) as (s1&->&Hi1&Eio&Hc&[_ _ Hsy]).
    destruct (inv_held_buf x s1 Hi1) as [_ Hb1].
    exists s1. split_and!; try done.
    - destruct (Hsy x) as [->|[_ ->]]; [done|].
      destruct (held_facts x s Hb) as [Hf _]. revert Hv. unfold flag; cbn.
      flag_cases Hf; rewrite Hf; vm_compute; congruence.
    - apply not_true_iff_false. intros Hd1%(ok_queued _ _ _ Hb1). rewrite Eio in Hd1. set_solver.
    - by destruct (Hsy x) as [->|[_ ->]]. }
  destruct Hs as (s1&->&Hi1&Hc1&Hv1&Hd1&Hk). cbn [mbind res_bind]. cbn [negb Z.eqb].
  change (0 =? OK) with true. cbn [negb].
  destruct (update_clean x s1 Hi1 Hv1 Hd1) as (status&s2&->&Hh&Hc2&Hr). cbn [mbind res_bind].
  eexists _, _. split; [done|]. rewrite Hk in Hh, Hr. split; [done|].
  split; [intros j Hj; by rewrite Hc2, Hc1|]. by rewrite Hc1 in Hr by apply Hb.
Qed.

Lemma read_with_spec x s k :
  holding s x k →
  ∃ status out s', read_with cur x s = Ret (status, Some out, s') ∧ cache_inv None s' ∧
    same_content s s' ∧
    match content s k with Some c => status = OK ∧ out = c | None => status ≠ OK end.
Proof.
  intros [Hi <-]. unfold read_with.
  destruct (read_fill_spec x s Hi) as (status&s1&->&[Hi1 _]&Hc1&Hr). cbn [mbind res_bind].
  destruct (release_buffer_spec x s1 Hi1) as (s2&->&Hi2&Hc2). cbn [mbind res_bind].
  eexists _, _, _. split; [done|]. split; [done|]. split; [intros j Hj; by rewrite Hc2, Hc1|done].
Qed.

(** ** [bdev_write_buffer] *)

Lemma pending_other l s x k :
  blkno (bufs s x) ≠ k →
  pending (filter (λ y, y ≠ x) l ++ [x]) s k = pending l s k ∧
  pending (l ++ [x]) s k = pending l s k.
Proof.
  intros Hne. unfold pending. rewrite !foldr_app. cbn [foldr].
  rewrite (proj2 (Z.eqb_neq _ _) Hne). split; [|done].
  induction l as [|y l IH]; [done|]. destruct (decide (y = x)) as [->|Hy].
  - rewrite filter_cons_False by tauto. cbn. by rewrite (proj2 (Z.eqb_neq _ _) Hne).
  - rewrite filter_cons_True by done. cbn. by rewrite IH.
Qed.

Lemma queue_members x s :
  NoDup (b_io s) →
  NoDup (b_io (queue_buffer x s)) ∧ ∀ y, y ∈ b_io (queue_buffer x s) ↔ y ∈ b_io s ∨ y = x.
Proof.
  intros Hnd. unfold queue_buffer. case_decide; cbn; split.
  - apply NoDup_app. split; [by apply NoDup_filter|]. split; [|apply NoDup_singleton].
    intros y Hy%list_elem_of_filter. set_solver.
  - intros y. rewrite elem_of_app, list_elem_of_filter, list_elem_of_singleton.
    destruct (decide (y = x)) as [->|]; tauto.
  - apply NoDup_app. split; [done|]. split; [set_solver|apply NoDup_singleton].
  - set_solver.
Qed.

Lemma raise_dirty_flags b :
  flags b ∈ held_flags →
  flags (raise B_DIRTY b) ∈ held_flags ∧ flag B_DIRTY (raise B_DIRTY b) = true.
Proof.
  unfold flag, raise; cbn. intros Hf; flag_cases Hf; rewrite Hf; vm_compute;
    (split; [set_solver|done]).
Qed.

Lemma dirty_held x s src :
  cache_inv (Some x) s → is_Some (bd_block (meta s) (blkno (bufs s x))) →
  length src = Z.to_nat BLOCK_SIZE →
  let s' := cache_buffer x (upd_buf x (raise B_DIRTY) (upd_buf x (set_data src) s)) in
  cache_inv (Some x) s' ∧
  ∀ k, 0 ≤ k → content s' k = if k =? blkno (bufs s x) then Some src else content s k.
Proof.
  intros Hi Hdev Hl s'. destruct (inv_held_buf x s Hi) as [Hx Hb].
  destruct (held_facts x s Hb) as [Hf Hu].
  destruct (raise_dirty_flags (set_data src (bufs s x)) Hf) as [F1 F2].
  set (s0 := upd_buf x (raise B_DIRTY) (upd_buf x (set_data src) s)) in *.
  assert (Eb : bufs s' = bufs s0) by (unfold s', cache_buffer, queue_buffer; by case_decide).
  assert (Em : meta s' = meta s) by (unfold s', cache_buffer, queue_buffer; by case_decide).
  assert (Ebx : bufs s' x = raise B_DIRTY (set_data src (bufs s x)))
    by (rewrite Eb; unfold s0; by rewrite !bufs_upd).
  assert (Eby : ∀ y, y ≠ x → bufs s' y = bufs s y)
    by (intros; rewrite Eb; unfold s0; by rewrite !bufs_upd_ne).
  destruct (queue_members x s0 (inv_io _ _ Hi)) as [Hnd Hin].
  assert (Hi' : cache_inv (Some x) s').
  { apply (inv_step (Some x) (Some x) s s' x); rewrite ?Em; try done; try apply Hi.
    - unfold s', cache_buffer, queue_buffer. by case_decide.
    - intros y Hy. unfold s', cache_buffer. rewrite Hin. split; [|by left]. by intros [?| ->].
    - split; rewrite ?Ebx, ?Em; cbn [set_flags raise set_data bdev blkno wq data usr flags];
        try done; try apply Hb.
      + rewrite decide_True by done. done.
      + rewrite <- F2. unfold s', cache_buffer. rewrite Hin, F2. split; [done|by right].
      + intros _ Hd. exfalso. change (flag B_DIRTY (raise B_DIRTY (set_data src (bufs s x))) = false)
          in Hd. congruence.
    - intros y Hy Hyx _ Hu'. rewrite Ebx. cbn. intros E.
      apply Hyx, (inv_unique _ _ Hi); try done. by apply held_used. }
  split; [done|]. intros k Hk. destruct (Z.eqb_spec k (blkno (bufs s x))) as [->|Hne].
  - assert (Hq : x ∈ b_io s') by (unfold s', cache_buffer; rewrite Hin; by right).
    pose proof (content_dirty _ s' x Hi' Hq) as Hc. rewrite Ebx in Hc. exact Hc.
  - transitivity (pending (b_io s) s' k).
    + destruct (pending_other (b_io s) s' x k) as [P1 P2]; [rewrite Ebx; cbn; congruence|].
      unfold content at 1. unfold s' at 1, cache_buffer, queue_buffer. case_decide; done.
    + assert (Hp : ∀ l, pending l s' k = pending l s k); [|apply Hp].
      intros l. unfold pending. rewrite Em. induction l as [|y l IH]; [done|]. cbn.
      rewrite IH. destruct (decide (y = x)) as [->|Hy]; [|by rewrite Eby].
      rewrite Ebx; cbn. by rewrite (proj2 (Z.eqb_neq _ k)) by congruence.
Qed.

Lemma write_with_spec x s k src :
  holding s x k → is_Some (content s k) → length src = Z.to_nat BLOCK_SIZE →
  ∃ s', write_with cur x src s = Ret (OK, s') ∧ cache_inv None s' ∧
    ∀ j, 0 ≤ j → content s' j = if j =? k then Some src else content s j.
Proof.
  intros [Hi <-] Hs Hl. unfold write_with.
  destruct (dirty_held x s src Hi) as [Hi1 Hc1]; [by apply (content_some (Some x))|done|].
  destruct (release_buffer_spec x _ Hi1) as (s2&->&Hi2&Hc2). cbn [mbind res_bind].
  eexists. split; [done|]. split; [done|]. intros j Hj. by rewrite Hc2, Hc1.
Qed.

(** ** Sequences of calls *)

Inductive blk_op : Type :=
  | ReadB (k : Z)
  | WriteB (k : Z) (src : list Z)
  | SyncB.

(** A call by a thread that is alone with the device: if it waited, nobody would
    wake it. *)
Definition alone {A} (r : res (call A * blk_dev_t D)) : res (A * blk_dev_t D) :=
  '(c, s) ← r; match c with Done a => Ret (a, s) | Waits _ _ => Diverge end.

Definition blk_call (o : blk_op) s : res (Z * option (list Z) * blk_dev_t D) :=
  match o with
  | ReadB k => alone (bdev_read_buffer self MAX_BGET_RETRY cur k s)
  | WriteB k src =>
      '(status, s) ← alone (bdev_write_buffer self MAX_BGET_RETRY cur k src s);
      Ret (status, None, s)
  | SyncB => '(rv, s) ← bdev_sync_buffer s; Ret (rv, None, s)
  end.

Fixpoint blk_calls (ops : list blk_op) s : res (list (Z * option (list Z)) * blk_dev_t D) :=
  match ops with
  | [] => Ret ([], s)
  | o :: ops =>
      '(r, s) ← blk_call o s;
      '(rs, s) ← blk_calls ops s;
      Ret (r :: rs, s)
  end.

(** The contract: an array of blocks. *)
Definition array : Type := Z → option (list Z).

Definition array_op (o : blk_op) (A : array) : array :=
  match o with WriteB k src => λ j, if j =? k then Some src else A j | _ => A end.

Definition array_result (o : blk_op) (A : array) (r : Z * option (list Z)) : Prop :=
  match o with
  | ReadB k => match A k with Some c => r = (OK, Some c) | None => r.1 ≠ OK end
  | WriteB _ _ | SyncB => r = (OK, None)
  end.

Fixpoint array_results (ops : list blk_op) (A : array) (rs : list (Z * option (list Z))) : Prop :=
  match ops, rs with
  | [], [] => True
  | o :: ops, r :: rs => array_result o A r ∧ array_results ops (array_op o A) rs
  | _, _ => False
  end.

(** Any block number may be read; the written ones are on the device. *)
Definition op_ok (A : array) (o : blk_op) : Prop :=
  match o with
  | ReadB k => 0 ≤ k
  | WriteB k src => 0 ≤ k ∧ is_Some (A k) ∧ length src = Z.to_nat BLOCK_SIZE
  | SyncB => True
  end.

Definition array_eq (A A' : array) : Prop := ∀ k, 0 ≤ k → A k = A' k.

Lemma op_ok_mono A A' o :
  (∀ k, 0 ≤ k → is_Some (A k) → is_Some (A' k)) → op_ok A o → op_ok A' o.
Proof. destruct o; cbn; naive_solver. Qed.

Lemma array_op_eq o A A' : array_eq A A' → array_eq (array_op o A) (array_op o A').
Proof. intros He k Hk. destruct o; cbn; try zbool_step; auto. Qed.

Lemma array_ops_eq ops : ∀ A A', array_eq A A' →
  array_eq (foldl (flip array_op) A ops) (foldl (flip array_op) A' ops).
Proof.
  induction ops as [|o ops IH]; intros A A' He; [done|]. cbn. apply IH. by apply array_op_eq.
Qed.

Lemma array_results_eq ops : ∀ A A' rs,
  array_eq A A' → Forall (op_ok A) ops → array_results ops A rs → array_results ops A' rs.
Proof.
  induction ops as [|o ops IH]; intros A A' [|r rs] He Ho; try done. cbn.
  apply Forall_cons in Ho as [Ho Hops]. intros [Hr Hrs]. split.
  - destruct o as [k| |]; try done. cbn in *. by rewrite <- He.
  - apply (IH (array_op o A)); [by apply array_op_eq| |done].
    eapply Forall_impl; [exact Hops|]. intros o' Ho'.
    eapply op_ok_mono; [|exact Ho']. intros k Hk. destruct o; cbn; try zbool_step; eauto.
Qed.

Lemma blk_call_spec o s :
  cache_inv None s → op_ok (content s) o →
  ∃ r s', blk_call o s = Ret (r, s') ∧ cache_inv None s' ∧
    array_result o (content s) r ∧ array_eq (array_op o (content s)) (content s').
Proof.
  intros Hi Ho. destruct o as [k|k src|]; cbn [op_ok blk_call array_op array_result] in Ho |- *.
  - destruct (get_buffer_spec MAX_BGET_RETRY s k Hi Ho) as (x&s1&E1&Hh&Hc1); [left; unfold MAX_BGET_RETRY; lia|].
    destruct (read_with_spec x s1 k Hh) as (status&out&s2&E2&Hi2&Hc2&Hr).
    unfold bdev_read_buffer. rewrite E1. cbn [mbind res_bind]. rewrite E2. cbn.
    eexists _, _. split; [done|]. split; [done|]. rewrite Hc1 in Hr by done.
    split; [|intros j Hj; by rewrite Hc2, Hc1].
    destruct (content s k); [destruct Hr; by subst|done].
  - destruct Ho as (Hk&Hs&Hl).
    destruct (get_buffer_spec MAX_BGET_RETRY s k Hi Hk) as (x&s1&E1&Hh&Hc1); [left; unfold MAX_BGET_RETRY; lia|].
    destruct (write_with_spec x s1 k src Hh) as (s2&E2&Hi2&Hc2); [by rewrite Hc1|done|].
    unfold bdev_write_buffer. rewrite E1. cbn [mbind res_bind]. rewrite E2. cbn.
    eexists _, _. split; [done|]. split; [done|]. split; [done|].
    intros j Hj. rewrite Hc2 by done. zbool_step; [done|by rewrite Hc1].
  - unfold bdev_sync_buffer.
    destruct (sync_buffer_spec None s Hi) as (s1&->&Hi1&_&Hc1&_). cbn.
    eexists _, _. split; [done|]. split; [done|]. split; [done|]. intros j Hj. by rewrite Hc1.
Qed.

Lemma blk_calls_spec ops : ∀ s,
  cache_inv None s → Forall (op_ok (content s)) ops →
  ∃ rs s', blk_calls ops s = Ret (rs, s') ∧ cache_inv None s' ∧
    array_results ops (content s) rs ∧
    array_eq (foldl (flip array_op) (content s) ops) (content s').
Proof.
  induction ops as [|o ops IH]; intros s Hi Ho; [by exists [], s|].
  apply Forall_cons in Ho as [Ho Hops]. cbn [blk_calls].
  destruct (blk_call_spec o s Hi Ho) as (r&s1&->&Hi1&Hr&He). cbn [mbind res_bind].
  assert (Hops1 : Forall (op_ok (content s1)) ops).
  { eapply Forall_impl; [exact Hops|]. intros o'. apply op_ok_mono. intros k Hk Hs.
    rewrite <- He by done. destruct o; cbn; try zbool_step; eauto. }
  destruct (IH s1 Hi1 Hops1) as (rs&s2&->&Hi2&Hrs&He2). cbn.
  eexists _, _. split; [done|]. split; [done|]. split.
  - split; [done|]. eapply (array_results_eq ops (content s1)); [|done..].
    intros k Hk. by rewrite He.
  - intros k Hk. rewrite <- He2 by done. by apply array_ops_eq.
Qed.

(** After a sync the device itself holds the array. *)
Lemma synced_content s : b_io s = [] → content s = bd_block (meta s).
Proof. unfold content. by intros ->. Qed.

(** ** [bdev_init_buffer_cache] *)

Lemma fresh_inv s :
  bd_ok (meta s) → self ≠ NULL → NoDup (b_list s) → b_list s ≠ [] → b_io s = [] →
  (∀ x, x ∈ b_list s → bufs s x = fresh_buffer self) →
  cache_inv None s.
Proof.
  intros Hok Hself Hnd Hne Hio Hf. split; try done.
  - rewrite Hio. constructor.
  - rewrite Hio. set_solver.
  - intros x Hx. split; rewrite ?Hio, ?(Hf x Hx); cbn; try done; [set_solver|].
    split; [intros Hin; by apply elem_of_nil in Hin|done].
  - intros x y Hx _ Hu. rewrite (Hf x Hx) in Hu. done.
Qed.

Lemma init_cache_spec {F} `{FS : FrameSource F} heap n : ∀ (km : kmem F) s,
  heap_wf heap km → NoDup (b_list s) →
  (∀ x, x ∈ b_list s → (x, BUF_CACHE_SIZE) ∈ res_regions heap km ∧
                       bufs s x = fresh_buffer self) →
  ∃ st km' s' l, bdev_init_buffer_cache self n heap km s = Ret (st, km', s') ∧
    heap_wf heap km' ∧ NoDup (b_list s') ∧
    (∀ x, x ∈ b_list s' → (x, BUF_CACHE_SIZE) ∈ res_regions heap km' ∧
                          bufs s' x = fresh_buffer self) ∧
    meta s' = meta s ∧ b_io s' = b_io s ∧ b_list s' = b_list s ++ l ∧
    ((st = OK ∧ length l = n) ∨ (st = -1 ∧ (length l < n)%nat)).
Proof.
  induction n as [|n IH]; intros km s Hw Hnd Hl; cbn [bdev_init_buffer_cache].
  { exists OK, km, s, []. rewrite app_nil_r. split_and!; try done. by left. }
  rewrite (kmalloc_unfold _ _ _ Hw).
  destruct (__kmalloc_spec heap km BUF_CACHE_SIZE Hw) as (p&km1&->&Hw1&Hc);
    [unfold BUF_CACHE_SIZE, BLOCK_SIZE; lia|]. cbn [mbind res_bind].
  destruct (Z.eqb_spec p NULL) as [->|Hp].
  { assert (Hsame : ∀ r, r ∈ res_regions heap km → r ∈ res_regions heap km1).
    { destruct Hc as [(?&?&_&_&_&->)|(_&_&->&_)]; [by right|done]. }
    exists (-1), km1, s, []. rewrite app_nil_r. split_and!; try done.
    - intros x Hx. destruct (Hl x Hx). auto.
    - right. split; [done|cbn; lia]. }
  destruct Hc as [(m&Fr&_&_&_&Er)|[? _]]; [|done].
  assert (Hnew : p ∉ b_list s).
  { intros Hin. destruct (Hl p Hin) as [Hr _]. pose proof (wf_tiles _ _ Hw1) as Ht.
    rewrite Er, <- Permutation_middle in Ht.
    apply (tiles_unique_start _ _ _ _ (p, BUF_CACHE_SIZE) Ht); [set_solver|done]. }
  set (s1 := set_list _ _).
  destruct (IH km1 s1 Hw1) as (st&km'&s'&l&E&Hw'&Hnd'&Hl'&Em&Ei&Elist&Hst).
  - cbn. apply NoDup_app. split; [done|]. split; [set_solver|apply NoDup_singleton].
  - intros x. cbn [s1 set_list b_list]. rewrite elem_of_app, list_elem_of_singleton, Er.
    change (bufs s1 x) with (bufs (set_buf p (fresh_buffer self) s) x). rewrite bufs_set.
    destruct (decide (x = p)) as [->|Hne]; [split; [left|done]|].
    intros [Hx|?]; [|done]. destruct (Hl x Hx). split; [by right|done].
  - exists st, km', s', (p :: l). split_and!; try done.
    + rewrite Elist. cbn. by rewrite <- app_assoc.
    + cbn. destruct Hst as [[-> <-]|[-> ?]]; [left|right]; split; (done || lia).
Qed.

(** ** Two threads and one buffer *)

(** Thread [u] asks for a block that thread [cur] holds. *)
Lemma get_held_waits tries u x s k :
  holding s x k →
  get_buffer self tries u k s = Ret (Waits x tries, wait_buffer u x s).
Proof.
  intros [Hi Hk]. destruct (inv_held_buf x s Hi) as [Hx Hb].
  pose proof (held_used _ _ Hb) as Hu. destruct (held_facts x s Hb) as [Hf _].
  pose proof (find_cached_spec (Some x) s k (b_list s) Hi (λ x Hx, Hx)) as Hfc.
  destruct tries; cbn [get_buffer];
    (destruct (find_cached self (b_list s) k s) as [y|]; [|by destruct (Hfc x Hx Hu)]);
    destruct Hfc as (Hy&Huy&Hky);
    assert (y = x) as -> by (apply (inv_unique _ _ Hi); congruence);
    (assert (Hbusy : flag B_BUSY (bufs s x) = true)
       by (unfold flag; flag_cases Hf; rewrite Hf; done));
    by rewrite Hbusy.
Qed.

(** The release after it hands the buffer over. *)
Lemma release_wakes u x s :
  cache_inv (Some x) s →
  ∃ s', release_buffer cur x (wait_buffer u x s) = Ret (Some OK, s') ∧
        released x s s' ∧ sts s' u = T_READY ∧ (∀ t, t ≠ u → sts s' t = sts s t).
Proof.
  intros Hi. destruct (inv_held_buf x s Hi) as [Hx Hb].
  destruct (held_facts x s Hb) as [Hf Hu].
  set (s0 := wait_buffer u x s).
  assert (E0 : bufs s0 x = set_wq [u] (bufs s x)).
  { unfold s0, wait_buffer. cbn [set_sts bufs]. by rewrite bufs_upd, (ok_wq _ _ _ Hb). }
  assert (E0' : ∀ y, y ≠ x → bufs s0 y = bufs s y).
  { intros y Hy. unfold s0, wait_buffer. cbn [set_sts bufs]. by rewrite bufs_upd_ne. }
  unfold release_buffer. rewrite E0. cbn [usr set_wq]. rewrite Hu, Z.eqb_refl.
  cbn [ASSERT mbind res_bind].
  set (s1 := set_list _ s0). set (s2 := upd_buf x _ s1).
  assert (E2 : bufs s2 x = set_usr NULL (clear B_BUSY (set_wq [u] (bufs s x)))).
  { unfold s2. rewrite bufs_upd. unfold s1; cbn [set_list bufs]. by rewrite E0. }
  unfold notify_buffer. rewrite E2. cbn [wq set_usr clear set_flags set_wq].
  assert (Hs : sts s2 = make_sleep u (sts s)) by done.
  unfold wake_up, make_sleep in *. cbn [upd_buf set_buf sts]. fold s2. rewrite Hs.
  rewrite status_same, decide_True by done.
  eexists. split; [done|]. split; [|split].
  - split; try done.
    + cbn [set_sts bufs]. rewrite bufs_upd, E2. pose proof (ok_wq _ _ _ Hb) as Hwq.
      destruct (bufs s x); cbn in *. by subst.
    + intros y Hy. cbn [set_sts bufs]. rewrite bufs_upd_ne by done. unfold s2.
      rewrite bufs_upd_ne by done. by apply E0'.
  - cbn. apply status_same.
  - intros t Ht. cbn. rewrite !status_other by done. done.
Qed.
End Transparent.

(** ** Properties *)

(** The cache of the examples: three fresh buffers over a RAM disk of 80 blocks. *)
Definition cache_demo : blk_dev_t dev_ramfs_t :=
  BlkDev (Ramfs 0x200000 BLOCK_SIZE 80 (λ _, 0)) (λ _, fresh_buffer 64) [100; 200; 300] []
    (λ _, T_RUNNING).

Lemma cache_demo_inv cur : cache_inv 64 cur None cache_demo.
Proof.
  apply fresh_inv; try done.
  cbn. repeat (constructor; [set_solver|]). constructor.
Qed.




Lemma held_demo : ∃ x s, holding 64 7 s x 3 ∧ same_content cache_demo s.
Proof.
  destruct (get_buffer_spec 64 7 1 cache_demo 3 (cache_demo_inv 7)) as (x&s&_&Hh&Hc);
    [lia|left; lia|]. eauto.
Qed.


Lemma give_back_returns heap (km : kmem (mmc_t * mem)) p :
  heap_wf heap km → ∃ rc c m, free_frames (k_frames km).2 (k_frames km).1 p = Ret (rc, c, m).
Proof.
  intros Hw. destruct (free_frames_cases (k_frames km).2 (k_frames km).1 p)
    as [(?&?&?&?&_&_&_&_&_&->)|[_ ->]]; [exact (sh_frames _ _ Hw)|eauto..].
Qed.

(** A device of 80 blocks on the frames at [p], with fresh buffers. *)
Lemma ramfs_ready self cur (blk : blk_dev_t dev_ramfs_t) p :
  self ≠ NULL → NoDup (b_list blk) → b_list blk ≠ [] → b_io blk = [] →
  (∀ x, x ∈ b_list blk → bufs blk x = fresh_buffer self) →
  block_size (meta blk) = BLOCK_SIZE → total_blks (meta blk) = 80 →
  0 < p → p + 4096 * RAMFS_PAGES < 4294967296 →
  let blk' := set_meta (Ramfs p (block_size (meta blk)) (total_blks (meta blk)) (ram (meta blk))) blk in
  cache_inv self cur None blk' ∧ ∀ k, is_Some (content blk' k) ↔ 0 ≤ k < 80.
Proof.
  intros Hself Hnd Hne Hio Hf Eb Et Hp Htop. split.
  - apply fresh_inv; cbn; try done.
    split; cbn; rewrite ?Eb, ?Et; unfold BLOCK_SIZE, RAMFS_PAGES in *; try done; lia.
  - intros k. rewrite synced_content by done. cbn. unfold ramfs_block; cbn. rewrite Et.
    destruct ((0 <=? k) && (k <? 80)) eqn:Ek; split; intros Hk.
    + apply andb_true_iff in Ek. lia.
    + eauto.
    + by destruct Hk.
    + apply andb_false_iff in Ek. lia.
Qed.

(** [init_ramfs] on a device set up by [__init_blk_dev_common] returns. When it
    returns [OK], the device is an 80-block RAM disk on ten frames that nobody
    held, with a cache of 100 buffers that satisfies the invariant the calls of the
    buffer layer rely on, and the heap is still well formed; otherwise it
    returns one of its three error codes. *)
Theorem init_ramfs_correct self cur heap km blk :
  heap_wf heap km → self ≠ NULL → block_size (meta blk) = BLOCK_SIZE →
  b_list blk = [] → b_io blk = [] →
  ∃ st km' blk', init_ramfs self heap km blk = Ret (st, km', blk') ∧
    ((st = OK ∧ heap_wf heap km' ∧ cache_inv self cur None blk' ∧
      length (b_list blk') = 100%nat ∧
      (∀ k, is_Some (content blk' k) ↔ 0 ≤ k < 80) ∧
      (∀ i, 0 ≤ i < RAMFS_PAGES → ¬ mm_live (k_frames km) (ramhead (meta blk') + 4096 * i))) ∨
     st = -1 ∨ st = -2 ∨ st = -3).
Proof.
  intros Hw Hself Hbs El Eio. unfold init_ramfs.
  rewrite (proj2 (Z.eqb_neq _ _) Hself). cbn [negb ASSERT mbind res_bind].
  destruct (fs_alloc_spec (k_frames km) RAMFS_PAGES) as (p&f&Ha&Hokf&Hp);
    [apply Hw|unfold is_u32, RAMFS_PAGES; lia|].
  change (fs_alloc (k_frames km) RAMFS_PAGES) with (mm_alloc (k_frames km) RAMFS_PAGES) in Ha.
  rewrite Ha. cbn [mbind res_bind].
  destruct (Z.eqb_spec p NULL) as [->|Hp0]; [eexists _, _, _; split; [done|right; by right; left]|].
  destruct Hp as [[? _]|(P1&P2&P3&P4&P5&P6)]; [done|]. cbv zeta.
  set (blk0 := set_meta _ blk).
  destruct (init_cache_spec self heap RAMFS_BUF_BLKS (set_frames f km) blk0)
    as (st&km1&blk1&l&E1&Hw1&Hnd&Hl&Em&Ei&Elist&Hst).
  { apply heap_wf_frames; [done|done|]. intros a Hlive. apply P6. by left. }
  { cbn. rewrite El. constructor. }
  { intros x. cbn. rewrite El. intros Hx. by apply elem_of_nil in Hx. }
  rewrite E1. cbn [mbind res_bind].
  destruct Hst as [[-> Hlen]|[-> _]]; last first.
  { cbn [negb Z.eqb]. change (negb (-1 =? 0)) with true. cbv iota.
    destruct (give_back_returns heap km1 p Hw1) as (rc&c&m&->). cbn. eexists _, _, _. split; [done|right; by left]. }
  change (negb (OK =? 0)) with false. cbv iota. rewrite (kmalloc_unfold _ _ _ Hw1).
  destruct (__kmalloc_spec heap km1 DEV_RAMFS_SIZE Hw1) as (q&km2&->&Hw2&_);
    [unfold DEV_RAMFS_SIZE; lia|]. cbn [mbind res_bind].
  destruct (Z.eqb_spec q NULL) as [_|Hq].
  { destruct (give_back_returns heap km2 p Hw2) as (rc&c&m&->). cbn. eexists _, _, _. split; [done|by do 3 right]. }
  eexists _, _, _. split; [done|]. left.
  assert (Et : total_blks (meta blk1) = 80) by (rewrite Em; cbn; by rewrite Hbs).
  assert (Eb : block_size (meta blk1) = BLOCK_SIZE) by (by rewrite Em).
  assert (El1 : b_list blk1 = l) by (rewrite Elist; cbn; by rewrite El).
  assert (Eio1 : b_io blk1 = []) by (by rewrite Ei).
  destruct (ramfs_ready self cur blk1 p) as [Hinv Hblocks]; try done.
  - rewrite El1. by destruct l.
  - intros x Hx. by apply Hl.
  - split_and!; try done. cbn. by rewrite El1.
Qed.

(** A device as [__init_blk_dev_common] leaves it. *)
Definition blk_demo : blk_dev_t dev_ramfs_t :=
  BlkDev (Ramfs 0 BLOCK_SIZE 0 (λ _, 0)) (λ _, fresh_buffer 0) [] [] (λ _, T_RUNNING).

Lemma init_ramfs_correct_witness :
  ∃ heap km st km' blk', heap_wf heap km ∧ init_ramfs 64 heap km blk_demo = Ret (st, km', blk').
Proof.
  destruct heap_demo as (heap&km&_&Hw&_).
  destruct (init_ramfs_correct 64 7 heap km blk_demo) as (st&km'&blk'&E&_);
    [exact Hw|done|reflexivity..|].
  exists heap, km, st, km', blk'. split; [exact Hw|exact E].
Defined.

(** A write to a block that the device does not have is accepted
    ([bdev_write_buffer] returns [OK]), can never be written back, and from then on
    makes the reads of other, correctly written blocks fail with -2. *)
Theorem bad_write_breaks_reads :
  match blk_calls 64 7 [WriteB 80 (replicate 512 1); WriteB 0 (replicate 512 2); ReadB 0; SyncB]
          cache_demo with
  | Ret (rs, _) => rs = [(OK, None); (OK, None); (-2, None); (1, None)]
  | _ => False
  end.
Proof. vm_compute. reflexivity. Qed.
