(* ===== verification/Device.v ===== *)
(** * The device table: [src/device.c] and [include/device.h]

    The table of devices and its lookup by name. The names and the string that is
    looked up are C strings in memory, compared with the [strcmp] of
    [string.c]. *)
From S2P Require Import Prelude CString.

Inductive dev_type_t : Type := DEV_BLOCK | DEV_LAST.

(** [dev_t]; [init_func] is the address of the function. *)
Record dev_t : Type := Dev {
  name : Z;
  type : dev_type_t;
  init_func : Z;
  ptr : Z;
  onboot : bool;
  enabled : bool;
}.

(** [get_dev_by_name] from device [i] on; the result is the index of the device
    ([None] for [NULL]). *)
Fixpoint get_dev_from (fuel : nat) (m : mem) (devices : list dev_t) (i : nat) (nm : Z)
  : res (option nat) :=
  match devices with
  | [] => Ret None
  | d :: devices =>
      c ← strcmp fuel (name d) nm m;
      if c =? 0 then Ret (Some i) else get_dev_from fuel m devices (S i) nm
  end.

Definition get_dev_by_name (fuel : nat) (m : mem) (devices : list dev_t) (nm : Z)
  : res (option nat) := get_dev_from fuel m devices 0 nm.

(** Equal, or different in the last character only: what the [strcmp] of the kernel
    takes for equal. *)
Definition same_but_last (s t : list Z) : Prop :=
  s = t ∨ ∃ u c d, s = u ++ [c] ∧ t = u ++ [d].

Definition named (m : mem) (d : dev_t) (s : list Z) : Prop := cstr m (name d) s.

Lemma get_dev_from_spec fuel m nm t devices : ∀ names i,
  Forall2 (named m) devices names → cstr m nm t → Forall (λ s, length s < fuel)%nat names →
  (∃ j s, get_dev_from fuel m devices i nm = Ret (Some (i + j)%nat) ∧ names !! j = Some s ∧
     same_but_last s t ∧ ∀ j' s', (j' < j)%nat → names !! j' = Some s' → ¬ same_but_last s' t) ∨
  (get_dev_from fuel m devices i nm = Ret None ∧ Forall (λ s, ¬ same_but_last s t) names).
Proof.
  induction devices as [|d devices IH]; intros names i Hn Ht Hf;
    [apply Forall2_nil_inv_l in Hn as ->|apply Forall2_cons_inv_l in Hn as (s&names'&Hs&Hn&->)].
  { right. by split. }
  apply Forall_cons in Hf as [Hfs Hf]. cbn [get_dev_from].
  rewrite (strcmp_spec s t) by done. cbn [mbind res_bind].
  destruct (Z.eqb_spec (strcmp_fun s t) 0) as [E|Hne].
  { left. exists 0%nat, s. rewrite Nat.add_0_r. split; [done|]. split; [done|].
    split; [by apply strcmp_fun_zero|lia]. }
  assert (Hs' : ¬ same_but_last s t) by (intros H; by apply Hne, strcmp_fun_zero).
  destruct (IH names' (S i) Hn Ht Hf) as [(j&s'&E&Hj&Hsame&Hmin)|[E Hall]].
  - left. exists (S j), s'. rewrite E. split; [by rewrite Nat.add_succ_r|]. split; [done|].
    split; [done|]. intros [|j'] r Hlt; cbn; [by intros [= <-]|]. apply Hmin. lia.
  - right. split; [done|]. by constructor.
Qed.

(** [get_dev_by_name] returns, for every table of devices with proper names, the
    first device whose name is the given string or differs from it in the last
    character only, and [NULL] if there is none. *)
Theorem get_dev_by_name_exact fuel m devices names nm t :
  Forall2 (named m) devices names → cstr m nm t → Forall (λ s, length s < fuel)%nat names →
  (∃ j s, get_dev_by_name fuel m devices nm = Ret (Some j) ∧ names !! j = Some s ∧
     same_but_last s t ∧ ∀ j' s', (j' < j)%nat → names !! j' = Some s' → ¬ same_but_last s' t) ∨
  (get_dev_by_name fuel m devices nm = Ret None ∧ Forall (λ s, ¬ same_but_last s t) names).
Proof. intros Hn Ht Hf. exact (get_dev_from_spec fuel m nm t devices names 0 Hn Ht Hf). Qed.

(** The two names of the source, at 16 and 32, and "hdb" at 48. *)
Definition names_demo : mem :=
  λ a, default 0 ((replicate 16 0 ++ [114; 97; 109; 102; 115; 0] ++ replicate 10 0 ++
                   [104; 100; 97; 0] ++ replicate 12 0 ++ [104; 100; 98; 0]) !! Z.to_nat a).

(** [static dev_t devices[]] *)
Definition devices_demo : list dev_t :=
  [Dev 16 DEV_BLOCK 1 NULL true true; Dev 32 DEV_BLOCK 2 NULL true true].

(** A string is where it is claimed to be, by evaluation. *)
Ltac string_at :=
  repeat first [apply cstr_cons; split_and! | apply cstr_nil; split_and!];
  first [reflexivity | lia | vm_compute; reflexivity].

(** Looking up "hdb" finds the device "hda". *)
Lemma get_dev_by_name_exact_witness :
  get_dev_by_name 10 names_demo devices_demo 48 = Ret (Some 1%nat) ∧
  same_but_last [104; 100; 97] [104; 100; 98].
Proof.
  destruct (get_dev_by_name_exact 10 names_demo devices_demo
              [[114; 97; 109; 102; 115]; [104; 100; 97]] 48 [104; 100; 98])
    as [(j&s&E&Hj&Hs&_)|[E _]].
  - repeat (apply Forall2_cons; split); [..|apply Forall2_nil; done]; unfold named; cbn [name]; string_at.
  - string_at.
  - repeat constructor; cbn; lia.
  - assert (Ev : get_dev_by_name 10 names_demo devices_demo 48 = Ret (Some 1%nat))
      by (vm_compute; reflexivity).
    rewrite E in Ev. injection Ev as ->. injection Hj as <-. split; [exact E|exact Hs].
  - exfalso. assert (Ev : get_dev_by_name 10 names_demo devices_demo 48 = Ret (Some 1%nat))
      by (vm_compute; reflexivity).
    rewrite E in Ev. discriminate.
Defined.
