(* ===== verification/Descriptors.v ===== *)
(** * Descriptor tables: [src/idt.c], [src/gdt.c] and their headers

    The interrupt and segment descriptors the kernel builds, the dispatch of
    interrupts, and what the processor reads from the packed bytes. The entry points of
    the assembler stubs ([isr0], [irq0], ...) are parameters. *)
From S2P Require Import Prelude.

(** The bytes of a little-endian field. *)
Definition word (x : Z) : list Z := [Z.land x 0xFF; Z.land (Z.shiftr x 8) 0xFF].

(** A bit field cut out of a 32-bit value. *)
Lemma field_div x k n : 0 ≤ k → 0 ≤ n → Z.land (Z.shiftr x k) (2 ^ n - 1) = (x / 2 ^ k) `mod` 2 ^ n.
Proof. intros Hk Hn. rewrite land_low_ones, Z.shiftr_div_pow2 by done. done. Qed.

Lemma low_field x n : 0 ≤ n → Z.land x (2 ^ n - 1) = x `mod` 2 ^ n.
Proof. apply land_low_ones. Qed.

(** Turns the bit fields of a goal into [div] and [mod]. *)
Ltac fields :=
  repeat match goal with
  | |- context [Z.land (Z.shiftr ?x ?k) 65535] =>
      change (Z.land (Z.shiftr x k) 65535) with (Z.land (Z.shiftr x k) (2 ^ 16 - 1));
      rewrite (field_div x k 16) by lia
  | |- context [Z.land (Z.shiftr ?x ?k) 255] =>
      change (Z.land (Z.shiftr x k) 255) with (Z.land (Z.shiftr x k) (2 ^ 8 - 1));
      rewrite (field_div x k 8) by lia
  | |- context [Z.land (Z.shiftr ?x ?k) 15] =>
      change (Z.land (Z.shiftr x k) 15) with (Z.land (Z.shiftr x k) (2 ^ 4 - 1));
      rewrite (field_div x k 4) by lia
  | |- context [Z.land ?x 65535] =>
      change (Z.land x 65535) with (Z.land x (2 ^ 16 - 1)); rewrite (low_field x 16) by lia
  | |- context [Z.land ?x 255] =>
      change (Z.land x 255) with (Z.land x (2 ^ 8 - 1)); rewrite (low_field x 8) by lia
  end;
  change (2 ^ 24) with 16777216 in *; change (2 ^ 16) with 65536 in *;
  change (2 ^ 8) with 256 in *; change (2 ^ 4) with 16 in *.

(** ** Interrupt gates *)
Module Idt.

(** [idt_entry_t] *)
Record idt_entry_t : Type := Gate {
  base_lo : Z;
  sel : Z;
  always0 : Z;
  flags : Z;
  base_hi : Z;
}.

Definition zero_gate : idt_entry_t := Gate 0 0 0 0 0.

(** [idt_set_gate] *)
Definition idt_set_gate (num base sel flags : Z) (idt : Z → idt_entry_t) : Z → idt_entry_t :=
  <[u8 num := Gate (Z.land base 0xFFFF) (u16 sel) 0 (u8 flags)
                   (Z.land (Z.shiftr base 16) 0xFFFF)]> idt.

Definition IRQ0 : Z := 32.
Definition IRQ15 : Z := 47.
Definition IRQ_INVAL_TLB : Z := 52.
Definition IRQ_STOP_CPU : Z := 53.
Definition IRQ_LOCAL_TIMER : Z := 54.

Section Idt.
(** The stubs of [interrupt.s]. *)
Context (isr irq : Z → Z) (smp_irq_inval_tlb smp_irq_stop_cpu smp_irq_local_timer : Z).

(** The calls [idt_set_gate(first + i, stub_i, 0x08, 0x8E)], [n] of them. *)
Definition set_gates (first n : Z) (stub : Z → Z) (idt : Z → idt_entry_t) : Z → idt_entry_t :=
  foldl (λ idt i, idt_set_gate (first + i) (stub i) 0x08 0x8E idt) idt (seqZ 0 n).

(** [init_cpu_isr] *)
Definition init_cpu_isr (idt : Z → idt_entry_t) : Z → idt_entry_t := set_gates 0 32 isr idt.

(** [init_8259A]: the port writes and the gates. *)
Definition init_8259A (idt : Z → idt_entry_t) : list (Z * Z) * (Z → idt_entry_t) :=
  ([(0x20, 0x11); (0xA0, 0x11); (0x21, 0x20); (0xA1, 0x28); (0x21, 0x04); (0xA1, 0x02);
    (0x21, 0x01); (0xA1, 0x01); (0x21, 0x0); (0xA1, 0x0)],
   set_gates 32 16 irq idt).

(** [init_smp_irq] *)
Definition init_smp_irq (ismp : bool) (idt : Z → idt_entry_t) : Z → idt_entry_t :=
  if negb ismp then idt
  else
    idt_set_gate IRQ_LOCAL_TIMER smp_irq_local_timer 0x08 0x8E
      (idt_set_gate IRQ_STOP_CPU smp_irq_stop_cpu 0x08 0x8E
        (idt_set_gate IRQ_INVAL_TLB smp_irq_inval_tlb 0x08 0x8E idt)).

(** [init_idt]: the limit of the table, the port writes, the table. *)
Definition init_idt (ismp : bool) : Z * list (Z * Z) * (Z → idt_entry_t) :=
  let idt := init_cpu_isr (λ _, zero_gate) in
  let '(ports, idt) := init_8259A idt in
  (u16 (8 * 256 - 1), ports, init_smp_irq ismp idt).

(** The stub each vector should reach. *)
Definition stub_of (ismp : bool) (v : Z) : option Z :=
  if (0 <=? v) && (v <? 32) then Some (isr v)
  else if (32 <=? v) && (v <? 48) then Some (irq (v - 32))
  else if negb ismp then None
  else if v =? IRQ_INVAL_TLB then Some smp_irq_inval_tlb
  else if v =? IRQ_STOP_CPU then Some smp_irq_stop_cpu
  else if v =? IRQ_LOCAL_TIMER then Some smp_irq_local_timer
  else None.
End Idt.

(** The packed bytes of a gate. *)
Definition gate_bytes (g : idt_entry_t) : list Z :=
  word (base_lo g) ++ word (sel g) ++ [always0 g; flags g] ++ word (base_hi g).

(** What the processor reads from a gate descriptor: the present bit, the gate type,
    the privilege level, the selector and the entry point. *)
Record gate_view : Type := GateView {
  g_present : bool; g_type : Z; g_dpl : Z; g_selector : Z; g_offset : Z }.

Definition view_gate (l : list Z) : gate_view :=
  let b i := default 0 (l !! i) in
  GateView (128 <=? b 5%nat) (b 5%nat `mod` 32) ((b 5%nat / 32) `mod` 4)
    (b 2%nat + 256 * b 3%nat)
    (b 0%nat + 256 * b 1%nat + 65536 * (b 6%nat + 256 * b 7%nat)).

(** ** Dispatch *)

(** What a dispatch does: port writes, the end-of-interrupt write of the local APIC,
    the call of a handler, the message for an unexpected interrupt. *)
Inductive event : Type := Outb (port v : Z) | LapicEoi | CallHandler (h : Z) | Unexpected (n : Z).

(** [isr_handler]; a handler is its address, 0 for none. *)
Definition isr_handler (handlers : Z → Z) (int_no : Z) : list event :=
  if negb (handlers int_no =? 0) then [CallHandler (handlers int_no)] else [Unexpected int_no].

(** [lapic_eoi] (its registers are mapped when there is a local APIC) *)
Definition lapic_eoi (ismp : bool) : list event := if negb ismp then [] else [LapicEoi].

(** [irq_handler] *)
Definition irq_handler (ismp : bool) (handlers : Z → Z) (int_no : Z) : list event :=
  (if (IRQ0 <=? int_no) && (int_no <=? IRQ15) then
     (if 40 <=? int_no then [Outb 0xA0 0x20] else []) ++ [Outb 0x20 0x20]
   else []) ++
  lapic_eoi ismp ++
  (if negb (handlers int_no =? 0) then [CallHandler (handlers int_no)] else []).

(** [register_interrupt_handler] *)
Definition register_interrupt_handler (n handler : Z) (handlers : Z → Z) : Z * (Z → Z) :=
  (handlers (u8 n), <[u8 n := handler]> handlers).

(** ** Lemmas *)

Lemma u8_small x : 0 ≤ x < 256 → u8 x = x.
Proof. apply Z.mod_small. Qed.

Lemma set_gates_at first n stub idt v :
  0 ≤ first → first + n ≤ 256 → 0 ≤ n →
  set_gates first n stub idt v =
  if (first <=? v) && (v <? first + n)
  then idt_set_gate v (stub (v - first)) 0x08 0x8E (λ _, zero_gate) v else idt v.
Proof.
  intros Hf Hn H0. revert Hn. pattern n. apply natlike_ind; [| |done].
  - intros _. unfold set_gates. cbn. zbool; done.
  - intros k Hk IH Hn. unfold set_gates. rewrite <- Z.add_1_r, seqZ_app by lia. cbn [seqZ].
    rewrite foldl_app. fold (set_gates first k stub idt).
    replace (seqZ (0 + k) 1) with [k] by (cbn; f_equal; lia). cbn [foldl].
    unfold idt_set_gate. rewrite (u8_small (first + k)) by lia.
    destruct (decide (v = first + k)) as [->|Hne].
    + rewrite fn_lookup_insert. zbool. rewrite (u8_small (first + k)), fn_lookup_insert by lia.
      by replace (first + k - first) with k by lia.
    + rewrite fn_lookup_insert_ne by done. rewrite IH by lia. unfold idt_set_gate. zbool; done.
Qed.

Lemma set_gate_ne num base sel flags idt v :
  u8 num ≠ v → idt_set_gate num base sel flags idt v = idt v.
Proof. apply fn_lookup_insert_ne. Qed.

Lemma view_set_gate v base :
  0 ≤ v < 256 → is_u32 base → ∀ idt,
  view_gate (gate_bytes (idt_set_gate v base 0x08 0x8E idt v)) = GateView true 14 0 8 base.
Proof.
  intros Hv Hb idt. unfold idt_set_gate. rewrite u8_small, fn_lookup_insert by done.
  unfold view_gate, gate_bytes, word. cbn [base_lo base_hi sel always0 flags app lookup list_lookup default].
  unfold is_u32 in Hb. f_equal; [done..|]. cbn.
  fields. dlia.
Qed.

(** After [init_idt] the 256-entry table sends every vector to its stub. The
    processor reads, from the bytes of the gates of the 32 exceptions, the 16 PIC
    lines and (with several processors) the three SMP vectors, a present 32-bit
    interrupt gate of ring 0 in the kernel code segment whose entry point is exactly
    the stub's address; every other gate is not present. *)
Theorem init_idt_correct isr irq inval stop timer ismp v :
  (∀ i, is_u32 (isr i)) → (∀ i, is_u32 (irq i)) → is_u32 inval → is_u32 stop → is_u32 timer →
  0 ≤ v < 256 →
  let '(limit, _, idt) := init_idt isr irq inval stop timer ismp in
  limit = 8 * 256 - 1 ∧
  match stub_of isr irq inval stop timer ismp v with
  | Some h => view_gate (gate_bytes (idt v)) = GateView true 14 0 8 h
  | None => g_present (view_gate (gate_bytes (idt v))) = false
  end.
Proof.
  intros Hisr Hirq H1 H2 H3 Hv. unfold init_idt, init_8259A. split; [done|].
  assert (Hbase : ∀ w, set_gates 32 16 irq (init_cpu_isr isr (λ _, zero_gate)) w =
    if (32 <=? w) && (w <? 48) then idt_set_gate w (irq (w - 32)) 0x08 0x8E (λ _, zero_gate) w
    else if (0 <=? w) && (w <? 32) then idt_set_gate w (isr w) 0x08 0x8E (λ _, zero_gate) w
    else zero_gate).
  { intros w. unfold init_cpu_isr. rewrite !set_gates_at by lia. by rewrite Z.sub_0_r. }
  set (idt := set_gates 32 16 irq _) in *.
  assert (Hlow : ∀ h, stub_of isr irq inval stop timer false v = Some h →
    view_gate (gate_bytes (idt v)) = GateView true 14 0 8 h).
  { intros h. unfold stub_of. rewrite Hbase. zbool; intros [= <-]; by apply view_set_gate. }
  assert (Hnone : stub_of isr irq inval stop timer false v = None → idt v = zero_gate).
  { unfold stub_of. rewrite Hbase. by zbool. }
  unfold init_smp_irq. destruct ismp; cbn [negb].
  - destruct (decide (v = 54)) as [->|N54]; [by apply view_set_gate|].
    destruct (decide (v = 53)) as [->|N53].
    { rewrite (set_gate_ne IRQ_LOCAL_TIMER) by done. by apply view_set_gate. }
    destruct (decide (v = 52)) as [->|N52].
    { rewrite (set_gate_ne IRQ_LOCAL_TIMER), (set_gate_ne IRQ_STOP_CPU) by done.
      by apply view_set_gate. }
    rewrite !set_gate_ne by (vm_compute; congruence).
    replace (stub_of isr irq inval stop timer true v)
      with (stub_of isr irq inval stop timer false v).
    + destruct (stub_of isr irq inval stop timer false v) as [h|] eqn:E; [by apply Hlow|].
      by rewrite Hnone.
    + unfold stub_of, IRQ_INVAL_TLB, IRQ_STOP_CPU, IRQ_LOCAL_TIMER. cbn [negb].
      rewrite (proj2 (Z.eqb_neq v 52)), (proj2 (Z.eqb_neq v 53)), (proj2 (Z.eqb_neq v 54)) by done.
      done.
  - destruct (stub_of isr irq inval stop timer false v) as [h|] eqn:E; [by apply Hlow|].
    by rewrite Hnone.
Qed.

Lemma init_idt_correct_witness :
  let '(_, _, idt) := init_idt (λ i, 0x100000 + i `mod` 256) (λ i, 0x200000 + i `mod` 256) 1 2 3 true in
  view_gate (gate_bytes (idt 14)) = GateView true 14 0 8 0x10000E.
Proof.
  pose proof (init_idt_correct (λ i, 0x100000 + i `mod` 256) (λ i, 0x200000 + i `mod` 256) 1 2 3 true 14)
    as H.
  destruct H as [_ H].
  - intros i. unfold is_u32. pose proof (Z.mod_pos_bound i 256). lia.
  - intros i. unfold is_u32. pose proof (Z.mod_pos_bound i 256). lia.
  - unfold is_u32; lia.
  - unfold is_u32; lia.
  - unfold is_u32; lia.
  - lia.
  - exact H.
Defined.
End Idt.

(** ** Segment descriptors *)
Module Gdt.

Definition SEG_NULL : Z := 0.
Definition SEG_KCODE : Z := 1.
Definition SEG_KDATA : Z := 2.
Definition SEG_UCODE : Z := 3.
Definition SEG_UDATA : Z := 4.
Definition MAX_GDT_ENT_PCPU : Z := 10.

(** [gdt_entry_t] *)
Record gdt_entry_t : Type := Seg {
  limit_low : Z;
  base_low : Z;
  base_middle : Z;
  access : Z;
  granularity : Z;
  base_high : Z;
}.

(** [gdt_set_gate] *)
Definition gdt_set_gate (num base limit access gran : Z) (gdt : Z → gdt_entry_t)
  : Z → gdt_entry_t :=
  <[num := Seg (Z.land limit 0xFFFF) (Z.land base 0xFFFF) (Z.land (Z.shiftr base 16) 0xFF)
               access (Z.lor (Z.land (Z.shiftr limit 16) 0x0F) (Z.land gran 0xF0))
               (Z.land (Z.shiftr base 24) 0xFF)]> gdt.

(** [init_gdt]: the limit of the table and its entries. *)
Definition init_gdt (gdt : Z → gdt_entry_t) : Z * (Z → gdt_entry_t) :=
  (8 * MAX_GDT_ENT_PCPU - 1,
   gdt_set_gate SEG_UDATA 0 0xFFFFFFFF 0xF2 0xCF
    (gdt_set_gate SEG_UCODE 0 0xFFFFFFFF 0xFA 0xCF
      (gdt_set_gate SEG_KDATA 0 0xFFFFFFFF 0x92 0xCF
        (gdt_set_gate SEG_KCODE 0 0xFFFFFFFF 0x9A 0xCF
          (gdt_set_gate SEG_NULL 0 0 0 0 gdt))))).

(** The packed bytes of a descriptor. *)
Definition seg_bytes (e : gdt_entry_t) : list Z :=
  word (limit_low e) ++ word (base_low e) ++
  [base_middle e; access e; granularity e; base_high e].

(** What the processor reads from a segment descriptor: the base, the 20-bit limit,
    the access byte and the four flags (granularity, size, ...). *)
Definition view_seg (l : list Z) : Z * Z * Z * Z :=
  let b i := default 0 (l !! i) in
  (b 2%nat + 256 * b 3%nat + 65536 * b 4%nat + 16777216 * b 7%nat,
   b 0%nat + 256 * b 1%nat + 65536 * (b 6%nat `mod` 16), b 5%nat, b 6%nat / 16).

(** The nibbles of the granularity byte. *)
Lemma granularity_split l g :
  is_u32 l → 0 ≤ g < 256 →
  Z.lor (Z.land (Z.shiftr l 16) 15) (Z.land g 240) = (l / 65536) `mod` 16 + 16 * (g / 16).
Proof.
  intros Hl Hg. change 15 with (2 ^ 4 - 1). rewrite field_div by lia.
  assert (E : Forall (λ x, Z.land x 240 = 16 * (x / 16)) (seqZ 0 256)).
  { apply (bool_decide_unpack _). vm_compute. done. }
  rewrite Forall_forall in E. rewrite (E g) by (apply elem_of_seqZ; lia).
  rewrite Z.lor_comm, (lor_aligned _ _ 4); [change (2 ^ 16) with 65536; change (2 ^ 4) with 16; lia|lia|..].
  - change (2 ^ 4) with 16. dlia.
  - apply Z.mod_pos_bound. lia.
Qed.

(** [gdt_set_gate] encodes every descriptor: from the eight bytes it leaves, the
    processor reads back the base, the low 20 bits of the limit, the access byte and
    the high nibble of [gran]; no other entry changes. *)
Theorem gdt_set_gate_correct num base limit acc gran gdt :
  is_u32 base → is_u32 limit → 0 ≤ acc < 256 → 0 ≤ gran < 256 →
  let gdt' := gdt_set_gate num base limit acc gran gdt in
  view_seg (seg_bytes (gdt' num)) = (base, limit `mod` 2 ^ 20, acc, gran / 16) ∧
  ∀ n, n ≠ num → gdt' n = gdt n.
Proof.
  intros Hb Hl Ha Hg. cbv zeta. split; [|intros n Hn; by apply fn_lookup_insert_ne].
  unfold gdt_set_gate. rewrite fn_lookup_insert, granularity_split by done.
  unfold view_seg, seg_bytes, word. cbn [limit_low base_low base_middle access granularity base_high app].
  cbn. unfold is_u32 in *. fields. change (2 ^ 20) with 1048576.
  f_equal; [f_equal; f_equal|]; dlia.
Qed.

Lemma gdt_set_gate_correct_witness :
  view_seg (seg_bytes (gdt_set_gate 1 0 0xFFFFFFFF 0x9A 0xCF (λ _, Seg 0 0 0 0 0 0) 1)) =
  (0, 0xFFFFF, 0x9A, 0xC).
Proof.
  destruct (gdt_set_gate_correct 1 0 0xFFFFFFFF 0x9A 0xCF (λ _, Seg 0 0 0 0 0 0)) as [E _];
    [unfold is_u32; lia..|lia|lia|]. exact E.
Defined.
End Gdt.
