(* ===== verification/Console.v ===== *)
(** * The console: [src/C80.c] and the printing part of [src/printk.c]

    The screen is the 16-bit cells of the text-mode frame buffer, indexed from
    [video_memory]; the cursor is two bytes; what the code sends to the
    controller of the hardware cursor is the sequence of its [outb]s.

    The specification is a roll of paper: characters are put on lines that are
    never reused, and the screen is the window of 25 lines that ends at the line
    being written. *)
From S2P Require Import Prelude Printk.

(** [real_color_t] of [include/C80.h] *)
Inductive real_color_t : Type :=
  | rc_black | rc_blue | rc_green | rc_cyan | rc_red | rc_magenta | rc_brown
  | rc_light_grey | rc_dark_grey | rc_light_blue | rc_light_green | rc_light_cyan
  | rc_light_red | rc_light_magenta | rc_light_brown | rc_white.

Definition color_value (c : real_color_t) : Z :=
  match c with
  | rc_black => 0 | rc_blue => 1 | rc_green => 2 | rc_cyan => 3
  | rc_red => 4 | rc_magenta => 5 | rc_brown => 6 | rc_light_grey => 7
  | rc_dark_grey => 8 | rc_light_blue => 9 | rc_light_green => 10
  | rc_light_cyan => 11 | rc_light_red => 12 | rc_light_magenta => 13
  | rc_light_brown => 14 | rc_white => 15
  end.

(** ** State *)

Record console : Type := Con {
  cursor_x : Z;                  (* _u8 *)
  cursor_y : Z;                  (* _u8 *)
  video_memory : Z → Z;          (* _u16 cells *)
  ports : list (Z * Z);          (* outb(port, value), oldest first *)
}.

Definition set_cursor (s : console) (x y : Z) : console :=
  Con x y (video_memory s) (ports s).

Definition set_cell (s : console) (i v : Z) : console :=
  Con (cursor_x s) (cursor_y s) (<[i := u16 v]> (video_memory s)) (ports s).

(** [outb(port, value)] takes a [_u16] and a [_u8]. *)
Definition outb (s : console) (port value : Z) : console :=
  Con (cursor_x s) (cursor_y s) (video_memory s) (ports s ++ [(u16 port, u8 value)]).

(** ** Operations *)

(** [static void move_cursor()] *)
Definition move_cursor (s : console) : console :=
  let cursorLocation := u16 (cursor_y s * 80 + cursor_x s) in
  let s := outb s 0x3D4 14 in
  let s := outb s 0x3D5 (Z.shiftr cursorLocation 8) in
  let s := outb s 0x3D4 15 in
  outb s 0x3D5 cursorLocation.

Definition blank : Z :=
  let attributeByte := u8 (Z.lor (Z.shiftl 0 4) (Z.land 15 0x0F)) in
  u16 (Z.lor 0x20 (Z.shiftl attributeByte 8)).

(** [for (i = a; i < b; i++) body] *)
Definition for_cells (body : console → Z → console) (a b : Z) (s : console) : console :=
  foldl body s (seqZ a (b - a)).

(** [for (i = 0 * 80; i < 24 * 80; i++) video_memory[i] = video_memory[i + 80];] *)
Definition move_rows (s : console) : console :=
  for_cells (λ s i, set_cell s i (video_memory s (i + 80))) (0 * 80) (24 * 80) s.

(** [for (i = a; i < b; i++) video_memory[i] = blank;] *)
Definition fill_blank (a b : Z) (s : console) : console :=
  for_cells (λ s i, set_cell s i blank) a b s.

(** [static void scroll()] *)
Definition scroll (s : console) : console :=
  if 25 <=? cursor_y s then
    let s := move_rows s in
    let s := fill_blank (24 * 80) (25 * 80) s in
    set_cursor s (cursor_x s) 24
  else s.

(** [void c80_put(char c)]; [c] is a signed character. *)
Definition c80_put (s : console) (c : Z) : console :=
  let backColour := 0 in
  let foreColour := 15 in
  let attributeByte := u8 (Z.lor (Z.shiftl backColour 4) (Z.land foreColour 0x0F)) in
  let attribute := u16 (Z.shiftl attributeByte 8) in
  let s :=
    if (c =? 8) && negb (cursor_x s =? 0) then
      set_cursor s (u8 (cursor_x s - 1)) (cursor_y s)
    else if c =? 9 then
      set_cursor s (u8 (Z.land (cursor_x s + 8) (Z.lnot (8 - 1)))) (cursor_y s)
    else if c =? 13 then
      set_cursor s 0 (cursor_y s)
    else if c =? 10 then
      set_cursor s 0 (u8 (cursor_y s + 1))
    else if 32 <=? c then
      let location := cursor_y s * 80 + cursor_x s in
      let s := set_cell s location (Z.lor c attribute) in
      set_cursor s (u8 (cursor_x s + 1)) (cursor_y s)
    else s in
  let s := if 80 <=? cursor_x s then set_cursor s 0 (u8 (cursor_y s + 1)) else s in
  let s := scroll s in
  move_cursor s.

(** [void c80_clear()] *)
Definition c80_clear (s : console) : console :=
  let s := fill_blank 0 (80 * 25) s in
  let s := set_cursor s 0 0 in
  move_cursor s.

(** [void c80_write(char *c)]: the bytes of the string up to the first zero. *)
Fixpoint c80_write (s : console) (c : list Z) : console :=
  match c with
  | [] => s
  | ch :: rest => if s8 ch =? 0 then s else c80_write (c80_put s (s8 ch)) rest
  end.

(** [void c80_putc_color(char c, real_color_t back, real_color_t fore)] *)
Definition c80_putc_color (s : console) (c : Z) (back fore : real_color_t) : console :=
  let back_color := u8 (color_value back) in
  let fore_color := u8 (color_value fore) in
  let attribute_byte := u8 (Z.lor (Z.shiftl back_color 4) (Z.land fore_color 0x0F)) in
  let attribute := u16 (Z.shiftl attribute_byte 8) in
  let s :=
    if (c =? 8) && negb (cursor_x s =? 0) then
      set_cursor s (u8 (cursor_x s - 1)) (cursor_y s)
    else if c =? 9 then
      set_cursor s (u8 (Z.land (cursor_x s + 8) (Z.lnot (8 - 1)))) (cursor_y s)
    else if c =? 13 then
      set_cursor s 0 (cursor_y s)
    else if c =? 10 then
      set_cursor s 0 (u8 (cursor_y s + 1))
    else if 32 <=? c then
      let s := set_cell s (cursor_y s * 80 + cursor_x s) (Z.lor c attribute) in
      set_cursor s (u8 (cursor_x s + 1)) (cursor_y s)
    else s in
  let s := if 80 <=? cursor_x s then set_cursor s 0 (u8 (cursor_y s + 1)) else s in
  let s := scroll s in
  move_cursor s.

(** [void c80_write_color(char *cstr, real_color_t back, real_color_t fore)] *)
Fixpoint c80_write_color (s : console) (cstr : list Z) (back fore : real_color_t) : console :=
  match cstr with
  | [] => s
  | ch :: rest =>
      if s8 ch =? 0 then s
      else c80_write_color (c80_putc_color s (s8 ch) back fore) rest back fore
  end.

(** [char buff[1024]] receives the output and a zero; a longer output is written past
    its end, where the model stops. The second component is what [%n] stores. *)
Definition fill_buff (format : list Z) (args : list arg) : res (list Z * list (Z * Z)) :=
  '(out, stores) ← vsprintf format args;
  if Z.of_nat (length out) <? 1024 then Ret (out ++ [0], stores) else Panic "buff overflow".

(** [void printk(const char *format, ...)] *)
Definition printk (s : console) (format : list Z) (args : list arg)
  : res (console * list (Z * Z)) :=
  '(buff, stores) ← fill_buff format args;
  Ret (c80_write s buff, stores).

(** [void printk_color(real_color_t back, real_color_t fore, const char *format, ...)] *)
Definition printk_color (s : console) (back fore : real_color_t) (format : list Z)
    (args : list arg) : res (console * list (Z * Z)) :=
  '(buff, stores) ← fill_buff format args;
  Ret (c80_write_color s buff back fore, stores).

(** ** Specification: a roll of paper *)

Record paper : Type := Paper {
  ink : Z → Z → Z;    (* line, column *)
  line : Z;
  col : Z;
}.

Definition blank_paper : paper := Paper (λ _ _, blank) 0 0.

(** A character with its colours. *)
Definition glyph (c : Z) (back fore : real_color_t) : Z :=
  c + 256 * (16 * color_value back + color_value fore).

Definition next_line (p : paper) : paper := Paper (ink p) (line p + 1) 0.

Definition mark (p : paper) (v : Z) : paper :=
  Paper (<[line p := <[col p := v]> (ink p (line p))]> (ink p)) (line p) (col p).

(** Move right; a line is 80 columns wide. *)
Definition advance (p : paper) (x : Z) : paper :=
  if x <? 80 then Paper (ink p) (line p) x else next_line p.

Definition paper_put (back fore : real_color_t) (p : paper) (c : Z) : paper :=
  if c =? 8 then Paper (ink p) (line p) (Z.max 0 (col p - 1))
  else if c =? 9 then advance p (8 * (col p / 8 + 1))
  else if c =? 10 then next_line p
  else if c =? 13 then Paper (ink p) (line p) 0
  else if 32 <=? c then advance (mark p (glyph c back fore)) (col p + 1)
  else p.

(** The characters of a C string. *)
Fixpoint cstring (l : list Z) : list Z :=
  match l with
  | [] => []
  | ch :: rest => if s8 ch =? 0 then [] else s8 ch :: cstring rest
  end.

(** The first line of the window. *)
Definition top (p : paper) : Z := Z.max 0 (line p - 24).

(** The screen of [s] is the window of [p]. *)
Record shows (s : console) (p : paper) : Prop := {
  sh_col : 0 ≤ col p < 80;
  sh_line : 0 ≤ line p;
  sh_x : cursor_x s = col p;
  sh_y : cursor_y s = line p - top p;
  sh_cells : ∀ r c, 0 ≤ r < 25 → 0 ≤ c < 80 →
    video_memory s (80 * r + c) = ink p (top p + r) c;
  sh_below : ∀ l c, line p < l → ink p l c = blank;
  sh_width : ∀ l c, 0 ≤ ink p l c < 65536;
}.

(** What the cursor controller is sent for a location. *)
Definition cursor_writes (loc : Z) : list (Z * Z) :=
  [(0x3D4, 14); (0x3D5, loc / 256); (0x3D4, 15); (0x3D5, loc `mod` 256)].

(** Cells that are not on the screen. *)
Definition off_screen (i : Z) : Prop := i < 0 ∨ 2000 ≤ i.

(** One call leaves the rest of memory alone and ends with the hardware cursor set. *)
Record tidy (s s' : console) : Prop := {
  td_off : ∀ i, off_screen i → video_memory s' i = video_memory s i;
  td_ports : ports s' = ports s ++ cursor_writes (80 * cursor_y s' + cursor_x s');
}.

(** ** Loops over the cells *)

(** What a pass over the cells [a..b-1] leaves alone, and what it puts there. *)
Record filled (a b : Z) (v : Z → Z) (s s' : console) : Prop := {
  fd_x : cursor_x s' = cursor_x s;
  fd_y : cursor_y s' = cursor_y s;
  fd_ports : ports s' = ports s;
  fd_in : ∀ k, a ≤ k < b → video_memory s' k = v k;
  fd_out : ∀ k, k < a ∨ b ≤ k → video_memory s' k = video_memory s k;
}.

(** A loop that sets each cell from cells it has not set yet. *)
Lemma for_set (g : (Z → Z) → Z → Z) a b s :
  (∀ m i j v, j < i → g (<[j := v]> m) i = g m i) → a ≤ b →
  filled a b (λ k, u16 (g (video_memory s) k)) s
    (for_cells (λ s i, set_cell s i (g (video_memory s) i)) a b s).
Proof.
  intros Hg Hab. unfold for_cells. remember (Z.to_nat (b - a)) as n eqn:Hn.
  revert a s Hab Hn. induction n as [|n IH]; intros a s Hab Hn.
  { replace (b - a) with 0 by lia. split; [done..| |done]. intros k. lia. }
  rewrite seqZ_cons by lia. cbn [foldl].
  replace (Z.pred (b - a)) with (b - Z.succ a) by lia.
  destruct (IH (Z.succ a) (set_cell s a (g (video_memory s) a))) as [Hx Hy Hp Hi Ho]; [lia..|].
  cbn [set_cell video_memory] in Hi, Ho.
  split; [done..| |]; intros k Hk.
  - destruct (decide (k = a)) as [->|].
    + rewrite Ho, fn_lookup_insert by lia. done.
    + rewrite Hi, Hg by lia. done.
  - rewrite Ho, fn_lookup_insert_ne by lia. done.
Qed.

Lemma move_rows_spec s :
  filled 0 1920 (λ k, u16 (video_memory s (k + 80))) s (move_rows s).
Proof.
  apply (for_set (λ m i, m (i + 80))); [|lia].
  intros. rewrite fn_lookup_insert_ne by lia. done.
Qed.

Lemma fill_blank_spec a b s : a ≤ b → filled a b (λ _, blank) s (fill_blank a b s).
Proof. intros. by apply (for_set (λ _ _, blank)). Qed.

#[local] Opaque move_rows fill_blank.

Lemma blank_width : 0 ≤ blank < 65536.
Proof. done. Qed.

(** [scroll] past the last row: every row moves up, the last becomes blank. *)
Record scrolled (s s' : console) : Prop := {
  sc_x : cursor_x s' = cursor_x s;
  sc_y : cursor_y s' = 24;
  sc_ports : ports s' = ports s;
  sc_rows : ∀ k, 0 ≤ k < 1920 → video_memory s' k = video_memory s (k + 80);
  sc_last : ∀ k, 1920 ≤ k < 2000 → video_memory s' k = blank;
  sc_off : ∀ k, off_screen k → video_memory s' k = video_memory s k;
}.

Lemma scroll_spec s :
  (∀ i, 0 ≤ i < 2000 → 0 ≤ video_memory s i < 65536) →
  25 ≤ cursor_y s → scrolled s (scroll s).
Proof.
  intros Hw Hy. unfold scroll. destruct (Z.leb_spec 25 (cursor_y s)); [|lia].
  destruct (move_rows_spec s) as [Hx1 Hy1 Hp1 Hi1 Ho1].
  destruct (fill_blank_spec (24 * 80) (25 * 80) (move_rows s)) as [Hx2 Hy2 Hp2 Hi2 Ho2]; [lia|].
  cbv zeta. generalize dependent (fill_blank (24 * 80) (25 * 80) (move_rows s)).
  generalize dependent (move_rows s). intros s1 Hx1 Hy1 Hp1 Hi1 Ho1 s2 Hx2 Hy2 Hp2 Hi2 Ho2.
  split; cbn [set_cursor cursor_x cursor_y ports video_memory]; [congruence|done|congruence|..].
  - intros k Hk. rewrite Ho2, Hi1 by lia. apply Z.mod_small, Hw. lia.
  - intros k Hk. apply Hi2. lia.
  - intros k Hk. unfold off_screen in Hk. rewrite Ho2, Ho1 by lia. done.
Qed.

Lemma scroll_noop s : cursor_y s < 25 → scroll s = s.
Proof. intros. unfold scroll. by destruct (Z.leb_spec 25 (cursor_y s)); [lia|]. Qed.

Lemma move_cursor_fields s :
  cursor_x (move_cursor s) = cursor_x s ∧ cursor_y (move_cursor s) = cursor_y s ∧
  video_memory (move_cursor s) = video_memory s.
Proof. done. Qed.

Lemma move_cursor_ports s :
  0 ≤ cursor_x s < 80 → 0 ≤ cursor_y s < 25 →
  ports (move_cursor s) = ports s ++ cursor_writes (80 * cursor_y s + cursor_x s).
Proof.
  intros Hx Hy. destruct s as [x y vm ps]. cbn [cursor_x cursor_y] in *.
  unfold move_cursor, outb. cbn [ports cursor_x cursor_y].
  rewrite <- !(assoc_L (++)). cbn [app]. unfold cursor_writes, u16, u8.
  rewrite Z.shiftr_div_pow2 by lia. change (2 ^ 8) with 256.
  rewrite (Z.mul_comm y 80), (Z.mod_small (80 * y + x) 65536) by lia.
  rewrite (Z.mod_small (_ / 256) 256) by dlia. done.
Qed.

(** ** The end of a put: wrap, scroll, hardware cursor *)

Definition settle (s : console) : console :=
  move_cursor (scroll (if 80 <=? cursor_x s then set_cursor s 0 (u8 (cursor_y s + 1)) else s)).

Lemma shows_y s p : shows s p → 0 ≤ cursor_y s < 25.
Proof. intros [Hc Hl Hx Hy _ _ _]. unfold top in Hy. lia. Qed.

Lemma shows_width s p i : shows s p → 0 ≤ i < 2000 → 0 ≤ video_memory s i < 65536.
Proof.
  intros Hs Hi. replace i with (80 * (i / 80) + i `mod` 80) by dlia.
  rewrite (sh_cells _ _ Hs) by dlia. apply (sh_width _ _ Hs).
Qed.

Lemma shows_move_cursor s p : shows s p → shows (move_cursor s) p.
Proof. intros [Hc Hl Hx Hy Hv Hb Hw]. by split. Qed.

Lemma settle_stay s p : shows s p → shows (settle s) p ∧ tidy s (settle s).
Proof.
  intros Hs. pose proof (shows_y _ _ Hs) as Hy. pose proof (sh_col _ _ Hs) as Hc.
  pose proof (sh_x _ _ Hs) as Hx. unfold settle.
  destruct (Z.leb_spec 80 (cursor_x s)); [lia|]. rewrite scroll_noop by lia.
  split; [by apply shows_move_cursor|]. split; [done|]. by rewrite move_cursor_ports by lia.
Qed.

(** The next line, whether or not the window moves. *)
Lemma scroll_next s p :
  shows s p →
  shows (scroll (set_cursor s 0 (cursor_y s + 1))) (next_line p) ∧
  ports (scroll (set_cursor s 0 (cursor_y s + 1))) = ports s ∧
  ∀ i, off_screen i →
    video_memory (scroll (set_cursor s 0 (cursor_y s + 1))) i = video_memory s i.
Proof.
  intros Hs. pose proof (shows_y _ _ Hs) as Hyr.
  pose proof (λ i, shows_width _ _ i Hs) as Hwd. destruct Hs as [Hc Hl Hx Hy Hv Hb Hw].
  remember (set_cursor s 0 (cursor_y s + 1)) as s1 eqn:E1.
  assert (cursor_x s1 = 0 ∧ cursor_y s1 = cursor_y s + 1 ∧ video_memory s1 = video_memory s ∧
          ports s1 = ports s) as (Hx1&Hy1&Hv1&Hp1) by (subst; done).
  clear E1. rewrite <- Hv1 in Hwd, Hv.
  destruct (decide (cursor_y s1 < 25)) as [Hlt|Hge].
  - rewrite scroll_noop by done. split; [|by rewrite Hv1].
    assert (Htop : top (next_line p) = top p) by (unfold top, next_line in *; cbn; lia).
    split; rewrite ?Htop; cbn; [lia..| | |done].
    + done.
    + intros l c Hlc. apply Hb. lia.
  - destruct (scroll_spec s1) as [Sx Sy Sp Sr Sl So]; [done|lia|].
    assert (Htop : top (next_line p) = top p + 1) by (unfold top, next_line in *; cbn; lia).
    split; [|split; [congruence|intros i Hi; rewrite So, Hv1 by done; done]].
    split; rewrite ?Htop, ?Sx, ?Sy; cbn; [lia..| | |done].
    + intros r c Hr Hcc. destruct (decide (r = 24)) as [->|].
      * rewrite Sl by lia. symmetry. apply Hb. unfold top in *. lia.
      * rewrite Sr by lia. replace (80 * r + c + 80) with (80 * (r + 1) + c) by lia.
        rewrite Hv by lia. f_equal. lia.
    + intros l c Hlc. apply Hb. lia.
Qed.

Lemma settle_next s p s1 :
  shows s p → video_memory s1 = video_memory s → ports s1 = ports s →
  (cursor_x s1 = 0 ∧ cursor_y s1 = u8 (cursor_y s + 1) ∨
   80 ≤ cursor_x s1 ∧ cursor_y s1 = cursor_y s) →
  shows (settle s1) (next_line p) ∧ tidy s (settle s1).
Proof.
  intros Hs Hvm Hpt Hcur. pose proof (shows_y _ _ Hs) as Hyr.
  destruct (scroll_next _ _ Hs) as (Hn&Hp&Ho).
  assert (settle s1 = move_cursor (scroll (set_cursor s 0 (cursor_y s + 1)))) as ->.
  { unfold settle. do 2 f_equal. destruct s1 as [x1 y1 vm1 ps1]. cbn in *. subst vm1 ps1.
    unfold set_cursor. cbn. unfold u8 in *.
    destruct Hcur as [[-> ->]|[Hx ->]].
    - cbn. by rewrite Z.mod_small by lia.
    - destruct (Z.leb_spec 80 x1); [|lia]. by rewrite Z.mod_small by lia. }
  split; [by apply shows_move_cursor|].
  pose proof (shows_y _ _ Hn) as Hy'. pose proof (sh_x _ _ Hn) as Hx'. cbn in Hx'.
  generalize dependent (scroll (set_cursor s 0 (cursor_y s + 1))). intros s2 Hn Hp Ho Hy' Hx'.
  split; [done|]. rewrite move_cursor_ports, Hp by lia. done.
Qed.

(** ** One character *)

Lemma attribute_value back fore :
  u16 (Z.shiftl (u8 (Z.lor (Z.shiftl (u8 (color_value back)) 4)
                           (Z.land (u8 (color_value fore)) 0x0F))) 8)
  = 256 * (16 * color_value back + color_value fore).
Proof. by destruct back, fore. Qed.

Lemma color_range c : 0 ≤ color_value c < 16.
Proof. by destruct c. Qed.

Lemma glyph_value c back fore :
  32 ≤ c < 128 →
  u16 (Z.lor c (256 * (16 * color_value back + color_value fore))) = glyph c back fore ∧
  0 ≤ glyph c back fore < 65536.
Proof.
  intros Hc. pose proof (color_range back). pose proof (color_range fore).
  assert (Hg : 0 ≤ glyph c back fore < 65536) by (unfold glyph; lia).
  split; [|done]. rewrite Z.lor_comm, (lor_aligned _ _ 8) by (try dlia; change (2 ^ 8) with 256; dlia).
  rewrite Z.add_comm. by apply Z.mod_small.
Qed.

Lemma tab_stop x : 0 ≤ x < 80 → u8 (Z.land (x + 8) (Z.lnot (8 - 1))) = 8 * (x / 8 + 1).
Proof.
  intros Hx. change (8 - 1) with (Z.ones 3). rewrite <- Z.ldiff_land, Z.ldiff_ones_r by lia.
  rewrite Z.shiftr_div_pow2, Z.shiftl_mul_pow2 by lia. change (2 ^ 3) with 8.
  unfold u8. rewrite Z.mod_small by dlia. dlia.
Qed.

Lemma shows_mark s p v :
  shows s p → 0 ≤ u16 v < 65536 →
  shows (set_cell s (cursor_y s * 80 + cursor_x s) v) (mark p (u16 v)).
Proof.
  intros Hs Hv. pose proof (shows_y _ _ Hs). destruct Hs as [Hc Hl Hx Hy Hcell Hb Hw].
  assert (Htop : top (mark p (u16 v)) = top p) by done.
  split; rewrite ?Htop; cbn -[u16 Z.mul]; [done..| | |].
  - intros r c Hr Hcc. destruct (decide (80 * r + c = cursor_y s * 80 + cursor_x s)) as [Heq|Hne].
    + rewrite Heq, fn_lookup_insert. replace (top p + r) with (line p) by lia.
      replace c with (col p) by lia. by rewrite !fn_lookup_insert.
    + rewrite fn_lookup_insert_ne, Hcell by lia.
      destruct (decide (top p + r = line p)) as [He|].
      * rewrite He, fn_lookup_insert, fn_lookup_insert_ne by lia. done.
      * by rewrite fn_lookup_insert_ne by lia.
  - intros l c Hlc. rewrite fn_lookup_insert_ne by lia. by apply Hb.
  - intros l c. destruct (decide (l = line p)) as [->|]; [|by rewrite fn_lookup_insert_ne].
    rewrite fn_lookup_insert. destruct (decide (c = col p)) as [->|].
    + by rewrite fn_lookup_insert.
    + by rewrite fn_lookup_insert_ne.
Qed.

(** Moving inside the line. *)
Lemma shows_column s p x :
  shows s p → 0 ≤ x < 80 → shows (set_cursor s x (cursor_y s)) (Paper (ink p) (line p) x).
Proof. intros [Hc Hl Hx Hy Hcell Hb Hw] Hr. by split. Qed.

Lemma settle_advance s p x :
  shows s p → 0 ≤ x →
  shows (settle (set_cursor s x (cursor_y s))) (advance p x) ∧
  tidy s (settle (set_cursor s x (cursor_y s))).
Proof.
  intros Hs Hx. unfold advance. destruct (Z.ltb_spec x 80).
  - destruct (settle_stay (set_cursor s x (cursor_y s)) (Paper (ink p) (line p) x)) as [H1 H2].
    { by apply shows_column. }
    split; [done|]. by destruct H2 as [Ho Hp].
  - apply settle_next; [done..|]. right. done.
Qed.

(** A put without its end. *)
Definition put_edit (s : console) (c attribute : Z) : console :=
  if (c =? 8) && negb (cursor_x s =? 0) then set_cursor s (u8 (cursor_x s - 1)) (cursor_y s)
  else if c =? 9 then
    set_cursor s (u8 (Z.land (cursor_x s + 8) (Z.lnot (8 - 1)))) (cursor_y s)
  else if c =? 13 then set_cursor s 0 (cursor_y s)
  else if c =? 10 then set_cursor s 0 (u8 (cursor_y s + 1))
  else if 32 <=? c then
    let s := set_cell s (cursor_y s * 80 + cursor_x s) (Z.lor c attribute) in
    set_cursor s (u8 (cursor_x s + 1)) (cursor_y s)
  else s.

Lemma putc_color_split s c back fore :
  c80_putc_color s c back fore
  = settle (put_edit s c (256 * (16 * color_value back + color_value fore))).
Proof. rewrite <- attribute_value. done. Qed.

Lemma put_split s c : c80_put s c = settle (put_edit s c (256 * (16 * 0 + 15))).
Proof. done. Qed.

Lemma put_shows s p c back fore :
  shows s p → c < 128 →
  shows (c80_putc_color s c back fore) (paper_put back fore p c) ∧
  tidy s (c80_putc_color s c back fore).
Proof.
  intros Hs Hc. pose proof (sh_col _ _ Hs) as Hcol. pose proof (sh_x _ _ Hs) as Hx.
  pose proof (shows_y _ _ Hs) as Hy. rewrite putc_color_split.
  unfold put_edit, paper_put. cbv zeta.
  destruct (Z.eqb_spec c 8) as [->|].
  { destruct (Z.eqb_spec (cursor_x s) 0) as [Hx0|Hx0]; cbn [andb negb Z.eqb Z.leb Z.compare Pos.eqb].
    - assert (shows s (Paper (ink p) (line p) (Z.max 0 (col p - 1)))) as Hs'.
      { replace (Z.max 0 (col p - 1)) with (col p) by lia. by destruct p. }
      by apply settle_stay.
    - replace (u8 (cursor_x s - 1)) with (Z.max 0 (col p - 1)).
      { pose proof (settle_advance s p (Z.max 0 (col p - 1)) Hs) as Ha. unfold advance in Ha.
        destruct (Z.ltb_spec (Z.max 0 (col p - 1)) 80); [apply Ha; lia|lia]. }
      unfold u8. rewrite Z.mod_small by lia. lia. }
  cbn [andb]. destruct (Z.eqb_spec c 9) as [->|].
  { rewrite tab_stop, Hx by lia. apply settle_advance; [done|dlia]. }
  destruct (Z.eqb_spec c 13) as [->|]; cbn [Z.eqb Pos.eqb].
  { apply (settle_advance s p 0 Hs). done. }
  destruct (Z.eqb_spec c 10) as [->|].
  { apply settle_next; [done..|]. left. done. }
  destruct (Z.leb_spec 32 c); [|by apply settle_stay].
  destruct (glyph_value c back fore) as [Hg Hgr]; [lia|].
  pose proof (shows_mark s p (Z.lor c (256 * (16 * color_value back + color_value fore))) Hs) as Hm.
  rewrite Hg in Hm. specialize (Hm Hgr).
  assert (Hoff : ∀ i, off_screen i → video_memory (set_cell s (cursor_y s * 80 + cursor_x s)
    (Z.lor c (256 * (16 * color_value back + color_value fore)))) i = video_memory s i).
  { intros i Hi. cbn -[u16 Z.mul]. rewrite fn_lookup_insert_ne; [done|]. unfold off_screen in Hi. lia. }
  replace (u8 (cursor_x _ + 1)) with (col p + 1)
    by (cbn; unfold u8; rewrite Z.mod_small by lia; lia).
  destruct (settle_advance _ _ (col p + 1) Hm) as [H1 [H2 H3]]; [lia|].
  split; [exact H1|]. split; [|exact H3].
  intros i Hi. etransitivity; [exact (H2 i Hi)|exact (Hoff i Hi)].
Qed.

(** ** Strings and calls *)

Inductive con_call : Type :=
  | Clear
  | Put (c : Z)
  | Write (str : list Z)
  | PutColor (c : Z) (back fore : real_color_t)
  | WriteColor (str : list Z) (back fore : real_color_t).

(** A [char] argument is what its byte means as a signed character. *)
Definition con_step (s : console) (k : con_call) : console :=
  match k with
  | Clear => c80_clear s
  | Put c => c80_put s (s8 c)
  | Write str => c80_write s str
  | PutColor c back fore => c80_putc_color s (s8 c) back fore
  | WriteColor str back fore => c80_write_color s str back fore
  end.

Definition paper_step (p : paper) (k : con_call) : paper :=
  match k with
  | Clear => blank_paper
  | Put c => paper_put rc_black rc_white p (s8 c)
  | Write str => foldl (paper_put rc_black rc_white) p (cstring str)
  | PutColor c back fore => paper_put back fore p (s8 c)
  | WriteColor str back fore => foldl (paper_put back fore) p (cstring str)
  end.

Lemma s8_range x : -128 ≤ s8 x < 128.
Proof.
  unfold s8. pose proof (Z.mod_pos_bound x 256). unfold u8. destruct (Z.ltb_spec (x `mod` 256) 128); lia.
Qed.

(** The hardware cursor is where the software cursor is, and memory outside the
    screen is that of [s0]. *)
Record steady (s0 s : console) : Prop := {
  sd_off : ∀ i, off_screen i → video_memory s i = video_memory s0 i;
  sd_cursor : ∃ before, ports s = before ++ cursor_writes (80 * cursor_y s + cursor_x s);
}.

Lemma tidy_steady s0 s s' : steady s0 s → tidy s s' → steady s0 s'.
Proof.
  intros [Ho _] [Ho' Hp]. split; [|by eexists].
  intros i Hi. rewrite Ho' by done. by apply Ho.
Qed.

Lemma write_color_shows s0 s p str back fore :
  shows s p → steady s0 s →
  shows (c80_write_color s str back fore) (foldl (paper_put back fore) p (cstring str)) ∧
  steady s0 (c80_write_color s str back fore).
Proof.
  revert s p. induction str as [|ch str IH]; intros s p Hs Hd; [done|]. cbn.
  destruct (s8 ch =? 0); [done|].
  destruct (put_shows s p (s8 ch) back fore) as [H1 H2]; [done|apply s8_range|].
  apply IH; [done|]. by eapply tidy_steady.
Qed.

(** [c80_put] and [c80_write] are the coloured versions in white on black. *)
Lemma put_is_color s c : c80_put s c = c80_putc_color s c rc_black rc_white.
Proof. by rewrite putc_color_split, put_split. Qed.

Lemma write_is_color s str : c80_write s str = c80_write_color s str rc_black rc_white.
Proof.
  revert s. induction str as [|ch str IH]; intros s; [done|]. cbn.
  destruct (s8 ch =? 0); [done|]. by rewrite IH, put_is_color.
Qed.

Lemma clear_shows s : shows (c80_clear s) blank_paper ∧ tidy s (c80_clear s).
Proof.
  unfold c80_clear. destruct (fill_blank_spec 0 (80 * 25) s) as [Hx Hy Hp Hi Ho]; [lia|].
  generalize dependent (fill_blank 0 (80 * 25) s). intros s1 Hx Hy Hp Hi Ho.
  split; [apply shows_move_cursor; split; cbn; [done..| |done|by intros; apply blank_width]|].
  - intros r c Hr Hc. by apply Hi; lia.
  - split; [|by rewrite move_cursor_ports, <- Hp by done].
    intros i Hoff. apply Ho. unfold off_screen in Hoff. lia.
Qed.

Lemma con_step_shows s0 s p k :
  shows s p → steady s0 s →
  shows (con_step s k) (paper_step p k) ∧ steady s0 (con_step s k).
Proof.
  intros Hs Hd. destruct k as [|c|str|c back fore|str back fore];
    cbn [con_step paper_step]; rewrite ?put_is_color, ?write_is_color.
  - destruct (clear_shows s). split; [done|]. by eapply tidy_steady.
  - destruct (put_shows s p (s8 c) rc_black rc_white); [done|apply s8_range|].
    split; [done|]. by eapply tidy_steady.
  - by apply write_color_shows.
  - destruct (put_shows s p (s8 c) back fore); [done|apply s8_range|].
    split; [done|]. by eapply tidy_steady.
  - by apply write_color_shows.
Qed.

(** C16: the console is a window on a roll of paper. After [c80_clear], whatever calls
    follow (characters and strings, plain or coloured, further clears), the screen
    shows the 25 lines of paper that end at the line being written; the cursor is in the
    80 by 25 screen at the position of the paper, the last bytes sent to the controller
    place the hardware cursor there, and no memory outside the 2000 cells has changed. *)
Theorem console_refines_paper s calls :
  let s' := foldl con_step (c80_clear s) calls in
  let p := foldl paper_step blank_paper calls in
  shows s' p ∧ steady s s'.
Proof.
  cbn zeta. destruct (clear_shows s) as [Hs [Ho Hp]].
  assert (Hd : steady s (c80_clear s)) by (split; [done|by eexists]).
  revert Hs Hd. generalize blank_paper. clear Ho Hp. generalize (c80_clear s).
  induction calls as [|k calls IH]; intros s1 p Hs Hd; [done|]. cbn.
  by destruct (con_step_shows s s1 p k Hs Hd); apply IH.
Qed.

(** ** Plain text *)

Definition printable (c : Z) : Prop := 32 ≤ c < 127.

(** The place of the cursor on the paper, counted in characters. *)
Definition place (p : paper) : Z := 80 * line p + col p.

Lemma place_eq p q : 0 ≤ col p < 80 → place p = q → line p = q / 80 ∧ col p = q `mod` 80.
Proof. unfold place. intros ? <-. split; dlia. Qed.

Lemma paper_put_printable back fore p c :
  printable c → 0 ≤ col p < 80 →
  let p' := paper_put back fore p c in
  0 ≤ col p' < 80 ∧ place p' = place p + 1 ∧
  ink p' (line p) (col p) = glyph c back fore ∧
  ∀ q, q ≠ place p → ink p' (q / 80) (q `mod` 80) = ink p (q / 80) (q `mod` 80).
Proof.
  intros Hc Hcol. unfold printable in Hc. cbn zeta. unfold paper_put.
  destruct (Z.eqb_spec c 8), (Z.eqb_spec c 9), (Z.eqb_spec c 10), (Z.eqb_spec c 13); try lia.
  destruct (Z.leb_spec 32 c); [|lia].
  assert (Hink : ink (advance (mark p (glyph c back fore)) (col p + 1))
                 = <[line p := <[col p := glyph c back fore]> (ink p (line p))]> (ink p)).
  { unfold advance. by destruct (_ <? _). }
  rewrite Hink, fn_lookup_insert, fn_lookup_insert. split_and!; [| | |done|].
  1-3: unfold place, advance, next_line, mark; destruct (Z.ltb_spec (col p + 1) 80); cbn; lia.
  intros q Hq. destruct (decide (q / 80 = line p)) as [Hl|]; [|by rewrite fn_lookup_insert_ne].
  rewrite Hl, fn_lookup_insert, fn_lookup_insert_ne; [done|]. unfold place in Hq. dlia.
Qed.

Lemma paper_text back fore l p :
  Forall printable l → 0 ≤ col p < 80 →
  let p' := foldl (paper_put back fore) p l in
  0 ≤ col p' < 80 ∧ place p' = place p + Z.of_nat (length l) ∧
  (∀ q, q < place p → ink p' (q / 80) (q `mod` 80) = ink p (q / 80) (q `mod` 80)) ∧
  ∀ (i : nat) c, l !! i = Some c →
    let q := place p + Z.of_nat i in ink p' (q / 80) (q `mod` 80) = glyph c back fore.
Proof.
  cbn zeta. intros Hl. revert p. induction Hl as [|c l Hc Hl IH]; intros p Hp.
  { cbn. split_and!; [lia..|done|done]. }
  cbn [foldl length]. destruct (paper_put_printable back fore p c) as (Hcol&Hpl&Hhere&Hels); [done..|].
  destruct (IH _ Hcol) as (H1&H2&H3&H4). rewrite Hpl in *.
  split_and!; [lia..| |].
  - intros q Hq. rewrite H3, Hels by lia. done.
  - intros [|i] c' Hi; cbn in Hi.
    + injection Hi as <-. rewrite H3 by lia.
      destruct (place_eq p (place p + Z.of_nat 0)) as [<- <-]; [done|lia|done].
    + rewrite <- (H4 i c') by done. f_equal; f_equal; lia.
Qed.

Lemma cstring_printable l : Forall printable l → cstring l = l.
Proof.
  intros Hl. induction Hl as [|c l Hc Hl IH]; [done|]. unfold printable in Hc. cbn.
  assert (s8 c = c) as ->.
  { unfold s8, u8. rewrite Z.mod_small by lia. destruct (Z.ltb_spec c 128); lia. }
  destruct (Z.eqb_spec c 0); [lia|]. by rewrite IH.
Qed.

(** Text appears on the screen. A printable text written to a cleared screen is wrapped
    at 80 columns and, however long it is, its last 25 lines are on the screen: each of their
    characters is in its cell with the colours given. *)
Theorem text_on_screen s text back fore (i : nat) c :
  Forall printable text → text !! i = Some c →
  let n := Z.of_nat (length text) in
  let first := Z.max 0 (n / 80 - 24) in
  first ≤ Z.of_nat i / 80 →
  video_memory (c80_write_color (c80_clear s) text back fore)
    (Z.of_nat i - 80 * first) = glyph c back fore.
Proof.
  intros Ht Hi. cbn zeta. intros Hfirst.
  destruct (clear_shows s) as [Hs [Ho Hp]].
  destruct (write_color_shows s (c80_clear s) blank_paper text back fore) as [Hsh _];
    [done|by split; [|eexists]|].
  rewrite cstring_printable in Hsh by done.
  destruct (paper_text back fore text blank_paper) as (H1&H2&_&H4); [exact Ht|cbn; lia|].
  set (p := foldl _ _ _) in *. destruct (place_eq p (Z.of_nat (length text))) as [Hln _]; [done|exact H2|].
  rewrite <- Hln in Hfirst |- *. fold (top p) in Hfirst |- *.
  pose proof (lookup_lt_Some _ _ _ Hi). rewrite <- (H4 i c Hi). cbn [place blank_paper line col].
  replace (80 * 0 + 0 + Z.of_nat i) with (Z.of_nat i) by lia.
  replace (Z.of_nat i - 80 * top p)
    with (80 * (Z.of_nat i / 80 - top p) + Z.of_nat i `mod` 80) by dlia.
  rewrite (sh_cells _ _ Hsh); [by replace (top p + _) with (Z.of_nat i / 80) by lia| |dlia].
  split; [lia|]. unfold top. assert (Z.of_nat i / 80 ≤ line p); [|lia].
  rewrite Hln. apply Z.div_le_mono; lia.
Qed.

Lemma text_on_screen_witness :
  let s := Con 3 7 (λ _, 0) [] in
  video_memory (c80_write_color (c80_clear s) (replicate 2100 65) rc_blue rc_white) 1939
  = glyph 65 rc_blue rc_white.
Proof.
  cbn zeta.
  apply (text_on_screen (Con 3 7 (λ _, 0) []) (replicate 2100 65) rc_blue rc_white 2099 65).
  - apply Forall_replicate. split; lia.
  - apply lookup_replicate. split; [done|lia].
  - vm_compute. discriminate.
Defined.

(** ** From any screen *)

(** The values the types and the code allow: a cursor on the screen, cells of 16 bits. *)
Record on_screen (s : console) : Prop := {
  os_x : 0 ≤ cursor_x s < 80;
  os_y : 0 ≤ cursor_y s < 25;
  os_cells : ∀ i, 0 ≤ i < 2000 → 0 ≤ video_memory s i < 65536;
}.

Definition off_kept (s s' : console) : Prop :=
  ∀ i, off_screen i → video_memory s' i = video_memory s i.

(** A put before its end: the cursor may be one column or one row too far. *)
Record nearly (s : console) : Prop := {
  ny_x : 0 ≤ cursor_x s ≤ 80;
  ny_y : 0 ≤ cursor_y s ≤ 25;
  ny_one : cursor_x s = 80 → cursor_y s < 25;
  ny_cells : ∀ i, 0 ≤ i < 2000 → 0 ≤ video_memory s i < 65536;
}.

Lemma scroll_screen s :
  0 ≤ cursor_x s < 80 → 0 ≤ cursor_y s ≤ 25 →
  (∀ i, 0 ≤ i < 2000 → 0 ≤ video_memory s i < 65536) →
  on_screen (scroll s) ∧ off_kept s (scroll s).
Proof.
  intros Hx Hy Hc. destruct (decide (cursor_y s = 25)) as [E|].
  - destruct (scroll_spec s) as [X Y _ R L O]; [done|lia|]. generalize dependent (scroll s).
    intros s' X Y R L O. split; [split; [lia|lia|]|exact O]. intros i Hi.
    destruct (decide (i < 1920)); [rewrite R by lia; apply Hc; lia|].
    rewrite L by lia. apply blank_width.
  - rewrite scroll_noop by lia. split; [split; [done|lia|done]|by intros i].
Qed.

Lemma settle_screen s : nearly s → on_screen (settle s) ∧ off_kept s (settle s).
Proof.
  intros [Hx Hy H1 Hc]. unfold settle.
  destruct (Z.leb_spec 80 (cursor_x s)).
  - destruct (scroll_screen (set_cursor s 0 (u8 (cursor_y s + 1)))) as [[A B C] D].
    + done.
    + cbn [set_cursor cursor_y]. unfold u8. rewrite Z.mod_small by lia. lia.
    + exact Hc.
    + generalize dependent (scroll (set_cursor s 0 (u8 (cursor_y s + 1)))). intros s' A B C D.
      destruct (move_cursor_fields s') as (E1&E2&E3).
      split; [split; rewrite ?E1, ?E2, ?E3; done|]. intros i Hi. rewrite E3. by apply D.
  - destruct (scroll_screen s) as [[A B C] D]; [lia|lia|done|].
    generalize dependent (scroll s). intros s' A B C D. destruct (move_cursor_fields s') as (E1&E2&E3).
    split; [split; rewrite ?E1, ?E2, ?E3; done|]. intros i Hi. rewrite E3. by apply D.
Qed.

Lemma put_edit_screen s c a : on_screen s → nearly (put_edit s c a) ∧ off_kept s (put_edit s c a).
Proof.
  intros [Hx Hy Hc]. unfold put_edit. cbv zeta.
  assert (Hcur : ∀ x y, 0 ≤ x ≤ 80 → 0 ≤ y ≤ 25 → (x = 80 → y < 25) →
    nearly (set_cursor s x y) ∧ off_kept s (set_cursor s x y)) by (intros; split; [split; assumption|by intros i]).
  destruct ((c =? 8) && negb (cursor_x s =? 0)) eqn:E8.
  { apply andb_true_iff in E8 as [_ E8%negb_true_iff%Z.eqb_neq]. unfold u8.
    rewrite Z.mod_small by lia. apply Hcur; lia. }
  destruct (c =? 9); [rewrite tab_stop by lia; apply Hcur; dlia|].
  destruct (c =? 13); [apply Hcur; lia|].
  destruct (c =? 10); [unfold u8; rewrite Z.mod_small by lia; apply Hcur; lia|].
  destruct (32 <=? c); [|split; [split; [lia|lia|lia|done]|by intros i]].
  cbn [set_cell cursor_x cursor_y]. unfold u8. rewrite Z.mod_small by lia. split.
  - split; cbn [set_cursor set_cell cursor_x cursor_y video_memory]; [lia|lia|lia|]. intros i Hi.
    destruct (decide (i = cursor_y s * 80 + cursor_x s)) as [->|].
    + rewrite fn_lookup_insert. apply Z.mod_pos_bound. lia.
    + rewrite fn_lookup_insert_ne by done. by apply Hc.
  - intros i Hi. cbn [set_cursor set_cell video_memory]. rewrite fn_lookup_insert_ne; [done|].
    unfold off_screen in Hi. lia.
Qed.

Lemma putc_color_screen s c back fore :
  on_screen s → on_screen (c80_putc_color s c back fore) ∧ off_kept s (c80_putc_color s c back fore).
Proof.
  intros Hs. rewrite putc_color_split. destruct (put_edit_screen s c (256 * (16 * color_value back + color_value fore)) Hs) as [H1 H2].
  destruct (settle_screen _ H1) as [H3 H4]. split; [done|]. intros i Hi. rewrite H4, H2 by done. done.
Qed.

Lemma write_color_screen str back fore : ∀ s,
  on_screen s → on_screen (c80_write_color s str back fore) ∧ off_kept s (c80_write_color s str back fore).
Proof.
  induction str as [|ch str IH]; intros s Hs; cbn [c80_write_color]; [by split|].
  destruct (s8 ch =? 0); [by split|]. destruct (putc_color_screen s (s8 ch) back fore Hs) as [H1 H2].
  destruct (IH _ H1) as [H3 H4]. split; [done|]. intros i Hi. rewrite H4, H2 by done. done.
Qed.

(** C37: the console never writes outside the screen. From any state with the cursor on the
    screen and 16-bit cells, every call keeps the cursor within 80 columns and 25 rows and the
    cells at 16 bits, and changes no memory but the 2000 cells. *)
Theorem console_types s k : on_screen s → on_screen (con_step s k) ∧ off_kept s (con_step s k).
Proof.
  intros Hs. destruct k as [|c|str|c back fore|str back fore]; cbn [con_step];
    rewrite ?put_is_color, ?write_is_color; [|by apply putc_color_screen || by apply write_color_screen..].
  destruct (clear_shows s) as [Hsh [Ho _]]. split; [|exact Ho].
  split; [rewrite (sh_x _ _ Hsh); apply Hsh|by eapply shows_y|]. intros i Hi. by eapply shows_width.
Qed.

Lemma console_types_witness :
  on_screen (con_step (Con 79 24 (λ _, 7) []) (Write [10; 65; 66])).
Proof.
  apply (console_types (Con 79 24 (λ _, 7) []) (Write [10; 65; 66])).
  split; cbn [cursor_x cursor_y video_memory]; [lia|lia|]. intros. lia.
Defined.

(** The plain and the coloured output functions, written out twice in the source, agree:
    [c80_put] and [c80_write] are [c80_putc_color] and [c80_write_color] in white on black, on
    every state, and so are [printk] and [printk_color], errors included. *)
Theorem plain_is_white_on_black s c str format args :
  c80_put s c = c80_putc_color s c rc_black rc_white ∧
  c80_write s str = c80_write_color s str rc_black rc_white ∧
  printk s format args = printk_color s rc_black rc_white format args.
Proof.
  split; [apply put_is_color|]. split; [apply write_is_color|]. unfold printk, printk_color.
  destruct (fill_buff format args) as [[buff stores]| |]; cbn; [|done|done]. by rewrite write_is_color.
Qed.
