(* ===== verification/Memory.v ===== *)
(** * Byte memory and 32-bit words

    Little-endian words in byte memory, used where structures, stacks and
    contexts share one memory ([src/task.c], [src/switch.s], [src/mproc.c]). *)
From S2P Require Import Prelude.

Definition byte_of (v : Z) (i : Z) : Z := (v / 256 ^ i) `mod` 256.

(** Cells hold bytes, so that the sum is a 32-bit value; [u32] makes it one for any
    memory. *)
Definition load32 (m : mem) (a : Z) : Z :=
  u32 (m a + 256 * m (a + 1) + 65536 * m (a + 2) + 16777216 * m (a + 3)).

Definition store32 (m : mem) (a v : Z) : mem :=
  <[a + 3 := byte_of v 3]> (<[a + 2 := byte_of v 2]>
    (<[a + 1 := byte_of v 1]> (<[a := byte_of v 0]> m))).

(** [bzero(p, n)] *)
Definition bzero (m : mem) (p n : Z) : mem :=
  λ a, if (p <=? a) && (a <? p + n) then 0 else m a.

(** [memcpy(dst, src, n)] between areas that do not overlap *)
Definition copy_bytes (m : mem) (dst src n : Z) : mem :=
  λ a, if (dst <=? a) && (a <? dst + n) then m (src + (a - dst)) else m a.

(** [m] with the bytes [l] from [base] on *)
Definition bytes_from (base : Z) (l : list Z) (m : mem) : mem :=
  λ a, match (if base <=? a then l !! Z.to_nat (a - base) else None) with
       | Some b => b | None => m a end.

(** The memories agree on [n] bytes from [a]. *)
Definition agree (m m' : mem) (a n : Z) : Prop := ∀ i, a ≤ i < a + n → m' i = m i.

(** Two areas without a common byte. *)
Definition apart (a n b k : Z) : Prop := a + n ≤ b ∨ b + k ≤ a.

Lemma load32_agree m m' a : agree m m' a 4 → load32 m' a = load32 m a.
Proof. intros H. unfold load32. rewrite !H by lia. done. Qed.

Lemma store32_same m a v : load32 (store32 m a v) a = u32 v.
Proof.
  unfold load32, store32, byte_of.
  rewrite fn_lookup_insert_ne, fn_lookup_insert_ne, fn_lookup_insert_ne, fn_lookup_insert by lia.
  rewrite fn_lookup_insert_ne, fn_lookup_insert_ne, fn_lookup_insert by lia.
  rewrite fn_lookup_insert_ne, fn_lookup_insert by lia.
  rewrite fn_lookup_insert. unfold u32.
  change (256 ^ 0) with 1. change (256 ^ 1) with 256. change (256 ^ 2) with 65536.
  change (256 ^ 3) with 16777216. dlia.
Qed.

Lemma load32_range m a : is_u32 (load32 m a).
Proof. apply u32_range. Qed.

Lemma store32_out m a v i : i < a ∨ a + 4 ≤ i → store32 m a v i = m i.
Proof. intros. unfold store32. rewrite !fn_lookup_insert_ne by lia. done. Qed.

Lemma store32_agree m a v b n : apart a 4 b n → agree m (store32 m a v) b n.
Proof. intros Ha i Hi. apply store32_out. unfold apart in Ha. lia. Qed.

Lemma store32_other m a v b : apart a 4 b 4 → load32 (store32 m a v) b = load32 m b.
Proof. intros. by apply load32_agree, store32_agree. Qed.

Lemma agree_trans m1 m2 m3 a n : agree m1 m2 a n → agree m2 m3 a n → agree m1 m3 a n.
Proof. intros H1 H2 i Hi. rewrite H2, H1 by done. done. Qed.

Lemma agree_sub m m' a n b k : agree m m' a n → a ≤ b → b + k ≤ a + n → agree m m' b k.
Proof. intros H ? ? i Hi. apply H. lia. Qed.

Lemma agree_load m m' a n b :
  agree m m' a n → a ≤ b → b + 4 ≤ a + n → load32 m' b = load32 m b.
Proof. intros. apply load32_agree. by eapply agree_sub. Qed.

Lemma bzero_agree m p n b k : apart p n b k → agree m (bzero m p n) b k.
Proof.
  intros Ha i Hi. unfold bzero, apart in *.
  destruct (Z.leb_spec p i), (Z.ltb_spec i (p + n)); cbn; [lia|done..].
Qed.

Lemma bzero_load m p n a : p ≤ a → a + 4 ≤ p + n → load32 (bzero m p n) a = 0.
Proof.
  intros ? ?. unfold load32, bzero.
  repeat match goal with
  | |- context [?x <=? ?y] => destruct (Z.leb_spec x y); [|lia]
  | |- context [?x <? ?y] => destruct (Z.ltb_spec x y); [|lia] end. done.
Qed.

Lemma copy_bytes_agree m d s n b k : apart d n b k → agree m (copy_bytes m d s n) b k.
Proof.
  intros Ha i Hi. unfold copy_bytes, apart in *.
  destruct (Z.leb_spec d i), (Z.ltb_spec i (d + n)); cbn; [lia|done..].
Qed.

(** Loads through stores: a tactic that resolves each load of a chain of stores. *)
Ltac mem_load :=
  repeat first
    [ rewrite store32_same
    | rewrite store32_other by (unfold apart in *; lia) ].
