(* ===== verification/Switch.v ===== *)
(** * Context switch: [src/switch.s]

    The two routines are sequences of the few instructions they use, run on a
    machine of registers and byte memory. [thread_context_t] ([include/task.h])
    is six words in memory. The C function they call, [preempt_enable], is any
    code that follows the C calling convention. *)
From S2P Require Import Prelude Memory.

Inductive reg : Type := EAX | ECX | EBX | ESI | EDI | EBP | ESP.

#[export] Instance reg_eq_dec : EqDecision reg.
Proof. solve_decision. Defined.

Record machine : Type := Machine {
  regs : reg → Z;
  eflags : Z;
  eip : Z;
  memory : mem;
}.

Definition set_reg (r : reg) (v : Z) (M : machine) : machine :=
  Machine (<[r := v]> (regs M)) (eflags M) (eip M) (memory M).
Definition set_eflags (v : Z) (M : machine) : machine :=
  Machine (regs M) v (eip M) (memory M).
Definition set_eip (v : Z) (M : machine) : machine :=
  Machine (regs M) (eflags M) v (memory M).
Definition store (a v : Z) (M : machine) : machine :=
  Machine (regs M) (eflags M) (eip M) (store32 (memory M) (u32 a) v).
Definition load (a : Z) (M : machine) : Z := load32 (memory M) (u32 a).

Inductive instr : Type :=
  | MOV_load (r base : reg) (off : Z)       (* mov r, [base + off] *)
  | MOV_store (base : reg) (off : Z) (r : reg)  (* mov [base + off], r *)
  | PUSH (r : reg)
  | POP (r : reg)
  | PUSHF
  | POPF
  | CALL (ra : Z)     (* call of the C function, which returns to [ra] *)
  | RET.

Definition push (v : Z) (M : machine) : machine :=
  let M := set_reg ESP (u32 (regs M ESP - 4)) M in store (regs M ESP) v M.

Definition pop (M : machine) : Z * machine :=
  (load (regs M ESP) M, set_reg ESP (u32 (regs M ESP + 4)) M).

(** [callee] is the called function: from its entry, with the return address on the
    stack, to its return. *)
Definition exec (callee : machine → machine) (i : instr) (M : machine) : machine :=
  match i with
  | MOV_load r base off => set_reg r (load (regs M base + off) M) M
  | MOV_store base off r => store (regs M base + off) (regs M r) M
  | PUSH r => push (regs M r) M
  | POP r => let '(v, M) := pop M in set_reg r v M
  | PUSHF => push (eflags M) M
  | POPF => let '(v, M) := pop M in set_eflags v M
  | CALL ra => callee (push ra M)
  | RET => let '(v, M) := pop M in set_eip v M
  end.

Definition run (callee : machine → machine) (code : list instr) (M : machine) : machine :=
  foldl (λ M i, exec callee i M) M code.

(** [mov esp, [eax + 0]] ... [ret]: the part the two routines share. *)
Definition load_context (ra : Z) : list instr :=
  [ MOV_load ESP EAX 0; MOV_load EBP EAX 4; MOV_load EBX EAX 8; MOV_load ESI EAX 12;
    MOV_load EDI EAX 16; MOV_load EAX EAX 20; PUSH EAX; POPF; CALL ra; RET ].

(** [mov eax, [esp + 4]] ... [mov [eax + 20], ecx] *)
Definition save_context : list instr :=
  [ MOV_load EAX ESP 4;
    MOV_store EAX 0 ESP; MOV_store EAX 4 EBP; MOV_store EAX 8 EBX; MOV_store EAX 12 ESI;
    MOV_store EAX 16 EDI; PUSHF; POP ECX; MOV_store EAX 20 ECX ].

(** [switch_to] *)
Definition switch_to (ra : Z) : list instr :=
  save_context ++ [MOV_load EAX ESP 8] ++ load_context ra.

(** [switch_to_init] *)
Definition switch_to_init (ra : Z) : list instr :=
  [MOV_load EAX ESP 4] ++ load_context ra.

(** ** Contexts in memory *)

(** [thread_context_t] *)
Record thread_context_t : Type := Ctx {
  c_esp : Z; c_ebp : Z; c_ebx : Z; c_esi : Z; c_edi : Z; c_eflags : Z;
}.

Definition context_at (m : mem) (p : Z) : thread_context_t :=
  Ctx (load32 m p) (load32 m (p + 4)) (load32 m (p + 8)) (load32 m (p + 12))
      (load32 m (p + 16)) (load32 m (p + 20)).

Definition context_of (M : machine) : thread_context_t :=
  Ctx (regs M ESP) (regs M EBP) (regs M EBX) (regs M ESI) (regs M EDI) (eflags M).

(** The interrupt flag. *)
Definition IF (fl : Z) : bool := Z.testbit fl 9.

Lemma context_agree m m' p : agree m m' p 24 → context_at m' p = context_at m p.
Proof.
  intros H. unfold context_at. f_equal; eapply agree_load; try exact H; lia.
Qed.

(** ** The calling convention *)

Section Switch.
Context (callee : machine → machine).

(** What [callee] may use: [depth] bytes of stack below its return address, and the
    area [own .. own + own_len) of its own data. *)
Context (depth own own_len : Z).

(** The C calling convention, for a function without arguments. *)
Record cdecl : Prop := {
  cd_esp : ∀ M, regs (callee M) ESP = u32 (regs M ESP + 4);
  cd_saved : ∀ M r, r ∈ [EBX; ESI; EDI; EBP] → regs (callee M) r = regs M r;
  cd_if : ∀ M, IF (eflags (callee M)) = IF (eflags M);
  cd_mem : ∀ M a, ¬ (regs M ESP - depth ≤ a < regs M ESP + 4) →
    ¬ (own ≤ a < own + own_len) → memory (callee M) a = memory M a;
}.

Context (Hcd : cdecl).

(** The stack of a context: room below it for the switch itself, and [n] bytes of
    contents from its stack pointer on. *)
Definition stack_ok (esp n : Z) : Prop :=
  0 ≤ depth ∧ depth + 4 ≤ esp ∧ 4 ≤ n ∧ esp + n < 4294967296.

(** What a switch to a context may change in memory. *)
Definition scratch (esp a : Z) : Prop :=
  esp - 4 - depth ≤ a < esp ∨ own ≤ a < own + own_len.

(** How a thread is entered: the registers of its context, the instruction pointer
    taken off its stack, and memory as it was but for the scratch area. *)
Record entered (m : mem) (c : thread_context_t) (M : machine) : Prop := {
  en_eip : eip M = load32 m (c_esp c);
  en_esp : regs M ESP = c_esp c + 4;
  en_ebp : regs M EBP = c_ebp c;
  en_ebx : regs M EBX = c_ebx c;
  en_esi : regs M ESI = c_esi c;
  en_edi : regs M EDI = c_edi c;
  en_if : IF (eflags M) = IF (c_eflags c);
  en_mem : ∀ a, ¬ scratch (c_esp c) a → memory M a = m a;
}.

Ltac reg_lookup := repeat first [rewrite fn_lookup_insert | rewrite fn_lookup_insert_ne by done].

Lemma load_set r v a M : load a (set_reg r v M) = load a M.
Proof. done. Qed.

(** [push eax; popf], then the return address of the call. *)
Lemma before_call ra M :
  4 ≤ regs M ESP < 4294967296 →
  let M' := push ra (exec callee POPF (exec callee (PUSH EAX) M)) in
  regs M' ESP = regs M ESP - 4 ∧ (∀ r, r ≠ ESP → regs M' r = regs M r) ∧
  eflags M' = u32 (regs M EAX) ∧
  ∀ a, ¬ (regs M ESP - 4 ≤ a < regs M ESP) → memory M' a = memory M a.
Proof.
  intros He. destruct M as [rs fl ip m]. cbn in *. unfold load; cbn.
  rewrite !fn_lookup_insert, !(u32_small (rs ESP - 4)) by (unfold is_u32; lia).
  replace (rs ESP - 4 + 4) with (rs ESP) by lia. rewrite (u32_small (rs ESP)) by (unfold is_u32; lia).
  rewrite ?(u32_small (rs ESP - 4)) by (unfold is_u32; lia).
  split_and!; [done| |apply store32_same|].
  - intros r Hr. by rewrite !fn_lookup_insert_ne by done.
  - intros a Ha. rewrite !store32_out by lia. done.
Qed.

(** [push eax; popf; call preempt_enable; ret] on a stack at [esp]. *)
Lemma finish_switch ra M :
  stack_ok (regs M ESP) 4 → apart own own_len (regs M ESP) 4 →
  let M' := run callee [PUSH EAX; POPF; CALL ra; RET] M in
  eip M' = load32 (memory M) (regs M ESP) ∧ regs M' ESP = regs M ESP + 4 ∧
  (∀ r, r ∈ [EBX; ESI; EDI; EBP] → regs M' r = regs M r) ∧
  IF (eflags M') = IF (u32 (regs M EAX)) ∧
  ∀ a, ¬ scratch (regs M ESP) a → memory M' a = memory M a.
Proof.
  intros (Hd&Hb&_&Ht) Hap. cbn zeta.
  change (run callee [PUSH EAX; POPF; CALL ra; RET] M) with
    (exec callee RET (callee (push ra (exec callee POPF (exec callee (PUSH EAX) M))))).
  destruct (before_call ra M) as (He&Hr&Hf&Hm); [lia|].
  set (M1 := push _ _) in *. clearbody M1.
  pose proof (cd_esp Hcd M1) as Ce. rewrite He in Ce.
  replace (regs M ESP - 4 + 4) with (regs M ESP) in Ce by lia.
  rewrite u32_small in Ce by (unfold is_u32; lia).
  pose proof (cd_mem Hcd M1) as Cm. rewrite He in Cm.
  assert (Hmem : ∀ a, ¬ scratch (regs M ESP) a → memory (callee M1) a = memory M a).
  { intros a Ha. unfold scratch in Ha. rewrite Cm, Hm by lia. done. }
  cbn -[IF]. split_and!.
  - unfold load. rewrite Ce, u32_small by (unfold is_u32; lia). apply load32_agree.
    intros i Hi. apply Hmem. unfold scratch, apart in *. lia.
  - rewrite fn_lookup_insert, Ce. apply u32_small. unfold is_u32. lia.
  - intros r Hin. rewrite fn_lookup_insert_ne by (intros <-; set_solver).
    rewrite (cd_saved Hcd) by done. apply Hr. intros ->. set_solver.
  - rewrite (cd_if Hcd), Hf. done.
  - exact Hmem.
Qed.

(** One instruction at a time. *)
Lemma run_load r base off l M p :
  regs M base = p → 0 ≤ p + off < 4294967296 →
  run callee (MOV_load r base off :: l) M
  = run callee l (set_reg r (load32 (memory M) (p + off)) M).
Proof. intros <- Hr. cbn. unfold load. by rewrite u32_small. Qed.

Lemma run_store r base off l M p :
  regs M base = p → 0 ≤ p + off < 4294967296 →
  run callee (MOV_store base off r :: l) M
  = run callee l (Machine (regs M) (eflags M) (eip M) (store32 (memory M) (p + off) (regs M r))).
Proof. intros <- Hr. cbn. unfold store. by rewrite u32_small. Qed.

Lemma regs_set r v M r' : regs (set_reg r v M) r' = if decide (r' = r) then v else regs M r'.
Proof. cbn. unfold insert, fn_insert. repeat case_decide; congruence. Qed.

(** Loading a context enters its thread. *)
Lemma load_context_enters ra M p :
  regs M EAX = p → 0 ≤ p → p + 24 < 4294967296 →
  stack_ok (load32 (memory M) p) 4 → apart own own_len (load32 (memory M) p) 4 →
  entered (memory M) (context_at (memory M) p) (run callee (load_context ra) M).
Proof.
  intros Hp H0 H1 Hst Hap. unfold load_context.
  rewrite (run_load ESP EAX 0 _ _ p), (run_load EBP EAX 4 _ _ p), (run_load EBX EAX 8 _ _ p),
    (run_load ESI EAX 12 _ _ p), (run_load EDI EAX 16 _ _ p), (run_load EAX EAX 20 _ _ p)
    by (try lia; by rewrite ?regs_set).
  set (M1 := set_reg EAX _ _).
  assert (memory M1 = memory M ∧ regs M1 ESP = load32 (memory M) p ∧
    regs M1 EBP = load32 (memory M) (p + 4) ∧ regs M1 EBX = load32 (memory M) (p + 8) ∧
    regs M1 ESI = load32 (memory M) (p + 12) ∧ regs M1 EDI = load32 (memory M) (p + 16) ∧
    regs M1 EAX = load32 (memory M) (p + 20)) as (Em&Esp&Ebp&Ebx&Esi&Edi&Eax).
  { subst M1. split; [done|]. rewrite !regs_set, Z.add_0_r. done. }
  clearbody M1.
  destruct (finish_switch ra M1) as (Fi&Fe&Fr&Ff&Fm); [by rewrite Esp..|].
  rewrite Esp in *. rewrite Em in *. clear Hap Hst.
  generalize dependent (run callee [PUSH EAX; POPF; CALL ra; RET] M1). intros M2 Fi Fe Fr Ff Fm.
  split; cbn [context_at c_esp c_ebp c_ebx c_esi c_edi c_eflags]; [done|done|..].
  - rewrite Fr by set_solver. done.
  - rewrite Fr by set_solver. done.
  - rewrite Fr by set_solver. done.
  - rewrite Fr by set_solver. done.
  - rewrite Ff, Eax, u32_small by apply load32_range. done.
  - exact Fm.
Qed.

(** ** [switch_to] *)

Definition machine_ok (M : machine) : Prop := (∀ r, is_u32 (regs M r)) ∧ is_u32 (eflags M).

(** A call of [switch_to(old, new)]: return address and arguments on the stack, the
    context of the caller outside the part of the stack in use. *)
Record calling (M : machine) (ret old new : Z) : Prop := {
  cl_ok : machine_ok M;
  cl_ret : load32 (memory M) (regs M ESP) = ret;
  cl_old : load32 (memory M) (regs M ESP + 4) = old;
  cl_new : load32 (memory M) (regs M ESP + 8) = new;
  cl_stack : 4 ≤ regs M ESP ∧ regs M ESP + 12 < 4294967296;
  cl_ctx : old + 24 < 4294967296 ∧ new + 24 < 4294967296;
  cl_apart : apart old 24 (regs M ESP - 4) 16;
}.

(** Memory after the first half. *)
Definition saved_mem (M : machine) (old : Z) : mem :=
  let m := store32 (memory M) old (regs M ESP) in
  let m := store32 m (old + 4) (regs M EBP) in
  let m := store32 m (old + 8) (regs M EBX) in
  let m := store32 m (old + 12) (regs M ESI) in
  let m := store32 m (old + 16) (regs M EDI) in
  let m := store32 m (regs M ESP - 4) (eflags M) in
  store32 m (old + 20) (eflags M).

Lemma saved_context M old :
  machine_ok M → apart old 24 (regs M ESP - 4) 16 → context_at (saved_mem M old) old = context_of M.
Proof.
  intros [Hr Hf] Ha. unfold context_at, context_of, saved_mem, apart in *. cbv zeta.
  f_equal; mem_load; by rewrite u32_small.
Qed.

Lemma saved_out M old a :
  ¬ (old ≤ a < old + 24) → ¬ (regs M ESP - 4 ≤ a < regs M ESP) →
  saved_mem M old a = memory M a.
Proof. intros. unfold saved_mem. cbv zeta. rewrite !store32_out by lia. done. Qed.

Lemma run_pushf_pop r l M :
  4 ≤ regs M ESP < 4294967296 → r ≠ ESP →
  run callee (PUSHF :: POP r :: l) M
  = run callee l (Machine (<[r := u32 (eflags M)]> (<[ESP := regs M ESP]>
      (<[ESP := regs M ESP - 4]> (regs M)))) (eflags M) (eip M)
      (store32 (memory M) (regs M ESP - 4) (eflags M))).
Proof.
  intros He Hr. destruct M as [rs fl ip m]. cbn -[load32 store32 u32] in *. unfold load, store.
  cbn -[load32 store32 u32]. rewrite !fn_lookup_insert.
  rewrite !(u32_small (rs ESP - 4)), store32_same by (unfold is_u32; lia).
  replace (rs ESP - 4 + 4) with (rs ESP) by lia.
  rewrite (u32_small (rs ESP)) by (unfold is_u32; lia).
  unfold run, set_reg, push, store. cbn -[store32 u32]. rewrite fn_lookup_insert.
  by rewrite !(u32_small (rs ESP - 4)) by (unfold is_u32; lia).
Qed.

Lemma save_context_run M ret old new :
  calling M ret old new →
  let M' := run callee (save_context ++ [MOV_load EAX ESP 8]) M in
  memory M' = saved_mem M old ∧ regs M' EAX = new.
Proof.
  intros [[Hr Hf] Hret Hold Hnew Hst [Ho Hn] Hap]. cbn zeta.
  pose proof (load32_range (memory M) (regs M ESP + 4)) as Ro. rewrite Hold in Ro.
  unfold is_u32 in Ro. unfold save_context. cbn [app].
  rewrite (run_load EAX ESP 4 _ _ (regs M ESP)), Hold by (try lia; done).
  do 5 (rewrite (run_store _ EAX _ _ _ old) by (cbn [regs set_reg]; reg_lookup; lia);
        cbn [regs eflags eip memory set_reg]; reg_lookup).
  rewrite run_pushf_pop; [| |done]; last first.
  { cbn [regs]. reg_lookup. lia. }
  cbn [regs eflags eip memory]. reg_lookup.
  rewrite (run_store ECX EAX 20 _ _ old) by (cbn [regs]; reg_lookup; lia).
  cbn [regs eflags eip memory]. reg_lookup.
  rewrite (run_load EAX ESP 8 _ _ (regs M ESP)) by (cbn [regs]; reg_lookup; lia).
  cbn [run foldl regs memory set_reg]. rewrite fn_lookup_insert, Z.add_0_r, (u32_small (eflags M)) by done.
  split; [done|]. rewrite <- Hnew. unfold apart in Hap. mem_load. done.
Qed.

Lemma run_app l1 l2 M : run callee (l1 ++ l2) M = run callee l2 (run callee l1 M).
Proof. apply foldl_app. Qed.

(** The stack pointer of a context, and the stack it points to, suit the switch. *)
Definition context_ok (c : thread_context_t) : Prop :=
  stack_ok (c_esp c) 4 ∧ apart own own_len (c_esp c) 4.

Lemma switch_to_enters ra M ret old new :
  calling M ret old new → context_ok (context_at (saved_mem M old) new) →
  entered (saved_mem M old) (context_at (saved_mem M old) new) (run callee (switch_to ra) M).
Proof.
  intros Hc [Hs Ha]. unfold switch_to. rewrite (assoc_L (++)), run_app.
  destruct (save_context_run M ret old new Hc) as [Em Ea].
  generalize dependent (run callee (save_context ++ [MOV_load EAX ESP 8]) M).
  intros M1 Em Ea. rewrite <- Em in *. destruct Hc as [_ _ _ Hnew _ [_ Hn] _].
  apply load_context_enters; [done| |done..].
  rewrite <- Hnew. apply load32_range.
Qed.

Lemma switch_to_init_enters ra M new :
  is_u32 (regs M ESP) → regs M ESP + 8 < 4294967296 →
  load32 (memory M) (regs M ESP + 4) = new → new + 24 < 4294967296 →
  context_ok (context_at (memory M) new) →
  entered (memory M) (context_at (memory M) new) (run callee (switch_to_init ra) M).
Proof.
  intros [He _] He' Hn Hb [Hs Ha]. unfold switch_to_init. cbn [app].
  rewrite (run_load EAX ESP 4 _ _ (regs M ESP)), Hn by (try lia; done).
  apply (load_context_enters ra (set_reg EAX new M)); [by rewrite regs_set| |done..].
  rewrite <- Hn. apply load32_range.
Qed.

(** The part of the old thread that has to survive until it runs again: its context and
    its stack from the return address of the call on. *)
Definition kept (m m' : mem) (old esp n : Z) : Prop :=
  agree m m' old 24 ∧ agree m m' esp n.

(** The second switch does not write to what the old thread keeps. *)
Definition harmless (M : machine) (cur old esp n : Z) : Prop :=
  apart cur 24 old 24 ∧ apart cur 24 esp n ∧
  apart (regs M ESP - 4) 4 old 24 ∧ apart (regs M ESP - 4) 4 esp n.

Lemma switch_back ra M ret old new M' ret' cur n :
  calling M ret old new → 4 ≤ n → context_ok (context_of M) →
  kept (saved_mem M old) (memory M') old (regs M ESP) n →
  calling M' ret' cur old → harmless M' cur old (regs M ESP) n →
  let M2 := run callee (switch_to ra) M' in
  eip M2 = ret ∧ regs M2 ESP = regs M ESP + 4 ∧
  (∀ r, r ∈ [EBP; EBX; ESI; EDI] → regs M2 r = regs M r) ∧
  IF (eflags M2) = IF (eflags M).
Proof.
  intros Hc Hn Hok [Kc Ks] Hc' (H1&H2&H3&H4). cbn zeta.
  assert (Ec : context_at (saved_mem M' cur) old = context_of M).
  { rewrite <- (saved_context M old) by apply Hc. rewrite <- (context_agree _ _ _ Kc).
    apply context_agree. intros a Ha. apply saved_out; unfold apart in *; lia. }
  destruct (switch_to_enters ra M' ret' cur old Hc') as [Fi Fe Fp Fb Fs Fd Ff Fm];
    [by rewrite Ec|]. rewrite Ec in *.
  cbn [context_of c_esp c_ebp c_ebx c_esi c_edi c_eflags] in *. split_and!; [|done| |done].
  - rewrite Fi, <- (cl_ret _ _ _ _ Hc).
    transitivity (load32 (memory M') (regs M ESP)).
    { apply load32_agree. intros a Ha. apply saved_out; unfold apart in *; lia. }
    transitivity (load32 (saved_mem M old) (regs M ESP)).
    { eapply agree_load; [exact Ks|lia..]. }
    apply load32_agree. intros a Ha. destruct Hc as [_ _ _ _ _ _ Hap].
    apply saved_out; unfold apart in *; lia.
  - intros r Hr. rewrite !elem_of_cons in Hr.
    destruct Hr as [->|[->|[->|[->|Hr%elem_of_nil]]]]; done.
Qed.
End Switch.

(** ** A concrete machine *)

(** Code that follows the convention: it sets the word at [own] and returns. *)
Definition set_flag (own : Z) (M : machine) : machine :=
  set_reg ESP (u32 (regs M ESP + 4)) (store own 1 M).

Lemma set_flag_cdecl depth own : is_u32 own → cdecl (set_flag own) depth own 4.
Proof.
  intros Ho. split.
  - intros M. unfold set_flag. by rewrite regs_set.
  - intros M r Hr. unfold set_flag. rewrite regs_set. case_decide; [subst; set_solver|done].
  - done.
  - intros M a _ Ha. cbn -[store32]. rewrite u32_small by done. apply store32_out. lia.
Qed.

Definition words (l : list (Z * Z)) : mem := foldr (λ w m, store32 m w.1 w.2) (λ _, 0) l.

(** A thread with stack pointer 1000 switches from the context at 5000 to the one at
    6000; later a thread with stack pointer 1980 switches back. *)
Definition demo_mem : mem :=
  words [(1000, 77); (1004, 5000); (1008, 6000); (6000, 2000); (2000, 88); (6020, 0x200)].
Definition demo_machine : machine :=
  Machine (λ r, match r with ESP => 1000 | EBP => 1100 | EBX => 3 | _ => 0 end) 0x200 0 demo_mem.
Definition demo_machine2 : machine :=
  Machine (λ r, match r with ESP => 1980 | _ => 0 end) 0 0
    (store32 (store32 (store32 (saved_mem demo_machine 5000) 1980 99) 1984 6000) 1988 5000).

Lemma demo_calling : calling demo_machine 77 5000 6000.
Proof.
  split; [split; [intros []; done|done]| | | |done|done|by right]; vm_compute; done.
Qed.

Lemma demo_calling2 : calling demo_machine2 99 6000 5000.
Proof.
  split; [split; [intros []; done|done]| | | |done|done|by right]; vm_compute; done.
Qed.

(** [switch_to(old, new)] saves the caller and enters the other thread. The six words
    of [old] become the stack pointer, the callee-saved registers and the flags of the
    caller, nothing else changes in memory but the word below the caller's stack pointer
    and the scratch area of the call, and execution continues at the address on top of the
    new stack with the registers and the interrupt flag of the context [new]. *)
Theorem switch_to_correct callee depth own own_len ra M ret old new :
  cdecl callee depth own own_len → calling M ret old new →
  apart old 24 new 24 → apart (regs M ESP - 4) 4 new 24 →
  let c := context_at (memory M) new in
  context_ok depth own own_len c →
  ∃ m, context_at m old = context_of M ∧
    (∀ a, ¬ (old ≤ a < old + 24) → ¬ (regs M ESP - 4 ≤ a < regs M ESP) → m a = memory M a) ∧
    entered depth own own_len m c (run callee (switch_to ra) M).
Proof.
  intros Hcd Hc Ha1 Ha2 c Hok. exists (saved_mem M old). subst c.
  assert (E : context_at (saved_mem M old) new = context_at (memory M) new).
  { apply context_agree. intros a Ha. apply saved_out; unfold apart in *; lia. }
  split; [apply saved_context; apply Hc|]. split; [intros a; apply saved_out|].
  rewrite <- E. eapply switch_to_enters; [done..|]. by rewrite E.
Qed.

Lemma switch_to_correct_witness :
  ∃ m, context_at m 5000 = context_of demo_machine ∧
    eip (run (set_flag 9000) (switch_to 44) demo_machine) = load32 m 2000.
Proof.
  destruct (switch_to_correct (set_flag 9000) 64 9000 4 44 demo_machine 77 5000 6000)
    as (m&Hm&_&He).
  - by apply set_flag_cdecl.
  - apply demo_calling.
  - by left.
  - by left.
  - vm_compute. split; [repeat split; discriminate|right; discriminate].
  - exists m. split; [exact Hm|]. rewrite (en_eip _ _ _ _ _ _ He). f_equal.
Defined.

(** A switch away is undone by a switch back. When a thread that called
    [switch_to(old, new)] is switched to again, by any thread on any processor and after any
    changes of memory that spare its context and its stack, it returns from its own call:
    to its return address, with its stack pointer past it, its callee-saved registers
    and its interrupt flag. *)
Theorem switch_to_roundtrip callee depth own own_len ra M ret old new M' ret' cur n :
  cdecl callee depth own own_len → calling M ret old new → 4 ≤ n →
  context_ok depth own own_len (context_of M) →
  kept (saved_mem M old) (memory M') old (regs M ESP) n →
  calling M' ret' cur old → harmless M' cur old (regs M ESP) n →
  let M2 := run callee (switch_to ra) M' in
  eip M2 = ret ∧ regs M2 ESP = regs M ESP + 4 ∧
  (∀ r, r ∈ [EBP; EBX; ESI; EDI] → regs M2 r = regs M r) ∧
  IF (eflags M2) = IF (eflags M).
Proof. intros. by eapply switch_back. Qed.

Lemma switch_to_roundtrip_witness :
  eip (run (set_flag 9000) (switch_to 44) demo_machine2) = 77.
Proof.
  refine (proj1 (switch_to_roundtrip (set_flag 9000) 64 9000 4 44 demo_machine 77 5000 6000
                   demo_machine2 99 6000 64 _ _ _ _ _ _ _)).
  - by apply set_flag_cdecl.
  - apply demo_calling.
  - done.
  - vm_compute. split; [repeat split; discriminate|right; discriminate].
  - split; cbn [demo_machine2 memory demo_machine regs].
    + intros a Ha. rewrite !store32_out by lia. done.
    + intros a Ha. rewrite !store32_out by lia. done.
  - apply demo_calling2.
  - vm_compute. repeat split; first [by left|by right].
Defined.
