(* ===== verification/KernelMemory.v ===== *)
(** * What the kernel's allocators promise to their clients

    Tasks, threads and run-queue nodes are [kmalloc]ed, page directories are page
    frames. [KernelMemory] states what the clients rely on; the heap of [Heap.v] on
    any [FrameSource] discharges it. *)
From S2P Require Import Prelude Memory MM FrameSource Heap HeapProofs.

Class KernelMemory (A : Type) : Type := {
  km_malloc : A → Z → res (Z * A);
  km_free : A → Z → res (Z * A);
  (** [alloc_frame(&mm_phys)] *)
  km_page : A → res (Z * A);
  km_ok : A → Prop;
  (** [n] bytes at this address are handed out by [kmalloc] *)
  km_block : A → Z → Z → Prop;
  (** the page frame at this address is handed out, and not to the heap *)
  km_held : A → Z → Prop;
  km_block_bounds a p n : km_ok a → km_block a p n → 0 < p ∧ 0 < n ∧ p + n < 4294967296;
  km_block_held a p n q : km_ok a → km_block a p n → km_held a q → apart p n q 4096;
  km_malloc_spec a n : km_ok a → 0 < n < 4294967296 →
    ∃ p a', km_malloc a n = Ret (p, a') ∧ km_ok a' ∧ (∀ q, km_held a q → km_held a' q) ∧
      ((p = NULL ∧ ∀ b k, km_block a' b k ↔ km_block a b k) ∨
       (p ≠ NULL ∧ (∀ b k, km_block a b k → apart b k p n) ∧
        ∀ b k, km_block a' b k ↔ km_block a b k ∨ (b = p ∧ k = n)));
  km_free_spec a p n : km_ok a → km_block a p n →
    ∃ a', km_free a p = Ret (OK, a') ∧ km_ok a' ∧ (∀ q, km_held a q → km_held a' q) ∧
      ∀ b k, km_block a' b k ↔ km_block a b k ∧ b ≠ p;
  km_page_spec a : km_ok a →
    ∃ p a', km_page a = Ret (p, a') ∧ km_ok a' ∧ (∀ q, km_held a q → km_held a' q) ∧
      (∀ b k, km_block a' b k ↔ km_block a b k) ∧
      (p = NULL ∨ p ≠ NULL ∧ 0 < p ∧ p `mod` 4096 = 0 ∧ p + 4096 < 4294967296 ∧
       km_held a' p ∧ (∀ q, km_held a q → apart q 4096 p 4096));
}.

(** ** The frames behind the heap *)

Section HeapFrames.
Context {F : Type} `{FS : FrameSource F}.
Implicit Types (st : kmem F) (heap : heap_desc_t).

(** Frames are only drawn. *)
Definition frames_grow (f f' : F) : Prop := ∀ a, fs_live f a → fs_live f' a.

#[local] Instance frames_grow_refl : Reflexive frames_grow.
Proof. by intros f a. Qed.

Lemma avail_fill_frames fuel : ∀ p lim h st st',
  avail_fill fuel p lim h st = Ret st' → k_frames st' = k_frames st.
Proof.
  induction fuel as [|fuel IH]; intros p lim h st st' E; cbn in E; [discriminate|].
  destruct (p <? lim); [|injection E as E; congruence]. exact (IH _ _ _ _ _ E).
Qed.

Lemma fs_alloc_grow f n p f' :
  fs_ok f → is_u32 n → fs_alloc f n = Ret (p, f') → frames_grow f f'.
Proof.
  intros Hok Hn E. destruct (fs_alloc_spec f n Hok Hn) as (p1&f1&E1&_&Hc).
  rewrite E in E1. injection E1 as <- <-.
  destruct Hc as [[_ ->]|(_&_&_&_&_&Hl)]; [by intros a|]. intros a Ha. apply Hl. by left.
Qed.

Lemma carve_frames heap size x y st p st' :
  kmalloc_carve heap size x y st = Ret (p, st') → k_frames st' = k_frames st.
Proof. unfold kmalloc_carve. by intros [= <- <-]. Qed.

(** [__kmalloc] draws at most one frame. *)
Lemma kmalloc_frames_rel (R : F → F → Prop) `{!Reflexive R} heap size st p st' :
  (∀ f q f', fs_ok f → fs_alloc f 1 = Ret (q, f') → R f f') →
  heap_wf heap st → __kmalloc size heap st = Ret (p, st') → R (k_frames st) (k_frames st').
Proof.
  intros HR Hw E. unfold __kmalloc in E. destruct (kmalloc_scan _ _ _ _ _) as [x|x].
  { by injection E as <- <-. }
  destruct (x =? NULL); [by injection E as <- <-|].
  destruct (head _) as [y|].
  { apply carve_frames in E. by rewrite E. }
  apply res_bind_Ret in E as ([q f]&Ea&E).
  assert (Hg : R (k_frames st) f) by (eapply HR; [apply Hw|exact Ea]).
  destruct (q =? NULL); [by injection E as <- <-|].
  apply res_bind_Ret in E as (st1&Ef&E). apply avail_fill_frames in Ef. cbn in Ef.
  destruct (head _) as [y|].
  - apply carve_frames in E. by rewrite E, Ef.
  - injection E as <- <-. by rewrite Ef.
Qed.

Lemma kmalloc_frames heap size st p st' :
  heap_wf heap st → __kmalloc size heap st = Ret (p, st') →
  frames_grow (k_frames st) (k_frames st').
Proof.
  apply (kmalloc_frames_rel frames_grow). intros f q f' Hok. by apply fs_alloc_grow.
Qed.

Lemma kfree_merge_frames l : ∀ x lp rp st,
  k_frames (kfree_merge l x lp rp st).2 = k_frames st.
Proof.
  induction l as [|y l IH]; intros x lp rp st; [done|]. cbn.
  repeat (case_match; simplify_eq; try done; try by rewrite IH).
Qed.

Lemma kfree_frames heap p st : k_frames (__kfree p heap st).2 = k_frames st.
Proof.
  unfold __kfree. destruct (find_base _ _ _) as [x|]; [|done]. cbv zeta.
  destruct (kfree_merge _ _ _ _ _) as [[lp rp] st1] eqn:E.
  pose proof (f_equal (λ r, k_frames r.2) E) as E1. cbn in E1.
  rewrite kfree_merge_frames in E1. cbn in E1. cbn [snd].
  by destruct (negb (lp =? NULL)), (negb (rp =? NULL)).
Qed.

(** The frames of the heap's area are in use. *)
Definition area_live heap (f : F) : Prop :=
  ∀ a, a `mod` 4096 = 0 → heap_start heap < a + 4096 → a < heap_end heap → fs_live f a.

Lemma area_live_grow heap f f' : area_live heap f → frames_grow f f' → area_live heap f'.
Proof. intros Ha Hg a ???. by apply Hg, Ha. Qed.
End HeapFrames.

(** ** The heap as kernel memory *)

Section HeapInstance.
Context {F : Type} `{FS : FrameSource F}.

Definition heap_malloc (a : heap_desc_t * kmem F) (n : Z) : res (Z * (heap_desc_t * kmem F)) :=
  '(p, st) ← kmalloc n a.1 a.2; Ret (p, (a.1, st)).
Definition heap_kfree (a : heap_desc_t * kmem F) (p : Z) : res (Z * (heap_desc_t * kmem F)) :=
  '(rc, st) ← kfree p a.1 a.2; Ret (rc, (a.1, st)).
Definition heap_page (a : heap_desc_t * kmem F) : res (Z * (heap_desc_t * kmem F)) :=
  '(p, f) ← fs_alloc (k_frames a.2) 1; Ret (p, (a.1, set_frames f a.2)).
Definition heap_ok (a : heap_desc_t * kmem F) : Prop :=
  heap_wf a.1 a.2 ∧ area_live a.1 (k_frames a.2).
Definition heap_block (a : heap_desc_t * kmem F) (p n : Z) : Prop := (p, n) ∈ res_regions a.1 a.2.
Definition heap_held (a : heap_desc_t * kmem F) (q : Z) : Prop :=
  q `mod` 4096 = 0 ∧ fs_live (k_frames a.2) q ∧
  apart q 4096 (heap_start a.1) (heap_end a.1 - heap_start a.1).

Lemma heap_block_area a p n :
  heap_wf a.1 a.2 → heap_block a p n → heap_start a.1 ≤ p ∧ 0 < n ∧ p + n ≤ heap_end a.1.
Proof.
  intros Hw Hb. eapply tiles_bounds; [apply Hw|]. apply elem_of_app. by right.
Qed.

Lemma heap_held_grow a st q :
  heap_held a q → frames_grow (k_frames a.2) (k_frames st) → heap_held (a.1, st) q.
Proof. intros (?&?&?) Hg. split; [done|]. split; [by apply Hg|done]. Qed.

Lemma heap_malloc_spec a n :
  heap_ok a → 0 < n < 4294967296 →
  ∃ p a', heap_malloc a n = Ret (p, a') ∧ heap_ok a' ∧ (∀ q, heap_held a q → heap_held a' q) ∧
    ((p = NULL ∧ ∀ b k, heap_block a' b k ↔ heap_block a b k) ∨
     (p ≠ NULL ∧ (∀ b k, heap_block a b k → apart b k p n) ∧
      ∀ b k, heap_block a' b k ↔ heap_block a b k ∨ (b = p ∧ k = n))).
Proof.
  intros [Hw Ha] Hn. unfold heap_malloc. rewrite kmalloc_unfold by done.
  destruct (__kmalloc_spec a.1 a.2 n Hw Hn) as (p&st'&E&Hw'&Hc). rewrite E. cbn.
  pose proof (kmalloc_frames _ _ _ _ _ Hw E) as Hg.
  eexists _, _. split; [done|]. split; [split; [done|by eapply area_live_grow]|].
  split; [intros q Hq; by apply heap_held_grow|].
  unfold heap_block. cbn [fst snd].
  destruct Hc as [(k&Fr&_&_&_&Hr)|(->&_&Hr&_)]; [right|left; by rewrite Hr].
  rewrite Hr. pose proof (wf_tiles _ _ Hw') as Ht. rewrite Hr in Ht. split_and!.
  - intros ->. pose proof (wf_area _ _ Hw').
    assert (heap_start a.1 ≤ NULL) as Hs; [|unfold NULL in *; lia].
    eapply (tiles_bounds _ _ _ NULL n); [exact Ht|]. set_solver.
  - intros b k' (l1&l2&E1)%list_elem_of_split. rewrite E1 in Ht.
    rewrite <- (Permutation_middle l1 l2), <- !Permutation_middle in Ht.
    apply tiles_apart in Ht. unfold apart. lia.
  - intros b k'. rewrite elem_of_cons. split; [intros [[= -> ->]|]; tauto|].
    intros [|[-> ->]]; tauto.
Qed.

Lemma heap_kfree_spec a p n :
  heap_ok a → heap_block a p n →
  ∃ a', heap_kfree a p = Ret (OK, a') ∧ heap_ok a' ∧ (∀ q, heap_held a q → heap_held a' q) ∧
    ∀ b k, heap_block a' b k ↔ heap_block a b k ∧ b ≠ p.
Proof.
  intros [Hw Ha] Hb. unfold heap_kfree. rewrite kfree_unfold by done.
  destruct (__kfree_spec a.1 a.2 p Hw) as (rc&st'&E&Hw'&Hc).
  pose proof (kfree_frames a.1 p a.2) as Ef. rewrite E in Ef. cbn in Ef.
  rewrite E. cbn. destruct Hc as [(_&_&Hno)|(->&k&Hr&_)].
  { destruct Hno. apply list_elem_of_fmap. by exists (p, n). }
  eexists. split; [done|]. split; [split; [done|cbn; rewrite Ef; done]|].
  split; [intros q Hq; apply heap_held_grow; [done|rewrite Ef; by intros a0]|].
  unfold heap_block. cbn [fst snd]. intros b k'. rewrite Hr, elem_of_cons.
  split; [|intros [[[= -> _]|] ?]; tauto].
  intros Hin. split; [tauto|]. intros ->.
  pose proof (wf_tiles _ _ Hw) as Ht. rewrite Hr in Ht.
  apply list_elem_of_split in Hin as (l1&l2&E1). rewrite E1 in Ht.
  rewrite <- (Permutation_middle l1 l2), <- !Permutation_middle in Ht.
  pose proof (tiles_bounds _ _ _ p k Ht ltac:(left)).
  pose proof (tiles_bounds _ _ _ p k' Ht ltac:(right; left)).
  apply tiles_apart in Ht. lia.
Qed.

Lemma heap_page_spec a :
  heap_ok a →
  ∃ p a', heap_page a = Ret (p, a') ∧ heap_ok a' ∧ (∀ q, heap_held a q → heap_held a' q) ∧
    (∀ b k, heap_block a' b k ↔ heap_block a b k) ∧
    (p = NULL ∨ p ≠ NULL ∧ 0 < p ∧ p `mod` 4096 = 0 ∧ p + 4096 < 4294967296 ∧
     heap_held a' p ∧ (∀ q, heap_held a q → apart q 4096 p 4096)).
Proof.
  intros [Hw Ha]. unfold heap_page.
  destruct (fs_alloc_spec (k_frames a.2) 1) as (p&f&E&Hok&Hc); [apply Hw|done|].
  assert (Hg : frames_grow (k_frames a.2) f).
  { eapply (fs_alloc_grow _ 1); [apply Hw|done|exact E]. }
  rewrite E. cbn. eexists _, _. split; [done|].
  split; [split; [by apply heap_wf_frames|by eapply area_live_grow]|].
  split; [intros q Hq; by apply heap_held_grow|]. split; [done|].
  destruct Hc as [[-> _]|(H0&Hm&_&Ht&Hn&Hl)]; [by left|right].
  assert (Hp : ¬ fs_live (k_frames a.2) p).
  { replace p with (p + 4096 * 0) by lia. apply Hn. lia. }
  split_and!; [unfold NULL; lia|done|done|lia|..].
  - split; [done|]. split; [cbn; apply Hl; right; exists 0; lia|]. cbn.
    destruct (decide (apart p 4096 (heap_start a.1) (heap_end a.1 - heap_start a.1))) as [|Hno];
      [done|]. destruct Hp. unfold apart in Hno. apply Ha; [done|lia|lia].
  - intros q (Hq1&Hq2&_). destruct (decide (p = q)) as [->|]; [done|]. unfold apart. dlia.
Qed.

#[export] Program Instance heap_memory : KernelMemory (heap_desc_t * kmem F) := {|
  km_malloc := heap_malloc;
  km_free := heap_kfree;
  km_page := heap_page;
  km_ok := heap_ok;
  km_block := heap_block;
  km_held := heap_held;
  km_malloc_spec := heap_malloc_spec;
  km_free_spec := heap_kfree_spec;
  km_page_spec := heap_page_spec;
|}.
Next Obligation.
  intros a p n [Hw _] Hb. pose proof (heap_block_area _ _ _ Hw Hb). pose proof (wf_area _ _ Hw). lia.
Qed.
Next Obligation.
  intros a p n q [Hw _] Hb (_&_&Hq). pose proof (heap_block_area _ _ _ Hw Hb).
  unfold apart in *. lia.
Qed.

(** [init_heap] puts its area on frames it drew. *)
Lemma init_heap_ok size st heap st' :
  fs_ok (k_frames st) → 0 < size < 4294967296 →
  init_heap size st = Ret (0, Some heap, st') → heap_ok (heap, st').
Proof.
  intros Hok Hsz E. pose proof E as E0. destruct (init_heap_spec size st Hok Hsz) as (rc&o&st1&E1&Hc).
  rewrite E in E1. injection E1 as <- <- <-.
  destruct Hc as [[? _]|(h&_&[= <-]&He&Hw&_)]; [done|]. split; [done|]. cbn.
  unfold init_heap in E. destruct (PAGE_CONTAIN_bounds size Hsz) as (P1&P2&P3).
  destruct (fs_alloc_spec (k_frames st) (PAGE_CONTAIN size) Hok P1) as (q&f&Eq&Hok'&Hq).
  rewrite Eq in E. cbn in E. destruct (Z.eqb_spec q NULL) as [->|Hq0]; [done|].
  destruct Hq as [[? _]|(Q0&Qm&_&Qtop&_&Ql)]; [done|].
  rewrite u32_small in E by (unfold is_u32; lia). unfold HEAP_FB in E.
  apply res_bind_Ret in E as ([mp f']&Em&E). cbn in Em.
  assert (Hg : frames_grow f f') by (by eapply (fs_alloc_grow _ 1); [|done|]).
  destruct (mp =? NULL); [done|]. apply res_bind_Ret in E as (st2&Ef&E).
  apply avail_fill_frames in Ef. cbn in Ef. injection E as <- <-. cbn [heap_start heap_end k_frames] in *.
  intros a Hm Ha1 Ha2. cbn [heap_start heap_end] in Ha1, Ha2. rewrite Ef. apply Hg, Ql. right. exists ((a - q) / 4096).
  clear - P3 Qm Hm Ha1 Ha2. dlia.
Qed.
End HeapInstance.
