(* ===== verification/Task.v ===== *)
(** * Tasks and threads: [src/task.c], with the task part of [src/sched.c]

    Structures, stacks and page directories are bytes of one memory at the offsets of
    [include/task.h] (the structures are packed); list heads are the keys of a map
    to the sequences [ListProofs.v] relates them to, and a run queue is the sequence of
    its threads, as in [Sched.v]. Memory comes from any [KernelMemory]. The functions
    are written in a state and error monad. Locks are left out: every function here runs
    as a whole. *)
From S2P Require Import Prelude Memory ListHead ListProofs MM KernelMemory Threads Timer Sched.

(** ** Layout *)

Definition T_STACK_SIZE : Z := 0x1000.

(** [task_t] *)
Definition TASK_ID : Z := 0.
Definition TASK_STATUS : Z := 4.
Definition TASK_MM : Z := 8.
Definition TASK_ADDR_SPACE : Z := 12.
Definition TASK_PARENT : Z := 16.
Definition TASK_THREADS : Z := 20.
Definition TASK_LINK : Z := 28.
Definition SIZEOF_TASK : Z := 36.

(** [thread_t] *)
Definition THR_ID : Z := 0.
Definition THR_STATUS : Z := 4.
Definition THR_CONTEXT : Z := 8.
Definition THR_KSTACK_BASE : Z := 40.
Definition THR_KSTACK_SIZE : Z := 44.
Definition THR_ALARM : Z := 48.
Definition THR_TASK : Z := 64.
Definition THR_LINK : Z := 68.
Definition SIZEOF_THREAD : Z := 76.

(** [task_group_t]: [task_list] follows the id. *)
Definition GROUP_TASKS : Z := 4.

(** [mmc_t]: eight words. *)
Definition SIZEOF_MMC : Z := 32.

(** [rthread_list_t]: a union of two words, [threadp] and a list head. *)
Definition RT_THREADP : Z := 8.
Definition SIZEOF_RTHREAD : Z := 20.

(** The values of [thread_state_t]. *)
Definition state_value (s : thread_state_t) : Z :=
  match s with
  | T_INIT => 0 | T_READY => 1 | T_RUNNING => 2 | T_BLOCKED => 3 | T_COMPLETE => 4
  end.

(** The statuses of the threads in memory; a word that is no state counts as complete
    (the code here only asks which are ready). *)
Definition statuses_in (m : mem) : statuses := λ t,
  let v := load32 m (t + THR_STATUS) in
  if v =? 0 then T_INIT else if v =? 1 then T_READY else if v =? 2 then T_RUNNING
  else if v =? 3 then T_BLOCKED else T_COMPLETE.

(** ** State *)

Record kstate (A : Type) : Type := KState {
  k_mem : mem;
  k_alloc : A;
  k_links : gmap Z (list Z);
  k_next_id : Z;                 (* [static task_id_t id] of [alloc_task_id] *)
  k_cpus : nat → cpu_state_t;    (* [cpuset] *)
}.
Arguments KState {A}.
Arguments k_mem {A}.
Arguments k_alloc {A}.
Arguments k_links {A}.
Arguments k_next_id {A}.
Arguments k_cpus {A}.

(** Code that changes the state, and may stop. *)
Definition code (A X : Type) : Type := kstate A → res (X * kstate A).

#[export] Instance code_ret A : MRet (code A) := λ X x s, Ret (x, s).
#[export] Instance code_bind A : MBind (code A) := λ X Y f c s,
  match c s with
  | Ret (x, s) => f x s
  | Panic msg => Panic msg
  | Diverge => Diverge
  end.

Section Task.
Context {A : Type} `{KM : KernelMemory A}.

(** The machine and the addresses the code refers to: [mpinfo], the index of the
    calling processor in [cpuset], and the symbols. *)
Context (ismp : bool) (ncpu this : nat).
Context (all_tasks k_pdir mm_phys finish_thread K_INIT : Z).

(** ** The pieces *)

Definition get {X} (f : kstate A → X) : code A X := λ s, Ret (f s, s).

(** [p->field] and [p->field = v] *)
Definition rd (a : Z) : code A Z := get (λ s, load32 (k_mem s) a).
Definition wr (a v : Z) : code A unit := λ s,
  Ret ((), KState (store32 (k_mem s) a v) (k_alloc s) (k_links s) (k_next_id s) (k_cpus s)).

Definition on_mem (f : mem → mem) : code A unit := λ s,
  Ret ((), KState (f (k_mem s)) (k_alloc s) (k_links s) (k_next_id s) (k_cpus s)).
Definition on_links (f : gmap Z (list Z) → gmap Z (list Z)) : code A unit := λ s,
  Ret ((), KState (k_mem s) (k_alloc s) (f (k_links s)) (k_next_id s) (k_cpus s)).

(** A call of the allocator. *)
Definition alloc_call {X} (f : A → res (X * A)) : code A X := λ s,
  '(x, a) ← f (k_alloc s);
  Ret (x, KState (k_mem s) a (k_links s) (k_next_id s) (k_cpus s)).

Definition kmalloc (n : Z) : code A Z := alloc_call (λ a, km_malloc a n).
Definition kfree (p : Z) : code A Z := alloc_call (λ a, km_free a p).

(** [void *get_zeroed_page()] *)
Definition get_zeroed_page : code A Z :=
  p ← alloc_call km_page;
  _ ← (if p =? NULL then mret () else on_mem (λ m, bzero m p PAGE_SIZE));
  mret p.

Definition PAGE_MASK : Z := 0xFFFFF000.

(** [void copy_page_directory_from(void *src, void *dst)] *)
Definition copy_page_directory_from (src dst : Z) : code A unit :=
  let a_src := Z.land src PAGE_MASK in
  let a_dst := Z.land dst PAGE_MASK in
  on_mem (λ m, copy_bytes m a_dst a_src PAGE_SIZE).

Definition panic {X} (msg : string) : code A X := λ _, Panic msg.

(** [list_entry(taskp->thread_list.next, thread_t, thread_list)]; an address that heads no
    list is not followed. *)
Definition first_thread (taskp : Z) : code A Z :=
  l ← get (λ s, k_links s !! (taskp + TASK_THREADS));
  match l with
  | Some (x :: _) => mret (x - THR_LINK)
  | Some [] => mret (taskp + TASK_THREADS - THR_LINK)
  | None => panic "not a list"
  end.

(** [static task_id_t alloc_task_id(task_group_t *tgrp)] *)
Definition alloc_task_id : code A Z := λ s,
  let id := u32 (k_next_id s + 1) in
  Ret (id, KState (k_mem s) (k_alloc s) (k_links s) id (k_cpus s)).

(** [static int verify_task_id(task_group_t *tgrp, task_id_t tid)] *)
Definition verify_task_id (tid : Z) : Z := 0.

(** [static void init_task_group(task_group_t *task_group)] *)
Definition init_task_group (group : Z) : code A unit :=
  on_links (λ W, <[group + GROUP_TASKS := []]> W).

(** [static void add_to_task_group(task_group_t *task_group, task_t *task)] *)
Definition add_to_task_group (group task : Z) : code A unit :=
  on_links (w_add_tail (task + TASK_LINK) (group + GROUP_TASKS)).

(** ** Threads *)

(** [void alarm_reset(alarm_t *alarm)] on the words of the structure *)
Definition alarm_reset_at (p : Z) : code A unit :=
  _ ← wr p 0; _ ← wr (p + 4) 0; _ ← wr (p + 8) 0; wr (p + 12) 0.

(** The label [thr_err] *)
Definition thr_err (threadp : Z) : code A Z :=
  _ ← (if negb (threadp =? NULL) then _ ← kfree threadp; mret () else mret ());
  mret NULL.

(** [static thread_t *__create_thread(task_t *task, int ( *fn)(void * ), void *arg)] *)
Definition __create_thread (task fn arg : Z) : code A Z :=
  threadp ← kmalloc SIZEOF_THREAD;
  if threadp =? NULL then thr_err threadp
  else
    _ ← on_mem (λ m, bzero m threadp SIZEOF_THREAD);
    _ ← wr (threadp + THR_STATUS) (state_value T_INIT);
    _ ← wr (threadp + THR_ID) 1;
    stackp ← kmalloc T_STACK_SIZE;
    if stackp =? NULL then thr_err threadp
    else
      _ ← wr (threadp + THR_KSTACK_BASE) stackp;
      _ ← wr (threadp + THR_KSTACK_SIZE) T_STACK_SIZE;
      let top := u32 (stackp + T_STACK_SIZE) in
      let top := u32 (top - 4) in
      _ ← wr top arg;
      let top := u32 (top - 4) in
      _ ← wr top finish_thread;
      let top := u32 (top - 4) in
      _ ← wr top fn;
      _ ← wr (threadp + THR_CONTEXT) top;
      _ ← wr (threadp + THR_CONTEXT + 20) 0x200;
      _ ← alarm_reset_at (threadp + THR_ALARM);
      _ ← on_links (w_add_tail (threadp + THR_LINK) (task + TASK_THREADS));
      _ ← wr (threadp + THR_TASK) task;
      mret threadp.

(** ** Run queues *)

(** [static cpu_state_t *pick_processor()] as an index of [cpuset] *)
Definition pick_processor (s : kstate A) : nat :=
  if negb ismp then this
  else __pick_processor_fsr ncpu
         (λ j, rq_calc_len_and_ready (k_cpus s j) (statuses_in (k_mem s))).

(** [list_add_tail(&ptr->runq, &cpu->runq)] for the node of thread [t] *)
Definition enqueue (i : nat) (t : Z) : code A unit := λ s,
  let c := k_cpus s i in
  Ret ((), KState (k_mem s) (k_alloc s) (k_links s) (k_next_id s)
             (<[i := set_runq (runq c ++ [t]) c]> (k_cpus s))).

(** [static int add_thread_to_rq(thread_t *threadp)] *)
Definition add_thread_to_rq (threadp : Z) : code A Z :=
  ptr ← kmalloc SIZEOF_RTHREAD;
  if ptr =? NULL then mret 1
  else
    cpu ← get pick_processor;
    _ ← wr (ptr + RT_THREADP) threadp;
    _ ← enqueue cpu threadp;
    _ ← wr (threadp + THR_STATUS) (state_value T_READY);
    mret OK.

(** [static int add_task_to_rq(task_t *taskp)] and [init_task_sched] *)
Definition add_task_to_rq (taskp : Z) : code A Z :=
  status ← rd (taskp + TASK_STATUS);
  if negb (status =? state_value T_INIT) then panic "taskp->status == T_INIT"
  else
    threadp ← first_thread taskp;
    rc ← add_thread_to_rq threadp;
    if rc =? 0 then
      _ ← wr (taskp + TASK_STATUS) (state_value T_READY); mret OK
    else mret 1.

Definition init_task_sched (taskp : Z) : code A Z := add_task_to_rq taskp.
Definition init_thread_sched (threadp : Z) : code A Z := add_thread_to_rq threadp.

(** [task_t *get_curr_task()] *)
Definition get_curr_task : code A Z :=
  t ← get (λ s, rthread (k_cpus s this));
  rd (t + THR_TASK).

(** ** Tasks *)

(** The label [c_err] *)
Definition c_err (taskp mmcp : Z) : code A Z :=
  _ ← (if negb (taskp =? NULL) then _ ← kfree taskp; mret () else mret ());
  _ ← (if negb (mmcp =? NULL) then _ ← kfree mmcp; mret () else mret ());
  mret NULL.

(** From [INIT_LIST_HEAD(&taskp->thread_list)] on *)
Definition create_main_thread (group taskp fn arg : Z) : code A Z :=
  _ ← on_links (λ W, <[taskp + TASK_THREADS := []]> W);
  thr ← __create_thread taskp fn arg;
  if thr =? NULL then mret NULL
  else
    _ ← add_to_task_group group taskp;
    mret taskp.

(** From [set address space] on *)
Definition create_address_space (group taskp mmcp addr_space parent fn arg : Z) : code A Z :=
  page ← (if addr_space =? NULL then get_zeroed_page else mret addr_space);
  _ ← wr (taskp + TASK_ADDR_SPACE) page;
  if (addr_space =? NULL) && (page =? NULL) then c_err taskp mmcp
  else
    _ ← (if addr_space =? NULL then copy_page_directory_from k_pdir page else mret ());
    _ ← (if parent =? NULL then mret () else wr (taskp + TASK_PARENT) parent);
    create_main_thread group taskp fn arg.

(** [static task_t *__create_task(task_group, task_id, mm, addr_space, parent, thread_id, fn,
    arg)]; [thread_id] is not used. *)
Definition __create_task (group task_id mm addr_space parent fn arg : Z) : code A Z :=
  taskp ← kmalloc SIZEOF_TASK;
  if taskp =? NULL then c_err taskp NULL
  else
    _ ← on_mem (λ m, bzero m taskp SIZEOF_TASK);
    _ ← wr (taskp + TASK_STATUS) (state_value T_INIT);
    bad ← (if task_id =? 0 then
             id ← alloc_task_id;
             _ ← wr (taskp + TASK_ID) id;
             mret (id =? 0)
           else if negb (verify_task_id task_id =? 0) then mret true
           else _ ← wr (taskp + TASK_ID) task_id; mret false);
    if bad : bool then c_err taskp NULL
    else if mm =? NULL then
      mmcp ← kmalloc SIZEOF_MMC;
      if mmcp =? NULL then c_err taskp mmcp
      else
        _ ← wr (taskp + TASK_MM) mmcp;
        create_address_space group taskp mmcp addr_space parent fn arg
    else
      _ ← wr (taskp + TASK_MM) mm;
      create_address_space group taskp NULL addr_space parent fn arg.

(** [task_id_t create_task(int ( *fn)(void * ), void *arg)] *)
Definition create_task (fn arg : Z) : code A Z :=
  taskp ← __create_task all_tasks 0 NULL NULL NULL fn arg;
  _ ← init_task_sched taskp;
  rd (taskp + TASK_ID).

(** [task_id_t create_kernel_task(int ( *fn)(void * ), void *arg)] *)
Definition create_kernel_task (fn arg : Z) : code A Z :=
  taskp ← __create_task all_tasks 0 mm_phys NULL NULL fn arg;
  _ ← init_task_sched taskp;
  rd (taskp + TASK_ID).

(** [thread_id_t create_thread(int ( *fn)(void * ), void *arg)] *)
Definition create_thread (fn arg : Z) : code A Z :=
  taskp ← get_curr_task;
  thrp ← __create_thread taskp fn arg;
  _ ← init_thread_sched thrp;
  rd (thrp + THR_ID).

(** [void setup_init_task()] *)
Definition setup_init_task : code A unit :=
  _ ← init_task_group all_tasks;
  tid ← create_kernel_task K_INIT NULL;
  if tid =? 0 then panic "Kernel task setup failed" else mret ().
End Task.
