(* ===== verification/TaskProofs.v ===== *)
(** * Tasks and threads are set up correctly

    What [__create_thread] and [__create_task] leave in memory, on every branch; that the
    first switch to a new thread calls its function; what a failed creation does. *)
From S2P Require Import Prelude Memory ListHead ListProofs MM MMProofs FrameSource Heap HeapProofs KernelMemory Threads Timer Sched Switch Task.

(** ** Sets of blocks *)

Section Blocks.
Context {A : Type} `{KM : KernelMemory A}.

(** [a'] has the blocks of [a] and those of [l], all without overlap. *)
Record blocks_plus (a : A) (l : list (Z * Z)) (a' : A) : Prop := {
  bp_iff : ∀ b k, km_block a' b k ↔ km_block a b k ∨ (b, k) ∈ l;
  bp_apart : ∀ b k p n, km_block a b k → (p, n) ∈ l → apart b k p n;
  bp_ok : km_ok a';
  bp_held : ∀ q, km_held a q → km_held a' q;
}.

Lemma blocks_plus_nil a : km_ok a → blocks_plus a [] a.
Proof. intros. split; [|set_solver|done..]. set_solver. Qed.

Lemma malloc_blocks a n :
  km_ok a → 0 < n < 4294967296 →
  ∃ p a', km_malloc a n = Ret (p, a') ∧
    (p = NULL ∧ blocks_plus a [] a' ∨
     p ≠ NULL ∧ blocks_plus a [(p, n)] a' ∧ 0 < p ∧ p + n < 4294967296).
Proof.
  intros Hok Hn. destruct (km_malloc_spec a n Hok Hn) as (p&a'&E&Hok'&Hh&Hc).
  exists p, a'. split; [done|]. destruct Hc as [[-> Hb]|(Hp&Hap&Hb)]; [left|right].
  - split; [done|]. split; [set_solver|set_solver|done..].
  - assert (km_block a' p n) as Hbl by (apply Hb; tauto).
    pose proof (km_block_bounds a' p n Hok' Hbl) as (?&?&?).
    split_and!; [done| |lia..]. split; [|set_solver|done..].
    intros b k. rewrite Hb, list_elem_of_singleton. split; [intros [?|[-> ->]]|intros [?|[= -> ->]]]; tauto.
Qed.

(** Giving back the newest block. *)
Lemma free_blocks a l p n a' :
  km_ok a → blocks_plus a ((p, n) :: l) a' → (∀ k, (p, k) ∉ l) →
  ∃ a'', km_free a' p = Ret (OK, a'') ∧ blocks_plus a l a''.
Proof.
  intros Hok [Hi Hap Hok' Hh] Hl.
  destruct (km_free_spec a' p n Hok') as (a''&E&Hok''&Hh''&Hb); [apply Hi; right; left|].
  exists a''. split; [done|]. split; [|intros; eapply Hap; set_solver|done|eauto].
  assert (Hpos : 0 < n) by (apply (km_block_bounds a' p n Hok'), Hi; right; left).
  intros b k. rewrite Hb, Hi, elem_of_cons. split.
  - intros [[Hab|[[= -> ->]|Hin]] Hne]; [tauto|done|tauto].
  - intros [Hab|Hin].
    + split; [tauto|]. intros ->.
      pose proof (Hap p k p n Hab ltac:(left)) as Hx.
      assert (0 < k) by (apply (km_block_bounds a p k Hok Hab)). unfold apart in Hx. lia.
    + split; [tauto|]. intros ->. by apply (Hl k).
Qed.

Lemma blocks_plus_app a l a1 p n a2 :
  blocks_plus a l a1 → blocks_plus a1 [(p, n)] a2 →
  blocks_plus a ((p, n) :: l) a2 ∧ ∀ b k, (b, k) ∈ l → apart b k p n.
Proof.
  intros [Hi1 Ha1 _ Hh1] [Hi2 Ha2 Hok Hh2]. split.
  - split; [|intros b k q j Hab Hin|done|eauto].
    + intros b k. rewrite Hi2, Hi1, !elem_of_cons, elem_of_nil. tauto.
    + apply elem_of_cons in Hin as [[= -> ->]|Hin]; [|by eapply Ha1].
      eapply Ha2; [|left]. apply Hi1. tauto.
  - intros b k Hin. eapply Ha2; [|left]. apply Hi1. tauto.
Qed.

Lemma blocks_plus_trans a l a1 l' a2 :
  blocks_plus a l a1 → blocks_plus a1 l' a2 → blocks_plus a (l' ++ l) a2.
Proof.
  intros [Hi1 Ha1 _ Hh1] [Hi2 Ha2 Hok Hh2]. split; [|intros b k p n Hab Hin|done|eauto].
  - intros b k. rewrite Hi2, Hi1, elem_of_app. tauto.
  - apply elem_of_app in Hin as [Hin|Hin]; [|by eapply Ha1].
    eapply Ha2; [|exact Hin]. apply Hi1. tauto.
Qed.

Lemma blocks_plus_same a l a1 a2 :
  blocks_plus a l a1 → blocks_plus a1 [] a2 → blocks_plus a l a2.
Proof.
  intros [Hi1 Ha1 _ Hh1] [Hi2 _ Hok Hh2]. split; [|done|done|eauto].
  intros b k. rewrite Hi2, Hi1. set_solver.
Qed.
End Blocks.

(** ** Memory of a new thread *)

(** The structure at [t] and the stack at [stk] of a thread about to run [fn(arg)]. *)
Record new_thread (m : mem) (t stk task fn arg fin : Z) : Prop := {
  nt_id : load32 m (t + THR_ID) = 1;
  nt_status : load32 m (t + THR_STATUS) = state_value T_INIT;
  nt_context : context_at m (t + THR_CONTEXT) = Ctx (stk + 4084) 0 0 0 0 0x200;
  nt_kstack : load32 m (t + THR_KSTACK_BASE) = stk ∧
              load32 m (t + THR_KSTACK_SIZE) = T_STACK_SIZE;
  nt_alarm : ∀ i, 0 ≤ i < 4 → load32 m (t + THR_ALARM + 4 * i) = 0;
  nt_task : load32 m (t + THR_TASK) = task;
  nt_fn : load32 m (stk + 4084) = fn;
  nt_finish : load32 m (stk + 4088) = fin;
  nt_arg : load32 m (stk + 4092) = arg;
}.

(** The stores of [__create_thread], in order. *)
Definition thread_head (m : mem) (t : Z) : mem :=
  store32 (store32 (bzero m t SIZEOF_THREAD) (t + THR_STATUS) 0) (t + THR_ID) 1.

Definition thread_stores (m : mem) (t stk fn arg fin : Z) : mem :=
  let m := store32 m (t + THR_KSTACK_BASE) stk in
  let m := store32 m (t + THR_KSTACK_SIZE) T_STACK_SIZE in
  let m := store32 m (stk + 4092) arg in
  let m := store32 m (stk + 4088) fin in
  let m := store32 m (stk + 4084) fn in
  let m := store32 m (t + THR_CONTEXT) (stk + 4084) in
  let m := store32 m (t + THR_CONTEXT + 20) 0x200 in
  let m := store32 m (t + THR_ALARM) 0 in
  let m := store32 m (t + THR_ALARM + 4) 0 in
  let m := store32 m (t + THR_ALARM + 8) 0 in
  store32 m (t + THR_ALARM + 12) 0.

Ltac offsets :=
  unfold THR_ID, THR_STATUS, THR_CONTEXT, THR_KSTACK_BASE, THR_KSTACK_SIZE, THR_ALARM,
    THR_TASK, SIZEOF_THREAD, T_STACK_SIZE, TASK_ID, TASK_STATUS, TASK_MM, TASK_ADDR_SPACE,
    TASK_PARENT, SIZEOF_TASK, SIZEOF_MMC, RT_THREADP, SIZEOF_RTHREAD in *.

Lemma thread_head_agree m t b k : apart t 76 b k → agree m (thread_head m t) b k.
Proof.
  intros Ha i Hi. unfold thread_head, apart in *. offsets.
  rewrite !store32_out by lia. eapply (bzero_agree m t 76 b k); [done|lia].
Qed.

Lemma thread_stores_agree m t stk fn arg fin b k :
  apart t 76 b k → apart stk 4096 b k → agree m (thread_stores m t stk fn arg fin) b k.
Proof.
  intros H1 H2 i Hi. unfold thread_stores, apart in *. cbv zeta. offsets.
  rewrite !store32_out by lia. done.
Qed.

Lemma thread_stores_new m t stk task fn arg fin :
  apart t 76 stk 4096 → 0 < t → 0 < stk → stk + 4096 < 4294967296 →
  is_u32 task → is_u32 fn → is_u32 arg → is_u32 fin →
  new_thread (store32 (thread_stores (thread_head m t) t stk fn arg fin) (t + THR_TASK) task)
    t stk task fn arg fin.
Proof.
  intros Ha Ht Hs Hs' Htk Hf Har Hfi. unfold apart in Ha.
  split; unfold context_at, thread_stores, thread_head; cbv zeta; offsets.
  - mem_load. done.
  - mem_load. done.
  - f_equal; mem_load; rewrite ?bzero_load by lia; try done. apply u32_small. unfold is_u32. lia.
  - split; mem_load; [apply u32_small; unfold is_u32; lia|done].
  - intros i Hi. assert (i = 0 ∨ i = 1 ∨ i = 2 ∨ i = 3) as [->|[->|[->| ->]]] by lia;
      rewrite ?Z.mul_0_r, ?Z.add_0_r; mem_load; done.
  - mem_load. by apply u32_small.
  - mem_load. by apply u32_small.
  - mem_load. by apply u32_small.
  - mem_load. by apply u32_small.
Qed.

(** ** Running code *)

(** One equation per piece of code, and a tactic that runs code with them. *)
Section Run.
Context {A : Type} `{KM : KernelMemory A}.
Context {X Y : Type} (m : mem) (a : A) (W : gmap Z (list Z)) (id : Z) (cpus : nat → cpu_state_t).

Lemma run_wr p v (f : unit → code A Y) :
  (wr p v ≫= f) (KState m a W id cpus) = f () (KState (store32 m p v) a W id cpus).
Proof. done. Qed.
Lemma run_on_mem g (f : unit → code A Y) :
  (on_mem g ≫= f) (KState m a W id cpus) = f () (KState (g m) a W id cpus).
Proof. done. Qed.
Lemma run_on_links g (f : unit → code A Y) :
  (on_links g ≫= f) (KState m a W id cpus) = f () (KState m a (g W) id cpus).
Proof. done. Qed.
Lemma run_get (g : kstate A → X) (f : X → code A Y) :
  (get g ≫= f) (KState m a W id cpus)
  = f (g (KState m a W id cpus)) (KState m a W id cpus).
Proof. done. Qed.
Lemma run_mret (x : X) (f : X → code A Y) s : (mret x ≫= f) s = f x s.
Proof. done. Qed.
Lemma run_assoc {U} (c : code A U) (g : U → code A X) (f : X → code A Y) s :
  ((c ≫= g) ≫= f) s = (c ≫= λ u, g u ≫= f) s.
Proof. unfold mbind, code_bind. by destruct (c s) as [[? ?]|?|]. Qed.
Lemma run_kmalloc n p a' (f : Z → code A Y) :
  km_malloc a n = Ret (p, a') →
  (kmalloc n ≫= f) (KState m a W id cpus) = f p (KState m a' W id cpus).
Proof. intros E. unfold mbind, code_bind, kmalloc, alloc_call. cbn. by rewrite E. Qed.
Lemma run_kfree q rc a' (f : Z → code A Y) :
  km_free a q = Ret (rc, a') →
  (kfree q ≫= f) (KState m a W id cpus) = f rc (KState m a' W id cpus).
Proof. intros E. unfold mbind, code_bind, kfree, alloc_call. cbn. by rewrite E. Qed.
End Run.

Ltac run_code := repeat first
  [ rewrite run_wr | rewrite run_on_mem | rewrite run_on_links | rewrite run_get
  | rewrite run_mret | rewrite run_assoc ]; cbv beta.

(** ** [__create_thread] *)

Section CreateThread.
Context {A : Type} `{KM : KernelMemory A}.
Implicit Types (s : kstate A).

(** What the clients of [s] own is the same in memory [m]. *)
Definition spared (s : kstate A) (m : mem) : Prop :=
  (∀ b k, km_block (k_alloc s) b k → agree (k_mem s) m b k) ∧
  (∀ q, km_held (k_alloc s) q → agree (k_mem s) m q 4096).

(** Registers of the kernel that thread creation does not touch. *)
Definition same_rest (s s' : kstate A) : Prop :=
  k_next_id s' = k_next_id s ∧ k_cpus s' = k_cpus s.

(** Writes to new blocks spare the old ones. *)
Lemma spared_new s m l a' :
  km_ok (k_alloc s) → blocks_plus (k_alloc s) l a' →
  (∀ b k, (∀ p n, (p, n) ∈ l → apart p n b k) → agree (k_mem s) m b k) →
  spared s m.
Proof.
  intros Hok [Hi Ha Hok' Hh] Hm. split.
  - intros b k Hb. apply Hm. intros p n Hin. destruct (Ha b k p n Hb Hin); unfold apart; lia.
  - intros q Hq. apply Hm. intros p n Hin.
    apply (km_block_held a' p n q Hok'); [apply Hi; tauto|by apply Hh].
Qed.

Lemma apart_sym a n b k : apart a n b k → apart b k a n.
Proof. unfold apart. lia. Qed.

(** The two outcomes of [__create_thread]. *)
Definition create_thread_post s task fn arg fin t s' : Prop :=
  same_rest s s' ∧ spared s (k_mem s') ∧
  ((t = NULL ∧ blocks_plus (k_alloc s) [] (k_alloc s') ∧ k_links s' = k_links s) ∨
   (t ≠ NULL ∧ ∃ stk,
      blocks_plus (k_alloc s) [(stk, 4096); (t, 76)] (k_alloc s') ∧ apart t 76 stk 4096 ∧
      0 < t ∧ t + 76 < 4294967296 ∧ 0 < stk ∧ stk + 4096 < 4294967296 ∧
      new_thread (k_mem s') t stk task fn arg fin ∧
      k_links s' = w_add_tail (t + THR_LINK) (task + TASK_THREADS) (k_links s))).

Lemma thr_err_spec s t n a :
  km_ok a → blocks_plus a [(t, n)] (k_alloc s) → t ≠ NULL →
  ∃ a', thr_err t s = Ret (NULL, KState (k_mem s) a' (k_links s) (k_next_id s) (k_cpus s)) ∧
    blocks_plus a [] a'.
Proof.
  intros Hok Hb Ht. destruct (free_blocks a [] t n _ Hok Hb) as (a'&E&Hb'); [set_solver|].
  exists a'. split; [|done]. destruct s as [m al W id cpus]. cbn in *. unfold thr_err.
  destruct (Z.eqb_spec t NULL); [done|]. cbn [negb]. run_code.
  by rewrite (run_kfree _ _ _ _ _ _ _ _ _ E).
Qed.

(** The addresses the code computes for the three words on the stack. *)
Lemma stack_tops stk :
  0 < stk → stk + 4096 < 4294967296 →
  u32 (u32 (stk + T_STACK_SIZE) - 4) = stk + 4092 ∧
  u32 (stk + 4092 - 4) = stk + 4088 ∧ u32 (stk + 4088 - 4) = stk + 4084.
Proof.
  intros. unfold T_STACK_SIZE. rewrite (u32_small (stk + 4096)) by (unfold is_u32; lia).
  rewrite !u32_small by (unfold is_u32; lia). lia.
Qed.

(** From the second allocation on. *)
Lemma create_thread_fill m (a : A) W id cpus t stk task fn arg fin :
  0 < stk → stk + 4096 < 4294967296 →
  (_ ← wr (A := A) (t + THR_KSTACK_BASE) stk;
   _ ← wr (t + THR_KSTACK_SIZE) T_STACK_SIZE;
   let top := u32 (stk + T_STACK_SIZE) in
   let top := u32 (top - 4) in
   _ ← wr top arg;
   let top := u32 (top - 4) in
   _ ← wr top fin;
   let top := u32 (top - 4) in
   _ ← wr top fn;
   _ ← wr (t + THR_CONTEXT) top;
   _ ← wr (t + THR_CONTEXT + 20) 0x200;
   _ ← alarm_reset_at (t + THR_ALARM);
   _ ← on_links (w_add_tail (t + THR_LINK) (task + TASK_THREADS));
   _ ← wr (t + THR_TASK) task;
   mret t : code A Z) (KState m a W id cpus)
  = Ret (t, KState (store32 (thread_stores m t stk fn arg fin) (t + THR_TASK) task) a
              (w_add_tail (t + THR_LINK) (task + TASK_THREADS) W) id cpus).
Proof.
  intros Hs Hs'. destruct (stack_tops stk Hs Hs') as (E1&E2&E3). cbv zeta.
  rewrite E1, E2, E3. unfold alarm_reset_at. by run_code.
Qed.

Lemma create_thread_spec s task fn arg fin :
  km_ok (k_alloc s) → is_u32 task → is_u32 fn → is_u32 arg → is_u32 fin →
  ∃ t s', __create_thread fin task fn arg s = Ret (t, s') ∧
    create_thread_post s task fn arg fin t s'.
Proof.
  intros Hok Htk Hfn Har Hfi. unfold __create_thread.
  destruct (malloc_blocks (k_alloc s) SIZEOF_THREAD Hok) as (t&a1&E1&Hc1); [done|].
  destruct s as [m a W id cpus]. cbn [k_alloc] in *. rewrite (run_kmalloc _ _ _ _ _ _ _ _ _ E1).
  destruct Hc1 as [[-> H1]|(Ht&H1&Ht0&Ht1)].
  { eexists NULL, _. split; [done|]. split; [done|]. split; [|by left].
    apply (spared_new (KState m a W id cpus) _ [] a1 Hok H1). by intros. }
  destruct (Z.eqb_spec t NULL) as [->|_]; [done|].
  destruct (malloc_blocks a1 T_STACK_SIZE (bp_ok _ _ _ H1)) as (stk&a2&E2&Hc2); [done|].
  run_code. rewrite (run_kmalloc _ _ _ _ _ _ _ _ _ E2).
  fold (thread_head m t). change (state_value T_INIT) with 0. fold (thread_head m t).
  destruct Hc2 as [[-> H2]|(Hs&H2&Hs0&Hs1)].
  { cbn [Z.eqb NULL]. pose proof (blocks_plus_same _ _ _ _ H1 H2) as H12.
    edestruct (thr_err_spec (KState (thread_head m t) a2 W id cpus)) as (a3&E3&H3);
      [exact Hok|exact H12|done|].
    eexists NULL, _. split; [exact E3|]. split; [done|]. split; [|by left].
    eapply (spared_new (KState m a W id cpus) _ _ _ Hok H12). cbn.
    intros b k Hb. apply thread_head_agree, Hb. left. }
  destruct (Z.eqb_spec stk NULL) as [->|_]; [done|].
  rewrite (create_thread_fill _ _ _ _ _ _ _ _ _ _ _ Hs0 Hs1).
  destruct (blocks_plus_app _ _ _ _ _ _ H1 H2) as [H12 Hap]. specialize (Hap t 76 ltac:(left)).
  eexists _, _. split; [done|]. split; [done|]. split.
  - eapply (spared_new (KState m a W id cpus) _ _ _ Hok H12). cbn [k_mem].
    intros b k Hb. pose proof (Hb t 76 ltac:(right; left)) as Hbt.
    pose proof (Hb stk 4096 ltac:(left)) as Hbs.
    eapply agree_trans; [by apply thread_head_agree|].
    eapply agree_trans; [by apply (thread_stores_agree _ t stk fn arg fin)|].
    apply store32_agree. unfold apart in *. offsets. lia.
  - right. split; [done|]. exists stk. split_and!; try done.
    by apply thread_stores_new.
Qed.
End CreateThread.

(** ** [__create_task] *)

Section CreateTask.
Context {A : Type} `{KM : KernelMemory A}.
Context (k_pdir fin : Z).
Implicit Types (s : kstate A).

(** The page at [page] holds what the page of [k_pdir] held in [m0]. *)
Definition dir_copied (m0 m : mem) (page : Z) : Prop :=
  ∀ i, 0 ≤ i < 4096 → m (page + i) = m0 (k_pdir + i).

Lemma page_run s :
  km_ok (k_alloc s) →
  ∃ p s', get_zeroed_page s = Ret (p, s') ∧ blocks_plus (k_alloc s) [] (k_alloc s') ∧
    same_rest s s' ∧ k_links s' = k_links s ∧
    (p = NULL ∧ k_mem s' = k_mem s ∨
     p ≠ NULL ∧ 0 < p ∧ p `mod` 4096 = 0 ∧ p + 4096 < 4294967296 ∧ km_held (k_alloc s') p ∧
     (∀ q, km_held (k_alloc s) q → apart q 4096 p 4096) ∧ k_mem s' = bzero (k_mem s) p 4096).
Proof.
  intros Hok. destruct (km_page_spec (k_alloc s) Hok) as (p&a'&E&Hok'&Hh&Hb&Hc).
  destruct s as [m a W id cpus]. cbn in *. unfold get_zeroed_page, alloc_call, mbind, code_bind.
  cbn. rewrite E. cbn. destruct (Z.eqb_spec p NULL) as [->|Hp].
  - eexists NULL, _. split; [done|]. split; [split; set_solver|]. split_and!; try done. by left.
  - eexists p, _. split; [done|]. split; [split; set_solver|]. split_and!; try done. right.
    destruct Hc as [?|(_&?&?&?&?&?)]; [done|]. by split_and!.
Qed.

Lemma page_aligned p : 0 ≤ p < 4294967296 → p `mod` 4096 = 0 → Z.land p PAGE_MASK = p.
Proof.
  intros Hr Hp. change PAGE_MASK with (4294967296 - 2 ^ 12). rewrite land_high_ones by done.
  change (2 ^ 12) with 4096. lia.
Qed.

(** The end of [__create_task]. *)
Definition main_thread_post s group taskp fn arg r s' : Prop :=
  same_rest s s' ∧ spared s (k_mem s') ∧
  ((r = NULL ∧ blocks_plus (k_alloc s) [] (k_alloc s') ∧
    k_links s' = <[taskp + TASK_THREADS := []]> (k_links s)) ∨
   (r = taskp ∧ ∃ t stk,
      blocks_plus (k_alloc s) [(stk, 4096); (t, 76)] (k_alloc s') ∧ apart t 76 stk 4096 ∧
      new_thread (k_mem s') t stk taskp fn arg fin ∧
      k_links s' = w_add_tail (taskp + TASK_LINK) (group + GROUP_TASKS)
                     (<[taskp + TASK_THREADS := [t + THR_LINK]]> (k_links s)))).

Lemma create_main_thread_spec s group taskp fn arg :
  km_ok (k_alloc s) → is_u32 taskp → is_u32 fn → is_u32 arg → is_u32 fin →
  ∃ r s', create_main_thread fin group taskp fn arg s = Ret (r, s') ∧
    main_thread_post s group taskp fn arg r s'.
Proof.
  intros Hok Hta Hfn Har Hfi. destruct s as [m a W id cpus]. unfold create_main_thread. run_code.
  destruct (create_thread_spec (KState m a (<[taskp + TASK_THREADS := []]> W) id cpus)
              taskp fn arg fin) as (t&s1&E&Hr&Hsp&Hc); [done..|].
  unfold mbind at 1, code_bind at 1. rewrite E.
  destruct Hc as [(->&Hb&Hl)|(Ht&stk&Hb&Hap&Ht0&_&_&_&Hn&Hl)].
  { eexists NULL, _. split; [done|]. split; [done|]. split; [done|]. by left. }
  destruct (Z.eqb_spec t NULL); [done|]. destruct s1 as [m1 a1 W1 id1 cpus1].
  unfold add_to_task_group. run_code. eexists _, _. split; [done|].
  split; [done|]. split; [done|]. right. split; [done|]. exists t, stk.
  split; [done|]. split; [done|]. split; [done|]. cbn [k_links] in Hl |- *. rewrite Hl.
  rewrite (w_add_tail_lookup (t + THR_LINK) _ _ []) by apply lookup_insert_eq.
  by rewrite insert_insert_eq.
Qed.

(** What has been allocated for the task so far: its structure, and its [mmc_t] when it gets
    one of its own. *)
Definition owns (taskp mmcp : Z) : list (Z * Z) :=
  (if mmcp =? NULL then [] else [(mmcp, SIZEOF_MMC)]) ++ [(taskp, SIZEOF_TASK)].

Lemma c_err_spec a0 s taskp mmcp :
  km_ok a0 → blocks_plus a0 (owns taskp mmcp) (k_alloc s) → taskp ≠ NULL →
  (mmcp ≠ NULL → apart taskp 36 mmcp 32) →
  ∃ a', c_err taskp mmcp s
        = Ret (NULL, KState (k_mem s) a' (k_links s) (k_next_id s) (k_cpus s)) ∧
    blocks_plus a0 [] a'.
Proof.
  intros Hok Hb Ht Hap. destruct s as [m a W id cpus]. cbn [k_mem k_alloc k_links k_next_id k_cpus] in *.
  unfold c_err, owns in *. destruct (Z.eqb_spec taskp NULL); [done|]. cbn [negb].
  destruct (Z.eqb_spec mmcp NULL) as [->|Hm]; cbn [negb app] in *.
  - destruct (free_blocks a0 [] taskp 36 _ Hok Hb) as (a'&E&Hb'); [set_solver|].
    exists a'. split; [|done]. run_code. rewrite (run_kfree _ _ _ _ _ _ _ _ _ E). done.
  - specialize (Hap Hm). assert (Hb2 : blocks_plus a0 [(taskp, 36); (mmcp, 32)] a).
    { destruct Hb as [Hi Ha Ho Hh]. split; [|intros; eapply Ha; set_solver|done..].
      intros b k. rewrite Hi. set_solver. }
    destruct (free_blocks a0 [(mmcp, 32)] taskp 36 _ Hok Hb2) as (a'&E&Hb').
    { intros k [= <- _]%list_elem_of_singleton. unfold apart in Hap. lia. }
    destruct (free_blocks a0 [] mmcp 32 _ Hok Hb') as (a''&E'&Hb''); [set_solver|].
    exists a''. split; [|done]. run_code. rewrite (run_kfree _ _ _ _ _ _ _ _ _ E). run_code.
    by rewrite (run_kfree _ _ _ _ _ _ _ _ _ E').
Qed.

(** [create_address_space] with a directory of its own and no parent. *)
Definition address_space_post a0 s group taskp fn arg r s' : Prop :=
  same_rest s s' ∧
  ((r = NULL ∧ blocks_plus a0 [] (k_alloc s') ∧ k_links s' = k_links s ∧
    ∀ b k, apart taskp 36 b k → agree (k_mem s) (k_mem s') b k) ∨
   ∃ page s1, page ≠ NULL ∧ km_held (k_alloc s1) page ∧ km_ok (k_alloc s1) ∧
     blocks_plus (k_alloc s) [] (k_alloc s1) ∧ same_rest s s1 ∧ k_links s1 = k_links s ∧
     page `mod` 4096 = 0 ∧ 0 < page ∧ page + 4096 < 4294967296 ∧
     (∀ q, km_held (k_alloc s) q → apart q 4096 page 4096) ∧
     k_mem s1 = copy_bytes (store32 (bzero (k_mem s) page 4096) (taskp + TASK_ADDR_SPACE) page)
                  page (Z.land k_pdir PAGE_MASK) 4096 ∧
     main_thread_post s1 group taskp fn arg r s').

Lemma create_address_space_spec a0 s group taskp mmcp fn arg :
  km_ok a0 → blocks_plus a0 (owns taskp mmcp) (k_alloc s) → taskp ≠ NULL →
  (mmcp ≠ NULL → apart taskp 36 mmcp 32) →
  is_u32 taskp → is_u32 fn → is_u32 arg → is_u32 fin →
  ∃ r s', create_address_space k_pdir fin group taskp mmcp NULL NULL fn arg s = Ret (r, s') ∧
    address_space_post a0 s group taskp fn arg r s'.
Proof.
  intros Hok Hb Ht Hap Hta Hfn Har Hfi. unfold create_address_space.
  destruct (page_run s (bp_ok _ _ _ Hb)) as (p&s1&E&Hb1&Hr1&Hl1&Hc).
  cbn [Z.eqb NULL]. unfold mbind at 1, code_bind at 1. rewrite E. clear E.
  destruct s1 as [m1 a1 W1 id1 cpus1]. run_code. cbn [k_alloc k_links k_mem] in *. subst W1.
  destruct Hc as [[-> ->]|(Hp&Hp0&Hpm&Hpt&Hh&Hho& ->)]; cbn [Z.eqb NULL andb].
  - edestruct (c_err_spec a0) as (a'&E&Hb'); [exact Hok|..|exact Ht|exact Hap|].
    2: { rewrite E. eexists _, _. split; [done|]. split; [done|]. left. split_and!; try done.
         intros b k Hbk. apply store32_agree. unfold apart in *. offsets. lia. }
    cbn [k_alloc]. by eapply blocks_plus_same.
  - destruct (Z.eqb_spec p NULL); [done|]. unfold copy_page_directory_from. run_code.
    rewrite (page_aligned p) by (done || lia).
    edestruct create_main_thread_spec as (r&s'&E&Hpost); [|exact Hta|exact Hfn|exact Har|exact Hfi|].
    2: { rewrite E. eexists _, _. split; [done|].
         split; [destruct Hpost as [[E1 E2] _], Hr1 as [F1 F2];
                 split; [rewrite E1; exact F1|rewrite E2; exact F2]|]. right.
         exists p, (KState (copy_bytes (store32 (bzero (k_mem s) p 4096) (taskp + TASK_ADDR_SPACE) p)
                      p (Z.land k_pdir PAGE_MASK) 4096) a1 (k_links s) id1 cpus1).
         split_and!; first [exact Hpost|apply Hr1|exact (bp_ok _ _ _ Hb1)|done]. }
    apply Hb1.
Qed.
(** ** The whole task *)

(** The structure of a task about to be scheduled. *)
Record new_task (m : mem) (p id mm page : Z) : Prop := {
  nk_id : load32 m (p + TASK_ID) = id;
  nk_status : load32 m (p + TASK_STATUS) = state_value T_INIT;
  nk_mm : load32 m (p + TASK_MM) = mm;
  nk_space : load32 m (p + TASK_ADDR_SPACE) = page;
  nk_parent : load32 m (p + TASK_PARENT) = NULL;
}.

(** The stores to the structure before the address space. *)
Definition task_head (m : mem) (p id mm : Z) : mem :=
  store32 (store32 (store32 (bzero m p SIZEOF_TASK) (p + TASK_STATUS) 0) (p + TASK_ID) id)
    (p + TASK_MM) mm.

Lemma task_head_agree m p id mm b k : apart p 36 b k → agree m (task_head m p id mm) b k.
Proof.
  intros Ha i Hi. unfold task_head, apart in *. offsets.
  rewrite !store32_out by lia. eapply (bzero_agree m p 36 b k); [done|lia].
Qed.

(** Memory when the thread is about to be created. *)
Definition task_mem (m : mem) (p id mm page : Z) : mem :=
  copy_bytes (store32 (bzero (task_head m p id mm) page 4096) (p + TASK_ADDR_SPACE) page)
    page (Z.land k_pdir PAGE_MASK) 4096.

Lemma task_mem_new m p id mm page :
  apart p 36 page 4096 → is_u32 id → is_u32 mm → is_u32 page →
  new_task (task_mem m p id mm page) p id mm page.
Proof.
  intros Ha Hi Hm Hp. unfold apart in Ha. assert (Hl : ∀ o, 0 ≤ o → o + 4 ≤ 36 →
    load32 (task_mem m p id mm page) (p + o)
    = load32 (store32 (bzero (task_head m p id mm) page 4096) (p + TASK_ADDR_SPACE) page) (p + o)).
  { intros o Ho Ho'. apply load32_agree, copy_bytes_agree. unfold apart. lia. }
  assert (Hz : ∀ o, 0 ≤ o → o + 4 ≤ 36 →
    load32 (bzero (task_head m p id mm) page 4096) (p + o) = load32 (task_head m p id mm) (p + o)).
  { intros o Ho Ho'. apply load32_agree, bzero_agree. unfold apart. lia. }
  split; offsets; rewrite Hl by lia.
  - rewrite store32_other by (unfold apart; lia). rewrite Hz by lia. unfold task_head. offsets.
    mem_load. by apply u32_small.
  - rewrite store32_other by (unfold apart; lia). rewrite Hz by lia. unfold task_head. offsets.
    by mem_load.
  - rewrite store32_other by (unfold apart; lia). rewrite Hz by lia. unfold task_head. offsets.
    mem_load. by apply u32_small.
  - mem_load. by apply u32_small.
  - rewrite store32_other by (unfold apart; lia). rewrite Hz by lia. unfold task_head. offsets.
    mem_load. rewrite bzero_load by lia. done.
Qed.

Lemma task_mem_dir m p id mm page :
  is_u32 k_pdir → k_pdir `mod` 4096 = 0 → apart p 36 k_pdir 4096 → apart page 4096 k_pdir 4096 →
  dir_copied m (task_mem m p id mm page) page.
Proof.
  intros Hk Hkm Ha Hb i Hi. unfold task_mem, copy_bytes, apart in *. rewrite page_aligned by done.
  destruct (Z.leb_spec page (page + i)); [|lia]. destruct (Z.ltb_spec (page + i) (page + 4096)); [|lia].
  cbn [andb]. replace (k_pdir + (page + i - page)) with (k_pdir + i) by lia. offsets.
  rewrite store32_out by lia.
  rewrite (bzero_agree _ page 4096 k_pdir 4096) by (unfold apart; lia).
  apply (task_head_agree m p id mm k_pdir 4096); unfold apart; lia.
Qed.

Lemma task_mem_agree m p id mm page b k :
  apart p 36 b k → apart page 4096 b k → agree m (task_mem m p id mm page) b k.
Proof.
  intros Ha Hb. unfold task_mem. eapply agree_trans; [by apply (task_head_agree m p id mm)|].
  eapply agree_trans; [by apply (bzero_agree _ page 4096)|].
  eapply agree_trans; [|by apply copy_bytes_agree].
  apply store32_agree. unfold apart in *. offsets. lia.
Qed.
(** A task whose thread may or may not have been created. *)
Definition task_made s group mm fn arg r s' : Prop :=
  ∃ taskp mmcp page, taskp ≠ NULL ∧ page ≠ NULL ∧ (mm = NULL ↔ mmcp ≠ NULL) ∧
    km_held (k_alloc s') page ∧
    new_task (k_mem s') taskp (u32 (k_next_id s + 1)) (if mm =? NULL then mmcp else mm) page ∧
    (is_u32 k_pdir → k_pdir `mod` 4096 = 0 → apart taskp 36 k_pdir 4096 →
     apart page 4096 k_pdir 4096 → dir_copied (k_mem s) (k_mem s') page) ∧
    ((r = NULL ∧ blocks_plus (k_alloc s) (owns taskp mmcp) (k_alloc s') ∧
      k_links s' = <[taskp + TASK_THREADS := []]> (k_links s)) ∨
     (r = taskp ∧ ∃ t stk,
        blocks_plus (k_alloc s) ([(stk, 4096); (t, 76)] ++ owns taskp mmcp) (k_alloc s') ∧
        apart t 76 stk 4096 ∧ apart t 76 taskp 36 ∧ apart stk 4096 taskp 36 ∧
        new_thread (k_mem s') t stk taskp fn arg fin ∧
        k_links s' = w_add_tail (taskp + TASK_LINK) (group + GROUP_TASKS)
                       (<[taskp + TASK_THREADS := [t + THR_LINK]]> (k_links s)))).

Definition create_task_post s group mm fn arg r s' : Prop :=
  k_cpus s' = k_cpus s ∧ spared s (k_mem s') ∧
  ((r = NULL ∧ blocks_plus (k_alloc s) [] (k_alloc s') ∧ k_links s' = k_links s) ∨
   (u32 (k_next_id s + 1) ≠ 0 ∧ task_made s group mm fn arg r s')).

Lemma owns_task taskp mmcp : (taskp, 36) ∈ owns taskp mmcp.
Proof. unfold owns. apply elem_of_app. right. left. Qed.

Lemma owns_apart a0 taskp mmcp a b k :
  blocks_plus a0 (owns taskp mmcp) a → km_block a0 b k → apart taskp 36 b k.
Proof. intros Hb Hab. apply apart_sym. eapply Hb; [done|apply owns_task]. Qed.

Lemma new_task_agree m m' p id mm page :
  agree m m' p 36 → new_task m p id mm page → new_task m' p id mm page.
Proof.
  intros Ha [H1 H2 H3 H4 H5]. offsets.
  split; offsets; rewrite (agree_load _ _ _ _ _ Ha) by lia; done.
Qed.

(** Everything the allocator had handed out survives the making of a task. *)
Lemma task_mem_spared s taskp mmcp id mmv page a1 s1 m' :
  km_ok (k_alloc s) → blocks_plus (k_alloc s) (owns taskp mmcp) a1 →
  blocks_plus (k_alloc s) (owns taskp mmcp) (k_alloc s1) → km_held (k_alloc s1) page →
  (∀ q, km_held a1 q → apart q 4096 page 4096) →
  k_mem s1 = task_mem (k_mem s) taskp id mmv page → spared s1 m' → spared s m'.
Proof.
  intros Hok Hb1 Hb2 Hh Hho Hm [Hsb Hsh].
  assert (Hok1 : km_ok (k_alloc s1)) by apply Hb2.
  assert (Htk : km_block (k_alloc s1) taskp 36) by (apply Hb2; right; apply owns_task).
  rewrite Hm in *. split.
  - intros b k Hbk. assert (Hbk1 : km_block (k_alloc s1) b k) by (apply Hb2; by left).
    eapply agree_trans; [|by apply Hsb]. apply task_mem_agree.
    + by eapply owns_apart.
    + apply apart_sym. by apply (km_block_held _ b k page Hok1).
  - intros q Hq. eapply agree_trans; [|apply Hsh; by apply Hb2]. apply task_mem_agree.
    + apply (km_block_held _ taskp 36 q Hok1); [done|by apply Hb2].
    + apply apart_sym, Hho. by apply Hb1.
Qed.

(** After the structure has been filled in. *)
Lemma create_rest_spec m a0 W id0 cpus a1 group taskp mmcp mm fn arg :
  let s := KState m a0 W id0 cpus in
  let id := u32 (id0 + 1) in
  let mmv := if mm =? NULL then mmcp else mm in
  km_ok a0 → blocks_plus a0 (owns taskp mmcp) a1 → taskp ≠ NULL →
  (mmcp ≠ NULL → apart taskp 36 mmcp 32) → (mm = NULL ↔ mmcp ≠ NULL) → id ≠ 0 →
  is_u32 taskp → is_u32 mmv → is_u32 fn → is_u32 arg → is_u32 fin →
  ∃ r s', create_address_space k_pdir fin group taskp mmcp NULL NULL fn arg
            (KState (task_head m taskp id mmv) a1 W id cpus) = Ret (r, s') ∧
    create_task_post s group mm fn arg r s'.
Proof.
  intros s id mmv Hok Hb Ht Hap Hiff Hid Hta Hmv Hfn Har Hfi.
  edestruct (create_address_space_spec a0 (KState (task_head m taskp id mmv) a1 W id cpus) group)
    as (r&s'&E&[Hn Hcp]&Hc); [exact Hok|exact Hb|exact Ht|exact Hap|exact Hta|exact Hfn|exact Har|exact Hfi|].
  exists r, s'. split; [exact E|]. split; [exact Hcp|]. cbn [k_mem k_alloc k_links] in *.
  destruct Hc as [(->&Hb'&Hlk&Hm)|(page&s1&Hp&Hh&Hok1&Hb1&_&Hl1&Hpm&Hp0&Hpt&Hho&Hm1&[_ Hcp2]&Hsp&Hc)].
  { split; [|by left]. apply (spared_new s _ _ a1 Hok Hb). intros b k Hbk.
    pose proof (Hbk _ _ (owns_task taskp mmcp)) as Hbt.
    eapply agree_trans; [by apply (task_head_agree m taskp id mmv)|by apply Hm]. }
  fold (task_mem m taskp id mmv page) in Hm1.
  assert (Hb01 : blocks_plus a0 (owns taskp mmcp) (k_alloc s1)) by (by eapply blocks_plus_same).
  assert (Htk : km_block (k_alloc s1) taskp 36) by (apply Hb01; right; apply owns_task).
  assert (Hpt' : apart taskp 36 page 4096) by (by eapply km_block_held).
  split; [by eapply (task_mem_spared s taskp mmcp id mmv page a1 s1)|]. right. split; [done|].
  destruct Hsp as [Hsb Hsh]. exists taskp, mmcp, page. split; [done|]. split; [done|]. split; [done|].
  rewrite Hm1 in Hsb, Hsh. split; [|split; [|split]].
  - destruct Hc as [(_&Hx&_)|(_&t&stk&Hx&_)]; by apply Hx.
  - eapply new_task_agree; [by apply Hsb|]. apply task_mem_new; [done|apply u32_range|done|].
    unfold is_u32. lia.
  - intros H1 H2 H3 H4 i Hi. rewrite (Hsh page Hh) by lia. by apply task_mem_dir.
  - destruct Hc as [(->&Hx&Hl)|(->&t&stk&Hx&Hts&Hnt&Hl)]; [left|right].
    + split; [done|]. split; [by eapply blocks_plus_same|by rewrite Hl, Hl1].
    + split; [done|]. exists t, stk. split; [by eapply blocks_plus_trans|]. split; [done|].
      split; [|split; [|by rewrite Hl1 in Hl]]; apply apart_sym; eapply Hx; try exact Htk; set_solver.
Qed.

Lemma run_alloc_task_id {Y} m (a : A) W id cpus (f : Z → code A Y) :
  (alloc_task_id ≫= f) (KState m a W id cpus)
  = f (u32 (id + 1)) (KState m a W (u32 (id + 1)) cpus).
Proof. done. Qed.

(** A failure before the address space gives everything back. *)
Lemma create_task_undo m a W id cpus m1 a1 id1 group taskp mmcp mm fn arg :
  km_ok a → blocks_plus a (owns taskp mmcp) a1 → taskp ≠ NULL →
  (∀ b k, apart taskp 36 b k → agree m m1 b k) →
  (mmcp ≠ NULL → apart taskp 36 mmcp 32) →
  ∃ r s', c_err taskp mmcp (KState m1 a1 W id1 cpus) = Ret (r, s') ∧
    create_task_post (KState m a W id cpus) group mm fn arg r s'.
Proof.
  intros Hok Hb Ht Hm Hap.
  destruct (c_err_spec a (KState m1 a1 W id1 cpus) taskp mmcp) as (a'&E&Hb'); [done..|].
  eexists _, _. split; [exact E|]. split; [done|]. split; [|by left].
  apply (spared_new (KState m a W id cpus) _ _ a1 Hok Hb). cbn [k_mem].
  intros b k Hbk. apply Hm, Hbk, owns_task.
Qed.

Lemma create_task_spec s group mm fn arg :
  km_ok (k_alloc s) → is_u32 mm → is_u32 fn → is_u32 arg → is_u32 fin →
  ∃ r s', __create_task k_pdir fin group 0 mm NULL NULL fn arg s = Ret (r, s') ∧
    create_task_post s group mm fn arg r s'.
Proof.
  intros Hok Hmm Hfn Har Hfi. unfold __create_task. cbn [Z.eqb].
  destruct (malloc_blocks (k_alloc s) SIZEOF_TASK Hok) as (taskp&a1&E1&Hc1); [done|].
  destruct s as [m a W id cpus]. cbn [k_alloc] in *. rewrite (run_kmalloc _ _ _ _ _ _ _ _ _ E1).
  destruct Hc1 as [[-> H1]|(Ht&H1&Ht0&Ht1)].
  { eexists NULL, _. split; [done|]. split; [done|]. split; [|by left].
    apply (spared_new (KState m a W id cpus) _ [] a1 Hok H1). by intros. }
  destruct (Z.eqb_spec taskp NULL) as [->|_]; [done|].
  run_code. rewrite run_alloc_task_id. run_code. change (state_value T_INIT) with 0.
  assert (Hu : is_u32 taskp) by (unfold is_u32, SIZEOF_TASK in *; lia).
  assert (Hhd : ∀ b k, apart taskp 36 b k → agree m (store32 (store32 (bzero m taskp SIZEOF_TASK)
            (taskp + TASK_STATUS) 0) (taskp + TASK_ID) (u32 (id + 1))) b k).
  { intros b k Hb i Hi. unfold apart in Hb. offsets. rewrite !store32_out by lia.
    apply (bzero_agree m taskp 36 b k); [done|lia]. }
  destruct (Z.eqb_spec (u32 (id + 1)) 0) as [E0|E0].
  { apply create_task_undo; [done..|exact Hhd|done]. }
  destruct (Z.eqb_spec mm NULL) as [->|Hm].
  - destruct (malloc_blocks a1 SIZEOF_MMC (bp_ok _ _ _ H1)) as (mmcp&a2&E2&Hc2); [done|].
    rewrite (run_kmalloc _ _ _ _ _ _ _ _ _ E2).
    destruct Hc2 as [[-> H2]|(Hmm0&H2&Hm0&Hm1)].
    { apply create_task_undo; [done|by eapply blocks_plus_same|done| |done]. exact Hhd. }
    destruct (Z.eqb_spec mmcp NULL) as [->|_]; [done|]. run_code.
    destruct (blocks_plus_app _ _ _ _ _ _ H1 H2) as [H12 Hap].
    apply (create_rest_spec m a W id cpus a2 group taskp mmcp NULL); try done.
    + unfold owns. by destruct (Z.eqb_spec mmcp NULL).
    + intros _. apply (Hap taskp 36). left.
    + unfold is_u32, SIZEOF_MMC in *. cbn. lia.
  - run_code.
    pose proof (create_rest_spec m a W id cpus a1 group taskp NULL mm fn arg) as Hr. cbn zeta in Hr.
    destruct (Z.eqb_spec mm NULL) as [|_] in Hr; [done|]. apply Hr; try done.
Qed.
End CreateTask.

(** ** The first switch to a new thread *)

(** A write to [n] bytes at [p] is clear of the thread's structure and stack. *)
Definition clear_of (t stk p n : Z) : Prop := apart p n t 76 ∧ apart p n stk 4096.

(** The context and the stack of the thread are as they were created. *)
Definition untouched (m m' : mem) (t stk : Z) : Prop :=
  agree m m' (t + THR_CONTEXT) 24 ∧ agree m m' (stk + 4084) 12.

(** A C call of [fn(arg)] that returns to [fin], with interrupts on. *)
Record calls_with (M : machine) (fn arg fin : Z) : Prop := {
  cw_eip : eip M = fn;
  cw_ret : load32 (memory M) (regs M ESP) = fin;
  cw_arg : load32 (memory M) (regs M ESP + 4) = arg;
  cw_if : IF (eflags M) = true;
  cw_ebp : regs M EBP = 0;
}.

Lemma new_thread_untouched m m' t stk task fn arg fin :
  new_thread m t stk task fn arg fin → untouched m m' t stk →
  context_at m' (t + THR_CONTEXT) = Ctx (stk + 4084) 0 0 0 0 0x200 ∧
  load32 m' (stk + 4084) = fn ∧ load32 m' (stk + 4088) = fin ∧ load32 m' (stk + 4092) = arg.
Proof.
  intros Hn [Ht Hs]. split_and!.
  - rewrite (context_agree m m'); [apply Hn|exact Ht].
  - rewrite (agree_load _ _ _ _ _ Hs) by lia. apply Hn.
  - rewrite (agree_load _ _ _ _ _ Hs) by lia. apply Hn.
  - rewrite (agree_load _ _ _ _ _ Hs) by lia. apply Hn.
Qed.

(** Entering the context of a new thread calls its function. *)
Lemma entered_calls depth own own_len m t stk task fn arg fin M :
  new_thread m t stk task fn arg fin → apart own own_len stk 4096 →
  ∀ m', untouched m m' t stk →
  entered depth own own_len m' (context_at m' (t + THR_CONTEXT)) M →
  calls_with M fn arg fin.
Proof.
  intros Hn Ho m' Hu He. destruct (new_thread_untouched _ _ _ _ _ _ _ _ Hn Hu) as (Ec&Ef&Er&Ea).
  rewrite Ec in He. destruct He as [Hi Hs Hb _ _ _ Hf Hm]. cbn [c_esp c_ebp c_eflags] in *.
  assert (Hst : agree m' (memory M) (stk + 4088) 8).
  { intros i Hi'. apply Hm. unfold scratch, apart in *. lia. }
  split; [congruence| | |rewrite Hf; done|done].
  - rewrite Hs. replace (stk + 4084 + 4) with (stk + 4088) by lia.
    rewrite (agree_load _ _ _ _ _ Hst) by lia. done.
  - rewrite Hs. replace (stk + 4084 + 4 + 4) with (stk + 4092) by lia.
    rewrite (agree_load _ _ _ _ _ Hst) by lia. done.
Qed.

Lemma new_thread_context_ok depth own own_len m t stk task fn arg fin m' :
  new_thread m t stk task fn arg fin → untouched m m' t stk →
  0 ≤ depth ≤ 4080 → 0 < stk → stk + 4096 < 4294967296 → apart own own_len stk 4096 →
  context_ok depth own own_len (context_at m' (t + THR_CONTEXT)).
Proof.
  intros Hn Hu Hd Hs Hs' Ho. destruct (new_thread_untouched _ _ _ _ _ _ _ _ Hn Hu) as (Ec&_).
  rewrite Ec. split; cbn; [repeat split; lia|]. unfold apart in *. lia.
Qed.

(** The saves of [switch_to] leave a thread alone that they are clear of. *)
Lemma untouched_saved m M old t stk :
  untouched m (memory M) t stk → clear_of t stk old 24 → clear_of t stk (regs M ESP - 4) 4 →
  untouched m (saved_mem M old) t stk.
Proof.
  intros [H1 H2] [Ho1 Ho2] [He1 He2]. unfold untouched, apart in *. offsets.
  split; (eapply agree_trans; [eassumption|]); intros i Hi; apply saved_out; lia.
Qed.

(** C14: a new thread starts with a call of its function. After [__create_thread(task, fn, arg)]
    returned a thread, the first [switch_to] to it, from any thread and whatever was done
    in the meantime to other memory, continues at [fn] as if it had been called with
    [arg]: the argument and the return address [__finish_thread] are on the thread's own
    stack, and interrupts are on. *)
Theorem new_thread_starts {A} `{KernelMemory A} (s s' : kstate A) task fn arg fin t :
  km_ok (k_alloc s) → is_u32 task → is_u32 fn → is_u32 arg → is_u32 fin →
  __create_thread fin task fn arg s = Ret (t, s') → t ≠ NULL →
  ∃ stk, load32 (k_mem s') (t + THR_KSTACK_BASE) = stk ∧
    km_block (k_alloc s') stk T_STACK_SIZE ∧
    ∀ callee depth own own_len ra M ret old,
      cdecl callee depth own own_len → 0 ≤ depth ≤ 4080 →
      calling M ret old (t + THR_CONTEXT) → untouched (k_mem s') (memory M) t stk →
      clear_of t stk old 24 → clear_of t stk (regs M ESP - 4) 4 → clear_of t stk own own_len →
      calls_with (run callee (switch_to ra) M) fn arg fin.
Proof.
  intros Hok Htk Hfn Har Hfi E Ht.
  destruct (create_thread_spec s task fn arg fin) as (t1&s1&E1&_&_&Hc); [done..|].
  rewrite E in E1. injection E1 as <- <-.
  destruct Hc as [[? _]|(_&stk&Hb&Hap&Ht0&Ht1&Hs0&Hs1&Hn&_)]; [done|].
  exists stk. split; [apply Hn|]. split; [apply Hb; right; left|].
  intros callee depth own own_len ra M ret old Hcd Hd Hcall Hu Ho He Hown.
  pose proof (untouched_saved _ _ _ _ _ Hu Ho He) as Hus. destruct Hown as [_ Hown].
  eapply entered_calls; [exact Hn|exact Hown|exact Hus|].
  eapply switch_to_enters; [done..|]. by eapply new_thread_context_ok.
Qed.

(** The example: a heap of two pages, and a thread made there. *)
Definition heap_of (r : res (Z * option heap_desc_t * kmem (mmc_t * mem)))
  : heap_desc_t * kmem (mmc_t * mem) :=
  match r with
  | Ret (_, Some h, st) => (h, st)
  | _ => (HeapDesc 0 0 0 0 0, kmem_demo)
  end.

Definition boot_heap : heap_desc_t * kmem (mmc_t * mem) := heap_of (init_heap 0x2000 kmem_demo).

Lemma boot_heap_ok : km_ok boot_heap.
Proof.
  destruct heap_demo as (h&st&E&_). pose proof (f_equal heap_of E) as Eb. cbn [heap_of] in Eb.
  change (km_ok boot_heap) with (heap_ok (heap_of (init_heap 0x2000 kmem_demo))). rewrite Eb.
  apply (init_heap_ok 0x2000 kmem_demo h st); [exact mm_demo_wf|lia|exact E].
Qed.

Definition demo_cpu : cpu_state_t := CpuState 0 true false 0 [] 0 SCHED_RR.
Definition demo_state : kstate (heap_desc_t * kmem (mmc_t * mem)) :=
  KState (λ _, 7) boot_heap ∅ 0 (λ _, demo_cpu).

(** The thread structure is at 8192, its stack at 8268. A thread whose context is at
    20000 switches to it. *)
Definition demo_call (m : mem) : machine :=
  Machine (λ r, match r with ESP => 30000 | _ => 0 end) 0 0
    (store32 (store32 (store32 m 30000 99) 30004 20000) 30008 8200).

Lemma demo_call_calling m : calling (demo_call m) 99 20000 8200.
Proof.
  split; [split; [intros []; done|done]|..]; cbn [demo_call memory regs].
  - by mem_load.
  - by mem_load.
  - by mem_load.
  - done.
  - done.
  - by left.
Qed.

Lemma new_thread_starts_witness :
  ∃ t s', __create_thread 0x1234 0x9000 0x5678 42 demo_state = Ret (t, s') ∧
    calls_with (Switch.run (set_flag 40000) (switch_to 44) (demo_call (k_mem s'))) 0x5678 42 0x1234.
Proof.
  destruct (create_thread_spec demo_state 0x9000 0x5678 42 0x1234) as (t&s'&E&_);
    [apply boot_heap_ok|unfold is_u32; lia..|].
  exists t, s'. split; [exact E|].
  assert (Et : t = 8192 ∧ load32 (k_mem s') (8192 + 40) = 8268).
  { assert (Hx : match __create_thread 0x1234 0x9000 0x5678 42 demo_state with
                 | Ret (t, s) => (t, load32 (k_mem s) (t + 40)) | _ => (0, 0) end = (8192, 8268))
      by (vm_compute; reflexivity). rewrite E in Hx. clear E. by injection Hx as -> Hx. }
  destruct Et as [-> Es].
  destruct (new_thread_starts demo_state s' 0x9000 0x5678 42 0x1234 8192) as (stk&Hs&_&Hrun);
    [apply boot_heap_ok|clear; unfold is_u32; lia..|exact E|clear; unfold NULL; lia|].
  clear E. unfold THR_KSTACK_BASE in Hs. rewrite Es in Hs. subst stk.
  apply (Hrun (set_flag 40000) 64 40000 4 44 (demo_call (k_mem s')) 99 20000).
  - by apply set_flag_cdecl.
  - done.
  - apply demo_call_calling.
  - split; intros i Hi; unfold THR_CONTEXT in *; cbn [demo_call memory]; rewrite !store32_out by lia; done.
  - split; by right.
  - split; by right.
  - split; by right.
Defined.

(** C15: [__create_task], as its callers use it, on every path. It returns; what the allocator
    had handed out before is untouched and the processors' queues are unchanged. It returns
    [NULL] with every block it took given back, or it has made a task with a fresh id, a
    page directory that is a copy of the kernel's, and the memory descriptor asked for. Then
    either the main thread was made too, with its own stack, and the task is on its group's
    list, or the thread could not be made and [NULL] is returned although the task's blocks
    and page stay allocated. *)
Theorem create_task_correct {A} `{KernelMemory A} k_pdir fin (s : kstate A) group mm fn arg :
  km_ok (k_alloc s) → is_u32 mm → is_u32 fn → is_u32 arg → is_u32 fin →
  ∃ r s', __create_task k_pdir fin group 0 mm NULL NULL fn arg s = Ret (r, s') ∧
    create_task_post k_pdir fin s group mm fn arg r s'.
Proof. intros. by apply create_task_spec. Qed.

Lemma create_task_correct_witness :
  ∃ r s', __create_task 0x400000 0x1234 0x7000 0 NULL NULL NULL 0x5678 42 demo_state = Ret (r, s') ∧
    r ≠ NULL ∧ task_made 0x400000 0x1234 demo_state 0x7000 NULL 0x5678 42 r s'.
Proof.
  destruct (create_task_correct 0x400000 0x1234 demo_state 0x7000 NULL 0x5678 42)
    as (r&s'&E&Hpost); [apply boot_heap_ok|unfold is_u32, NULL; lia..|].
  exists r, s'. split; [exact E|].
  assert (Hr : r ≠ NULL).
  { assert (Hx : match __create_task 0x400000 0x1234 0x7000 0 NULL NULL NULL 0x5678 42 demo_state with
                 | Ret (r, _) => r | _ => 0 end = 8192) by (vm_compute; reflexivity).
    rewrite E in Hx. clear - Hx. unfold NULL. lia. }
  clear E. split; [exact Hr|]. destruct Hpost as (_&_&[[? _]|[_ Hm]]); [done|exact Hm].
Defined.

(** ** Queueing *)

Section Queue.
Context {A : Type} `{KM : KernelMemory A}.
Context (ismp : bool) (ncpu this : nat).

Lemma add_thread_run m (a : A) W id cpus t ptr a' :
  km_malloc a SIZEOF_RTHREAD = Ret (ptr, a') →
  let cpu := pick_processor ismp ncpu this (KState m a' W id cpus) in
  add_thread_to_rq ismp ncpu this t (KState m a W id cpus) =
  if ptr =? NULL then Ret (1, KState m a' W id cpus)
  else Ret (OK, KState (store32 (store32 m (ptr + RT_THREADP) t) (t + THR_STATUS) 1) a' W id
                  (<[cpu := set_runq (runq (cpus cpu) ++ [t]) (cpus cpu)]> cpus)).
Proof.
  intros E. cbn zeta. unfold add_thread_to_rq. rewrite (run_kmalloc _ _ _ _ _ _ _ _ _ E).
  by destruct (ptr =? NULL).
Qed.
End Queue.

(** The thread at address 0 has been marked ready and queued. *)
Definition null_queued {A} (s1 s' : kstate A) : Prop :=
  load32 (k_mem s') THR_STATUS = state_value T_READY ∧
  ∃ cpu, k_cpus s' cpu = set_runq (runq (k_cpus s1 cpu) ++ [NULL]) (k_cpus s1 cpu).

(** C40: [create_thread] does not survive a failed creation. When no memory is left for the
    stack but some for a queue node, it puts a null thread at the end of a run queue and
    marks address 4, where that thread's status would be, as ready. *)
Theorem create_thread_failure_queues_null {A} `{KernelMemory A} ismp ncpu this fin
    (s s1 : kstate A) fn arg ptr a2 :
  __create_thread fin (load32 (k_mem s) (rthread (k_cpus s this) + THR_TASK)) fn arg s = Ret (NULL, s1) →
  km_malloc (k_alloc s1) SIZEOF_RTHREAD = Ret (ptr, a2) → ptr ≠ NULL →
  ∃ r s', create_thread ismp ncpu this fin fn arg s = Ret (r, s') ∧
    null_queued s1 s'.
Proof.
  intros E1 E2 Hp. unfold create_thread, get_curr_task. destruct s as [m a W id cpus].
  cbn [k_mem k_cpus] in E1. unfold rd. run_code. cbn [k_mem k_cpus].
  unfold mbind at 1, code_bind at 1. rewrite E1. destruct s1 as [m1 a1 W1 id1 cpus1].
  unfold mbind at 1, code_bind at 1, init_thread_sched. cbn [k_alloc] in E2.
  rewrite (add_thread_run ismp ncpu this m1 a1 W1 id1 cpus1 NULL ptr a2 E2).
  destruct (Z.eqb_spec ptr NULL); [done|]. eexists _, _. split; [done|].
  unfold null_queued. cbn [k_mem k_cpus]. split; [apply store32_same|].
  eexists. unfold insert at 1, fn_insert at 1. by rewrite decide_True by reflexivity.
Qed.

(** A second thread on the heap of the example: a structure fits, a second stack does not. *)
Definition full_state : kstate (heap_desc_t * kmem (mmc_t * mem)) :=
  match __create_thread 0x1234 0x9000 0x5678 42 demo_state with
  | Ret (_, s) => s
  | _ => demo_state
  end.

Lemma create_thread_failure_queues_null_witness :
  ∃ r s', create_thread false 1 0 0x1234 0x5678 42 full_state = Ret (r, s') ∧
    load32 (k_mem s') THR_STATUS = state_value T_READY.
Proof.
  set (res1 := __create_thread 0x1234 (load32 (k_mem full_state)
    (rthread (k_cpus full_state 0%nat) + THR_TASK)) 0x5678 42 full_state).
  assert (H1 : match res1 with Ret (t, _) => t | _ => 7 end = NULL) by (vm_compute; reflexivity).
  assert (H2 : match res1 with
               | Ret (_, s) => match km_malloc (k_alloc s) SIZEOF_RTHREAD with
                               | Ret (p, _) => p =? NULL | _ => true end
               | _ => true end = false) by (vm_compute; reflexivity).
  destruct res1 as [[t s1]|msg|] eqn:E1; [|discriminate H1..]. rewrite H1 in E1.
  destruct (km_malloc (k_alloc s1) SIZEOF_RTHREAD) as [[p a2]|msg|] eqn:E2; [|discriminate H2..].
  destruct (create_thread_failure_queues_null false 1 0 0x1234 full_state s1 0x5678 42 p a2)
    as (r&s'&E&Hs&_); [exact E1|exact E2|by apply Z.eqb_neq|].
  exists r, s'. split; [exact E|exact Hs].
Defined.
