(* ===== verification/Exit.v ===== *)
(** * The end of a thread: [__finish_thread] of [src/task.c]

    A thread whose function returns runs [__finish_thread]: it leaves the run queue, is
    marked complete, completes its task when it was the last thread, and gives the processor
    to another thread for good. *)
From S2P Require Import Prelude Threads Timer Sched SchedProofs.

(** The [status] field of every task; a task is its address. *)
Definition task_statuses : Type := Z → thread_state_t.

(** [static inline void set_task_status(task_state_t status)] for the current task *)
Definition set_task_status (task : Z) (x : thread_state_t) (tst : task_statuses) : task_statuses :=
  <[task := x]> tst.

(** [int clean_task_sched()] for the current task *)
Definition clean_task_sched (task : Z) (c : cpu_state_t) (tst : task_statuses)
  : Z * cpu_state_t * task_statuses :=
  (OK, set_rthread NULL c, set_task_status task T_COMPLETE tst).

(** [static void __finish_thread()] up to the context switch of its [schedule()], from
    which it does not return. [task] is the task of the running thread and [threads] its
    threads; [freed] is what [kfree] returned for the queue node. *)
Definition __finish_thread (fuel : nat) (freed task : Z) (threads : list Z) (c : cpu_state_t)
    (st : statuses) (tst : task_statuses) (env : statuses → nat → statuses)
  : res (cpu_state_t * statuses * task_statuses) :=
  let c := preempt_disable c in
  '(_, c, st) ← clean_thread_sched freed c st;
  let '(c, tst) :=
    if check_runnable_threads threads st =? 0 then
      let '(_, c, tst) := clean_task_sched task c tst in (c, tst)
    else (c, tst) in
  '(c, st) ← schedule fuel c st env;
  Ret (c, st, tst).

(** ** Lemmas *)

(** Scheduling when the current thread is not on the queue, or there is none: the
    queue is visited from its front. *)
Lemma schedule_from_front fuel c st env m :
  scheduler c = SCHED_RR → rthread c ∉ runq c → runq c ≠ [] → NULL ∉ runq c → (m < fuel)%nat →
  let st1 := demote (rthread c) st in
  (∀ m', (m' < m)%nat → env st1 m' (thread_at c m') ≠ T_READY) →
  env st1 m (thread_at c m) = T_READY →
  schedule fuel c st env =
    Ret (set_rthread (thread_at c m) (preempt_disable c),
         set_thread_status (thread_at c m) T_RUNNING (env st1 m)).
Proof.
  intros Hs Hni Hne Hnn Hf st1 Hmin Hm. unfold schedule, pick_next_thread, __do_sched_rr.
  cbn [preempt_disable set_preempt scheduler rthread runq]. rewrite Hs. cbn iota.
  change (if bool_decide _ then _ else st) with st1.
  destruct (Z.eqb_spec (rthread c) NULL) as [E0|E0]; cbn [negb].
  - subst st1. destruct c as [pid bsp pre sf [|t l] rt sch];
      cbn [rthread runq scheduler] in *; [done|]. subst rt.
    destruct fuel as [|fuel]; [lia|]. unfold preempt_disable, set_preempt.
    cbn [sched_rr_loop rthread runq set_rthread Z.eqb NULL negb threadp nth
         proc_id flag_bsp saved_flags scheduler].
    set (st1 := demote NULL st) in *. assert (Ht : t ≠ NULL) by set_solver.
    set (c := CpuState pid bsp pre sf (t :: l) NULL sch) in *.
    assert (E1 : thread_at c 0 = t) by (unfold thread_at; by rewrite Nat.Div0.mod_0_l).
    destruct m as [|m].
    + rewrite E1 in Hm. rewrite E1, bool_decide_eq_true_2 by exact Hm. done.
    + rewrite bool_decide_eq_false_2 by (rewrite <- E1; apply Hmin; lia).
      erewrite (sched_rr_loop_spec m fuel _ (AtNode 0) 1 (env st1) 1).
      * done.
      * done.
      * done.
      * cbn. lia.
      * lia.
      * intros m' Hm'. apply (Hmin (S m')). lia.
      * exact Hm.
  - unfold find_thread_in_rq; cbn [runq]. rewrite find_thread_from_none by done.
    rewrite (sched_rr_loop_spec m fuel _ AtHead 0 (env st1) 0); done.
Qed.

Lemma remove_nth (l : list Z) i t :
  NoDup l → l !! i = Some t → ∀ x, x ∈ take i l ++ drop (S i) l ↔ x ∈ l ∧ x ≠ t.
Proof.
  intros Hnd Hi x. rewrite <- (take_drop_middle l i t Hi) in Hnd.
  rewrite <- (take_drop_middle l i t Hi) at 3.
  apply NoDup_app in Hnd as (_&Hd&[Hx _]%NoDup_cons).
  rewrite !elem_of_app, elem_of_cons. split; [|tauto].
  intros [H1|H1]; (split; [tauto|]); intros ->; [|done]. apply (Hd t H1). left.
Qed.

(** The number of threads that are not complete. *)
Lemma count_runnable_zero l st n :
  0 ≤ n → n + Z.of_nat (length l) < 4294967296 →
  (count_runnable l st n =? 0) = true ↔ n = 0 ∧ ∀ t, t ∈ l → st t = T_COMPLETE.
Proof.
  revert n. induction l as [|t l IH]; intros n Hn Hl; cbn [count_runnable length] in *.
  - rewrite Z.eqb_eq. set_solver.
  - destruct (bool_decide_reflect (st t = T_COMPLETE)) as [E|E].
    + rewrite IH by lia. set_solver.
    + rewrite u32_small by (unfold is_u32; lia). rewrite IH by lia. split; [lia|].
      intros [_ Ha]. destruct E. apply Ha. left.
Qed.

(** ** Property *)


