(* ===== verification/Smp.v ===== *)
(** * The scheduler on several processors

    [Sched.v] runs [schedule] from its call to its end, with the statuses of the threads given
    at each round of the polling loop. Here the processors share the statuses, and their
    steps interleave: the rounds of the polling loop, the timer interrupt with its alarms,
    what threads do (sleep, pause, yield, start and end threads), and the two halves
    of a [wake_up] (its test and its assignment are not one action: nothing locks a thread).
    A run is any sequence of such steps. *)
From S2P Require Import Prelude Threads Timer Sched SchedProofs Paging Exit.

(** ** The parts of [schedule] *)

(** Up to the polling loop of [__do_sched_rr]: the processor, the statuses and [tlist] *)
Definition sched_enter (c : cpu_state_t) (st : statuses) : cpu_state_t * statuses * option pos :=
  let c := preempt_disable c in
  let old := rthread c in
  let st := if bool_decide (st old = T_RUNNING) then set_thread_status old T_READY st else st in
  (c, st, if negb (rthread c =? NULL) then Some (find_thread_in_rq (rthread c) c) else None).

(** One round of the loop: the processor, [tlist], and the thread when it is ready *)
Definition poll_round (cur : cpu_state_t) (tlist : option pos) (st : statuses)
  : cpu_state_t * option pos * option Z :=
  let '(tlist, cur) :=
    if negb (rthread cur =? NULL) then
      match tlist with
      | Some p => (Some (if is_last cur p then first_entry cur else next_entry cur p), cur)
      | None => (None, cur)
      end
    else
      match runq cur with
      | [] => (None, cur)
      | t :: _ => (Some (AtNode 0), set_rthread t cur)
      end in
  match tlist with
  | Some p => (cur, tlist, if bool_decide (st (threadp cur p) = T_READY) then Some (threadp cur p) else None)
  | None => (cur, tlist, None)
  end.

(** The rounds make up the loop, and with what is around it [schedule]. *)
Lemma sched_rr_loop_rounds fuel cur tlist env k :
  sched_rr_loop (S fuel) cur tlist env k =
  let '(cur, tlist, r) := poll_round cur tlist (env k) in
  match r with
  | Some t => Ret (t, cur, k)
  | None => sched_rr_loop fuel cur tlist env (S k)
  end.
Proof.
  unfold poll_round. cbn [sched_rr_loop].
  destruct (negb (rthread cur =? NULL)); [destruct tlist as [p|]|destruct (runq cur) as [|t l]]; try done;
    by case_bool_decide.
Qed.

Lemma schedule_parts fuel c st env :
  scheduler c = SCHED_RR →
  schedule fuel c st env =
  let '(c, st, tlist) := sched_enter c st in
  '(nextp, c, k) ← sched_rr_loop fuel c tlist (env st) 0;
  Ret (set_rthread nextp c, set_thread_status nextp T_RUNNING (env st k)).
Proof. intros Hs. unfold schedule, pick_next_thread. cbn [preempt_disable set_preempt scheduler]. by rewrite Hs. Qed.

(** ** The system *)

(** Where a processor is: in the code of its thread, in the polling loop, or between the choice
    of a thread and the [preempt_enable()] that [switch_to] ends with *)
Inductive phase : Type := Running | Polling (tlist : option pos) | Switching.

Record smp : Type := Smp {
  now : Z;                     (* ticks *)
  cpus : nat → cpu_state_t;
  sts : statuses;
  als : Z → alarm_t;
  phases : nat → phase;
  woken : list Z;              (* tests of [wake_up] that were passed *)
}.

Inductive label : Type :=
  | Tick (n : nat)                             (* timer interrupt *)
  | Poll (n : nat)                             (* one round of the polling loop *)
  | Switched (n : nat)                         (* the end of [switch_to] *)
  | Yield (n : nat)                            (* the current thread calls [schedule] *)
  | Sleep (n : nat)                            (* ... [make_sleep] *)
  | Pause (n : nat) (sec : Z)                  (* ... [pause], up to [make_sleep_resched] *)
  | Spawn (n : nat) (t node : Z)               (* ... [add_thread_to_rq(t)] *)
  | Finish (n : nat) (freed : Z) (last : bool) (* ... [__finish_thread] *)
  | Check (t : Z)                              (* the test of [wake_up(t)] *)
  | Wake (t : Z)                               (* its assignment *)
  | Preemption (n : nat) (on : bool)           (* [preempt_enable], [preempt_disable] *)
  | Flags (n : nat) (f : Z).                   (* [local_irq_save()] *)

Definition set_cpu (n : nat) (c : cpu_state_t) (s : smp) : smp :=
  Smp (now s) (<[n := c]> (cpus s)) (sts s) (als s) (phases s) (woken s).
Definition set_sts (st : statuses) (s : smp) : smp :=
  Smp (now s) (cpus s) st (als s) (phases s) (woken s).
Definition set_als (al : Z → alarm_t) (s : smp) : smp :=
  Smp (now s) (cpus s) (sts s) al (phases s) (woken s).
Definition set_phase (n : nat) (p : phase) (s : smp) : smp :=
  Smp (now s) (cpus s) (sts s) (als s) (<[n := p]> (phases s)) (woken s).
Definition set_now (t : Z) (s : smp) : smp :=
  Smp t (cpus s) (sts s) (als s) (phases s) (woken s).
Definition set_woken (l : list Z) (s : smp) : smp :=
  Smp (now s) (cpus s) (sts s) (als s) (phases s) l.

#[export] Instance pos_eq_dec : EqDecision pos.
Proof. solve_decision. Defined.
#[export] Instance phase_eq_dec : EqDecision phase.
Proof. solve_decision. Defined.
#[export] Instance scheduler_eq_dec : EqDecision scheduler_t.
Proof. solve_decision. Defined.

(** [schedule()] on processor [n] up to the polling loop *)
Definition enter (n : nat) (s : smp) : option smp :=
  if decide (scheduler (cpus s n) = SCHED_RR) then
    let '(c, st, tlist) := sched_enter (cpus s n) (sts s) in
    Some (set_phase n (Polling tlist) (set_sts st (set_cpu n c s)))
  else None.

(** The actions of [timer_callback]; other processors get a [Tick] of their own. *)
Definition tick_action_on (n : nat) (x : tick_action) (s : smp) : option smp :=
  match x with
  | TickOthers => Some s
  | CheckAlarms =>
      match check_thread_alarms (now s) (cpus s n) (als s) (sts s) with
      | Ret (al, st) => Some (set_als al (set_sts st s))
      | _ => None
      end
  | Schedule => match phases s n with Running => enter n s | _ => None end
  end.

Fixpoint tick_actions_on (n : nat) (l : list tick_action) (s : smp) : option smp :=
  match l with
  | [] => Some s
  | x :: l => s ← tick_action_on n x s; tick_actions_on n l s
  end.

Definition tick (n : nat) (s : smp) : option smp :=
  let c := cpus s n in
  let '(t, l) := timer_callback (flag_bsp c) (preempt_on c) (now s) in
  tick_actions_on n l (set_now t s).

(** One round; the last one also ends [schedule] up to the switch. *)
Definition poll (n : nat) (s : smp) : option smp :=
  match phases s n with
  | Polling tlist =>
      let '(c, tlist, r) := poll_round (cpus s n) tlist (sts s) in
      match r with
      | None => Some (set_phase n (Polling tlist) (set_cpu n c s))
      | Some t =>
          Some (set_phase n Switching (set_sts (set_thread_status t T_RUNNING (sts s))
                  (set_cpu n (set_rthread t c) s)))
      end
  | _ => None
  end.

(** [pick_processor()] *)
Definition placed_on (ncpu : nat) (ismp : bool) (n : nat) (s : smp) : nat :=
  if ismp then __pick_processor_fsr ncpu (λ j, rq_calc_len_and_ready (cpus s j) (sts s)) else n.

Definition spawn (ncpu : nat) (ismp : bool) (n : nat) (t node : Z) (s : smp) : smp :=
  let m := placed_on ncpu ismp n s in
  let '(_, c, st) := add_thread_to_rq node t (cpus s m) (sts s) in set_cpu m c (set_sts st s).

(** [__finish_thread()] up to the polling loop; [last] tells whether the thread was the last one
    of its task. *)
Definition finish (n : nat) (freed : Z) (last : bool) (s : smp) : option smp :=
  let c := preempt_disable (cpus s n) in
  match clean_thread_sched freed c (sts s) with
  | Ret (_, c, st) =>
      let c := if last then set_rthread NULL c else c in enter n (set_cpu n c (set_sts st s))
  | _ => None
  end.

(** [l] without one occurrence of [t] *)
Fixpoint take_out (t : Z) (l : list Z) : option (list Z) :=
  match l with
  | [] => None
  | u :: l => if u =? t then Some l else cons u <$> take_out t l
  end.

Section System.
(** the number of processors, and whether there is an MP table *)
Context (ncpu : nat) (ismp : bool).

(** Processor [n] runs the code of its thread. *)
Definition in_thread (n : nat) (s : smp) : Prop := (n < ncpu)%nat ∧ phases s n = Running.
#[local] Instance in_thread_dec n s : Decision (in_thread n s).
Proof. unfold in_thread. apply _. Defined.

(** A step, where it is possible. A thread is started with a new structure above kernel space. *)
Definition act (l : label) (s : smp) : option smp :=
  match l with
  | Tick n => if decide (n < ncpu)%nat then tick n s else None
  | Poll n => if decide (n < ncpu)%nat then poll n s else None
  | Switched n =>
      if decide ((n < ncpu)%nat ∧ phases s n = Switching)
      then Some (set_phase n Running (set_cpu n (preempt_enable (cpus s n)) s)) else None
  | Yield n => if decide (in_thread n s) then enter n s else None
  | Sleep n =>
      if decide (in_thread n s) then Some (set_sts (make_sleep (get_curr_thread (cpus s n)) (sts s)) s)
      else None
  | Pause n sec =>
      if decide (in_thread n s) then
        let '(al, st) := pause_set sec (now s) (cpus s n) (als s) (sts s) in Some (set_als al (set_sts st s))
      else None
  | Spawn n t node =>
      if decide (in_thread n s ∧ K_SPACE_END ≤ t ∧ sts s t = T_INIT) then Some (spawn ncpu ismp n t node s)
      else None
  | Finish n freed last => if decide (in_thread n s) then finish n freed last s else None
  | Check t => if decide (K_SPACE_END ≤ t ∧ sts s t = T_BLOCKED) then Some (set_woken (t :: woken s) s) else None
  | Wake t =>
      match take_out t (woken s) with
      | Some l => Some (set_woken l (set_sts (set_thread_status t T_READY (sts s)) s))
      | None => None
      end
  | Preemption n on =>
      if decide (in_thread n s) then Some (set_cpu n (set_preempt on (cpus s n)) s) else None
  | Flags n f =>
      if decide ((n < ncpu)%nat ∧ 0 ≤ f < K_SPACE_END)
      then Some (set_cpu n (CpuState (proc_id (cpus s n)) (flag_bsp (cpus s n)) (preempt_on (cpus s n)) f
                   (runq (cpus s n)) (rthread (cpus s n)) (scheduler (cpus s n))) s)
      else None
  end.

Fixpoint run (ls : list label) (s : smp) : option smp :=
  match ls with
  | [] => Some s
  | l :: ls => s ← act l s; run ls s
  end.

(** ** The invariant *)

Definition valid_pos (c : cpu_state_t) (p : pos) : Prop :=
  match p with AtHead => True | AtNode i => (i < length (runq c))%nat end.

(** The current thread of processor [n] in state [c] and phase [p], when the queues are [q]: one of
    its queue; or, in the polling loop, none yet, or one that has ended. *)
Definition current_ok (q : nat → list Z) (st : statuses) (c : cpu_state_t) (p : phase) : Prop :=
  match p with
  | Running => rthread c ∈ runq c
  | Switching => rthread c ∈ runq c ∧ preempt_on c = false
  | Polling None => rthread c = NULL ∧ preempt_on c = false
  | Polling (Some x) =>
      valid_pos c x ∧ preempt_on c = false ∧ K_SPACE_END ≤ rthread c ∧ st (rthread c) ≠ T_INIT ∧
      (rthread c ∈ runq c ∨ ∀ m, (m < ncpu)%nat → rthread c ∉ q m)
  end.

Definition is_polling (p : phase) : bool := match p with Polling _ => true | _ => false end.

Record smp_wf (s : smp) : Prop := {
  wf_rr : ∀ n, (n < ncpu)%nat → scheduler (cpus s n) = SCHED_RR;
  wf_nodup : ∀ n, (n < ncpu)%nat → NoDup (runq (cpus s n));
  wf_thread : ∀ n t, (n < ncpu)%nat → t ∈ runq (cpus s n) → K_SPACE_END ≤ t ∧ sts s t ≠ T_INIT;
  wf_disjoint : ∀ n m t, (n < ncpu)%nat → (m < ncpu)%nat → t ∈ runq (cpus s n) → t ∈ runq (cpus s m) → n = m;
  wf_current : ∀ n, (n < ncpu)%nat → current_ok (runq ∘ cpus s) (sts s) (cpus s n) (phases s n);
  wf_one : ∀ n m, (n < ncpu)%nat → (m < ncpu)%nat → rthread (cpus s n) = rthread (cpus s m) →
             rthread (cpus s n) ≠ NULL → n = m;
  wf_running : ∀ t, K_SPACE_END ≤ t → sts s t = T_RUNNING →
                 ∃ n, (n < ncpu)%nat ∧ rthread (cpus s n) = t ∧ is_polling (phases s n) = false;
  wf_low : ∀ a, a < K_SPACE_END → sts s a ≠ T_READY ∧ sts s a ≠ T_RUNNING;
  wf_flags : ∀ n, (n < ncpu)%nat → saved_flags (cpus s n) < K_SPACE_END;
  wf_woken : ∀ t, t ∈ woken s → K_SPACE_END ≤ t ∧ sts s t ≠ T_INIT;
}.

(** The current thread of any processor *)
Lemma wf_cur_cases s n :
  smp_wf s → (n < ncpu)%nat →
  rthread (cpus s n) = NULL ∨
  K_SPACE_END ≤ rthread (cpus s n) ∧ sts s (rthread (cpus s n)) ≠ T_INIT ∧
  (rthread (cpus s n) ∈ runq (cpus s n) ∨
   is_polling (phases s n) = true ∧ ∀ m, (m < ncpu)%nat → rthread (cpus s n) ∉ runq (cpus s m)).
Proof.
  intros Hw Hn. pose proof (wf_current s Hw n Hn) as Hc. pose proof (wf_thread s Hw n (rthread (cpus s n)) Hn) as Ht.
  unfold current_ok in Hc. destruct (phases s n) as [|[x|]|]; [right|right|left|right].
  - destruct (Ht Hc) as [? ?]. by split_and!; [..|left].
  - destruct Hc as (_&_&?&?&[?|?]); (split_and!; [done..|]); [by left|by right].
  - apply Hc.
  - destruct (Ht (proj1 Hc)) as [? ?]. split_and!; [done..|]. left. apply Hc.
Qed.

(** A change of statuses only *)
Lemma wf_status s st al w t0 :
  smp_wf s → (∀ a, a < K_SPACE_END → st a = sts s a) → (∀ a, sts s a ≠ T_INIT → st a ≠ T_INIT) →
  (∀ a, st a = T_RUNNING → sts s a = T_RUNNING) →
  (∀ t, t ∈ w → K_SPACE_END ≤ t ∧ sts s t ≠ T_INIT) →
  smp_wf (Smp t0 (cpus s) st al (phases s) w).
Proof.
  intros Hw Hlow Hinit Hrun Hwk. pose proof Hw as []. split; cbn [cpus sts als phases woken now]; try done.
  - intros n t Hn Ht. destruct (wf_thread0 n t Hn Ht). split; [done|by apply Hinit].
  - intros n Hn. specialize (wf_current0 n Hn). unfold current_ok in *.
    destruct (phases s n) as [|[x|]|]; try done. destruct wf_current0 as (?&?&?&?&?).
    split_and!; try done. by apply Hinit.
  - intros t Ht Hr. by apply wf_running0, Hrun.
  - intros a Ha. rewrite Hlow by done. by apply wf_low0.
  - intros t Ht. destruct (Hwk t Ht). split; [done|by apply Hinit].
Qed.

(** Case distinction on the processor that was changed *)
Ltac at_cpu n m :=
  destruct (decide (n = m)) as [<-|];
  [rewrite ?fn_lookup_insert in *|rewrite ?(fn_lookup_insert_ne _ n m) in * by done].

(** A step of processor [n] that gives it the state [c] and the phase [p]. Its queue does not
    grow; its current thread stays, becomes one of the queue, or there is none any more; and
    no status becomes [T_RUNNING] but that of its current thread. *)
Record cpu_change (s : smp) (n : nat) (c : cpu_state_t) (p : phase) (st : statuses) : Prop := {
  ch_rr : scheduler c = SCHED_RR;
  ch_nodup : NoDup (runq c);
  ch_queue : ∀ t, t ∈ runq c → t ∈ runq (cpus s n);
  ch_thread : rthread c = NULL ∨ rthread c = rthread (cpus s n) ∨ rthread c ∈ runq c;
  ch_current : current_ok (runq ∘ <[n := c]> (cpus s)) st c p;
  ch_running : ∀ t, K_SPACE_END ≤ t → st t = T_RUNNING →
    sts s t = T_RUNNING ∧ t ≠ rthread (cpus s n) ∨ rthread c = t ∧ is_polling p = false;
  ch_low : ∀ a, a < K_SPACE_END → st a = sts s a;
  ch_init : ∀ a, sts s a ≠ T_INIT → st a ≠ T_INIT;
  ch_flags : saved_flags c < K_SPACE_END;
}.

Lemma wf_update s n c p st :
  smp_wf s → (n < ncpu)%nat → cpu_change s n c p st →
  smp_wf (set_phase n p (set_sts st (set_cpu n c s))).
Proof.
  intros Hw Hn [Crr Cnd Cq Ct Cc Cr Cl Ci Cf]. pose proof (wf_cur_cases s) as Hcur.
  assert (Hsub : ∀ m t, t ∈ runq (<[n := c]> (cpus s) m) → t ∈ runq (cpus s m)).
  { intros m t Ht. at_cpu n m; auto. }
  assert (Hone : ∀ m, (m < ncpu)%nat → n ≠ m → rthread c = rthread (cpus s m) → rthread c = NULL).
  { intros m Hm Hne E. destruct Ct as [?|[Ht|Ht]]; [done| |].
    - destruct (decide (rthread c = NULL)); [done|]. destruct Hne. apply (wf_one s Hw); congruence.
    - exfalso. apply Cq in Ht. rewrite E in Ht. destruct (wf_thread s Hw n _ Hn Ht) as [Hk _].
      destruct (Hcur m Hw Hm) as [H0|(_&_&[Hq|[_ Hq]])].
      + rewrite H0 in Hk. unfold K_SPACE_END, NULL in Hk. lia.
      + apply Hne. by eapply (wf_disjoint s Hw).
      + by apply (Hq n Hn). }
  split; cbn [set_phase set_sts set_cpu cpus sts phases woken].
  - intros m Hm. at_cpu n m; [done|by apply Hw].
  - intros m Hm. at_cpu n m; [done|by apply Hw].
  - intros m t Hm Ht. destruct (wf_thread s Hw m t Hm (Hsub m t Ht)). auto.
  - intros m k t Hm Hk Htm Htk. by apply (wf_disjoint s Hw m k t); [..|apply Hsub|apply Hsub].
  - intros m Hm. at_cpu n m; [done|]. pose proof (wf_current s Hw m Hm) as Hc. unfold current_ok in *.
    destruct (phases s m) as [|[x|]|]; try done. destruct Hc as (?&?&?&?&[?|Hq]); split_and!; auto.
    right. intros k Hk Hin. by apply (Hq k Hk), Hsub.
  - intros m k Hm Hk E Hnn. destruct (decide (n = m)) as [<-|Hnm], (decide (n = k)) as [<-|Hnk]; [done|..].
    + rewrite fn_lookup_insert in Hnn, E. rewrite fn_lookup_insert_ne in E by done.
      destruct Hnn. by apply (Hone k).
    + rewrite fn_lookup_insert_ne in Hnn, E by done. rewrite fn_lookup_insert in E.
      destruct Hnn. rewrite E. by apply (Hone m).
    + rewrite fn_lookup_insert_ne in Hnn by done. rewrite !fn_lookup_insert_ne in E by done.
      by apply (wf_one s Hw).
  - intros t Ht Hr. destruct (Cr t Ht Hr) as [[Hr' Hne]|[<- Hp]].
    + destruct (wf_running s Hw t Ht Hr') as (m&Hm&E&Hp). exists m.
      rewrite !fn_lookup_insert_ne by congruence. done.
    + exists n. by rewrite !fn_lookup_insert.
  - intros a Ha. rewrite Cl by done. by apply Hw.
  - intros m Hm. at_cpu n m; [done|by apply Hw].
  - intros t Ht. destruct (wf_woken s Hw t Ht). auto.
Qed.

(** States that agree everywhere *)
Lemma wf_ext s s' :
  (∀ n, cpus s' n = cpus s n) → (∀ n, phases s' n = phases s n) → sts s' = sts s → woken s' = woken s →
  smp_wf s → smp_wf s'.
Proof.
  intros Ec Ep Es Ew [W1 W2 W3 W4 W5 W6 W7 W8 W9 W10].
  split; rewrite ?Es, ?Ew; try done; intros *; rewrite ?Ec; eauto.
  - intros Hn. rewrite Ep. specialize (W5 n Hn). unfold current_ok in *.
    destruct (phases s n) as [|[x|]|]; try done. destruct W5 as (?&?&?&?&[?|Hq]); split_and!; auto.
    right. intros m Hm. cbn. rewrite Ec. by apply Hq.
  - intros Ht Hr. destruct (W7 t Ht Hr) as (n&?&?&?). exists n. by rewrite Ec, Ep.
Qed.

Lemma find_thread_valid t c : valid_pos c (find_thread_in_rq t c).
Proof.
  unfold find_thread_in_rq, valid_pos. set (q := runq c).
  enough (H : ∀ l k, match find_thread_from l k t with AtHead => True | AtNode i => (i < k + length l)%nat end)
    by (apply (H q 0%nat)).
  induction l as [|u l IH]; intros k; cbn [find_thread_from length]; [done|].
  destruct (u =? t); [lia|]. specialize (IH (S k)). destruct (find_thread_from l (S k) t); [done|lia].
Qed.

(** In the polling loop the current thread is not marked as running. *)
Lemma polling_not_running s n :
  smp_wf s → (n < ncpu)%nat → is_polling (phases s n) = true → sts s (rthread (cpus s n)) ≠ T_RUNNING.
Proof.
  intros Hw Hn Hp Hr. destruct (wf_cur_cases s n Hw Hn) as [E|(Hk&_)].
  - rewrite E in Hr. by apply (wf_low s Hw NULL) in Hr.
  - destruct (wf_running s Hw _ Hk Hr) as (m&Hm&E&Hp').
    assert (m = n) as ->; [|congruence]. apply (wf_one s Hw); try done. rewrite E. intros E0.
    rewrite E0 in Hk. unfold K_SPACE_END, NULL in Hk. lia.
Qed.

Lemma demote_spec t st a :
  demote t st a = if decide (a = t ∧ st t = T_RUNNING) then T_READY else st a.
Proof.
  unfold demote. case_bool_decide as H.
  - destruct (decide (a = t)) as [->|Hne]; [by rewrite status_same, decide_True|].
    rewrite status_other, decide_False by (done || tauto). done.
  - rewrite decide_False by tauto. done.
Qed.

Lemma enter_wf s n s' :
  smp_wf s → (n < ncpu)%nat → phases s n = Running → enter n s = Some s' → smp_wf s'.
Proof.
  intros Hw Hn Hp. unfold enter. rewrite decide_True by (by apply Hw). unfold sched_enter.
  pose proof (wf_current s Hw n Hn) as Hc. rewrite Hp in Hc. cbn [current_ok] in Hc.
  destruct (wf_thread s Hw n _ Hn Hc) as [Hk Hi].
  set (c := preempt_disable (cpus s n)). change (rthread c) with (rthread (cpus s n)).
  change (if bool_decide _ then _ else sts s) with (demote (rthread (cpus s n)) (sts s)).
  rewrite (proj2 (Z.eqb_neq _ _)) by (unfold K_SPACE_END, NULL in *; lia). cbn [negb]. intros [= <-].
  apply wf_update; [done..|].
  assert (Hnot : ∀ a, sts s a ≠ T_INIT → demote (rthread (cpus s n)) (sts s) a ≠ T_INIT).
  { intros a Ha. rewrite demote_spec. by case_decide. }
  split; try done.
  - by apply Hw.
  - by apply Hw.
  - by right; left.
  - cbn [current_ok]. split; [apply (find_thread_valid _ c)|]. split_and!; try done; [by apply Hnot|by left].
  - intros t Ht. rewrite demote_spec. case_decide as Hd; [done|]. intros Hr. left. split; [done|].
    intros ->. by apply Hd.
  - intros a Ha. rewrite demote_spec. rewrite decide_False; [done|]. intros [-> _]. lia.
  - by apply Hw.
Qed.

(** The next place of the cursor is a node, unless the queue is empty. *)
Lemma advance_valid c p :
  valid_pos c p →
  let p' := if is_last c p then first_entry c else next_entry c p in
  (p' = AtHead ∧ runq c = []) ∨ ∃ j, p' = AtNode j ∧ (j < length (runq c))%nat.
Proof.
  intros Hv. cbn zeta. destruct (runq c) as [|u l] eqn:E.
  - left. destruct p as [|i]; [|cbn in Hv; rewrite E in Hv; cbn in Hv; lia].
    unfold is_last, first_entry. by rewrite E.
  - right. assert (Hne : runq c ≠ []) by congruence. rewrite <- E. clear E.
    assert (Hp : ∃ j, pos_of c p j) by (destruct p as [|i]; cbn in *; eauto).
    destruct Hp as [j Hp]. rewrite (advance_pos c p j Hne Hp). eexists. split; [done|].
    apply Nat.mod_upper_bound. by destruct (runq c).
Qed.

(** What a round of the polling loop can do *)
Inductive round (c : cpu_state_t) (st : statuses) : cpu_state_t → option pos → option Z → Prop :=
  | round_empty : rthread c = NULL → runq c = [] → round c st c None None
  | round_head : rthread c ≠ NULL → runq c = [] → round c st c (Some AtHead) None
  | round_node c' j t : runq c !! j = Some t →
      (c' = c ∧ rthread c ≠ NULL ∨ c' = set_rthread t c ∧ rthread c = NULL ∧ j = 0%nat) →
      round c st c' (Some (AtNode j)) (if bool_decide (st t = T_READY) then Some t else None).

Lemma poll_round_spec s n tl :
  smp_wf s → (n < ncpu)%nat → phases s n = Polling tl →
  let '(c', tl', r) := poll_round (cpus s n) tl (sts s) in round (cpus s n) (sts s) c' tl' r.
Proof.
  intros Hw Hn Hp. pose proof (wf_current s Hw n Hn) as Hc. rewrite Hp in Hc. unfold poll_round.
  destruct tl as [p|]; cbn [current_ok] in Hc.
  - destruct Hc as (Hv&_&Hk&_). rewrite (proj2 (Z.eqb_neq _ _)) by (unfold K_SPACE_END, NULL in *; lia). cbn [negb].
    assert (Hr : rthread (cpus s n) ≠ NULL) by (unfold K_SPACE_END, NULL in *; lia).
    destruct (advance_valid _ _ Hv) as [[-> Hq]|(j&->&Hj)].
    + cbn [threadp]. rewrite bool_decide_eq_false_2; [by apply round_head|].
      apply (wf_low s Hw). by apply (wf_flags s Hw).
    + destruct (lookup_lt_is_Some_2 _ _ Hj) as [t Ht]. cbn [threadp]. rewrite nth_lookup, Ht. cbn [default].
      apply round_node; [done|by left].
  - destruct Hc as [E0 _]. rewrite E0. cbn [Z.eqb NULL negb].
    destruct (runq (cpus s n)) as [|t l] eqn:Hq; [by apply round_empty|].
    cbn [threadp set_rthread runq]. rewrite Hq. cbn [nth]. apply round_node; [by rewrite Hq|by right].
Qed.

Lemma poll_wf s n s' : smp_wf s → (n < ncpu)%nat → poll n s = Some s' → smp_wf s'.
Proof.
  intros Hw Hn. unfold poll. destruct (phases s n) as [|tl|] eqn:Hp; [done| |done].
  pose proof (poll_round_spec s n tl Hw Hn Hp) as Hr.
  destruct (poll_round _ _ _) as [[c' tl'] r]. pose proof (wf_current s Hw n Hn) as Hc. rewrite Hp in Hc.
  assert (Hpre : preempt_on (cpus s n) = false) by (destruct tl; apply Hc).
  assert (Hnr : sts s (rthread (cpus s n)) ≠ T_RUNNING)
    by (apply polling_not_running; [done..|by rewrite Hp]).
  assert (Hst : ∀ c p, scheduler c = scheduler (cpus s n) → runq c = runq (cpus s n) →
    saved_flags c = saved_flags (cpus s n) →
    rthread c = NULL ∨ rthread c = rthread (cpus s n) ∨ rthread c ∈ runq c →
    current_ok (runq ∘ <[n := c]> (cpus s)) (sts s) c p → cpu_change s n c p (sts s)).
  { intros c p E1 E2 E3 E4 E5. split; rewrite ?E1, ?E2, ?E3; try done; try (by apply Hw).
    - by rewrite <- E2.
    - intros t Ht Hrt. left. split; [done|]. intros ->. done. }
  assert (Hset : ∀ c p, set_phase n p (set_cpu n c s) = set_phase n p (set_sts (sts s) (set_cpu n c s))) by done.
  destruct Hr as [E0 Eq|E0 Eq|c' j t Hj Hc'].
  - intros [= <-]. rewrite Hset. apply wf_update; [done..|]. apply Hst; auto. by split.
  - intros [= <-]. rewrite Hset. apply wf_update; [done..|]. apply Hst; auto.
    destruct tl as [p|]; [|by destruct (E0 (proj1 Hc))]. destruct Hc as (?&?&?&?&Hq). split_and!; try done.
    right. intros m Hm. destruct Hq as [Hq|Hq]; [by rewrite Eq in Hq; apply elem_of_nil in Hq|].
    cbn. at_cpu n m; [by rewrite Eq; apply not_elem_of_nil|by apply Hq].
  - pose proof (list_elem_of_lookup_2 _ _ _ Hj) as Hin. destruct (wf_thread s Hw n t Hn Hin) as [Hk Hi].
    assert (Eqs : scheduler c' = scheduler (cpus s n) ∧ runq c' = runq (cpus s n) ∧
      saved_flags c' = saved_flags (cpus s n) ∧ preempt_on c' = false) by (by destruct Hc' as [[-> _]|(->&_&_)]).
    destruct Eqs as (Q1&Q2&Q3&Q4). case_bool_decide as Hrd; intros [= <-].
    + apply wf_update; [done..|]. split; cbn [scheduler runq rthread saved_flags set_rthread];
        rewrite ?Q1, ?Q2, ?Q3; try done; try (by apply Hw).
      * by right; right.
      * split; cbn; [by rewrite Q2|done].
      * intros u Hu Hru. destruct (decide (t = u)) as [->|Hne]; [by right|].
        rewrite status_other in Hru by done. left. split; [done|]. by intros ->.
      * intros a Ha. apply status_other. lia.
      * intros a Ha. destruct (decide (t = a)) as [->|]; [by rewrite status_same|by rewrite status_other].
    + rewrite Hset. apply wf_update; [done..|]. apply Hst; try done.
      * destruct Hc' as [[-> _]|(->&_&_)]; [by right; left|right; right]. cbn. done.
      * assert (Hjl : (j < length (runq c'))%nat) by (rewrite Q2; by apply lookup_lt_Some in Hj).
        destruct Hc' as [[-> Hr0]|(->&_&_)].
        -- destruct tl as [p|]; [|by destruct (Hr0 (proj1 Hc))]. destruct Hc as (?&?&?&?&Hq).
           split_and!; try done. destruct Hq as [Hq|Hq]; [by left|right]. intros m Hm. cbn.
           at_cpu n m; by apply Hq.
        -- cbn. split_and!; try done. by left.
Qed.

Lemma nodup_without {A} (l : list A) i x : NoDup l → l !! i = Some x → NoDup (take i l ++ drop (S i) l).
Proof.
  intros Hnd Hx. rewrite <- (take_drop_middle _ i _ Hx) in Hnd. apply NoDup_app in Hnd as (N1&N2&[_ N3]%NoDup_cons).
  apply NoDup_app. split_and!; try done. intros y Hy Hz. apply (N2 y Hy). by right.
Qed.

(** [schedule] once the current thread is off the queue: [q] is what is left of it, and the task may
    have ended with the thread ([last]) *)
Lemma finished_enter_wf s n (q : list Z) (last : bool) c' s' :
  let old := rthread (cpus s n) in
  let st := set_thread_status old T_COMPLETE (sts s) in
  smp_wf s → (n < ncpu)%nat → old ∈ runq (cpus s n) →
  (∀ x, x ∈ q ↔ x ∈ runq (cpus s n) ∧ x ≠ old) → NoDup q →
  scheduler c' = SCHED_RR → runq c' = q → preempt_on c' = false → saved_flags c' = saved_flags (cpus s n) →
  rthread c' = (if last then NULL else old) →
  enter n (set_cpu n c' (set_sts st s)) = Some s' → smp_wf s'.
Proof.
  intros old st Hw Hn Hc Hq Hndq E1 E2 E3 E4 E5. destruct (wf_thread s Hw n old Hn Hc) as [Hk Hi].
  assert (Hst : ∀ a, a ≠ old → st a = sts s a) by (intros a Ha; by apply status_other).
  assert (Hcpl : st old = T_COMPLETE) by apply status_same.
  unfold enter. cbn [set_cpu set_sts cpus sts]. rewrite fn_lookup_insert, decide_True by done.
  unfold sched_enter. change (rthread (preempt_disable c')) with (rthread c').
  assert (Hd : (if bool_decide (st (rthread c') = T_RUNNING) then set_thread_status (rthread c') T_READY st else st) = st).
  { rewrite bool_decide_eq_false_2; [done|]. rewrite E5. destruct last; [|by rewrite Hcpl].
    rewrite Hst by (unfold K_SPACE_END, NULL in *; lia). by apply (wf_low s Hw). }
  rewrite Hd. set (tl := if negb _ then _ else _). intros [= <-].
  apply (wf_ext (set_phase n (Polling tl) (set_sts st (set_cpu n (preempt_disable c') s)))); try done.
  { intros m. cbn. by at_cpu n m. }
  apply wf_update; [done..|]. split; cbn [preempt_disable set_preempt scheduler runq rthread saved_flags]; try done.
  - by rewrite E2.
  - intros t. rewrite E2, Hq. tauto.
  - rewrite E5. destruct last; [by left|by right; left].
  - subst tl. rewrite E5. destruct last; cbn [Z.eqb NULL negb current_ok]; [done|].
    rewrite (proj2 (Z.eqb_neq _ _)) by (unfold K_SPACE_END, NULL in *; lia). cbn [negb current_ok].
    change (rthread (preempt_disable c')) with (rthread c'). rewrite E5.
    split; [apply (find_thread_valid _ (preempt_disable c'))|]. split_and!; try done; [by rewrite Hcpl|right].
    intros m Hm. cbn. at_cpu n m; [cbn; rewrite E2, Hq; tauto|].
    intros Hin. by destruct (wf_disjoint s Hw n m _ Hn Hm Hc Hin).
  - intros t Ht Hr. left. destruct (decide (t = old)) as [->|Hne]; [congruence|]. by rewrite Hst in Hr.
  - intros a Ha. apply Hst. lia.
  - intros a Ha. destruct (decide (a = old)) as [->|]; [by rewrite Hcpl|by rewrite Hst].
  - rewrite E4. by apply Hw.
Qed.

Lemma finish_wf s n freed last s' :
  smp_wf s → (n < ncpu)%nat → phases s n = Running → finish n freed last s = Some s' → smp_wf s'.
Proof.
  intros Hw Hn Hp. pose proof (wf_current s Hw n Hn) as Hc. rewrite Hp in Hc. cbn [current_ok] in Hc.
  pose proof (wf_nodup s Hw n Hn) as Hnd. pose proof (wf_rr s Hw n Hn) as Hrr.
  unfold finish, clean_thread_sched, remove_thread_from_rq, __remove_thread_from_rq, get_curr_thread.
  set (c0 := preempt_disable (cpus s n)). change (rthread c0) with (rthread (cpus s n)).
  pose proof Hc as [i Hi]%list_elem_of_lookup. unfold find_thread_in_rq. change (runq c0) with (runq (cpus s n)).
  rewrite (find_thread_from_spec _ 0 i _ Hnd Hi). cbn [Nat.add].
  pose proof (remove_nth _ _ _ Hnd Hi) as Hq. pose proof (nodup_without _ _ _ Hnd Hi) as Hndq.
  destruct (negb (freed =? OK)); cbn [mbind res_bind]; destruct last eqn:El;
    apply (finished_enter_wf s n (take i (runq (cpus s n)) ++ drop (S i) (runq (cpus s n))) last); by subst last.
Qed.

(** The alarms of processor [n] *)
Definition alarm_due (s : smp) (n : nat) (t : Z) : Prop :=
  t ∈ runq (cpus s n) ∧ due (now s) (als s) (sts s) t = true.

#[local] Instance alarm_due_dec s n t : Decision (alarm_due s n t).
Proof. unfold alarm_due. apply _. Defined.

Lemma check_alarms_wf s n :
  smp_wf s → (n < ncpu)%nat →
  ∃ s', tick_action_on n CheckAlarms s = Some s' ∧ smp_wf s' ∧ now s' = now s ∧
    cpus s' = cpus s ∧ phases s' = phases s ∧ woken s' = woken s ∧
    (∀ u, als s' u = (if decide (alarm_due s n u) then alarm_unset (als s u) else als s u) ∧
          sts s' u = (if decide (alarm_due s n u) then T_READY else sts s u)).
Proof.
  intros Hw Hn. cbn [tick_action_on]. unfold check_thread_alarms.
  destruct (check_alarms_loop_spec (runq (cpus s n)) (now s) (als s) (sts s)) as (al&st&->&H).
  - by apply Hw.
  - intros Hin. destruct (wf_thread s Hw n NULL Hn Hin) as [Hk _]. unfold K_SPACE_END, NULL in Hk. lia.
  - eexists. split; [done|]. split; [|do 4 (split; [done|]); exact H].
    apply (wf_status s st al (woken s) (now s)); [done|..].
    + intros a Ha. destruct (H a) as [_ ->]. rewrite decide_False; [done|]. intros [Hin _].
      destruct (wf_thread s Hw n a Hn Hin). lia.
    + intros a Ha. destruct (H a) as [_ ->]. by case_decide.
    + intros a. destruct (H a) as [_ ->]. by case_decide.
    + intros t Ht. by apply (wf_woken s Hw).
Qed.

(** A processor with preemption on runs the code of a thread. *)
Lemma preemptible_running s n :
  smp_wf s → (n < ncpu)%nat → preempt_on (cpus s n) = true → phases s n = Running.
Proof.
  intros Hw Hn Hp. pose proof (wf_current s Hw n Hn) as Hc. unfold current_ok in Hc.
  destruct (phases s n) as [|[x|]|]; [done|..]; destruct Hc as (?&?); [destruct_and!|..]; congruence.
Qed.

Lemma enter_possible s n : smp_wf s → (n < ncpu)%nat → is_Some (enter n s).
Proof. intros Hw Hn. unfold enter. rewrite decide_True by (by apply Hw). by destruct (sched_enter _ _) as [[??]?]. Qed.

(** The timer interrupt, on a state with the new tick: alarms, then the scheduler when its time
    has come and preemption is on *)
Lemma tick_spec s n :
  smp_wf s → (n < ncpu)%nat →
  let t := if flag_bsp (cpus s n) then u32 (now s + 1) else now s in
  ∃ s1, tick_action_on n CheckAlarms (set_now t s) = Some s1 ∧ smp_wf s1 ∧
    tick n s = if HZ_EQ t SCHED_HZ && preempt_on (cpus s n) then enter n s1 else Some s1.
Proof.
  intros Hw Hn. cbn zeta. set (t := if flag_bsp _ then _ else _).
  assert (Hw0 : smp_wf (set_now t s)) by (by apply (wf_ext s)).
  destruct (check_alarms_wf _ n Hw0 Hn) as (s1&E&Hw1&Hnow&Hcp&Hph&_). exists s1. split; [done|]. split; [done|].
  unfold tick, timer_callback.
  assert (Et : tick_actions_on n (if flag_bsp (cpus s n) then [TickOthers] else []) (set_now t s) = Some (set_now t s))
    by (by destruct (flag_bsp _)).
  assert (Happ : ∀ l l' x, tick_actions_on n (l ++ l') x = y ← tick_actions_on n l x; tick_actions_on n l' y).
  { induction l as [|a l IH]; intros l' x; [done|]. cbn [app tick_actions_on].
    destruct (tick_action_on n a x) as [y|]; [|done]. cbn. apply IH. }
  assert (Hal : HZ_EQ t CHK_ALM_HZ = true).
  { unfold HZ_EQ. change (HZ_DIV CHK_ALM_HZ) with 1. by rewrite Z.mod_1_r. }
  replace (if flag_bsp (cpus s n) then (u32 (now s + 1), [TickOthers]) else (now s, []))
    with (t, if flag_bsp (cpus s n) then [TickOthers] else []) by (unfold t; by destruct (flag_bsp _)).
  cbn beta iota. rewrite Hal, Happ, Et. cbn [mbind option_bind]. rewrite Happ. cbn [tick_actions_on].
  rewrite E. cbn [mbind option_bind].
  destruct (HZ_EQ t SCHED_HZ), (preempt_on (cpus s n)) eqn:Hpre; cbn [andb tick_actions_on]; try done.
  cbn [tick_action_on]. rewrite Hph. cbn [set_now phases]. rewrite (preemptible_running s n) by done.
  destruct (enter n s1); done.
Qed.

Lemma tick_wf s n : smp_wf s → (n < ncpu)%nat → ∃ s', tick n s = Some s' ∧ smp_wf s'.
Proof.
  intros Hw Hn. destruct (tick_spec s n Hw Hn) as (s1&E&Hw1&->).
  assert (Hw0 : smp_wf (set_now (if flag_bsp (cpus s n) then u32 (now s + 1) else now s) s))
    by (by apply (wf_ext s)).
  destruct (check_alarms_wf _ n Hw0 Hn) as (s2&E2&_&_&Hcp&Hph&_). rewrite E in E2. injection E2 as <-.
  destruct (HZ_EQ _ _ && preempt_on (cpus s n)) eqn:Hb; [|by exists s1].
  apply andb_prop in Hb as [_ Hpre]. destruct (enter_possible s1 n Hw1 Hn) as [s' Es'].
  exists s'. split; [done|]. apply (enter_wf s1 n); try done. rewrite Hph. cbn. by apply preemptible_running.
Qed.

Lemma pick_loop_bound k stats : ∀ i best prev N,
  (best < N)%nat → (i + k ≤ N)%nat → (pick_loop k i best prev stats < N)%nat.
Proof.
  induction k as [|k IH]; intros i best prev N Hb Hi; cbn [pick_loop]; [done|].
  destruct (stats (best + i)%nat) as [len ready]. destruct (_ || _); apply IH; lia.
Qed.

Lemma placed_on_bound s n : (n < ncpu)%nat → (placed_on ncpu ismp n s < ncpu)%nat.
Proof. intros Hn. unfold placed_on. destruct ismp; [|done]. apply pick_loop_bound; lia. Qed.

(** A thread that was never started is nowhere. *)
Lemma fresh_thread s t :
  smp_wf s → K_SPACE_END ≤ t → sts s t = T_INIT →
  ∀ m, (m < ncpu)%nat → (t ∉ runq (cpus s m)) ∧ rthread (cpus s m) ≠ t.
Proof.
  intros Hw Hk Hi m Hm. split.
  - intros Hin. by destruct (wf_thread s Hw m t Hm Hin).
  - intros E. destruct (wf_cur_cases s m Hw Hm) as [E0|(_&Hni&_)]; [|congruence].
    unfold K_SPACE_END, NULL in *. lia.
Qed.

Lemma spawn_wf s n t node :
  smp_wf s → (n < ncpu)%nat → K_SPACE_END ≤ t → sts s t = T_INIT → smp_wf (spawn ncpu ismp n t node s).
Proof.
  intros Hw Hn Hk Hi. unfold spawn. set (m := placed_on ncpu ismp n s).
  pose proof (placed_on_bound s n Hn) as Hm. fold m in Hm. unfold add_thread_to_rq.
  destruct (node =? NULL).
  { apply (wf_ext s); try done. intros k. cbn. by at_cpu m k. }
  pose proof (fresh_thread s t Hw Hk Hi) as Hfr.
  set (c := set_runq _ _). set (st := set_thread_status t T_READY (sts s)).
  assert (Hq : ∀ k u, u ∈ runq (<[m := c]> (cpus s) k) ↔ u ∈ runq (cpus s k) ∨ k = m ∧ u = t).
  { intros k u. at_cpu m k; [|naive_solver]. cbn. rewrite elem_of_app, list_elem_of_singleton. tauto. }
  assert (Hrt : ∀ k, rthread (<[m := c]> (cpus s) k) = rthread (cpus s k)) by (intros k; by at_cpu m k).
  assert (Hst : ∀ a, a ≠ t → st a = sts s a) by (intros a Ha; by apply status_other).
  assert (Hni : ∀ a, sts s a ≠ T_INIT → st a ≠ T_INIT).
  { intros a Ha. destruct (decide (a = t)) as [->|]; [done|by rewrite Hst]. }
  split; cbn [set_cpu set_sts cpus sts phases woken].
  - intros k Hk'. at_cpu m k; by apply (wf_rr s Hw).
  - intros k Hk'. at_cpu m k; [|by apply Hw]. cbn. apply NoDup_app. split; [by apply Hw|].
    split; [|apply NoDup_singleton]. intros u Hu ->%list_elem_of_singleton. by apply (proj1 (Hfr m Hm)).
  - intros k u Hk' [Hu|[-> ->]]%Hq; [destruct (wf_thread s Hw k u Hk' Hu); auto|].
    split; [done|]. unfold st. by rewrite status_same.
  - intros k l u Hk' Hl H1%Hq H2%Hq. destruct H1 as [Hu|[-> E1]], H2 as [Hv|[-> E2]]; [|subst u..|done].
    + by apply (wf_disjoint s Hw k l u).
    + by destruct (proj1 (Hfr k Hk')).
    + by destruct (proj1 (Hfr l Hl)).
  - intros k Hk'. pose proof (wf_current s Hw k Hk') as Hc. pose proof (Hrt k) as Er.
    assert (Hl : ∀ x, valid_pos (cpus s k) x → valid_pos (<[m := c]> (cpus s) k) x).
    { intros [|x]; [done|]. cbn. at_cpu m k; [cbn; rewrite length_app; lia|done]. }
    assert (Hp : preempt_on (<[m := c]> (cpus s) k) = preempt_on (cpus s k)) by (by at_cpu m k).
    unfold current_ok in *. destruct (phases s k) as [|[x|]|]; rewrite Er, ?Hp.
    1: apply Hq; tauto. 2: tauto. 2: split; [apply Hq|]; tauto.
    destruct Hc as (?&?&?&?&Hcq). split_and!; auto. destruct Hcq as [?|Hcq]; [left; apply Hq; tauto|right].
    intros l Hl'. cbn. rewrite Hq. intros [Hin|[-> E]]; [by apply (Hcq l)|]. by apply (proj2 (Hfr k Hk')).
  - intros k l Hk' Hl. rewrite !Hrt. by apply (wf_one s Hw).
  - intros u Hu Hr. destruct (decide (u = t)) as [->|Hne]; [unfold st in Hr; by rewrite status_same in Hr|].
    rewrite Hst in Hr by done. destruct (wf_running s Hw u Hu Hr) as (k&?&?&?). exists k. by rewrite Hrt.
  - intros a Ha. rewrite Hst by lia. by apply Hw.
  - intros k Hk'. at_cpu m k; by apply (wf_flags s Hw).
  - intros u Hu. destruct (wf_woken s Hw u Hu). auto.
Qed.

Lemma take_out_subset t l l' : take_out t l = Some l' → ∀ x, x ∈ l' → x ∈ l.
Proof.
  revert l'. induction l as [|u l IH]; intros l' E x Hx; cbn in E; [done|].
  destruct (u =? t); [injection E as <-; by right|].
  destruct (take_out t l) as [k|]; [|done]. injection E as <-.
  apply elem_of_cons in Hx as [->|Hx]; [left|right; by eapply IH].
Qed.

Lemma take_out_elem t l l' : take_out t l = Some l' → t ∈ l.
Proof.
  revert l'. induction l as [|u l IH]; intros l' E; cbn in E; [done|].
  destruct (Z.eqb_spec u t) as [->|]; [left|]. destruct (take_out t l) as [k|] eqn:Ek; [|done].
  right. by eapply IH.
Qed.

(** Putting the current thread to sleep, and waking a thread *)
Lemma set_status_wf s t x al w t0 :
  smp_wf s → K_SPACE_END ≤ t → sts s t ≠ T_INIT → x = T_BLOCKED ∨ x = T_READY →
  (∀ t, t ∈ w → t ∈ woken s) → smp_wf (Smp t0 (cpus s) (set_thread_status t x (sts s)) al (phases s) w).
Proof.
  intros Hw Hk Hi Hx Hsub. apply wf_status; [done|..].
  - intros a Ha. apply status_other. lia.
  - intros a Ha. destruct (decide (t = a)) as [->|]; [rewrite status_same|by rewrite status_other].
    by destruct Hx as [->| ->].
  - intros a. destruct (decide (t = a)) as [->|]; [rewrite status_same|by rewrite status_other].
    by destruct Hx as [->| ->].
  - intros u Hu. by apply (wf_woken s Hw), Hsub.
Qed.

(** A change of a processor that keeps its queue and its thread, outside [schedule] *)
Lemma set_cpu_wf s n c :
  smp_wf s → (n < ncpu)%nat → scheduler c = scheduler (cpus s n) → runq c = runq (cpus s n) →
  rthread c = rthread (cpus s n) → saved_flags c < K_SPACE_END →
  phases s n = Running ∨ preempt_on c = preempt_on (cpus s n) → smp_wf (set_cpu n c s).
Proof.
  intros Hw Hn E1 E2 E3 E4 E5.
  apply (wf_ext (set_phase n (phases s n) (set_sts (sts s) (set_cpu n c s)))); try done.
  { intros m. cbn. by at_cpu n m. }
  pose proof (wf_current s Hw n Hn) as Hc. apply wf_update; [done..|].
  split; rewrite ?E1, ?E2, ?E3; try done; try (by apply Hw).
  - by right; left.
  - unfold current_ok in *. destruct (phases s n) as [|[x|]|]; rewrite ?E2, ?E3; [done|..];
      destruct E5 as [E5| ->]; try done.
    destruct Hc as (Hv&?&?&?&Hq). split_and!; try done; [unfold valid_pos in *; by rewrite E2|].
    destruct Hq as [?|Hq]; [by left|right]. intros m Hm. cbn. at_cpu n m; [rewrite E2|]; by apply Hq.
  - intros t Ht Hr. destruct (decide (t = rthread (cpus s n))) as [->|Hne]; [|by left].
    right. split; [done|]. destruct (is_polling (phases s n)) eqn:Hp; [|done].
    by destruct (polling_not_running s n Hw Hn Hp).
Qed.

Lemma act_wf l s s' : smp_wf s → act l s = Some s' → smp_wf s'.
Proof.
  intros Hw. destruct l as [n|n|n|n|n|n sec|n t node|n freed last|t|t|n on|n f]; cbn [act].
  - case_decide as Hn; [|done]. intros E. destruct (tick_wf s n Hw Hn) as (s1&E1&Hw1). congruence.
  - case_decide as Hn; [|done]. by apply poll_wf.
  - case_decide as Hn; [|done]. destruct Hn as [Hn Hp]. intros [= <-].
    pose proof (wf_current s Hw n Hn) as Hc. rewrite Hp in Hc. cbn [current_ok] in Hc.
    apply (wf_ext (set_phase n Running (set_sts (sts s) (set_cpu n (preempt_enable (cpus s n)) s)))); try done.
    apply wf_update; [done..|]. split; try done; try (by apply Hw); [by right; left|apply Hc|].
    intros t Ht Hr. destruct (decide (t = rthread (cpus s n))) as [->|Hne]; [by right|by left].
  - case_decide as Hn; [|done]. destruct Hn as [Hn Hp]. by apply enter_wf.
  - case_decide as Hn; [|done]. destruct Hn as [Hn Hp]. intros [= <-].
    pose proof (wf_current s Hw n Hn) as Hc. rewrite Hp in Hc. destruct (wf_thread s Hw n _ Hn Hc).
    apply set_status_wf; auto.
  - case_decide as Hn; [|done]. destruct Hn as [Hn Hp]. cbn [pause_set]. intros [= <-].
    pose proof (wf_current s Hw n Hn) as Hc. rewrite Hp in Hc. destruct (wf_thread s Hw n _ Hn Hc).
    apply (set_status_wf s (rthread (cpus s n)) T_BLOCKED _ (woken s) (now s)); auto.
  - case_decide as Hn; [|done]. destruct Hn as ([Hn Hp]&Hk&Hi). intros [= <-]. by apply spawn_wf.
  - case_decide as Hn; [|done]. destruct Hn as [Hn Hp]. by apply finish_wf.
  - case_decide as Hn; [|done]. destruct Hn as [Hk Hb]. intros [= <-].
    apply (wf_status s (sts s) (als s)); try done. intros u [->|Hu]%elem_of_cons; [by rewrite Hb|by apply Hw].
  - destruct (take_out t (woken s)) as [w|] eqn:Ew; [|done]. intros [= <-].
    destruct (wf_woken s Hw t (take_out_elem _ _ _ Ew)).
    apply (set_status_wf s t T_READY (als s) w (now s)); auto. by eapply take_out_subset.
  - case_decide as Hn; [|done]. destruct Hn as [Hn Hp]. intros [= <-].
    apply set_cpu_wf; try done; [by apply (wf_flags s Hw)|by left].
  - case_decide as Hn; [|done]. destruct Hn as (Hn&_&Hf). intros [= <-].
    apply set_cpu_wf; try done. by right.
Qed.

Lemma run_wf ls : ∀ s s', smp_wf s → run ls s = Some s' → smp_wf s'.
Proof.
  induction ls as [|l ls IH]; intros s s' Hw E; cbn in E; [by injection E as <-|].
  destruct (act l s) as [s1|] eqn:E1; [|done]. apply (IH s1); [by eapply act_wf|done].
Qed.

(** The processors in [init_sched], before any thread runs: some threads are queued and ready. *)
Record at_start (s : smp) : Prop := {
  as_cpu : ∀ n, (n < ncpu)%nat → scheduler (cpus s n) = SCHED_RR ∧ rthread (cpus s n) = NULL ∧
             preempt_on (cpus s n) = false ∧ phases s n = Polling None ∧ 0 ≤ saved_flags (cpus s n) < K_SPACE_END;
  as_queue : ∀ n, (n < ncpu)%nat → NoDup (runq (cpus s n)) ∧
               ∀ t, t ∈ runq (cpus s n) → K_SPACE_END ≤ t ∧ sts s t = T_READY;
  as_disjoint : ∀ n m t, (n < ncpu)%nat → (m < ncpu)%nat → t ∈ runq (cpus s n) → t ∈ runq (cpus s m) → n = m;
  as_status : (∀ t, sts s t ≠ T_RUNNING) ∧ (∀ a, a < K_SPACE_END → sts s a ≠ T_READY);
  as_woken : woken s = [];
}.

Lemma start_wf s : at_start s → smp_wf s.
Proof.
  intros [Hc Hq Hd [Hr Hl] Hwk]. split.
  - intros n Hn. by apply Hc.
  - intros n Hn. by apply Hq.
  - intros n t Hn Ht. destruct (proj2 (Hq n Hn) t Ht) as [? ->]. done.
  - done.
  - intros n Hn. destruct (Hc n Hn) as (_&E&Hp&->&_). by split.
  - intros n m Hn Hm _ Hne. by destruct (Hc n Hn) as (_&E&_).
  - intros t _ Ht. by destruct (Hr t).
  - intros a Ha. split; [by apply Hl|by apply Hr].
  - intros n Hn. apply Hc. done.
  - rewrite Hwk. intros t Ht. by apply elem_of_nil in Ht.
Qed.
End System.

(** ** Properties *)


(** Two processors; two threads on the first, one on the second. *)
Definition thr_a : Z := 0x1000000.
Definition thr_b : Z := 0x1001000.
Definition thr_c : Z := 0x1002000.
Definition demo_smp : smp :=
  Smp 0 (λ n, CpuState (Z.of_nat n) (n =? 0)%nat false 0x202
               (match n with O => [thr_a; thr_b] | S O => [thr_c] | _ => [] end) NULL SCHED_RR)
    (λ t, if bool_decide (t ∈ [thr_a; thr_b; thr_c]) then T_READY else T_INIT)
    (λ _, alarm_reset) (λ _, Polling None) [].

Lemma demo_smp_start : at_start 2 demo_smp.
Proof.
  split.
  - intros n _. by split_and!.
  - intros [|[|n]] Hn; [..|lia]; cbn; (split; [by apply (bool_decide_unpack _)|]); intros t Ht;
      (split; [|rewrite bool_decide_eq_true_2; set_solver]);
      apply list_elem_of_In in Ht; cbn in Ht; unfold thr_a, thr_b, thr_c, K_SPACE_END in *; lia.
  - intros [|[|n]] [|[|m]] t Hn Hm H1%list_elem_of_In H2%list_elem_of_In; cbn in H1, H2;
      unfold thr_a, thr_b, thr_c in *; lia.
  - split; [intros t; cbn; by case_bool_decide|]. intros a Ha. cbn. rewrite bool_decide_eq_false_2; [done|].
    rewrite !not_elem_of_cons. unfold thr_a, thr_b, thr_c, K_SPACE_END in *. split_and!; lia || apply not_elem_of_nil.
  - done.
Qed.

Definition demo_run : list label :=
  [Poll 0; Switched 0; Poll 1; Switched 1; Sleep 1; Check thr_c; Tick 0; Spawn 0 0x1003000 8;
   Yield 0; Wake thr_c; Poll 0; Switched 0; Finish 0 OK false; Tick 1; Poll 0].

Lemma demo_run_runs : match run 2 true demo_run demo_smp with Some s => rthread (cpus s 0%nat) | None => 0 end = thr_a.
Proof. vm_compute. reflexivity. Qed.

