(* ===== verification/SmpLive.v ===== *)
(** * Progress on several processors

    The rounds of the polling loop take the cursor of a processor around its run queue, one node
    at a time, whether or not threads are chosen on the way. So a thread that is ready on a
    queue is reached after at most one lap, whatever the other threads and processors do; only
    a thread that ends on the same processor sends the cursor back to the front. With the
    alarms this gives the same for a thread that sleeps until an alarm. *)
From S2P Require Import Prelude Threads Timer Sched SchedProofs Paging Exit Smp.

Section Progress.
Context (ncpu : nat) (ismp : bool).
#[local] Abbreviation smp_wf := (smp_wf ncpu).
#[local] Abbreviation act := (act ncpu ismp).
#[local] Abbreviation run := (run ncpu ismp).

(** ** The cursor *)

(** The place of the cursor, in the loop or before the next one *)
Definition cursor (c : cpu_state_t) (p : phase) : option pos :=
  match p with Polling tl => tl | _ => Some (find_thread_in_rq (rthread c) c) end.

(** The index of the node that is visited next, not reduced by the length of the queue *)
Definition next_index (s : smp) (n : nat) : nat :=
  match cursor (cpus s n) (phases s n) with Some (AtNode i) => S i | _ => 0 end.

Lemma next_index_ext s s' n :
  runq (cpus s' n) = runq (cpus s n) → rthread (cpus s' n) = rthread (cpus s n) →
  phases s' n = phases s n → next_index s' n = next_index s n.
Proof.
  intros E1 E2 E3. unfold next_index, cursor. rewrite E3, E2. unfold find_thread_in_rq. by rewrite E1.
Qed.

(** The queue is not touched, and the cursor stays. *)
Definition still (s s' : smp) (n : nat) : Prop :=
  runq (cpus s' n) = runq (cpus s n) ∧ next_index s' n = next_index s n.

Lemma still_ext s s' n :
  runq (cpus s' n) = runq (cpus s n) → rthread (cpus s' n) = rthread (cpus s n) →
  phases s' n = phases s n → still s s' n.
Proof. intros E1 E2 E3. split; [done|by apply next_index_ext]. Qed.

Lemma still_trans s1 s2 s3 n : still s1 s2 n → still s2 s3 n → still s1 s3 n.
Proof. intros [? ?] [? ?]. split; congruence. Qed.

(** [schedule()] up to the loop *)
Lemma enter_spec m s s' :
  enter m s = Some s' →
  cpus s' = <[m := preempt_disable (cpus s m)]> (cpus s) ∧
  sts s' = demote (rthread (cpus s m)) (sts s) ∧ als s' = als s ∧ now s' = now s ∧ woken s' = woken s ∧
  phases s' = <[m := Polling (if negb (rthread (cpus s m) =? NULL)
                              then Some (find_thread_in_rq (rthread (cpus s m)) (cpus s m)) else None)]> (phases s).
Proof. unfold enter. case_decide; [|done]. by intros [= <-]. Qed.

Lemma running_thread s n :
  smp_wf s → (n < ncpu)%nat → is_polling (phases s n) = false →
  rthread (cpus s n) ∈ runq (cpus s n) ∧ K_SPACE_END ≤ rthread (cpus s n) ∧ rthread (cpus s n) ≠ NULL.
Proof.
  intros Hw Hn Hp. pose proof (wf_current _ s Hw n Hn) as Hc. unfold current_ok in Hc.
  assert (Hin : rthread (cpus s n) ∈ runq (cpus s n)) by (destruct (phases s n) as [|[x|]|]; done || apply Hc).
  destruct (wf_thread _ s Hw n _ Hn Hin). split_and!; try done. unfold K_SPACE_END, NULL in *. lia.
Qed.

Lemma enter_still s m s' n :
  smp_wf s → (m < ncpu)%nat → phases s m = Running → enter m s = Some s' → still s s' n.
Proof.
  intros Hw Hm Hp (Ec&_&_&_&_&Ep)%enter_spec.
  destruct (running_thread s m Hw Hm) as (_&_&Hne0); [by rewrite Hp|].
  destruct (decide (m = n)) as [->|Hne].
  - split; [by rewrite Ec, fn_lookup_insert|]. unfold next_index, cursor.
    rewrite Ec, Ep, !fn_lookup_insert, Hp, (proj2 (Z.eqb_neq _ _)) by done. done.
  - apply still_ext; rewrite ?Ec, ?Ep, ?fn_lookup_insert_ne by done; done.
Qed.

(** The timer interrupt *)
Lemma tick_parts s m s' :
  smp_wf s → (m < ncpu)%nat → tick m s = Some s' →
  ∃ s1, smp_wf s1 ∧ cpus s1 = cpus s ∧ phases s1 = phases s ∧
    now s1 = (if flag_bsp (cpus s m) then u32 (now s + 1) else now s) ∧
    (∀ u, als s1 u = (if decide (alarm_due (set_now (now s1) s) m u) then alarm_unset (als s u) else als s u) ∧
          sts s1 u = (if decide (alarm_due (set_now (now s1) s) m u) then T_READY else sts s u)) ∧
    (s' = s1 ∨ phases s m = Running ∧ enter m s1 = Some s').
Proof.
  intros Hw Hm E. destruct (tick_spec ncpu s m Hw Hm) as (s1&E1&Hw1&E2). rewrite E2 in E.
  assert (Hw0 : smp_wf (set_now (if flag_bsp (cpus s m) then u32 (now s + 1) else now s) s))
    by (by apply (wf_ext _ s)).
  destruct (check_alarms_wf ncpu _ m Hw0 Hm) as (s2&E3&_&Hnow&Hcp&Hph&_&Hal). rewrite E1 in E3. injection E3 as <-.
  exists s1. cbn [set_now now cpus phases] in Hnow, Hcp, Hph. rewrite Hnow.
  split; [done|]. split; [done|]. split; [done|]. split; [done|]. split; [exact Hal|].
  destruct (HZ_EQ _ _ && preempt_on (cpus s m)) eqn:Hb; [right|left; congruence].
  apply andb_prop in Hb as [_ Hpre]. split; [by apply (preemptible_running ncpu)|done].
Qed.

(** One round: the node at the next index is visited; its thread is chosen when it is ready. *)
Lemma poll_visits s n s' :
  smp_wf s → (n < ncpu)%nat → poll n s = Some s' → runq (cpus s n) ≠ [] →
  let j := (next_index s n mod length (runq (cpus s n)))%nat in
  ∃ t, runq (cpus s n) !! j = Some t ∧ is_polling (phases s n) = true ∧
    runq (cpus s' n) = runq (cpus s n) ∧ next_index s' n = S j ∧ als s' = als s ∧ now s' = now s ∧
    (∀ m, m ≠ n → cpus s' m = cpus s m ∧ phases s' m = phases s m) ∧
    (sts s t = T_READY ∧ rthread (cpus s' n) = t ∧ phases s' n = Switching ∧
       sts s' = set_thread_status t T_RUNNING (sts s) ∨
     sts s t ≠ T_READY ∧ is_polling (phases s' n) = true ∧ sts s' = sts s).
Proof.
  intros Hw Hn E Hne j. unfold poll in E. destruct (phases s n) as [|tl|] eqn:Hp; [done| |done].
  pose proof (wf_current _ s Hw n Hn) as Hc. rewrite Hp in Hc.
  assert (Hj : (j < length (runq (cpus s n)))%nat) by (apply Nat.mod_upper_bound; by destruct (runq (cpus s n))).
  destruct (lookup_lt_is_Some_2 _ _ Hj) as [t Ht].
  assert (Hr : ∃ c', poll_round (cpus s n) tl (sts s) =
      (c', Some (AtNode j), if bool_decide (sts s t = T_READY) then Some t else None) ∧
      runq c' = runq (cpus s n)).
  { unfold poll_round. destruct tl as [p|]; cbn [current_ok] in Hc.
    - destruct Hc as (Hv&_&Hk&_).
      rewrite (proj2 (Z.eqb_neq _ _)) by (unfold K_SPACE_END, NULL in *; lia). cbn [negb].
      rewrite (advance_pos _ p (next_index s n)); [|done|].
      + fold j. cbn [threadp]. rewrite nth_lookup, Ht. by eexists.
      + unfold next_index, cursor. rewrite Hp. destruct p; [done|by split].
    - destruct Hc as [E0 _]. rewrite E0. cbn [Z.eqb NULL negb].
      assert (Ej : j = 0%nat).
      { subst j. unfold next_index, cursor. rewrite Hp. by rewrite Nat.Div0.mod_0_l. }
      rewrite Ej in *. destruct (runq (cpus s n)) as [|u l] eqn:Hq; [done|]. injection Ht as ->.
      cbn [threadp set_rthread runq]. rewrite Hq. cbn [nth]. eexists. split; [done|]. done. }
  destruct Hr as (c'&Hr&Hq'). rewrite Hr in E. exists t. split; [done|]. split; [done|].
  case_bool_decide as Hrd; injection E as <-; cbn [set_phase set_sts set_cpu cpus phases sts als now].
  - rewrite !fn_lookup_insert. cbn [set_rthread runq rthread]. split; [done|]. split.
    { unfold next_index, cursor. cbn [set_phase set_sts set_cpu cpus phases]. rewrite !fn_lookup_insert.
      unfold find_thread_in_rq. cbn [set_rthread runq rthread]. rewrite Hq'.
      rewrite (find_thread_from_spec _ 0 j t); [done|by apply Hw|done]. }
    split; [done|]. split; [done|]. split; [|by left]. intros m Hm. by rewrite !fn_lookup_insert_ne by done.
  - rewrite !fn_lookup_insert. split; [done|]. split.
    { unfold next_index, cursor. cbn [set_phase set_cpu cpus phases]. by rewrite !fn_lookup_insert. }
    split; [done|]. split; [done|]. split; [|by right]. intros m Hm. by rewrite !fn_lookup_insert_ne by done.
Qed.

(** The end of a thread: it leaves the queue, and the cursor goes to the front. *)
Lemma finish_spec s n freed last s' :
  smp_wf s → (n < ncpu)%nat → phases s n = Running → finish n freed last s = Some s' →
  (∀ t, t ∈ runq (cpus s' n) ↔ t ∈ runq (cpus s n) ∧ t ≠ rthread (cpus s n)) ∧
  (length (runq (cpus s' n)) ≤ length (runq (cpus s n)))%nat ∧
  next_index s' n = 0%nat ∧ is_polling (phases s' n) = true ∧ als s' = als s ∧ now s' = now s ∧
  (∀ m, m ≠ n → cpus s' m = cpus s m ∧ phases s' m = phases s m) ∧
  (∀ a, K_SPACE_END ≤ a → a ≠ rthread (cpus s n) → sts s' a = sts s a).
Proof.
  intros Hw Hn Hp E. destruct (running_thread s n Hw Hn) as (Hc&Hk&Hnn); [by rewrite Hp|].
  pose proof (wf_nodup _ s Hw n Hn) as Hnd.
  unfold finish, clean_thread_sched, remove_thread_from_rq, __remove_thread_from_rq, get_curr_thread in E.
  change (rthread (preempt_disable (cpus s n))) with (rthread (cpus s n)) in E.
  apply list_elem_of_lookup in Hc as [i Hc]. unfold find_thread_in_rq in E.
  change (runq (preempt_disable (cpus s n))) with (runq (cpus s n)) in E.
  rewrite (find_thread_from_spec _ 0 i _ Hnd Hc) in E. cbn [Nat.add] in E.
  set (q := take i (runq (cpus s n)) ++ drop (S i) (runq (cpus s n))) in *.
  assert (Hq : ∀ x, x ∈ q ↔ x ∈ runq (cpus s n) ∧ x ≠ rthread (cpus s n)) by (by apply remove_nth).
  assert (Hlen : (length q ≤ length (runq (cpus s n)))%nat).
  { unfold q. rewrite length_app, length_take, length_drop. lia. }
  assert (Hmain : ∀ c', runq c' = q → rthread c' = NULL ∨ rthread c' = rthread (cpus s n) →
    enter n (set_cpu n c' (set_sts (set_thread_status (rthread (cpus s n)) T_COMPLETE (sts s)) s)) = Some s' →
    (∀ t, t ∈ runq (cpus s' n) ↔ t ∈ q) ∧ (length (runq (cpus s' n)) ≤ length q)%nat ∧
    next_index s' n = 0%nat ∧ is_polling (phases s' n) = true ∧ als s' = als s ∧ now s' = now s ∧
    (∀ m, m ≠ n → cpus s' m = cpus s m ∧ phases s' m = phases s m) ∧
    (∀ a, K_SPACE_END ≤ a → a ≠ rthread (cpus s n) → sts s' a = sts s a)).
  { intros c' E2 E3 (Ec&Es&Ea&En&_&Ep)%enter_spec. cbn [set_cpu set_sts cpus sts als phases now] in *.
    rewrite fn_lookup_insert in Ec, Es, Ep. rewrite Ec, Ep, !fn_lookup_insert. cbn [preempt_disable set_preempt runq].
    rewrite E2. split; [done|]. split; [done|]. split.
    - unfold next_index, cursor. rewrite Ep, fn_lookup_insert.
      destruct (rthread c' =? NULL) eqn:E0; cbn [negb]; [done|]. apply Z.eqb_neq in E0. destruct E3 as [?|E3]; [done|].
      unfold find_thread_in_rq. rewrite E2, E3, find_thread_from_none; [done|]. rewrite Hq. tauto.
    - split; [done|]. split; [done|]. split; [done|]. split.
      + intros m Hm. by rewrite !fn_lookup_insert_ne by done.
      + intros a Ha Hne. rewrite Es, demote_spec, decide_False; [by apply status_other|].
        intros [-> _]. destruct E3 as [E3|E3]; [|done]. rewrite E3 in Ha. unfold K_SPACE_END, NULL in Ha. lia. }
  destruct (negb (freed =? OK)), last; cbn [mbind res_bind] in E; apply Hmain in E as (Q1&Q2&Q3); auto;
    (split; [intros t; by rewrite Q1|]); (split; [lia|done]).
Qed.

Definition moved (l : label) (s s' : smp) (n : nat) : Prop :=
  match l with
  | Poll m =>
      if decide (m = n)
      then runq (cpus s' n) = runq (cpus s n) ∧
           next_index s' n = S (next_index s n mod length (runq (cpus s n)))
      else still s s' n
  | Spawn _ _ _ =>
      next_index s' n = next_index s n ∧
      (runq (cpus s' n) = runq (cpus s n) ∨ ∃ u, runq (cpus s' n) = runq (cpus s n) ++ [u])
  | Finish m _ _ =>
      if decide (m = n)
      then next_index s' n = 0%nat ∧ (length (runq (cpus s' n)) ≤ length (runq (cpus s n)))%nat
      else still s s' n
  | _ => still s s' n
  end.

Lemma find_thread_app l l' k t : t ∈ l → find_thread_from (l ++ l') k t = find_thread_from l k t.
Proof.
  revert k. induction l as [|u l IH]; intros k Ht; [by apply elem_of_nil in Ht|].
  cbn. destruct (Z.eqb_spec u t); [done|]. apply IH. by apply elem_of_cons in Ht as [->|].
Qed.

Lemma spawn_moved s m t node n :
  smp_wf s → (n < ncpu)%nat → moved (Spawn m t node) s (spawn ncpu ismp m t node s) n.
Proof.
  intros Hw Hn. cbn [moved]. unfold spawn, add_thread_to_rq. set (k := placed_on _ _ _ _).
  destruct (node =? NULL); cbn [set_cpu set_sts cpus].
  { destruct (decide (k = n)) as [->|Hne].
    - split; [|left; by rewrite fn_lookup_insert]. apply next_index_ext; cbn; by rewrite ?fn_lookup_insert.
    - split; [|left; by rewrite fn_lookup_insert_ne]. apply next_index_ext; cbn; by rewrite ?fn_lookup_insert_ne. }
  destruct (decide (k = n)) as [->|Hne].
  - rewrite fn_lookup_insert. split; [|right; by exists t].
    unfold next_index, cursor. cbn [set_cpu set_sts cpus phases]. rewrite fn_lookup_insert.
    set (c := set_runq _ _).
    assert (Hf : is_polling (phases s n) = false →
      find_thread_in_rq (rthread c) c = find_thread_in_rq (rthread (cpus s n)) (cpus s n)).
    { intros Hp. apply find_thread_app. by apply (running_thread s n Hw Hn). }
    destruct (phases s n); [|done|]; by rewrite Hf.
  - split; [|left; by rewrite fn_lookup_insert_ne]. apply next_index_ext; cbn; by rewrite ?fn_lookup_insert_ne.
Qed.

Lemma act_moved l s s' n :
  smp_wf s → (n < ncpu)%nat → runq (cpus s n) ≠ [] → act l s = Some s' → moved l s s' n.
Proof.
  intros Hw Hn Hq. destruct l as [m|m|m|m|m|m sec|m t node|m freed last|t|t|m on|m f]; cbn [Smp.act].
  - case_decide as Hm; [|done]. intros E. destruct (tick_parts s m s' Hw Hm E) as (s1&Hw1&Ec&Ep&_&_&Hs').
    assert (H1 : still s s1 n) by (apply still_ext; by rewrite ?Ec, ?Ep).
    destruct Hs' as [->|[Hr He]]; [done|]. eapply still_trans; [exact H1|].
    apply (enter_still s1 m); try done. by rewrite Ep.
  - case_decide as Hm; [|done]. intros E. cbn [moved]. destruct (decide (m = n)) as [->|Hne].
    + destruct (poll_visits s n s' Hw Hn E Hq) as (t&_&_&H1&H2&_). done.
    + unfold poll in E. destruct (phases s m); try done. destruct (poll_round _ _ _) as [[c tl] [u|]];
        injection E as <-; apply still_ext; cbn; by rewrite ?fn_lookup_insert_ne by done.
  - case_decide as Hm; [|done]. destruct Hm as [Hm Hp]. intros [= <-]. cbn [moved].
    destruct (decide (m = n)) as [->|Hne].
    + split; cbn; [by rewrite fn_lookup_insert|]. unfold next_index, cursor.
      cbn [set_phase set_cpu cpus phases]. rewrite !fn_lookup_insert, Hp. done.
    + apply still_ext; cbn; by rewrite ?fn_lookup_insert_ne by done.
  - case_decide as Hm; [|done]. destruct Hm as [Hm Hp]. intros E. by apply (enter_still s m).
  - case_decide; [|done]. intros [= <-]. by apply still_ext.
  - case_decide; [|done]. intros [= <-]. by apply still_ext.
  - case_decide; [|done]. intros [= <-]. by apply spawn_moved.
  - case_decide as Hm; [|done]. destruct Hm as [Hm Hp]. intros E. cbn [moved].
    destruct (finish_spec s m freed last s' Hw Hm Hp E) as (_&F2&F3&_&_&_&Fo&_).
    destruct (decide (m = n)) as [->|Hne]; [done|].
    destruct (Fo n) as [E1 E2]; [done|]. apply still_ext; by rewrite ?E1, ?E2.
  - case_decide; [|done]. intros [= <-]. by apply still_ext.
  - destruct (take_out _ _); [|done]. intros [= <-]. by apply still_ext.
  - case_decide as Hm; [|done]. destruct Hm as [Hm Hp]. intros [= <-].
    destruct (decide (m = n)) as [->|Hne]; apply still_ext; cbn; by rewrite ?fn_lookup_insert, ?fn_lookup_insert_ne by done.
  - case_decide as Hm; [|done]. intros [= <-].
    destruct (decide (m = n)) as [->|Hne]; apply still_ext; cbn; by rewrite ?fn_lookup_insert, ?fn_lookup_insert_ne by done.
Qed.

(** ** Threads that are not running *)

(** [t] is on the queue of processor [n], ready or asleep, and off the processor. *)
Definition parked (n : nat) (t : Z) (s : smp) : Prop :=
  t ∈ runq (cpus s n) ∧ (sts s t = T_READY ∨ sts s t = T_BLOCKED) ∧
  (rthread (cpus s n) ≠ t ∨ is_polling (phases s n) = true).

(** Processor [n] has just chosen [t], and switches to it. *)
Definition switches_to (n : nat) (t : Z) (s : smp) : Prop :=
  rthread (cpus s n) = t ∧ phases s n = Switching ∧ sts s t = T_RUNNING.

(** Its status and its alarm are as before, or it is ready. *)
Definition kept_or_ready (t : Z) (s s' : smp) : Prop :=
  sts s' t = T_READY ∨ sts s' t = sts s t ∧ als s' t = als s t.

Lemma parked_same s s' n t :
  parked n t s → runq (cpus s' n) = runq (cpus s n) → rthread (cpus s' n) = rthread (cpus s n) →
  phases s' n = phases s n → kept_or_ready t s s' → parked n t s'.
Proof.
  intros (H1&H2&H3) E1 E2 E3 Hk. unfold parked. rewrite E1, E2, E3. split_and!; [done| |done].
  destruct Hk as [?|[-> _]]; auto.
Qed.

Lemma parked_enter s m s' n t :
  parked n t s → enter m s = Some s' → parked n t s' ∧ sts s' t = sts s t ∧ als s' t = als s t.
Proof.
  intros (H1&H2&H3) (Ec&Es&Ea&_&_&Ep)%enter_spec.
  assert (Est : sts s' t = sts s t).
  { rewrite Es, demote_spec. case_decide as Hd; [|done]. destruct Hd as [<- Hd]. destruct H2; congruence. }
  split; [|by rewrite Ea]. unfold parked. rewrite Est, Ec, Ep.
  destruct (decide (m = n)) as [->|Hne]; [rewrite !fn_lookup_insert|rewrite !fn_lookup_insert_ne by done]; auto.
Qed.

(** The thread that runs on a processor is not a parked one. *)
Lemma parked_other s n m t :
  smp_wf s → (n < ncpu)%nat → (m < ncpu)%nat → parked n t s → is_polling (phases s m) = false →
  rthread (cpus s m) ≠ t.
Proof.
  intros Hw Hn Hm (H1&_&H3) Hp E. destruct (running_thread s m Hw Hm Hp) as (Hin&_).
  rewrite E in Hin. assert (m = n) as -> by (by eapply (wf_disjoint _ s Hw)).
  destruct H3 as [?|?]; congruence.
Qed.

Lemma parked_poll s n m t s' :
  smp_wf s → (n < ncpu)%nat → (m < ncpu)%nat → parked n t s → poll m s = Some s' →
  (m = n ∧ sts s t = T_READY ∧ switches_to n t s') ∨
  parked n t s' ∧ kept_or_ready t s s'.
Proof.
  intros Hw Hn Hm Hpk E. pose proof Hpk as (H1&H2&H3). destruct (decide (m = n)) as [->|Hne].
  - assert (Hq : runq (cpus s n) ≠ []) by (intros E0; rewrite E0 in H1; by apply elem_of_nil in H1).
    destruct (poll_visits s n s' Hw Hn E Hq) as (u&Hu&_&Eq&_&Ea&_&_&Hc).
    destruct Hc as [(Hr&Er&Ep&Es)|(Hr&Ep&Es)].
    + destruct (decide (u = t)) as [->|Hut].
      * left. split; [done|]. split; [done|]. split_and!; try done. by rewrite Es, status_same.
      * right. assert (Est : sts s' t = sts s t) by (rewrite Es; by apply status_other).
        split; [|right; by rewrite Ea]. unfold parked. rewrite Eq, Est, Er. auto.
    + right. split; [|right; by rewrite Es, Ea]. unfold parked. rewrite Eq, Es. auto.
  - right. unfold poll in E. destruct (phases s m) as [|tl|] eqn:Hp; [done| |done].
    pose proof (poll_round_spec ncpu s m tl Hw Hm Hp) as Hr. destruct (poll_round _ _ _) as [[c tl'] r].
    assert (Hk : kept_or_ready t s s').
    { right. destruct Hr as [??|??|c j u Hj _]; [by injection E as <-..|].
      case_bool_decide; injection E as <-; [|done]. split; [|done]. apply status_other. intros ->.
      apply list_elem_of_lookup_2 in Hj. apply Hne. by eapply (wf_disjoint _ s Hw). }
    split; [|done]. destruct r; injection E as <-; apply (parked_same s); try done;
      cbn; by rewrite fn_lookup_insert_ne by done.
Qed.

Lemma parked_spawn s n m t u node :
  smp_wf s → (n < ncpu)%nat → parked n t s → sts s u = T_INIT →
  parked n t (spawn ncpu ismp m u node s) ∧ kept_or_ready t s (spawn ncpu ismp m u node s).
Proof.
  intros Hw Hn (H1&H2&H3) Hu. assert (Hut : u ≠ t) by (intros ->; destruct H2; congruence).
  unfold spawn, add_thread_to_rq. set (k := placed_on _ _ _ _).
  destruct (node =? NULL); (split; [|right; (split; [|done]); cbn; rewrite ?status_other by done; done]);
    unfold parked; cbn [set_cpu set_sts cpus sts phases];
    (destruct (decide (k = n)) as [->|]; [rewrite fn_lookup_insert|rewrite fn_lookup_insert_ne by done]);
    cbn [set_runq runq rthread]; rewrite ?status_other by done; rewrite ?elem_of_app; auto.
Qed.

Lemma act_parked l s s' n t :
  smp_wf s → (n < ncpu)%nat → parked n t s → act l s = Some s' →
  (l = Poll n ∧ sts s t = T_READY ∧ switches_to n t s') ∨
  parked n t s' ∧ kept_or_ready t s s'.
Proof.
  intros Hw Hn Hpk. assert (Hsame : kept_or_ready t s s) by (by right).
  destruct l as [m|m|m|m|m|m sec|m u node|m freed last|u|u|m on|m f]; cbn [Smp.act].
  - case_decide as Hm; [|done]. intros E. right.
    destruct (tick_parts s m s' Hw Hm E) as (s1&Hw1&Ec&Ep&_&Hal&Hs').
    assert (H1 : parked n t s1 ∧ kept_or_ready t s s1).
    { assert (Hk : kept_or_ready t s s1).
      { destruct (Hal t) as [Ea Es]. unfold kept_or_ready. case_decide; [by left|by right]. }
      split; [|done]. apply (parked_same s); by rewrite ?Ec, ?Ep. }
    destruct H1 as [Hp1 Hk1]. destruct Hs' as [->|[_ He]]; [done|].
    destruct (parked_enter s1 m s' n t Hp1 He) as (Hp2&E1&E2). split; [done|].
    unfold kept_or_ready. rewrite E1, E2. exact Hk1.
  - case_decide as Hm; [|done]. intros E. destruct (parked_poll s n m t s' Hw Hn Hm Hpk E) as [(->&?&?)|?]; auto.
  - case_decide as Hm; [|done]. destruct Hm as [Hm Hp]. intros [= <-]. right. split; [|done].
    pose proof Hpk as (H1&H2&H3). unfold parked. cbn [set_phase set_cpu cpus phases sts].
    destruct (decide (m = n)) as [->|Hne]; [rewrite !fn_lookup_insert|by rewrite !fn_lookup_insert_ne by done].
    split_and!; try done. left. apply (parked_other s n n t); try done. by rewrite Hp.
  - case_decide as Hm; [|done]. intros E. right. destruct (parked_enter s m s' n t Hpk E) as (?&?&?).
    split; [done|by right].
  - case_decide as Hm; [|done]. destruct Hm as [Hm Hp]. intros [= <-]. right.
    assert (Hk : kept_or_ready t s (set_sts (make_sleep (get_curr_thread (cpus s m)) (sts s)) s)).
    { right. split; [|done]. apply status_other. apply (parked_other s n m t); try done. by rewrite Hp. }
    split; [|done]. by apply (parked_same s).
  - case_decide as Hm; [|done]. destruct Hm as [Hm Hp]. cbn [pause_set]. intros [= <-]. right.
    assert (Hne : rthread (cpus s m) ≠ t) by (apply (parked_other s n m t); try done; by rewrite Hp).
    match goal with |- context [parked n t ?x] => assert (Hk : kept_or_ready t s x) end.
    { right. split; [by apply status_other|]. cbn. by apply fn_lookup_insert_ne. }
    split; [|done]. by apply (parked_same s).
  - case_decide as Hm; [|done]. destruct Hm as (_&_&Hi). intros [= <-]. right. by apply parked_spawn.
  - case_decide as Hm; [|done]. destruct Hm as [Hm Hp]. intros E. right.
    destruct (finish_spec s m freed last s' Hw Hm Hp E) as (F1&_&_&F4&F5&_&Fo&Fs).
    pose proof Hpk as (H1&H2&H3). pose proof (wf_thread _ s Hw n t Hn H1) as [Hk _].
    assert (Hne : t ≠ rthread (cpus s m)).
    { intros ->. by destruct (parked_other s n m _ Hw Hn Hm Hpk); [rewrite Hp|]. }
    assert (Hks : kept_or_ready t s s') by (right; by rewrite Fs, F5).
    split; [|done]. destruct (decide (m = n)) as [->|Hmn].
    + unfold parked. rewrite F1, F4, (Fs t Hk Hne). auto.
    + destruct (Fo n) as [E1 E2]; [done|]. apply (parked_same s); by rewrite ?E1, ?E2.
  - case_decide; [|done]. intros [= <-]. right. split; [by apply (parked_same s)|done].
  - destruct (take_out _ _) as [w|]; [|done]. intros [= <-]. right.
    match goal with |- context [parked n t ?x] => assert (Hk : kept_or_ready t s x) end.
    { unfold kept_or_ready. cbn. destruct (decide (u = t)) as [->|]; [left; by rewrite status_same|right].
      by rewrite status_other. }
    split; [|done]. by apply (parked_same s).
  - case_decide as Hm; [|done]. intros [= <-]. right. split; [|done].
    destruct (decide (m = n)) as [->|Hne]; apply (parked_same s); cbn;
      by rewrite ?fn_lookup_insert, ?fn_lookup_insert_ne by done.
  - case_decide as Hm; [|done]. intros [= <-]. right. split; [|done].
    destruct (decide (m = n)) as [->|Hne]; apply (parked_same s); cbn;
      by rewrite ?fn_lookup_insert, ?fn_lookup_insert_ne by done.
Qed.

(** ** The lap *)

(** The rounds before the cursor comes from the index [j] to the index [k] of a queue of length [len] *)
Definition dist (j k len : nat) : nat := if (j <=? k)%nat then (k - j)%nat else (k + len - j)%nat.

Definition count (f : label → bool) (ls : list label) : nat := length (List.filter f ls).
Definition is_poll (n : nat) (l : label) : bool := match l with Poll m => (m =? n)%nat | _ => false end.
Definition is_spawn (l : label) : bool := match l with Spawn _ _ _ => true | _ => false end.
Definition is_finish (n : nat) (l : label) : bool := match l with Finish m _ _ => (m =? n)%nat | _ => false end.

Lemma count_cons f l ls : count f (l :: ls) = ((if f l then 1 else 0) + count f ls)%nat.
Proof. unfold count. cbn. by destruct (f l). Qed.

Lemma next_index_le s n : smp_wf s → (n < ncpu)%nat → (next_index s n ≤ length (runq (cpus s n)))%nat.
Proof.
  intros Hw Hn. assert (Hv : ∀ p, valid_pos (cpus s n) p →
    (match p with AtNode i => S i | AtHead => 0 end ≤ length (runq (cpus s n)))%nat).
  { intros [|i]; cbn; lia. }
  unfold next_index, cursor. pose proof (wf_current _ s Hw n Hn) as Hc.
  destruct (phases s n) as [|[x|]|]; [|apply Hv, Hc|lia|]; apply Hv, find_thread_valid.
Qed.

Lemma dist_next j k len :
  (j ≤ len)%nat → (k < len)%nat → (j mod len)%nat ≠ k → S (dist (S (j mod len)) k len) = dist j k len.
Proof.
  intros Hj Hk Hne. unfold dist. destruct (decide (j = len)) as [->|Hjl].
  - rewrite Nat.Div0.mod_same in *. destruct (Nat.leb_spec 1 k), (Nat.leb_spec len k); lia.
  - rewrite Nat.mod_small in * by lia. destruct (Nat.leb_spec (S j) k), (Nat.leb_spec j k); lia.
Qed.

(** [t] was chosen on the way. *)
Definition chosen (n : nat) (t : Z) (ls : list label) (s : smp) : Prop :=
  ∃ ls1 ls2 s1, ls = ls1 ++ ls2 ∧ run ls1 s = Some s1 ∧ switches_to n t s1.

Lemma chosen_cons n t l ls s s1 : act l s = Some s1 → chosen n t ls s1 → chosen n t (l :: ls) s.
Proof. intros E (ls1&ls2&s2&->&E1&H). exists (l :: ls1), ls2, s2. cbn. by rewrite E. Qed.

(** One step towards a ready thread *)
Lemma act_closer l s s' n t k :
  smp_wf s → (n < ncpu)%nat → parked n t s → sts s t = T_READY → runq (cpus s n) !! k = Some t →
  act l s = Some s' → parked n t s' →
  let len := length (runq (cpus s n)) in let len' := length (runq (cpus s' n)) in
  let d := dist (next_index s n) k len in
  ∃ k', runq (cpus s' n) !! k' = Some t ∧
    let d' := dist (next_index s' n) k' len' in
    if is_poll n l then S d' = d ∧ len' = len
    else if is_spawn l then (d' ≤ S d)%nat ∧ (len' ≤ S len)%nat
    else if is_finish n l then (d' < len')%nat ∧ (len' ≤ len)%nat
    else d' = d ∧ len' = len.
Proof.
  intros Hw Hn Hpk Hrd Hk E Hpk'. cbn zeta. pose proof (lookup_lt_Some _ _ _ Hk) as Hkl.
  assert (Hq : runq (cpus s n) ≠ []) by (intros E0; rewrite E0 in Hk; done).
  pose proof (act_moved l s s' n Hw Hn Hq E) as Hm. pose proof (next_index_le s n Hw Hn) as Hle.
  assert (Hstill : still s s' n → ∃ k', runq (cpus s' n) !! k' = Some t ∧
    dist (next_index s' n) k' (length (runq (cpus s' n))) = dist (next_index s n) k (length (runq (cpus s n))) ∧
    length (runq (cpus s' n)) = length (runq (cpus s n))).
  { intros [-> ->]. by exists k. }
  destruct l as [m|m|m|m|m|m sec|m u node|m freed last|u|u|m on|m f]; cbn [moved is_poll is_spawn is_finish] in *; auto.
  - destruct (Nat.eqb_spec m n) as [->|Hne]; [|rewrite decide_False in Hm by done; auto].
    rewrite decide_True in Hm by done. destruct Hm as [Eq En]. exists k. rewrite Eq, En.
    split; [done|]. split; [|done]. apply dist_next; [done..|]. intros Ej.
    cbn [Smp.act] in E. rewrite decide_True in E by done.
    destruct (poll_visits s n s' Hw Hn E Hq) as (v&Hv&_&_&_&_&_&_&Hc). rewrite Ej, Hk in Hv. injection Hv as <-.
    destruct Hc as [(_&Er&Ep&_)|[? _]]; [|done]. destruct Hpk' as (_&_&[?|Hp]); [done|]. by rewrite Ep in Hp.
  - destruct Hm as [En Hm]. exists k. rewrite En. destruct Hm as [Eq|[v Eq]]; rewrite Eq.
    + split; [done|]. unfold dist. destruct (Nat.leb_spec (next_index s n) k); lia.
    + rewrite lookup_app_l, length_app by done. split; [done|]. cbn [length]. unfold dist.
      destruct (Nat.leb_spec (next_index s n) k); lia.
  - destruct (Nat.eqb_spec m n) as [->|Hne]; [|rewrite decide_False in Hm by done; auto].
    rewrite decide_True in Hm by done. destruct Hm as [-> Hl].
    destruct Hpk' as (Hin&_). apply list_elem_of_lookup in Hin as [k' Hk']. exists k'. split; [done|].
    split; [|done]. apply lookup_lt_Some in Hk'. unfold dist. cbn. lia.
Qed.

Lemma ready_is_chosen ls : ∀ s s' n t k L,
  smp_wf s → (n < ncpu)%nat → parked n t s → sts s t = T_READY → runq (cpus s n) !! k = Some t →
  run ls s = Some s' → (length (runq (cpus s n)) + count is_spawn ls ≤ L)%nat →
  (dist (next_index s n) k (length (runq (cpus s n))) + count is_spawn ls + L * count (is_finish n) ls
     < count (is_poll n) ls)%nat →
  chosen n t ls s.
Proof.
  induction ls as [|l ls IH]; intros s s' n t k L Hw Hn Hpk Hrd Hk Hrun HL Hd.
  { change (count (is_poll n) []) with 0%nat in Hd. lia. }
  cbn [Smp.run] in Hrun. destruct (act l s) as [s1|] eqn:E1; [|done]. cbn in Hrun.
  destruct (act_parked l s s1 n t Hw Hn Hpk E1) as [(->&_&Hsw)|[Hpk1 Hks]].
  { exists [Poll n], ls, s1. split; [done|]. split; [|done]. cbn [Smp.run]. by rewrite E1. }
  assert (Hrd1 : sts s1 t = T_READY) by (destruct Hks as [?|[? _]]; congruence).
  destruct (act_closer l s s1 n t k Hw Hn Hpk Hrd Hk E1 Hpk1) as (k'&Hk'&Hcl). cbn zeta in Hcl.
  apply (chosen_cons _ _ l ls s s1 E1). rewrite (count_cons is_spawn) in HL, Hd.
  rewrite (count_cons (is_finish n)), (count_cons (is_poll n)), Nat.mul_add_distr_l in Hd.
  apply (IH s1 s' n t k' L); try done; [by apply (act_wf ncpu ismp l s)|..];
    destruct (is_poll n l) eqn:B1, (is_spawn l) eqn:B2, (is_finish n l) eqn:B3; try (by destruct l);
    lia.
Qed.

Lemma dist_lt j k len : (j ≤ len)%nat → (k < len)%nat → (dist j k len < len)%nat.
Proof. intros Hj Hk. unfold dist. destruct (Nat.leb_spec j k); lia. Qed.

(** The rounds that bring the cursor to any node of the queue of [n] *)
Definition rounds_enough (n : nat) (s : smp) (ls : list label) : Prop :=
  ((length (runq (cpus s n)) + count is_spawn ls) * (1 + count (is_finish n) ls) + count is_spawn ls
     ≤ count (is_poll n) ls)%nat.

Lemma ready_thread_chosen ls s s' n t :
  smp_wf s → (n < ncpu)%nat → parked n t s → sts s t = T_READY → run ls s = Some s' →
  rounds_enough n s ls → chosen n t ls s.
Proof.
  intros Hw Hn Hpk Hrd Hrun Hr. pose proof Hpk as (Hin&_). apply list_elem_of_lookup in Hin as [k Hk].
  pose proof (dist_lt _ _ _ (next_index_le s n Hw Hn) (lookup_lt_Some _ _ _ Hk)) as Hd.
  apply (ready_is_chosen ls s s' n t k (length (runq (cpus s n)) + count is_spawn ls)); try done.
  unfold rounds_enough in Hr. rewrite Nat.mul_add_distr_l in Hr. lia.
Qed.

(** ** Asleep *)

(** The thread is ready, or asleep with the alarm [a]. *)
Definition ready_or_alarm (t : Z) (a : alarm_t) (s : smp) : Prop :=
  sts s t = T_READY ∨ sts s t = T_BLOCKED ∧ als s t = a.

Lemma run_labels_app ls1 ls2 s : run (ls1 ++ ls2) s = s1 ← run ls1 s; run ls2 s1.
Proof.
  revert s. induction ls1 as [|l ls IH]; intros s; [done|]. cbn [app Smp.run].
  destruct (act l s) as [s1|]; [apply IH|done].
Qed.

Lemma chosen_app n t ls1 ls2 s s1 :
  run ls1 s = Some s1 → chosen n t ls2 s1 → chosen n t (ls1 ++ ls2) s.
Proof.
  intros E (k1&k2&s2&->&E1&H). exists (ls1 ++ k1), k2, s2. rewrite app_assoc, run_labels_app, E. done.
Qed.

Lemma chosen_prefix n t ls1 ls2 s : chosen n t ls1 s → chosen n t (ls1 ++ ls2) s.
Proof. intros (k1&k2&s2&->&E1&H). exists k1, (k2 ++ ls2), s2. by rewrite app_assoc. Qed.

Lemma act_asleep l s s' n t a :
  smp_wf s → (n < ncpu)%nat → parked n t s → ready_or_alarm t a s → act l s = Some s' →
  switches_to n t s' ∨ parked n t s' ∧ ready_or_alarm t a s'.
Proof.
  intros Hw Hn Hpk Ha E. destruct (act_parked l s s' n t Hw Hn Hpk E) as [(_&_&?)|[Hpk' Hk]]; [by left|right].
  split; [done|]. destruct Hk as [?|[E1 E2]]; [by left|]. unfold ready_or_alarm. by rewrite E1, E2.
Qed.

Lemma run_asleep ls : ∀ s s' n t a,
  smp_wf s → (n < ncpu)%nat → parked n t s → ready_or_alarm t a s → run ls s = Some s' →
  chosen n t ls s ∨ parked n t s' ∧ ready_or_alarm t a s'.
Proof.
  induction ls as [|l ls IH]; intros s s' n t a Hw Hn Hpk Ha E; [injection E as <-; by right|].
  cbn [Smp.run] in E. destruct (act l s) as [s1|] eqn:E1; [|done]. cbn in E.
  destruct (act_asleep l s s1 n t a Hw Hn Hpk Ha E1) as [Hs|[Hpk1 Ha1]].
  - left. exists [l], ls, s1. split; [done|]. split; [|done]. cbn [Smp.run]. by rewrite E1.
  - destruct (IH s1 s' n t a) as [Hc|Hc]; try done; [by apply (act_wf ncpu ismp l s)| |by right].
    left. by eapply chosen_cons.
Qed.

(** The tick after which the alarm is due *)
Lemma tick_wakes s s' n t t0 d e :
  smp_wf s → (n < ncpu)%nat → parked n t s → ready_or_alarm t (alarm_set (u32 t0) d) s →
  act (Tick n) s = Some s' → now s' = u32 (t0 + e) → d < e ≤ d + 2147483648 →
  parked n t s' ∧ sts s' t = T_READY.
Proof.
  intros Hw Hn Hpk Ha E Hnow He.
  destruct (act_parked _ s s' n t Hw Hn Hpk E) as [(?&_)|[Hpk' Hk]]; [done|]. split; [done|].
  destruct Ha as [Hr|[Hb Ha]]; [destruct Hk as [?|[-> _]]; done|].
  cbn [Smp.act] in E. rewrite decide_True in E by done.
  destruct (tick_parts s n s' Hw Hn E) as (s1&_&_&_&_&Hal&Hs').
  destruct (Hal t) as [_ Hst]. rewrite decide_True in Hst.
  - destruct Hs' as [->|[_ Hen]]; [done|]. apply enter_spec in Hen as (_&Es&_).
    rewrite Es, demote_spec, Hst. by case_decide.
  - split; [apply Hpk|]. assert (now s1 = now s') as ->.
    { destruct Hs' as [->|[_ Hen]]; [done|]. by apply enter_spec in Hen as (_&_&_&->&_). }
    unfold due. cbn [set_now now als sts]. rewrite Hb, Ha, Hnow, alarm_set_check by lia.
    rewrite bool_decide_eq_true_2 by done. cbn. apply Z.ltb_lt. lia.
Qed.

(** [pause] *)
Lemma pause_parks s s' n sec :
  smp_wf s → in_thread ncpu n s → run [Pause n sec; Yield n] s = Some s' →
  let t := rthread (cpus s n) in
  parked n t s' ∧ sts s' t = T_BLOCKED ∧ als s' t = alarm_set (now s) (u32 (TICK_SEC * sec)).
Proof.
  intros Hw Hin E. pose proof Hin as [Hn Hp]. destruct (running_thread s n Hw Hn) as (Hq&_); [by rewrite Hp|].
  cbn [Smp.run] in E. cbn [Smp.act] in E. rewrite decide_True in E by done.
  cbn [pause_set mbind option_bind] in E. rewrite decide_True in E by done.
  destruct (enter _ _) as [s1|] eqn:He; [|done]. cbn in E. injection E as <-.
  apply enter_spec in He as (Ec&Es&Ea&_&_&Ep). cbn [set_als set_sts cpus sts als phases] in *.
  cbn zeta. unfold get_curr_thread in *. rewrite Ea, fn_lookup_insert.
  assert (Hst : sts s1 (rthread (cpus s n)) = T_BLOCKED).
  { rewrite Es, demote_spec. unfold make_sleep. rewrite status_same. by rewrite decide_False by (by intros [_ ?]). }
  split; [|done]. unfold parked. rewrite Hst, Ec, Ep, !fn_lookup_insert. auto.
Qed.
End Progress.

(** ** Properties *)

(** C7: no starvation on any number of processors. A ready thread on the queue of a processor is
    chosen once that processor has made as many rounds of its polling loop as its queue is
    long, over any number of calls of [schedule] and whatever all other threads and processors
    do in between. A thread that is started meanwhile may lengthen the lap, and a thread that
    ends on the same processor may start it anew: with these counted in, the bound is
    (length + started) * (1 + ended) + started rounds. *)
Theorem ready_thread_runs ncpu ismp ls0 s0 s ls s' n t :
  at_start ncpu s0 → run ncpu ismp ls0 s0 = Some s → (n < ncpu)%nat →
  t ∈ runq (cpus s n) → sts s t = T_READY → rthread (cpus s n) ≠ t →
  run ncpu ismp ls s = Some s' →
  ((length (runq (cpus s n)) + count is_spawn ls) * (1 + count (is_finish n) ls) + count is_spawn ls
     ≤ count (is_poll n) ls)%nat →
  ∃ ls1 ls2 s1, ls = ls1 ++ ls2 ∧ run ncpu ismp ls1 s = Some s1 ∧
    rthread (cpus s1 n) = t ∧ phases s1 n = Switching ∧ sts s1 t = T_RUNNING.
Proof.
  intros H0 Hr0 Hn Hin Hrd Hne Hr Hb.
  apply (ready_thread_chosen ncpu ismp ls s s' n t); try done.
  - apply (run_wf ncpu ismp ls0 s0); [by apply start_wf|done].
  - split_and!; auto.
Qed.

Lemma some_default {A} (d : A) (o : option A) :
  match o with Some _ => true | None => false end = true → o = Some (default d o).
Proof. by destruct o. Qed.

(** The first thread of the example runs; the second one is ready. *)
Definition first_runs : smp := default demo_smp (run 2 true [Poll 0; Switched 0] demo_smp).
Definition two_laps : list label := [Yield 0; Tick 1; Poll 0; Switched 0; Yield 0; Poll 1; Poll 0].
Definition two_later : smp := default demo_smp (run 2 true two_laps first_runs).

Lemma first_runs_run : run 2 true [Poll 0; Switched 0] demo_smp = Some first_runs.
Proof. apply some_default. vm_compute. reflexivity. Qed.
Lemma two_laps_run : run 2 true two_laps first_runs = Some two_later.
Proof. apply some_default. vm_compute. reflexivity. Qed.
Lemma first_runs_state :
  sts first_runs thr_b = T_READY ∧ rthread (cpus first_runs 0%nat) = thr_a ∧
  runq (cpus first_runs 0%nat) = [thr_a; thr_b] ∧ phases first_runs 0%nat = Running ∧ now first_runs = 0.
Proof. vm_compute. split_and!; reflexivity. Qed.

Lemma ready_thread_runs_witness :
  ∃ ls1 ls2 s1, two_laps = ls1 ++ ls2 ∧ run 2 true ls1 first_runs = Some s1 ∧
    rthread (cpus s1 0%nat) = thr_b ∧ phases s1 0%nat = Switching ∧ sts s1 thr_b = T_RUNNING.
Proof.
  destruct first_runs_state as (E1&E2&E3&_).
  apply (ready_thread_runs 2 true [Poll 0; Switched 0] demo_smp first_runs two_laps two_later 0 thr_b
    demo_smp_start first_runs_run).
  - lia.
  - rewrite E3. right. left.
  - exact E1.
  - rewrite E2. discriminate.
  - exact two_laps_run.
  - rewrite E3. vm_compute. lia.
Defined.

(** C25: a thread that pauses runs again. The current thread calls [pause(sec)]; from its
    [schedule] on, any threads and processors take steps. Once its processor gets a timer
    interrupt more than [sec] seconds later (the counter may have wrapped), and after that makes
    the rounds of a lap, the thread has been chosen again. *)
Theorem sleeper_runs_again ncpu ismp ls0 s0 s sec s1 ls1 s2 s3 e ls2 s4 n :
  at_start ncpu s0 → run ncpu ismp ls0 s0 = Some s → is_u32 (now s) → in_thread ncpu n s →
  run ncpu ismp [Pause n sec; Yield n] s = Some s1 →
  run ncpu ismp ls1 s1 = Some s2 → act ncpu ismp (Tick n) s2 = Some s3 →
  now s3 = u32 (now s + e) → u32 (TICK_SEC * sec) < e ≤ u32 (TICK_SEC * sec) + 2147483648 →
  run ncpu ismp ls2 s3 = Some s4 →
  ((length (runq (cpus s3 n)) + count is_spawn ls2) * (1 + count (is_finish n) ls2) + count is_spawn ls2
     ≤ count (is_poll n) ls2)%nat →
  let t := rthread (cpus s n) in
  ∃ l1 l2 s5, ls1 ++ Tick n :: ls2 = l1 ++ l2 ∧ run ncpu ismp l1 s1 = Some s5 ∧
    rthread (cpus s5 n) = t ∧ phases s5 n = Switching ∧ sts s5 t = T_RUNNING.
Proof.
  intros H0 Hr0 Hnow Hin Hp H1 Ht Ht3 He H2 Hb t.
  assert (Hw : smp_wf ncpu s) by (apply (run_wf ncpu ismp ls0 s0); [by apply start_wf|done]).
  assert (Hw1 : smp_wf ncpu s1) by (by apply (run_wf ncpu ismp [Pause n sec; Yield n] s)).
  assert (Hw2 : smp_wf ncpu s2) by (by apply (run_wf ncpu ismp ls1 s1)).
  pose proof Hin as [Hn _].
  destruct (pause_parks ncpu ismp s s1 n sec Hw Hin Hp) as (Hpk&Hst&Hal). fold t in Hpk, Hst, Hal.
  rewrite <- (u32_small (now s) Hnow) in Hal. fold (chosen ncpu ismp n t (ls1 ++ Tick n :: ls2) s1).
  destruct (run_asleep ncpu ismp ls1 s1 s2 n t _ Hw1 Hn Hpk (or_intror (conj Hst Hal)) H1) as [Hc|[Hpk2 Ha2]];
    [by apply chosen_prefix|].
  destruct (tick_wakes ncpu ismp s2 s3 n t (now s) _ e Hw2 Hn Hpk2 Ha2 Ht Ht3 He) as [Hpk3 Hrd].
  eapply chosen_app; [exact H1|]. eapply chosen_cons; [exact Ht|].
  apply (ready_thread_chosen ncpu ismp ls2 s3 s4 n t); try done. by apply (act_wf ncpu ismp (Tick n) s2).
Qed.

(** The first thread pauses for a second. *)
Definition pausing : smp := default demo_smp (run 2 true [Pause 0 1; Yield 0] first_runs).
Definition a_second_later : smp := default demo_smp (run 2 true (replicate 1000 (Tick 0)) pausing).
Definition awake : smp := default demo_smp (act 2 true (Tick 0) a_second_later).
Definition last_lap : list label := [Poll 0; Switched 0; Yield 0; Poll 0].
Definition after_lap : smp := default demo_smp (run 2 true last_lap awake).

Lemma pausing_run : run 2 true [Pause 0 1; Yield 0] first_runs = Some pausing.
Proof. apply some_default. vm_compute. reflexivity. Qed.
Lemma second_run : run 2 true (replicate 1000 (Tick 0)) pausing = Some a_second_later.
Proof. apply some_default. vm_compute. reflexivity. Qed.
Lemma awake_run : act 2 true (Tick 0) a_second_later = Some awake.
Proof. apply some_default. vm_compute. reflexivity. Qed.
Lemma lap_run : run 2 true last_lap awake = Some after_lap.
Proof. apply some_default. vm_compute. reflexivity. Qed.
Lemma awake_state : now awake = 1001 ∧ length (runq (cpus awake 0%nat)) = 2%nat.
Proof. vm_compute. split; reflexivity. Qed.

Lemma sleeper_runs_again_witness :
  ∃ l1 l2 s5, replicate 1000 (Tick 0) ++ Tick 0 :: last_lap = l1 ++ l2 ∧
    run 2 true l1 pausing = Some s5 ∧ rthread (cpus s5 0%nat) = thr_a.
Proof.
  destruct first_runs_state as (_&E2&_&E4&E5), awake_state as [E6 E7].
  destruct (sleeper_runs_again 2 true [Poll 0; Switched 0] demo_smp first_runs 1 pausing (replicate 1000 (Tick 0))
    a_second_later awake 1001 last_lap after_lap 0 demo_smp_start first_runs_run)
    as (l1&l2&s5&H1&H2&H3&_).
  - rewrite E5. unfold is_u32. lia.
  - split; [lia|exact E4].
  - exact pausing_run.
  - exact second_run.
  - exact awake_run.
  - rewrite E5, E6. reflexivity.
  - vm_compute. split; [reflexivity|discriminate].
  - exact lap_run.
  - rewrite E7. vm_compute. lia.
  - exists l1, l2, s5. split; [exact H1|]. split; [exact H2|]. rewrite H3. exact E2.
Defined.
