(* ===== verification/Mproc.v ===== *)
(** * Processors: the MP tables of [src/mproc.c] and the processor set of [src/cpu.c]

    The BIOS describes the processors in a table that a floating pointer structure leads to.
    Physical memory is bytes; low memory is mapped one to one ([__phys_to_virt_lm]). The
    structures are those of [include/mproc.h], read at their offsets. *)
From S2P Require Import Prelude Memory CString Threads Sched.

Definition load16 (m : mem) (a : Z) : Z := u16 (m a + 256 * m (a + 1)).

(** [memcmp(p, literal, n)] *)
Fixpoint memcmp_lit (m : mem) (p : Z) (lit : list Z) : Z :=
  match lit with
  | [] => 0
  | c :: lit => if negb (m p =? c) then s8 (m p) - s8 c else memcmp_lit m (p + 1) lit
  end.

Definition sig_MP : list Z := [95; 77; 80; 95].       (* "_MP_" *)
Definition sig_PCMP : list Z := [80; 67; 77; 80].     (* "PCMP" *)

Definition SIZEOF_MPFP : Z := 16.
Definition SIZEOF_MPCONF : Z := 44.
Definition SIZEOF_MPPROC : Z := 20.
Definition SIZEOF_MPIOAPIC : Z := 8.

Definition MPPROC : Z := 0.
Definition MPBUS : Z := 1.
Definition MPIOAPIC : Z := 2.
Definition MPIOINTR : Z := 3.
Definition MPLINTR : Z := 4.
Definition MPBOOT : Z := 2.
Definition MAX_CPUS : nat := 32.

(** ** Finding the table *)

(** [static int __zero_checksum(schar_t *startp, size_t len)] *)
Fixpoint checksum_loop (n : nat) (m : mem) (p sum : Z) : Z :=
  match n with
  | O => sum
  | S n => checksum_loop n m (p + 1) (s8 (sum + s8 (m p)))
  end.

Definition __zero_checksum (m : mem) (startp len : Z) : Z := checksum_loop (Z.to_nat len) m startp 0.

(** [static mpfp_t *__search_mpfp(uint_t pa, size_t len)] *)
Fixpoint search_loop (fuel : nat) (m : mem) (cur lim : Z) : res Z :=
  match fuel with
  | O => Diverge
  | S fuel =>
      if cur <? lim then
        if (memcmp_lit m cur sig_MP =? 0) && (__zero_checksum m cur SIZEOF_MPFP =? 0) then Ret cur
        else search_loop fuel m (u32 (cur + SIZEOF_MPFP)) lim
      else Ret NULL
  end.

Definition __search_mpfp (m : mem) (pa len : Z) : res Z :=
  search_loop (S (Z.to_nat (len / SIZEOF_MPFP + 1))) m pa (u32 (pa + len)).

(** [static mpfp_t *search_mpfp()] *)
Definition search_mpfp (m : mem) : res Z :=
  let bda := 0x400 in
  let p := Z.shiftl (Z.lor (Z.shiftl (m (bda + 0x0F)) 8) (m (bda + 0x0E))) 4 in
  mp ← (if negb (p =? 0) then __search_mpfp m p 1024
        else
          let p := Z.lor (Z.shiftl (m (bda + 0x14)) 8) (m (bda + 0x13)) * 1024 in
          __search_mpfp m (u32 (p - 1024)) 1024);
  if negb (mp =? NULL) then Ret mp
  else __search_mpfp m 0xF0000 0x10000.

(** [static mpconf_t *mpconfig(mpfp_t **pmp)]: the floating pointer and the table *)
Definition mpconfig (m : mem) : res (option (Z * Z)) :=
  mp ← search_mpfp m;
  if (mp =? NULL) || (load32 m (mp + 4) =? NULL) then Ret None
  else
    let conf := load32 m (mp + 4) in
    if negb (memcmp_lit m conf sig_PCMP =? 0) then Ret None
    else if negb (m (conf + 6) =? 1) && negb (m (conf + 6) =? 4) then Ret None
    else if negb (__zero_checksum m conf (load16 m (conf + 4)) =? 0) then Ret None
    else Ret (Some (mp, conf)).

(** ** State *)

Record mp_state : Type := MpState {
  cpuset : nat → cpu_state_t;
  mp_ismp : Z;            (* mpinfo.ismp *)
  mp_ncpu : Z;            (* mpinfo.ncpu *)
  lapic_regp : Z;
  ioapic_id : Z;
  imcr : list (Z * Z);    (* outb(port, value), oldest first *)
}.

(** [bzero(cpuset, sizeof(cpuset))] *)
Definition zero_cpu : cpu_state_t := CpuState 0 false false 0 [] NULL SCHED_RR.

Definition set_flag_bsp (b : bool) (c : cpu_state_t) : cpu_state_t :=
  CpuState (proc_id c) b (preempt_on c) (saved_flags c) (runq c) (rthread c) (scheduler c).
Definition set_proc_id (x : Z) (c : cpu_state_t) : cpu_state_t :=
  CpuState x (flag_bsp c) (preempt_on c) (saved_flags c) (runq c) (rthread c) (scheduler c).

(** ** [init_mp] *)

(** What the loop over the entries carries along. *)
Record mp_scan : Type := MpScan {
  sc_ncpu : nat;
  sc_ismp : bool;
  sc_cpus : nat → cpu_state_t;
  sc_ioapic : Z;
}.

(** [case MPPROC]; past the end of [cpuset] the model stops. *)
Definition scan_proc (m : mem) (p : Z) (s : mp_scan) : res mp_scan :=
  if (MAX_CPUS <=? sc_ncpu s)%nat then Panic "cpuset overflow"
  else
    let apicid := m (p + 1) in
    let flags := m (p + 3) in
    let ismp := if negb (Z.of_nat (sc_ncpu s) =? apicid) then false else sc_ismp s in
    let c := cpu_reset_state (sc_cpus s (sc_ncpu s)) in
    let c := if negb (Z.land flags MPBOOT =? 0) then set_flag_bsp true c else c in
    let c := set_proc_id apicid c in
    Ret (MpScan (S (sc_ncpu s)) ismp (<[sc_ncpu s := c]> (sc_cpus s)) (sc_ioapic s)).

(** [for (p = (uchar_t * )(conf + 1); p < (uchar_t * )conf + conf->length;) switch ( *p) ...];
    an unknown type does not move [p]. *)
Fixpoint scan_loop (fuel : nat) (m : mem) (p lim : Z) (s : mp_scan) : res mp_scan :=
  match fuel with
  | O => Diverge
  | S fuel =>
      if p <? lim then
        let t := m p in
        if t =? MPPROC then
          s ← scan_proc m p s; scan_loop fuel m (u32 (p + SIZEOF_MPPROC)) lim s
        else if t =? MPIOAPIC then
          scan_loop fuel m (u32 (p + SIZEOF_MPIOAPIC)) lim
            (MpScan (sc_ncpu s) (sc_ismp s) (sc_cpus s) (m (p + 1)))
        else if (t =? MPBUS) || (t =? MPIOINTR) || (t =? MPLINTR) then
          scan_loop fuel m (u32 (p + 8)) lim s
        else scan_loop fuel m p lim (MpScan (sc_ncpu s) false (sc_cpus s) (sc_ioapic s))
      else Ret s
  end.

(** [int init_mp()]; [in23] is what [inb(0x23)] reads. *)
Definition init_mp (fuel : nat) (in23 : Z) (m : mem) (st : mp_state) : res (Z * mp_state) :=
  c ← mpconfig m;
  match c with
  | None => Ret (0, st)
  | Some (mp, conf) =>
      let lapic := load32 m (conf + 36) in
      s ← scan_loop fuel m (u32 (conf + SIZEOF_MPCONF)) (u32 (conf + load16 m (conf + 4)))
            (MpScan 0 true (cpuset st) (ioapic_id st));
      if negb (sc_ismp s) then Ret (0, MpState (sc_cpus s) 0 1 NULL 0 (imcr st))
      else
        let out := if negb (m (mp + 12) =? 0)
                   then imcr st ++ [(0x22, 0x70); (0x23, u8 (Z.lor in23 1))] else imcr st in
        Ret (s32 (Z.of_nat (sc_ncpu s) - 1),
             MpState (sc_cpus s) (if (1 <? sc_ncpu s)%nat then 1 else 0) (Z.of_nat (sc_ncpu s))
               lapic (sc_ioapic s) out)
  end.

(** ** [src/cpu.c] *)

(** [int lapic_get_id()] of [src/lapic.c]; [idreg] is what the calling processor reads from
    its id register. *)
Definition lapic_get_id (regp idreg : Z) : Z :=
  if negb (regp =? NULL) then s32 (Z.shiftr idreg 24) else -1.

(** [for (n = 0; n < mpinfo.ncpu; n++) if (test(cpuset[n])) return &cpuset[n]; return NULL;] *)
Fixpoint find_cpu (k n : nat) (cpus : nat → cpu_state_t) (test : cpu_state_t → bool) : option nat :=
  match k with
  | O => None
  | S k => if test (cpus n) then Some n else find_cpu k (S n) cpus test
  end.

(** [cpu_state_t *get_boot_processor()] *)
Definition get_boot_processor (st : mp_state) : option nat :=
  find_cpu (Z.to_nat (mp_ncpu st)) 0 (cpuset st) flag_bsp.

(** [cpu_state_t *get_processor()]; the comparison is unsigned. *)
Definition get_processor (st : mp_state) (idreg : Z) : option nat :=
  let cpu_id := lapic_get_id (lapic_regp st) idreg in
  find_cpu (Z.to_nat (mp_ncpu st)) 0 (cpuset st) (λ c, proc_id c =? u32 cpu_id).

(** [void init_bootstrap_processor()]; the result says whether the local APIC is
    initialised. *)
Definition init_bootstrap_processor (fuel : nat) (in23 : Z) (m : mem) (st : mp_state)
  : res (bool * mp_state) :=
  let st := MpState (λ _, zero_cpu) (mp_ismp st) (mp_ncpu st) (lapic_regp st) (ioapic_id st) (imcr st) in
  '(ap, st) ← init_mp fuel in23 m st;
  if ap <? 0 then Panic "init_mp: error"
  else if 0 <? ap then Ret (true, st)
  else
    let c := cpu_reset_state (cpuset st 0%nat) in
    let c := set_flag_bsp true c in
    let c := set_proc_id 0 c in
    Ret (false, MpState (<[0%nat := c]> (cpuset st)) (mp_ismp st) (mp_ncpu st) (lapic_regp st)
                  (ioapic_id st) (imcr st)).
