(* ===== verification/MprocProofs.v ===== *)
(** * The processor set is what the MP table says

    The search finds the first valid floating pointer structure; the loop over the
    entries reads any well-formed table; the lookups of [src/cpu.c] then find each
    processor. And what happens on machines without such a table. *)
From S2P Require Import Prelude Memory CString Threads Sched Mproc.

(** ** Signatures and checksums *)

Definition bytes (m : mem) : Prop := ∀ a, 0 ≤ m a < 256.

Definition all_at (m : mem) (p : Z) (l : list Z) : Prop :=
  ∀ (i : nat) c, l !! i = Some c → m (p + Z.of_nat i) = c.

Fixpoint byte_sum (n : nat) (m : mem) (p : Z) : Z :=
  match n with O => 0 | S n => m p + byte_sum n m (p + 1) end.

Lemma s8_inj x y : 0 ≤ x < 256 → 0 ≤ y < 256 → s8 x = s8 y → x = y.
Proof. intros Hx Hy. unfold s8, u8. rewrite !Z.mod_small by lia. zbool_step; zbool_step; lia. Qed.

Lemma memcmp_lit_zero m p l :
  bytes m → Forall (λ c, 0 ≤ c < 256) l → memcmp_lit m p l = 0 ↔ all_at m p l.
Proof.
  intros Hm Hl. revert p. induction Hl as [|c l Hc Hl IH]; intros p; cbn.
  { split; [|done]. intros _ i c Hi. done. }
  destruct (Z.eqb_spec (m p) c) as [<-|Hne]; cbn [negb].
  - rewrite IH. split; intros Ha.
    + intros [|i] c Hi; cbn in Hi; [injection Hi as <-; by rewrite Z.add_0_r|].
      rewrite <- (Ha i c Hi). f_equal. lia.
    + intros i c Hi. rewrite <- (Ha (S i) c Hi). f_equal. lia.
  - split.
    + intros E. destruct Hne. apply s8_inj; [apply Hm|done|lia].
    + intros Ha. destruct Hne. specialize (Ha 0%nat c eq_refl). by rewrite Z.add_0_r in Ha.
Qed.

Lemma s8_mod x : s8 x `mod` 256 = x `mod` 256.
Proof. unfold s8, u8. zbool_step; dlia. Qed.

Lemma s8_zero x : s8 x = 0 ↔ x `mod` 256 = 0.
Proof. unfold s8, u8. zbool_step; split; dlia. Qed.

Lemma s8_cong x y : x `mod` 256 = y `mod` 256 → s8 x = s8 y.
Proof. intros E. unfold s8, u8. by rewrite E. Qed.

Lemma s8_add x y : s8 (s8 x + y) = s8 (x + y).
Proof. apply s8_cong. by rewrite Zplus_mod, s8_mod, <- Zplus_mod. Qed.

Lemma s8_idemp x : s8 (s8 x) = s8 x.
Proof. unfold s8 at 1. unfold u8. rewrite s8_mod. done. Qed.

Lemma checksum_loop_sum n : ∀ m p sum, s8 (checksum_loop n m p sum) = s8 (sum + byte_sum n m p).
Proof.
  induction n as [|n IH]; intros m p sum; cbn; [by rewrite Z.add_0_r|].
  rewrite IH, s8_add. replace (sum + s8 (m p) + byte_sum n m (p + 1))
    with (s8 (m p) + (sum + byte_sum n m (p + 1))) by lia.
  rewrite s8_add. f_equal. lia.
Qed.

Lemma zero_checksum_sum m p n :
  0 ≤ n → __zero_checksum m p n = 0 ↔ byte_sum (Z.to_nat n) m p `mod` 256 = 0.
Proof.
  intros Hn. unfold __zero_checksum.
  assert (E : s8 (checksum_loop (Z.to_nat n) m p 0) = checksum_loop (Z.to_nat n) m p 0).
  { destruct (Z.to_nat n) as [|k]; [done|]. cbn. generalize (p + 1) as q. generalize (s8 (m p)) as x.
    intros x. revert x. induction k as [|k IH]; intros x q; cbn; [apply s8_idemp|].
    specialize (IH (s8 x + s8 (m q)) (q + 1)). by cbn in IH. }
  rewrite <- E, checksum_loop_sum, s8_zero. done.
Qed.

(** ** The search *)

(** A valid floating pointer structure. *)
Definition valid_mpfp (m : mem) (a : Z) : Prop :=
  all_at m a sig_MP ∧ byte_sum 16 m a `mod` 256 = 0.

Lemma valid_mpfp_test m a :
  bytes m →
  ((memcmp_lit m a sig_MP =? 0) && (__zero_checksum m a SIZEOF_MPFP =? 0) = true ↔ valid_mpfp m a).
Proof.
  intros Hm. rewrite andb_true_iff, !Z.eqb_eq, memcmp_lit_zero, zero_checksum_sum; try done.
  repeat constructor; lia.
Qed.

(** The first of the addresses [pa], [pa + 16], ... that holds one. *)
Definition first_mpfp (m : mem) (pa : Z) (k : nat) (r : Z) : Prop :=
  (r = NULL ∧ ∀ i, (i < k)%nat → ¬ valid_mpfp m (pa + 16 * Z.of_nat i)) ∨
  (∃ i, (i < k)%nat ∧ r = pa + 16 * Z.of_nat i ∧ valid_mpfp m r ∧
        ∀ j, (j < i)%nat → ¬ valid_mpfp m (pa + 16 * Z.of_nat j)).

Lemma search_loop_spec m : bytes m → ∀ k fuel cur,
  (k < fuel)%nat → 0 ≤ cur → cur + 16 * Z.of_nat k < 4294967296 →
  ∃ r, search_loop fuel m cur (cur + 16 * Z.of_nat k) = Ret r ∧ first_mpfp m cur k r.
Proof.
  intros Hm. induction k as [|k IH]; intros [|fuel] cur Hf H0 H1; try lia; cbn [search_loop].
  - destruct (Z.ltb_spec cur (cur + 16 * Z.of_nat 0)); [lia|].
    exists NULL. split; [done|]. left. split; [done|]. lia.
  - destruct (Z.ltb_spec cur (cur + 16 * Z.of_nat (S k))); [|lia].
    pose proof (valid_mpfp_test m cur Hm) as Hv.
    destruct ((memcmp_lit m cur sig_MP =? 0) && (__zero_checksum m cur SIZEOF_MPFP =? 0)).
    + exists cur. split; [done|]. right. exists 0%nat. split_and!; [lia|lia|by apply Hv|lia].
    + assert (Hnv : ¬ valid_mpfp m cur) by (rewrite <- Hv; done).
      unfold SIZEOF_MPFP. rewrite u32_small by (unfold is_u32; lia).
      destruct (IH fuel (cur + 16)) as (r&E&Hr); [lia..|].
      replace (cur + 16 * Z.of_nat (S k)) with (cur + 16 + 16 * Z.of_nat k) by lia.
      exists r. split; [done|]. destruct Hr as [[-> Hn]|(i&Hi&->&Hvi&Hn)].
      * left. split; [done|]. intros [|i] Hi; [by rewrite Z.mul_0_r, Z.add_0_r|].
        replace (cur + 16 * Z.of_nat (S i)) with (cur + 16 + 16 * Z.of_nat i) by lia.
        apply Hn. lia.
      * right. exists (S i). split_and!; [lia|lia|done|].
        intros [|j] Hj; [by rewrite Z.mul_0_r, Z.add_0_r|].
        replace (cur + 16 * Z.of_nat (S j)) with (cur + 16 + 16 * Z.of_nat j) by lia.
        apply Hn. lia.
Qed.

Lemma search_spec m pa (k : nat) :
  bytes m → 0 ≤ pa → pa + 16 * Z.of_nat k < 4294967296 →
  ∃ r, __search_mpfp m pa (16 * Z.of_nat k) = Ret r ∧ first_mpfp m pa k r.
Proof.
  intros Hm H0 H1. unfold __search_mpfp. rewrite u32_small by (unfold is_u32; lia).
  apply search_loop_spec; [done| |done|done]. unfold SIZEOF_MPFP.
  rewrite Z.mul_comm, Z.div_mul by lia. lia.
Qed.

(** ** The table *)

(** An entry of the table, and the bytes the code reads of it. *)
Inductive mp_entry : Type :=
  | EProc (apicid flags : Z)
  | EIoapic (apicno : Z)
  | EOther (t : Z).

Definition entry_size (e : mp_entry) : Z := match e with EProc _ _ => 20 | _ => 8 end.

Definition entry_at (m : mem) (p : Z) (e : mp_entry) : Prop :=
  match e with
  | EProc apicid flags => m p = MPPROC ∧ m (p + 1) = apicid ∧ m (p + 3) = flags
  | EIoapic apicno => m p = MPIOAPIC ∧ m (p + 1) = apicno
  | EOther t => m p = t ∧ t ∈ [MPBUS; MPIOINTR; MPLINTR]
  end.

Fixpoint entries_at (m : mem) (p : Z) (l : list mp_entry) (lim : Z) : Prop :=
  match l with
  | [] => p = lim
  | e :: l => entry_at m p e ∧ entries_at m (p + entry_size e) l lim
  end.

(** The processors in the order of the table, and the last I/O APIC. *)
Fixpoint procs (l : list mp_entry) : list (Z * Z) :=
  match l with
  | EProc a f :: l => (a, f) :: procs l
  | _ :: l => procs l
  | [] => []
  end.

Fixpoint last_ioapic (x : Z) (l : list mp_entry) : Z :=
  match l with
  | EIoapic n :: l => last_ioapic n l
  | _ :: l => last_ioapic x l
  | [] => x
  end.

(** The processors are numbered from [n] on. *)
Fixpoint in_order (n : nat) (ps : list (Z * Z)) : bool :=
  match ps with
  | [] => true
  | (a, _) :: ps => (Z.of_nat n =? a) && in_order (S n) ps
  end.

(** The [cpuset] entry of a processor; only two fields survive from before. *)
Definition cpu_of (pf : Z * Z) (old : cpu_state_t) : cpu_state_t :=
  CpuState pf.1 (negb (Z.land pf.2 MPBOOT =? 0)) false (saved_flags old) [] NULL (scheduler old).

(** [cpuset] with the processors [ps] from index [n] on. *)
Fixpoint fill_cpus (n : nat) (ps : list (Z * Z)) (cpus : nat → cpu_state_t) : nat → cpu_state_t :=
  match ps with
  | [] => cpus
  | pf :: ps => fill_cpus (S n) ps (<[n := cpu_of pf (cpus n)]> cpus)
  end.

Lemma scan_proc_spec m p s a f :
  (sc_ncpu s < MAX_CPUS)%nat → m (p + 1) = a → m (p + 3) = f →
  scan_proc m p s = Ret (MpScan (S (sc_ncpu s)) (sc_ismp s && (Z.of_nat (sc_ncpu s) =? a))
    (<[sc_ncpu s := cpu_of (a, f) (sc_cpus s (sc_ncpu s))]> (sc_cpus s)) (sc_ioapic s)).
Proof.
  intros Hn <- <-. unfold scan_proc.
  destruct (Nat.leb_spec MAX_CPUS (sc_ncpu s)); [lia|]. unfold cpu_of. cbn [fst snd].
  destruct (Z.land (m (p + 3)) MPBOOT =? 0), (Z.of_nat (sc_ncpu s) =? m (p + 1)); cbn [negb];
    rewrite ?andb_true_r, ?andb_false_r; reflexivity.
Qed.

Lemma entries_at_le m l : ∀ p lim, entries_at m p l lim → p ≤ lim.
Proof.
  induction l as [|e l IH]; intros p lim; cbn; [lia|].
  intros [_ H%IH]. destruct e; cbn in H; lia.
Qed.

Lemma scan_loop_spec m lim : is_u32 lim → ∀ l fuel p s,
  entries_at m p l lim → 0 ≤ p → (length l < fuel)%nat →
  (sc_ncpu s + length (procs l) ≤ MAX_CPUS)%nat →
  scan_loop fuel m p lim s =
    Ret (MpScan (sc_ncpu s + length (procs l)) (sc_ismp s && in_order (sc_ncpu s) (procs l))
           (fill_cpus (sc_ncpu s) (procs l) (sc_cpus s)) (last_ioapic (sc_ioapic s) l)).
Proof.
  intros Hlim. induction l as [|e l IH]; intros [|fuel] p s Hl Hp Hf Hn; cbn [length] in Hf; try lia;
    cbn [scan_loop entries_at procs last_ioapic] in *.
  { subst p. rewrite Z.ltb_irrefl. cbn. rewrite Nat.add_0_r, andb_true_r. by destruct s. }
  destruct Hl as [He Hl]. pose proof (entries_at_le _ _ _ _ Hl) as Hle.
  assert (Hsz : 0 < entry_size e) by (destruct e; cbn; lia).
  destruct (Z.ltb_spec p lim); [|lia].
  assert (Hu : u32 (p + entry_size e) = p + entry_size e) by (apply u32_small; unfold is_u32 in *; lia).
  destruct e as [a f|n|t]; cbn [entry_at entry_size procs length] in *.
  - destruct He as (->&Ha&Hfl). cbn [Z.eqb MPPROC].
    rewrite (scan_proc_spec m p s a f) by (done || lia). cbn [mbind res_bind].
    unfold SIZEOF_MPPROC. rewrite Hu, IH by (done || lia || (cbn; lia)). cbn [sc_ncpu sc_ismp sc_cpus sc_ioapic].
    f_equal. f_equal; [lia|]. cbn [in_order]. by rewrite andb_assoc.
  - destruct He as (->&<-). cbn [Z.eqb MPPROC MPIOAPIC Pos.eqb]. unfold SIZEOF_MPIOAPIC.
    rewrite Hu, IH by (done || lia || (cbn; lia)). done.
  - destruct He as (->&Ht). assert (t = 1 ∨ t = 3 ∨ t = 4) as [->|[->| ->]] by set_solver; cbn;
      rewrite Hu, IH by (done || lia); done.
Qed.

Lemma fill_cpus_lookup ps : ∀ n cpus i,
  fill_cpus n ps cpus i =
    match ps !! (i - n)%nat with
    | Some pf => if (n <=? i)%nat then cpu_of pf (cpus i) else cpus i
    | None => cpus i
    end.
Proof.
  induction ps as [|pf ps IH]; intros n cpus i; cbn [fill_cpus]; [done|].
  rewrite IH. destruct (Nat.leb_spec n i) as [Hle|Hlt].
  - destruct (decide (i = n)) as [->|].
    + replace (n - n)%nat with 0%nat by lia. rewrite fn_lookup_insert. cbn [lookup list_lookup].
      destruct (Nat.leb_spec (S n) n); [lia|]. by destruct (ps !! (n - S n)%nat).
    + replace (i - n)%nat with (S (i - S n)) by lia. cbn [lookup list_lookup].
      rewrite fn_lookup_insert_ne by done. destruct (ps !! (i - S n)%nat); [|done].
      destruct (Nat.leb_spec (S n) i); [done|lia].
  - rewrite fn_lookup_insert_ne by lia. replace (i - n)%nat with 0%nat by lia. cbn [lookup list_lookup].
    destruct (ps !! (i - S n)%nat); [|done]. destruct (Nat.leb_spec (S n) i); [lia|done].
Qed.

(** A table in memory: found, and made of the entries [l]. *)
Record mp_table (m : mem) (mp conf : Z) (l : list mp_entry) : Prop := {
  mt_found : mpconfig m = Ret (Some (mp, conf));
  mt_entries : entries_at m (conf + SIZEOF_MPCONF) l (conf + load16 m (conf + 4));
  mt_conf : 0 ≤ conf ∧ conf + load16 m (conf + 4) < 4294967296;
  mt_room : (length (procs l) ≤ MAX_CPUS)%nat;
}.

(** What [init_mp] makes of a table. *)
Definition table_state (m : mem) (mp conf in23 : Z) (l : list mp_entry) (st : mp_state) : Z * mp_state :=
  let n := length (procs l) in
  let cpus := fill_cpus 0 (procs l) (cpuset st) in
  if in_order 0 (procs l) then
    (Z.of_nat n - 1,
     MpState cpus (if (1 <? n)%nat then 1 else 0) (Z.of_nat n) (load32 m (conf + 36))
       (last_ioapic (ioapic_id st) l)
       (imcr st ++ if m (mp + 12) =? 0 then [] else [(0x22, 0x70); (0x23, u8 (Z.lor in23 1))]))
  else (0, MpState cpus 0 1 NULL 0 (imcr st)).

Lemma init_mp_spec fuel in23 m st mp conf l :
  mp_table m mp conf l → (length l < fuel)%nat →
  init_mp fuel in23 m st = Ret (table_state m mp conf in23 l st).
Proof.
  intros [Hfound He [H0 H1] Hn] Hf. unfold init_mp. rewrite Hfound. cbn [mbind res_bind].
  pose proof (entries_at_le _ _ _ _ He) as Hle. unfold SIZEOF_MPCONF in *.
  rewrite (u32_small (conf + 44)), (u32_small (conf + load16 _ _)) by (unfold is_u32; lia).
  rewrite (scan_loop_spec m _) with (l := l) by (done || (unfold is_u32; lia) || lia).
  cbn [mbind res_bind sc_ncpu sc_ismp sc_cpus sc_ioapic andb Nat.add]. unfold table_state.
  destruct (in_order 0 (procs l)); cbn [negb]; [|done].
  assert (s32 (Z.of_nat (length (procs l)) - 1) = Z.of_nat (length (procs l)) - 1) as ->.
  { unfold s32, u32, MAX_CPUS in *. zbool_step; dlia. }
  destruct (m (mp + 12) =? 0); cbn [negb]; [by rewrite app_nil_r|done].
Qed.

(** ** Lookups *)

Lemma find_cpu_spec k : ∀ n cpus test,
  match find_cpu k n cpus test with
  | Some i => (n ≤ i < n + k)%nat ∧ test (cpus i) = true ∧ ∀ j, (n ≤ j < i)%nat → test (cpus j) = false
  | None => ∀ j, (n ≤ j < n + k)%nat → test (cpus j) = false
  end.
Proof.
  induction k as [|k IH]; intros n cpus test; cbn; [lia|].
  destruct (test (cpus n)) eqn:E; [split_and!; [lia..|done|lia]|].
  specialize (IH (S n) cpus test). destruct (find_cpu k (S n) cpus test) as [i|].
  - destruct IH as (H1&H2&H3). split_and!; [lia..|done|].
    intros j Hj. destruct (decide (j = n)) as [->|]; [done|]. apply H3. lia.
  - intros j Hj. destruct (decide (j = n)) as [->|]; [done|]. apply IH. lia.
Qed.

Lemma find_cpu_first k n cpus test i :
  (n ≤ i < n + k)%nat → test (cpus i) = true → (∀ j, (n ≤ j < i)%nat → test (cpus j) = false) →
  find_cpu k n cpus test = Some i.
Proof.
  intros Hi Ht Hm. pose proof (find_cpu_spec k n cpus test) as Hs.
  destruct (find_cpu k n cpus test) as [i'|].
  - destruct Hs as (H1&H2&H3). destruct (Nat.lt_trichotomy i i') as [Hlt|[->|Hgt]]; [|done|].
    + rewrite H3 in Ht by lia. done.
    + rewrite Hm in H2 by lia. done.
  - rewrite Hs in Ht by lia. done.
Qed.

Lemma in_order_lookup ps : ∀ n i pf,
  in_order n ps = true → ps !! i = Some pf → pf.1 = Z.of_nat (n + i).
Proof.
  induction ps as [|[a f] ps IH]; intros n i pf Ho Hi; [done|].
  apply andb_true_iff in Ho as [Ha%Z.eqb_eq Ho]. destruct i as [|i]; cbn in Hi.
  - injection Hi as <-. cbn. lia.
  - rewrite (IH (S n) i pf Ho Hi). lia.
Qed.

(** ** A machine with two processors *)

Definition demo_mpfp : list Z := [95; 77; 80; 95; 0; 0x10; 0x0E; 0; 1; 4; 130; 0; 0; 0; 0; 0].
Definition demo_conf : list Z :=
  [80; 67; 77; 80; 92; 0; 4; 145] ++ replicate 20 0 ++ [0; 0; 0; 0; 0; 0; 0; 0] ++
  [0; 0; 0xE0; 0xFE; 0; 0; 0; 0] ++
  ([0; 0; 20; 3] ++ replicate 16 0) ++ ([0; 1; 20; 1] ++ replicate 16 0) ++
  [2; 2; 17; 1; 0; 0; 0xC0; 0xFE].
Definition demo_bios : mem :=
  bytes_from 0xF0000 demo_mpfp (bytes_from 0xE1000 demo_conf (λ _, 0)).
Definition demo_entries : list mp_entry := [EProc 0 3; EProc 1 1; EIoapic 2].
Definition boot_mp : mp_state := MpState (λ _, zero_cpu) 0 0 NULL 0 [].

Lemma demo_table : mp_table demo_bios 0xF0000 0xE1000 demo_entries.
Proof. split; [vm_compute; reflexivity|vm_compute; tauto|vm_compute; split; discriminate || reflexivity|cbn; unfold MAX_CPUS; lia]. Qed.

(** ** Properties *)

(** [search_mpfp] looks where it should and stops at the first hit. For any memory it
    returns; when the BIOS data area gives an extended data area it is searched first,
    otherwise the last kilobyte of base memory; failing that, the ROM from 0xF0000 on. The result
    is the first 16-byte step with the signature and a zero byte sum, or [NULL]. *)
Theorem search_mpfp_correct m :
  bytes m →
  let ebda := 16 * (256 * m 0x40F + m 0x40E) in
  let base := 1024 * (256 * m 0x414 + m 0x413) in
  1024 ≤ base →
  let pa := if ebda =? 0 then base - 1024 else ebda in
  ∃ r1 r, search_mpfp m = Ret r ∧ first_mpfp m pa 64 r1 ∧
    (r1 ≠ NULL ∧ r = r1 ∨ r1 = NULL ∧ first_mpfp m 0xF0000 4096 r).
Proof.
  intros Hm ebda base Hb pa. unfold search_mpfp. cbv zeta.
  assert (E1 : ∀ h l, Z.lor (Z.shiftl (m h) 8) (m l) = 256 * m h + m l).
  { intros h l. rewrite Z.shiftl_mul_pow2 by lia. rewrite (lor_aligned _ _ 8); [lia|lia| |apply Hm].
    apply Z_mod_mult. }
  rewrite !E1, Z.shiftl_mul_pow2 by lia. change (2 ^ 4) with 16.
  change (0x400 + 0x0F) with 0x40F. change (0x400 + 0x0E) with 0x40E.
  change (0x400 + 0x14) with 0x414. change (0x400 + 0x13) with 0x413.
  rewrite (Z.mul_comm _ 16), (Z.mul_comm _ 1024). fold ebda base.
  pose proof (Hm 0x40F). pose proof (Hm 0x40E). pose proof (Hm 0x414). pose proof (Hm 0x413).
  assert (Hpa : (if negb (ebda =? 0) then __search_mpfp m ebda 1024
                 else __search_mpfp m (u32 (base - 1024)) 1024) = __search_mpfp m pa 1024).
  { unfold pa. destruct (ebda =? 0); cbn [negb]; [|done]. rewrite u32_small; [done|].
    unfold is_u32, base in *. lia. }
  rewrite Hpa. assert (0 ≤ pa < 0x4000000).
  { unfold pa, ebda, base in *. destruct (_ =? 0); lia. }
  destruct (search_spec m pa 64) as (r1&E&Hr1); [done|lia|lia|].
  change (16 * Z.of_nat 64) with 1024 in E. rewrite E. cbn [mbind res_bind].
  destruct (search_spec m 0xF0000 4096) as (r2&E'&Hr2); [done|lia|lia|].
  change (16 * Z.of_nat 4096) with 0x10000 in E'. rewrite E'.
  destruct (Z.eqb_spec r1 NULL) as [->|Hn]; cbn [negb].
  - exists NULL, r2. split; [done|]. split; [done|]. by right.
  - exists r1, r1. split; [done|]. split; [done|]. by left.
Qed.

Lemma bytes_from_bytes base l m : Forall (λ c, 0 ≤ c < 256) l → bytes m → bytes (bytes_from base l m).
Proof.
  intros Hl Hm a. unfold bytes_from. destruct (base <=? a); [|apply Hm].
  destruct (l !! _) as [b|] eqn:E; [|apply Hm]. by eapply Forall_lookup_1 in Hl.
Qed.

Lemma demo_bios_bytes : bytes demo_bios.
Proof.
  apply bytes_from_bytes; [repeat constructor; lia|].
  apply bytes_from_bytes; [|done]. apply Forall_forall. intros c Hc.
  assert (Hb : forallb (λ c, (0 <=? c) && (c <? 256)) demo_conf = true) by (vm_compute; reflexivity).
  rewrite forallb_forall in Hb. apply list_elem_of_In, Hb in Hc. lia.
Qed.

(** The demo machine with 640 KiB of base memory. *)
Lemma search_mpfp_correct_witness :
  ∃ r1 r, search_mpfp (<[0x413 := 0x80]> (<[0x414 := 2]> demo_bios)) = Ret r ∧
    (r1 ≠ NULL ∧ r = r1 ∨ r1 = NULL ∧
     first_mpfp (<[0x413 := 0x80]> (<[0x414 := 2]> demo_bios)) 0xF0000 4096 r).
Proof.
  destruct (search_mpfp_correct (<[0x413 := 0x80]> (<[0x414 := 2]> demo_bios))) as (r1&r&E&_&Hr).
  - intros a. destruct (decide (a = 0x413)) as [->|]; [rewrite fn_lookup_insert; lia|].
    rewrite fn_lookup_insert_ne by done.
    destruct (decide (a = 0x414)) as [->|]; [rewrite fn_lookup_insert; lia|].
    rewrite fn_lookup_insert_ne by done. apply demo_bios_bytes.
  - vm_compute. discriminate.
  - exists r1, r. split; [exact E|exact Hr].
Defined.



(** On a multiprocessor the lookups find the right processor. When the table lists two or
    more processors with APIC ids 0, 1, ..., one of them flagged as bootstrap processor, then
    after [init_bootstrap_processor] the local APIC is initialised, [get_boot_processor] finds
    the first flagged one, and on the processor whose APIC id is [k], [get_processor] returns
    slot [k]. *)
Theorem processors_found fuel in23 m mp conf l b pf :
  mp_table m mp conf l → (length l < fuel)%nat → load32 m (conf + 36) ≠ NULL →
  in_order 0 (procs l) = true → (2 ≤ length (procs l))%nat →
  procs l !! b = Some pf → Z.land pf.2 MPBOOT ≠ 0 →
  (∀ j pf', (j < b)%nat → procs l !! j = Some pf' → Z.land pf'.2 MPBOOT = 0) →
  ∃ st, init_bootstrap_processor fuel in23 m boot_mp = Ret (true, st) ∧
    mp_ismp st = 1 ∧ mp_ncpu st = Z.of_nat (length (procs l)) ∧
    get_boot_processor st = Some b ∧
    ∀ (k : nat) idreg, (k < length (procs l))%nat → is_u32 idreg →
      Z.shiftr idreg 24 = Z.of_nat k → get_processor st idreg = Some k.
Proof.
  intros Ht Hf Hlap Hord Hlen Hb Hboot Hfirst. pose proof (mt_room _ _ _ _ Ht) as Hroom.
  unfold init_bootstrap_processor. cbn [mbind res_bind].
  change (MpState (λ _, zero_cpu) _ _ _ _ _) with boot_mp.
  rewrite (init_mp_spec fuel in23 m boot_mp mp conf l Ht Hf). unfold table_state. rewrite Hord.
  cbn [mbind res_bind]. destruct (Z.ltb_spec (Z.of_nat (length (procs l)) - 1) 0); [lia|].
  destruct (Z.ltb_spec 0 (Z.of_nat (length (procs l)) - 1)); [|lia].
  eexists. split; [reflexivity|]. cbn [mp_ismp mp_ncpu].
  destruct (Nat.ltb_spec 1 (length (procs l))); [|lia].
  assert (Hcpu : ∀ i pf', procs l !! i = Some pf' →
    fill_cpus 0 (procs l) (cpuset boot_mp) i = cpu_of pf' zero_cpu).
  { intros i pf' Hi. rewrite fill_cpus_lookup, Nat.sub_0_r, Hi. done. }
  split; [done|]. split; [done|]. pose proof (lookup_lt_Some _ _ _ Hb) as Hblt.
  assert (Hsome : ∀ j, (j < length (procs l))%nat → is_Some (procs l !! j)).
  { intros j Hj. by apply lookup_lt_is_Some. }
  unfold get_boot_processor, get_processor, lapic_get_id. cbn [mp_ncpu cpuset lapic_regp].
  rewrite Nat2Z.id. split.
  - apply find_cpu_first; [lia|rewrite (Hcpu b pf Hb); cbn; by apply negb_true_iff, Z.eqb_neq|].
    intros j Hj. destruct (Hsome j) as [pf' Hj']; [lia|]. rewrite (Hcpu j pf' Hj'). cbn.
    by rewrite (Hfirst j pf') by (done || lia).
  - intros k idreg Hk Hid Hsh. rewrite (proj2 (Z.eqb_neq _ _) Hlap). cbn [negb].
    unfold MAX_CPUS in *. rewrite Hsh.
    assert (u32 (s32 (Z.of_nat k)) = Z.of_nat k) as ->.
    { unfold s32, u32. zbool_step; dlia. }
    apply find_cpu_first; [lia|..].
    + destruct (Hsome k Hk) as [pf' Hk']. rewrite (Hcpu k pf' Hk'). cbn.
      rewrite (in_order_lookup _ 0 k pf' Hord Hk'). apply Z.eqb_refl.
    + intros j Hj. destruct (Hsome j) as [pf' Hj']; [lia|]. rewrite (Hcpu j pf' Hj'). cbn.
      rewrite (in_order_lookup _ 0 j pf' Hord Hj'). apply Z.eqb_neq. lia.
Qed.

Lemma processors_found_witness :
  ∃ st, init_bootstrap_processor 4 0 demo_bios boot_mp = Ret (true, st) ∧
    get_processor st 0x01000000 = Some 1%nat.
Proof.
  destruct (processors_found 4 0 demo_bios 0xF0000 0xE1000 demo_entries 0 (0, 3))
    as (st&E&_&_&_&Hg).
  - exact demo_table.
  - cbn. lia.
  - vm_compute. discriminate.
  - reflexivity.
  - cbn. lia.
  - reflexivity.
  - vm_compute. discriminate.
  - intros j pf' Hj. lia.
  - exists st. split; [exact E|]. clear E. apply (Hg 1%nat); [cbn; lia|unfold is_u32; lia|reflexivity].
Defined.

Lemma find_cpu_none k n cpus test :
  (∀ j, (n ≤ j < n + k)%nat → test (cpus j) = false) → find_cpu k n cpus test = None.
Proof.
  intros Hn. pose proof (find_cpu_spec k n cpus test) as Hs.
  destruct (find_cpu k n cpus test) as [i|]; [|done]. destruct Hs as (H1&H2&_).
  by rewrite Hn in H2 by lia.
Qed.

(** Without an MP table, or when its ids do not count up from 0, the kernel does not find its
    only processor. [init_bootstrap_processor] returns as for a single processor; without a
    table the number of processors stays 0 and [get_boot_processor] finds none; after the
    fall-back it finds slot 0. But [get_processor], which every scheduling function calls, finds
    no processor in either case, because there is no local APIC to ask for an id. *)
Theorem uniprocessor_not_found fuel in23 m idreg :
  (mpconfig m = Ret None →
   ∃ st, init_bootstrap_processor fuel in23 m boot_mp = Ret (false, st) ∧
     get_boot_processor st = None ∧ get_processor st idreg = None) ∧
  (∀ mp conf l, mp_table m mp conf l → (length l < fuel)%nat → in_order 0 (procs l) = false →
   ∃ st, init_bootstrap_processor fuel in23 m boot_mp = Ret (false, st) ∧
     get_boot_processor st = Some 0%nat ∧ get_processor st idreg = None).
Proof.
  split.
  - intros Hm. unfold init_bootstrap_processor, init_mp. rewrite Hm. cbn. by eexists.
  - intros mp conf l Ht Hf Ho. unfold init_bootstrap_processor.
    change (MpState (λ _, zero_cpu) _ _ _ _ _) with boot_mp.
    rewrite (init_mp_spec fuel in23 m boot_mp mp conf l Ht Hf). unfold table_state. rewrite Ho.
    cbn [mbind res_bind Z.ltb Z.compare]. eexists. split; [reflexivity|].
    split; [reflexivity|]. apply find_cpu_none. cbn [mp_ncpu cpuset].
    change (Z.to_nat 1) with 1%nat. intros j Hj. assert (j = 0%nat) as -> by lia.
    rewrite fn_lookup_insert. reflexivity.
Qed.

Lemma uniprocessor_not_found_witness :
  ∃ st, init_bootstrap_processor 1 0 (λ _, 0) boot_mp = Ret (false, st) ∧
    get_processor st 0 = None.
Proof.
  destruct (uniprocessor_not_found 1 0 (λ _, 0) 0) as [H _].
  destruct H as (st&E&_&Hg); [vm_compute; reflexivity|].
  exists st. split; [exact E|exact Hg].
Defined.

(** An entry of unknown type is never passed: the loop does not end. *)
Theorem unknown_entry_hangs m p lim s fuel :
  p < lim → m p ∉ [MPPROC; MPBUS; MPIOAPIC; MPIOINTR; MPLINTR] →
  scan_loop fuel m p lim s = Diverge.
Proof.
  intros Hp Ht. rewrite !not_elem_of_cons in Ht. destruct Ht as (H0&H1&H2&H3&H4&_).
  revert s. induction fuel as [|fuel IH]; intros s; [done|]. cbn [scan_loop].
  destruct (Z.ltb_spec p lim); [|lia].
  rewrite !(proj2 (Z.eqb_neq _ _)) by done. cbn [orb]. apply IH.
Qed.
