(* ===== verification/Apic.v ===== *)
(** * Interrupt controllers: [src/lapic.c] and [src/ioapic.c]

    Memory-mapped controllers. A write to a local APIC register is recorded in order; the
    I/O APIC is a window of two registers, [reg] that selects and [data] that accesses the
    selected one. *)
From S2P Require Import Prelude.

(** ** The local APIC *)

Module Lapic.
(** Registers as indices of 32-bit words. *)
Definition ID : Z := 0x0020 / 4.
Definition VER : Z := 0x0030 / 4.
Definition TPR : Z := 0x0080 / 4.
Definition EOI : Z := 0x00B0 / 4.
Definition SVR : Z := 0x00F0 / 4.
Definition ESR : Z := 0x0280 / 4.
Definition ICRLO : Z := 0x0300 / 4.
Definition ICRHI : Z := 0x0310 / 4.
Definition TIMER : Z := 0x0320 / 4.
Definition PCINT : Z := 0x0340 / 4.
Definition LINT0 : Z := 0x0350 / 4.
Definition LINT1 : Z := 0x0360 / 4.
Definition ERROR : Z := 0x0370 / 4.
Definition TICR : Z := 0x0380 / 4.
Definition TCCR : Z := 0x0390 / 4.
Definition TDCR : Z := 0x03E0 / 4.

Definition ENABLE : Z := 0x100.
Definition FIXED : Z := 0.
Definition INIT : Z := 0x500.
Definition STARTUP : Z := 0x600.
Definition DELIVS : Z := 0x1000.
Definition _ASSERT : Z := 0x4000.
Definition LEVEL : Z := 0x8000.
Definition SELF : Z := 0x40000.
Definition BCAST : Z := 0x80000.
Definition MCAST : Z := 0xC0000.
Definition X1 : Z := 0xB.
Definition PERIODIC : Z := 0x20000.
Definition MASKED : Z := 0x10000.

Definition IRQ0 : Z := 32.
Definition IRQ_TIMER : Z := IRQ0.
Definition IRQ_ERROR : Z := IRQ0 + 19.
Definition IRQ_SPURIOUS : Z := IRQ0 + 31.
Definition IRQ_STOP_CPU : Z := 53.

Definition CMOS_PORT : Z := 0x70.
Definition MPENTRY_WRV : Z := 0x467.

(** What a processor sends out, in order. *)
Inductive action : Type :=
  | Reg (index value : Z)          (* lapic_regp[index] = value *)
  | Out (port value : Z)           (* outb(port, value) *)
  | Store16 (addr value : Z)       (* a 16-bit store to low memory *)
  | Handler (irq : Z)              (* register_interrupt_handler(irq, ...) *)
  | Delay (factor : Z).            (* rtc_test_delay(factor) *)

(** [static void lapic_write(int index, int value)] *)
Definition lapic_write (index value : Z) : action := Reg index (u32 value).

(** [while (lapic_regp[ICRLO] & DELIVS);] on the values read *)
Fixpoint wait_delivery (reads : list Z) : res unit :=
  match reads with
  | [] => Diverge
  | r :: reads => if negb (Z.land r DELIVS =? 0) then wait_delivery reads else Ret ()
  end.

(** [void init_local_apic()]; [ver] and [reads] are what the version register and the command
    register read. *)
Definition init_local_apic (regp ver : Z) (reads : list Z) : res (list action) :=
  _ ← ASSERT (negb (regp =? NULL)) "lapic_regp != NULL";
  let a1 := [lapic_write SVR (Z.lor ENABLE IRQ_SPURIOUS);
             lapic_write LINT0 MASKED; lapic_write LINT1 MASKED] in
  let a2 := if 4 <=? Z.land (Z.shiftr ver 16) 0xFF then [lapic_write PCINT MASKED] else [] in
  let a3 := [lapic_write ERROR IRQ_ERROR; lapic_write ESR 0; lapic_write ESR 0; lapic_write EOI 0;
             lapic_write ICRHI 0; lapic_write ICRLO (Z.lor (Z.lor BCAST INIT) LEVEL)] in
  _ ← wait_delivery reads;
  Ret (a1 ++ a2 ++ a3 ++ [lapic_write TPR 0; Handler IRQ_STOP_CPU]).

(** [void lapic_eoi(void)] *)
Definition lapic_eoi (ismp : bool) (regp : Z) : res (list action) :=
  if negb ismp then Ret []
  else
    _ ← ASSERT (negb (regp =? NULL)) "lapic_regp != NULL";
    Ret [lapic_write EOI 0].

(** [static void lapic_set_timer(uint_t icr)] *)
Definition lapic_set_timer (icr : Z) : list action :=
  [lapic_write TDCR X1; lapic_write TIMER (Z.lor PERIODIC IRQ_TIMER); lapic_write TICR icr].

(** [do { rtc_time(&rtc); } while (rtc.second == second);] on the seconds read *)
Fixpoint wait_second (second : Z) (reads : list Z) : res (Z * list Z) :=
  match reads with
  | [] => Diverge
  | r :: reads => if r =? second then wait_second second reads else Ret (r, reads)
  end.

(** [void lapic_init_timer(_u32 frequency)]; [seconds] is what the clock reads at each call of
    [rtc_time], [ccr] the current count when the second has passed. *)
Definition lapic_init_timer (frequency ccr : Z) (seconds : list Z) : res (list action) :=
  let icr := 0xFFFFFFFF in
  match seconds with
  | [] => Diverge
  | s1 :: seconds =>
      '(s2, seconds) ← wait_second s1 seconds;
      '(_, _) ← wait_second s2 seconds;
      Ret (lapic_set_timer icr ++ lapic_set_timer (u32 (icr - ccr) / frequency))
  end.

(** [void lapic_startap(uchar_t apicid, addr_t addr)] *)
Definition lapic_startap (apicid addr : Z) : list action :=
  [Out CMOS_PORT 0xF; Out (CMOS_PORT + 1) 0x0A;
   Store16 MPENTRY_WRV 0; Store16 (MPENTRY_WRV + 2) (u16 (Z.shiftr addr 4));
   lapic_write ICRHI (Z.shiftl apicid 24);
   lapic_write ICRLO (Z.lor (Z.lor INIT LEVEL) _ASSERT); Delay 100;
   lapic_write ICRLO (Z.lor INIT LEVEL); Delay 200] ++
  concat (replicate 2
    [lapic_write ICRHI (Z.shiftl apicid 24);
     lapic_write ICRLO (Z.lor STARTUP (Z.shiftr addr 12)); Delay 200]).

(** [void lapic_send_ipi_bcast(int vector)] and its siblings *)
Definition lapic_send_ipi_bcast (vector : Z) : list action :=
  [lapic_write ICRLO (Z.lor (Z.lor FIXED BCAST) vector)].
Definition lapic_send_ipi_mcast (vector : Z) : list action :=
  [lapic_write ICRLO (Z.lor (Z.lor FIXED MCAST) vector)].
Definition lapic_send_ipi_self (vector : Z) : list action :=
  [lapic_write ICRLO (Z.lor (Z.lor FIXED SELF) vector)].

(** [void smp_halt_others()] and [void smp_tick_others()] of [src/mproc.c] *)
Definition smp_halt_others (ismp : bool) : list action :=
  if negb ismp then [] else lapic_send_ipi_mcast IRQ_STOP_CPU.
Definition smp_tick_others (ismp : bool) : list action :=
  if negb ismp then [] else lapic_send_ipi_mcast IRQ_TIMER.

(** ** What the command register means *)

(** The fields of an interrupt command (Intel's layout): vector, delivery mode, level,
    trigger and destination shorthand. *)
Record command : Type := Command {
  c_vector : Z; c_mode : Z; c_level : bool; c_trigger : bool; c_short : Z;
}.

Definition decode (v : Z) : command :=
  Command (Z.land v 0xFF) (Z.land (Z.shiftr v 8) 7) (Z.testbit v 14) (Z.testbit v 15)
    (Z.land (Z.shiftr v 18) 3).

(** The commands among the actions, each with its destination register. *)
Fixpoint commands (dest : Z) (l : list action) : list (Z * command) :=
  match l with
  | [] => []
  | Reg i v :: l =>
      if i =? ICRHI then commands v l
      else if i =? ICRLO then (dest, decode v) :: commands dest l
      else commands dest l
  | _ :: l => commands dest l
  end.

(** Vectors in the low byte do not meet the other fields. *)
Lemma lor_byte_bits hi v :
  0 ≤ v < 256 → hi `mod` 256 = 0 → 0 ≤ hi < 4294967296 → u32 (Z.lor hi v) = hi + v.
Proof.
  intros Hv Hm Hh. rewrite (lor_aligned hi v 8) by done. apply u32_small. unfold is_u32. dlia.
Qed.

Lemma low_byte hi v : 0 ≤ v < 256 → hi `mod` 256 = 0 → Z.land (hi + v) 0xFF = v.
Proof.
  intros Hv Hm. change 0xFF with (Z.ones 8). rewrite Z.land_ones by lia. change (2 ^ 8) with 256. dlia.
Qed.

Lemma high_part hi v k : 0 ≤ v < 256 → hi `mod` 256 = 0 → 8 ≤ k → Z.shiftr (hi + v) k = Z.shiftr hi k.
Proof.
  intros Hv Hm Hk. replace k with (8 + (k - 8)) by lia. rewrite <- !Z.shiftr_shiftr by lia.
  f_equal. rewrite !Z.shiftr_div_pow2 by lia. change (2 ^ 8) with 256. dlia.
Qed.

Lemma high_bit hi v k : 0 ≤ v < 256 → hi `mod` 256 = 0 → 8 ≤ k → Z.testbit (hi + v) k = Z.testbit hi k.
Proof.
  intros Hv Hm Hk. rewrite <- (Z.add_0_l k), <- !Z.shiftr_spec by lia. by rewrite high_part.
Qed.

Lemma decode_byte hi v :
  0 ≤ v < 256 → hi `mod` 256 = 0 →
  decode (hi + v) = Command v (Z.land (Z.shiftr hi 8) 7) (Z.testbit hi 14) (Z.testbit hi 15)
                      (Z.land (Z.shiftr hi 18) 3).
Proof.
  intros Hv Hm. unfold decode. by rewrite low_byte, !high_part, !high_bit by (done || lia).
Qed.
Lemma startup_command v : 0 ≤ v < 256 → decode (u32 (Z.lor STARTUP v)) = Command v 6 false false 0.
Proof.
  intros Hv. unfold STARTUP. rewrite lor_byte_bits by (done || lia). by rewrite decode_byte.
Qed.

(** [lapic_startap] follows the universal startup algorithm. For a page below 1 MiB it points
    the warm reset vector at the code and sends its target, in this order and nothing else:
    INIT asserted, INIT deasserted (both level triggered), and twice STARTUP with the page of
    the code as its vector. *)
Theorem lapic_startap_protocol apicid addr dest :
  0 ≤ apicid < 256 → 0 ≤ addr < 0x100000 → addr `mod` 4096 = 0 →
  let to := 16777216 * apicid in
  let page := addr / 4096 in
  commands dest (lapic_startap apicid addr) =
    [(to, Command 0 5 true true 0); (to, Command 0 5 false true 0);
     (to, Command page 6 false false 0); (to, Command page 6 false false 0)] ∧
  (∃ seg, Store16 (MPENTRY_WRV + 2) seg ∈ lapic_startap apicid addr ∧
          Store16 MPENTRY_WRV 0 ∈ lapic_startap apicid addr ∧ 16 * seg = addr).
Proof.
  intros Ha Hr Hm. cbn zeta.
  assert (Hto : u32 (Z.shiftl apicid 24) = 16777216 * apicid).
  { rewrite Z.shiftl_mul_pow2 by lia. change (2 ^ 24) with 16777216.
    rewrite Z.mul_comm. apply u32_small. unfold is_u32. lia. }
  assert (Hpg : Z.shiftr addr 12 = addr / 4096) by (by rewrite Z.shiftr_div_pow2).
  assert (Hsg : Z.shiftr addr 4 = addr / 16) by (by rewrite Z.shiftr_div_pow2).
  split.
  - unfold lapic_startap, lapic_write. cbn [app concat replicate commands Z.eqb ICRHI ICRLO Z.div].
    cbn -[u32 decode Z.lor Z.shiftl Z.shiftr Z.div]. rewrite Hto, Hpg.
    rewrite !startup_command by dlia. done.
  - exists (addr / 16). unfold lapic_startap. rewrite Hsg.
    assert (u16 (addr / 16) = addr / 16) as -> by (apply Z.mod_small; dlia).
    split_and!; [set_solver|set_solver|dlia].
Qed.

Lemma lapic_startap_protocol_witness :
  commands 0 (lapic_startap 1 0x4000) =
    [(16777216, Command 0 5 true true 0); (16777216, Command 0 5 false true 0);
     (16777216, Command 4 6 false false 0); (16777216, Command 4 6 false false 0)].
Proof. apply (lapic_startap_protocol 1 0x4000 0); [lia|lia|reflexivity]. Defined.

(** An interprocessor interrupt carries its vector, fixed delivery, to the processors named. *)
Theorem lapic_ipi_commands vector dest :
  0 ≤ vector < 256 →
  commands dest (lapic_send_ipi_self vector) = [(dest, Command vector 0 false false 1)] ∧
  commands dest (lapic_send_ipi_bcast vector) = [(dest, Command vector 0 false false 2)] ∧
  commands dest (lapic_send_ipi_mcast vector) = [(dest, Command vector 0 false false 3)].
Proof.
  intros Hv. unfold lapic_send_ipi_self, lapic_send_ipi_bcast, lapic_send_ipi_mcast, lapic_write.
  unfold FIXED, SELF, BCAST, MCAST. rewrite !Z.lor_0_l, !lor_byte_bits by (done || lia).
  cbn -[decode Z.add]. rewrite !decode_byte by (done || lia). done.
Qed.

(** The timer is calibrated against the clock: when the count fell by [d] within one second, the
    period is chosen so that [frequency] periods fit in the second, and one more would not. *)
Theorem lapic_timer_calibrated frequency ccr s1 s2 n1 n2 rest s3 :
  0 < frequency < 4294967296 → is_u32 ccr → s2 ≠ s1 → s3 ≠ s2 →
  let d := 0xFFFFFFFF - ccr in
  ∃ icr, lapic_init_timer frequency ccr
           (s1 :: replicate n1 s1 ++ s2 :: replicate n2 s2 ++ s3 :: rest)
         = Ret (lapic_set_timer 0xFFFFFFFF ++ lapic_set_timer icr) ∧
    frequency * icr ≤ d < frequency * (icr + 1).
Proof.
  intros Hf Hc H2 H3 d. exists (d / frequency).
  assert (Hw : ∀ s n t l, t ≠ s → wait_second s (replicate n s ++ t :: l) = Ret (t, l)).
  { intros s n t l Ht. induction n as [|n IH]; cbn; [|by rewrite Z.eqb_refl].
    by rewrite (proj2 (Z.eqb_neq _ _) Ht). }
  unfold lapic_init_timer. rewrite Hw by done. cbn [mbind res_bind]. rewrite Hw by done.
  cbn [mbind res_bind]. rewrite (u32_small (_ - ccr)) by (unfold is_u32 in *; lia).
  split; [done|]. fold d. pose proof (Z.mul_div_le d frequency). pose proof (Z.mul_succ_div_gt d frequency).
  lia.
Qed.
End Lapic.

(** ** The I/O APIC *)

Module Ioapic.
Definition REG_ID : Z := 0.
Definition REG_VER : Z := 1.
Definition REG_TABLE : Z := 0x10.
Definition INT_DISABLED : Z := 0x10000.
Definition IRQ0 : Z := 32.

(** [ioapic_t]: the selected register, and the registers behind the window. *)
Record ioapic_t : Type := IoApic { reg : Z; table : Z → Z }.

(** [static uint_t ioapic_read(uint_t reg)] *)
Definition ioapic_read (r : Z) (io : ioapic_t) : Z * ioapic_t :=
  (table io r, IoApic r (table io)).

(** [static void ioapic_write(uint_t reg, uint_t data)] *)
Definition ioapic_write (r data : Z) (io : ioapic_t) : ioapic_t :=
  IoApic r (<[r := u32 data]> (table io)).

(** [for (i = 0; i <= maxintr; i++)], [n] rounds from [i] on *)
Fixpoint mask_loop (n : nat) (i : Z) (io : ioapic_t) : ioapic_t :=
  match n with
  | O => io
  | S n =>
      let io := ioapic_write (REG_TABLE + 2 * i) (Z.lor INT_DISABLED (IRQ0 + i)) io in
      let io := ioapic_write (REG_TABLE + 2 * i + 1) 0 io in
      mask_loop n (i + 1) io
  end.

(** [void init_io_apic()] *)
Definition init_io_apic (ismp : bool) (ioapic_id : Z) (io : ioapic_t) : res ioapic_t :=
  if negb ismp then Ret io
  else
    let '(v, io) := ioapic_read REG_VER io in
    let maxintr := Z.land (Z.shiftr v 16) 0xFF in
    let '(v, io) := ioapic_read REG_ID io in
    let id := Z.shiftr v 24 in
    if negb (id =? ioapic_id) then Panic "ioapicinit: id not equal to IO-APIC ID"
    else Ret (mask_loop (Z.to_nat (maxintr + 1)) 0 io).

(** [void ioapic_enable(int irq, int cpuid)] *)
Definition ioapic_enable (ismp : bool) (irq cpuid : Z) (io : ioapic_t) : ioapic_t :=
  if negb ismp then io
  else
    let io := ioapic_write (u32 (REG_TABLE + 2 * irq - IRQ0)) irq io in
    ioapic_write (u32 (REG_TABLE + 2 * irq - IRQ0 + 1)) (Z.shiftl cpuid 24) io.

(** ** Lemmas *)

(** Entry [i] of the redirection table: vector, mask bit and destination. *)
Record entry : Type := Entry { e_vector : Z; e_masked : bool; e_dest : Z }.

Definition entry_of (io : ioapic_t) (i : Z) : entry :=
  let lo := table io (REG_TABLE + 2 * i) in
  let hi := table io (REG_TABLE + 2 * i + 1) in
  Entry (Z.land lo 0xFF) (Z.testbit lo 16) (Z.shiftr hi 24).

Lemma mask_loop_spec n : ∀ i io,
  (∀ j, i ≤ j < i + Z.of_nat n →
     table (mask_loop n i io) (REG_TABLE + 2 * j) = u32 (Z.lor INT_DISABLED (IRQ0 + j)) ∧
     table (mask_loop n i io) (REG_TABLE + 2 * j + 1) = 0) ∧
  (∀ r, r < REG_TABLE + 2 * i ∨ REG_TABLE + 2 * (i + Z.of_nat n) ≤ r →
     table (mask_loop n i io) r = table io r).
Proof.
  induction n as [|n IH]; intros i io; cbn [mask_loop]; [split; [lia|done]|].
  destruct (IH (i + 1) (ioapic_write (REG_TABLE + 2 * i + 1) 0
    (ioapic_write (REG_TABLE + 2 * i) (Z.lor INT_DISABLED (IRQ0 + i)) io))) as [H1 H2].
  split.
  - intros j Hj. destruct (decide (j = i)) as [->|]; [|apply H1; lia].
    rewrite !H2 by lia. cbn [ioapic_write table].
    rewrite fn_lookup_insert, fn_lookup_insert_ne, fn_lookup_insert by lia. done.
  - intros r Hr. rewrite H2 by lia. cbn [ioapic_write table].
    rewrite !fn_lookup_insert_ne by lia. done.
Qed.

(** [init_io_apic] on a multiprocessor masks every interrupt. When the id register agrees with
    the MP table it returns with each entry of the redirection table masked, set to its own
    vector and routed nowhere, and no other register of the controller changed; a wrong id is
    a panic, and on a single processor nothing is touched. *)
Theorem init_io_apic_masks_all ismp ioapic_id io :
  0 ≤ table io REG_VER →
  let maxintr := Z.land (Z.shiftr (table io REG_VER) 16) 0xFF in
  match init_io_apic ismp ioapic_id io with
  | Ret io' =>
      ismp = false ∧ io' = io ∨
      ismp = true ∧ Z.shiftr (table io REG_ID) 24 = ioapic_id ∧
      (∀ i, 0 ≤ i ≤ maxintr → i < 224 → entry_of io' i = Entry (IRQ0 + i) true 0) ∧
      (∀ r, r < REG_TABLE ∨ REG_TABLE + 2 * maxintr + 1 < r → table io' r = table io r)
  | Panic _ => ismp = true ∧ Z.shiftr (table io REG_ID) 24 ≠ ioapic_id
  | Diverge => False
  end.
Proof.
  intros Hv maxintr. unfold init_io_apic. destruct ismp; cbn [negb]; [|by left].
  cbn [ioapic_read table]. fold maxintr.
  destruct (Z.eqb_spec (Z.shiftr (table io REG_ID) 24) ioapic_id) as [E|E]; cbn [negb]; [|done].
  assert (Hm : 0 ≤ maxintr < 256).
  { unfold maxintr. change 0xFF with (Z.ones 8). rewrite Z.land_ones by lia. apply Z.mod_pos_bound. done. }
  destruct (mask_loop_spec (Z.to_nat (maxintr + 1)) 0 (IoApic REG_ID (table io))) as [H1 H2].
  right. split; [done|]. split; [done|]. split.
  - intros i Hi Hi'. unfold entry_of. destruct (H1 i) as [-> ->]; [lia|].
    unfold INT_DISABLED, IRQ0. rewrite Lapic.lor_byte_bits by (done || lia).
    rewrite Lapic.low_byte, Lapic.high_bit by (done || lia). done.
  - intros r Hr. rewrite H2; [done|]. lia.
Qed.

Definition demo_ioapic : ioapic_t :=
  IoApic 0 (λ r, if r =? 0 then 0x02000000 else if r =? 1 then 0x170011 else 7).

Lemma init_io_apic_masks_all_witness :
  match init_io_apic true 2 demo_ioapic with
  | Ret io' => entry_of io' 23 = Entry 55 true 0 | _ => False end.
Proof.
  pose proof (init_io_apic_masks_all true 2 demo_ioapic ltac:(vm_compute; discriminate)) as H.
  cbn zeta in H. destruct (init_io_apic true 2 demo_ioapic) as [io'|msg|] eqn:E.
  - destruct H as [[? _]|(_&_&H&_)]; [done|]. apply H; [vm_compute; split; discriminate|reflexivity].
  - vm_compute in E. discriminate E.
  - done.
Defined.

(** The register [ioapic_enable] writes is not the entry of its interrupt: for the vector of
    interrupt line [n] it is the entry of line [n + 16], and entry [n] stays as it was. *)
Theorem ioapic_enable_wrong_entry n cpuid io :
  0 ≤ n < 16 → 0 ≤ cpuid < 256 →
  entry_of (ioapic_enable true (IRQ0 + n) cpuid io) n = entry_of io n ∧
  entry_of (ioapic_enable true (IRQ0 + n) cpuid io) (n + 16) = Entry (IRQ0 + n) false cpuid.
Proof.
  intros Hn Hc. unfold ioapic_enable. cbn [negb].
  rewrite !u32_small by (unfold is_u32, REG_TABLE, IRQ0; lia).
  unfold entry_of, ioapic_write. cbn [table]. unfold REG_TABLE, IRQ0.
  replace (16 + 2 * (n + 16)) with (16 + 2 * (32 + n) - 32) by lia.
  rewrite !fn_lookup_insert, !fn_lookup_insert_ne by lia. rewrite fn_lookup_insert.
  split; [done|]. assert (Hs : Z.shiftl cpuid 24 = cpuid * 16777216) by (by rewrite Z.shiftl_mul_pow2).
  rewrite Hs, (u32_small (32 + n)), (u32_small (cpuid * _)) by (unfold is_u32; lia). f_equal.
  - change 255 with (Z.ones 8). rewrite Z.land_ones by lia. apply Z.mod_small. lia.
  - apply Z.bits_above_log2; [lia|]. apply Z.log2_lt_pow2; lia.
  - rewrite <- Hs, Z.shiftr_shiftl_l by lia. by rewrite Z.shiftl_0_r.
Qed.
End Ioapic.
