(* ===== verification/Rtc.v ===== *)
(** * The real-time clock: [src/rtc.c]

    The CMOS registers change on their own while the code reads them one at a time: [cmos t]
    is the register file at the [t]-th read. A function takes the number of the next read and
    returns the number of the one after its last. *)
From S2P Require Import Prelude.

Definition SECS : Z := 0x00.
Definition MINS : Z := 0x02.
Definition HOURS : Z := 0x04.
Definition DAY : Z := 0x07.
Definition MONTH : Z := 0x08.
Definition YEAR : Z := 0x09.
Definition CMOS_STATA : Z := 0x0a.
Definition CMOS_STATB : Z := 0x0b.
Definition CMOS_UIP : Z := Z.shiftl 1 7.

(** [rtcdate_t] *)
Record rtcdate_t : Type := RtcDate {
  second : Z; minute : Z; hour : Z; day : Z; month : Z; year : Z;
}.

#[export] Instance rtcdate_eq_dec : EqDecision rtcdate_t.
Proof. solve_decision. Defined.

Section Rtc.
Context (cmos : nat → Z → Z).

(** [for (i = 0; i < factor; i++) body] *)
Fixpoint count_up (fuel : nat) (i factor : Z) (body : res unit) : res unit :=
  match fuel with
  | O => Diverge
  | S fuel =>
      if i <? factor then _ ← body; count_up fuel (u32 (i + 1)) factor body else Ret ()
  end.

(** [inline static void rtc_test_delay(uint_t factor)] *)
Definition rtc_test_delay (factor : Z) : res unit :=
  let factor := if factor =? 0xFFFFFFFF then u32 (factor - 1) else factor in
  let rounds := S (Z.to_nat factor) in
  count_up rounds 0 factor (count_up rounds 0 factor (Ret ())).

Lemma count_up_returns n : ∀ i factor body,
  body = Ret () → 0 ≤ i → is_u32 factor → factor - i ≤ Z.of_nat n → count_up (S n) i factor body = Ret ().
Proof.
  induction n as [|n IH]; intros i factor body -> Hi Hf Hn; unfold is_u32 in Hf.
  - cbn [count_up]. by rewrite (proj2 (Z.ltb_ge i factor)) by lia.
  - change (count_up (S (S n)) i factor (Ret ())) with
      (if i <? factor then _ ← Ret (); count_up (S n) (u32 (i + 1)) factor (Ret ()) else Ret ()).
    destruct (Z.ltb_spec i factor); [|done]. cbn [mbind res_bind].
    apply IH; [done|..]; rewrite ?u32_small by (unfold is_u32; lia); unfold is_u32; lia.
Qed.

(** The delay ends for every factor: the counters are below the factor before they wrap. *)
Lemma rtc_test_delay_returns factor : is_u32 factor → rtc_test_delay factor = Ret ().
Proof.
  intros Hf. unfold rtc_test_delay. cbv zeta.
  set (f := if factor =? 0xFFFFFFFF then u32 (factor - 1) else factor).
  assert (is_u32 f) by (subst f; destruct (factor =? 0xFFFFFFFF); [apply u32_range|done]).
  unfold is_u32 in *. apply count_up_returns; [apply count_up_returns; [done|..]|..]; unfold is_u32; lia.
Qed.

(** [static uint_t cmos_read(uint_t reg)]; the delay between the two port accesses is
    [rtc_test_delay]. *)
Definition cmos_read (reg : Z) (t : nat) : Z * nat := (u8 (cmos t reg), S t).

(** [static void fill_rtcdate(rtcdate_t *rtc)] *)
Definition fill_rtcdate (t : nat) : rtcdate_t * nat :=
  let '(s, t) := cmos_read SECS t in
  let '(mi, t) := cmos_read MINS t in
  let '(h, t) := cmos_read HOURS t in
  let '(d, t) := cmos_read DAY t in
  let '(mo, t) := cmos_read MONTH t in
  let '(y, t) := cmos_read YEAR t in
  (RtcDate s mi h d mo y, t).

(** The [for (;;)] of [rtc_time]; the comparison is of all the bytes of both structures. *)
Fixpoint rtc_stable (fuel : nat) (t : nat) : res (rtcdate_t * nat) :=
  match fuel with
  | O => Diverge
  | S fuel =>
      let '(t1, t) := fill_rtcdate t in
      let '(a, t) := cmos_read CMOS_STATA t in
      if negb (Z.land a CMOS_UIP =? 0) then rtc_stable fuel t
      else
        let '(t2, t) := fill_rtcdate t in
        if bool_decide (t1 = t2) then Ret (t1, t) else rtc_stable fuel t
  end.

(** [#define CONV(x) (t1.x = ((t1.x >> 4) * 10) + (t1.x & 0xf))] *)
Definition CONV (x : Z) : Z := Z.shiftr x 4 * 10 + Z.land x 0xf.

Definition convert (d : rtcdate_t) : rtcdate_t :=
  RtcDate (CONV (second d)) (CONV (minute d)) (CONV (hour d)) (CONV (day d)) (CONV (month d))
    (CONV (year d)).

(** [void rtc_time(rtcdate_t *rtc)] *)
Definition rtc_time (fuel : nat) (t : nat) : res (rtcdate_t * nat) :=
  let '(sb, t) := cmos_read CMOS_STATB t in
  let bcd := Z.land sb (Z.shiftl 1 2) =? 0 in
  '(t1, t) ← rtc_stable fuel t;
  let t1 := if bcd then convert t1 else t1 in
  Ret (RtcDate (second t1) (minute t1) (hour t1) (day t1) (month t1) (u32 (year t1 + 2000)), t).

(** [do { rtc_time(&rtc1); } while (rtc1.second == rtc2.second);] *)
Fixpoint wait_change (rounds fuel : nat) (s : Z) (t : nat) : res nat :=
  match rounds with
  | O => Diverge
  | S rounds =>
      '(rtc1, t) ← rtc_time fuel t;
      if second rtc1 =? s then wait_change rounds fuel s t else Ret t
  end.

(** [void rtc_delay(uint_t seconds)] *)
Fixpoint rtc_delay (seconds rounds fuel : nat) (t : nat) : res nat :=
  match seconds with
  | O => Ret t
  | S seconds =>
      '(rtc2, t) ← rtc_time fuel t;
      t ← wait_change rounds fuel (second rtc2) t;
      rtc_delay seconds rounds fuel t
  end.

(** ** Snapshots *)

(** The date in a register file. *)
Definition date_of (r : Z → Z) : rtcdate_t :=
  RtcDate (u8 (r SECS)) (u8 (r MINS)) (u8 (r HOURS)) (u8 (r DAY)) (u8 (r MONTH)) (u8 (r YEAR)).

(** At most one update of the date from read [t] on, for [n] reads. *)
Definition one_update (t n : nat) : Prop :=
  ∃ c, ∀ i, (t ≤ i < t + n)%nat →
    date_of (cmos i) = if (i <? c)%nat then date_of (cmos t) else date_of (cmos (t + n - 1)).

Lemma fill_rtcdate_fields t :
  fill_rtcdate t = (RtcDate (second (date_of (cmos t))) (minute (date_of (cmos (1 + t))))
    (hour (date_of (cmos (2 + t)))) (day (date_of (cmos (3 + t))))
    (month (date_of (cmos (4 + t)))) (year (date_of (cmos (5 + t)))), (6 + t)%nat).
Proof. done. Qed.

(** Two equal readings with at most one update during them are a snapshot. *)
Lemma equal_readings_snapshot t :
  one_update t 13 → (fill_rtcdate t).1 = (fill_rtcdate (7 + t)).1 →
  (fill_rtcdate t).1 = date_of (cmos t) ∨ (fill_rtcdate t).1 = date_of (cmos (t + 12)).
Proof.
  intros [c Hc]. rewrite !fill_rtcdate_fields. cbn [fst].
  replace (t + 13 - 1)%nat with (t + 12)%nat in Hc by lia.
  set (D := date_of (cmos t)) in *. set (D' := date_of (cmos (t + 12))) in *.
  assert (HD : ∀ k, (k < 13)%nat →
    date_of (cmos (k + t)) = if (k + t <? c)%nat then D else D').
  { intros k Hk. apply Hc. lia. }
  change (1 + (7 + t))%nat with (8 + t)%nat. change (2 + (7 + t))%nat with (9 + t)%nat.
  change (3 + (7 + t))%nat with (10 + t)%nat. change (4 + (7 + t))%nat with (11 + t)%nat.
  change (5 + (7 + t))%nat with (12 + t)%nat.
  rewrite !HD by lia. clear HD Hc. clearbody D D'. destruct D as [a0 a1 a2 a3 a4 a5], D' as [b0 b1 b2 b3 b4 b5].
  destruct (Nat.ltb_spec (7 + t) c).
  - intros _. left.
    repeat match goal with |- context [(?x <? c)%nat] => destruct (Nat.ltb_spec x c); [|lia] end.
    done.
  - destruct (Nat.ltb_spec (8 + t) c), (Nat.ltb_spec (9 + t) c), (Nat.ltb_spec (10 + t) c),
      (Nat.ltb_spec (11 + t) c), (Nat.ltb_spec (12 + t) c); try lia.
    intros ->. by right.
Qed.

Lemma rtc_stable_snapshot fuel : ∀ t d t',
  (∀ u, (t ≤ u)%nat → one_update u 13) → rtc_stable fuel t = Ret (d, t') →
  ∃ i, (t ≤ i < t')%nat ∧ d = date_of (cmos i).
Proof.
  induction fuel as [|fuel IH]; intros t d t' Hu E; [done|]. cbn [rtc_stable] in E.
  rewrite (surjective_pairing (fill_rtcdate t)) in E. cbn [cmos_read] in E.
  change (fill_rtcdate t).2 with (6 + t)%nat in E. change (S (6 + t)) with (7 + t)%nat in E.
  destruct (negb _) in E.
  { apply IH in E as (i&Hi&->); [|intros u ?; apply Hu; lia]. exists i. split; [lia|done]. }
  rewrite (surjective_pairing (fill_rtcdate (7 + t))) in E.
  change (fill_rtcdate (7 + t)).2 with (13 + t)%nat in E.
  destruct (bool_decide_reflect ((fill_rtcdate t).1 = (fill_rtcdate (7 + t)).1)) as [Eq|] in E.
  - assert (Ed : (fill_rtcdate t).1 = d ∧ (13 + t)%nat = t') by (by injection E as <- <-).
    destruct Ed as [<- <-].
    destruct (equal_readings_snapshot t (Hu t ltac:(lia)) Eq) as [->| ->].
    + exists t. split; [lia|done].
    + exists (t + 12)%nat. split; [lia|done].
  - apply IH in E as (i&Hi&->); [|intros u ?; apply Hu; lia]. exists i. split; [lia|done].
Qed.

(** Once the registers keep still and no update is announced, the loop ends. *)
Lemma rtc_stable_ends n : ∀ fuel t,
  (∀ i, (n ≤ i)%nat → date_of (cmos i) = date_of (cmos n) ∧ Z.land (u8 (cmos i CMOS_STATA)) CMOS_UIP = 0) →
  (n - t < fuel)%nat → ∃ d t', rtc_stable fuel t = Ret (d, t').
Proof.
  intros fuel. induction fuel as [|fuel IH]; intros t Hq Hf; [lia|]. cbn [rtc_stable].
  rewrite (surjective_pairing (fill_rtcdate t)). cbn [cmos_read].
  change (fill_rtcdate t).2 with (6 + t)%nat. change (S (6 + t)) with (7 + t)%nat.
  rewrite (surjective_pairing (fill_rtcdate (7 + t))).
  change (fill_rtcdate (7 + t)).2 with (13 + t)%nat.
  destruct (decide (n ≤ t)%nat) as [Hn|Hn].
  - destruct (Hq (6 + t)%nat ltac:(lia)) as [_ ->]. cbn [Z.eqb negb].
    rewrite bool_decide_eq_true_2; [by eexists _, _|].
    rewrite !fill_rtcdate_fields. cbn [fst].
    assert (Hd : ∀ i, (n ≤ i)%nat → date_of (cmos i) = date_of (cmos n)) by (intros; by apply Hq).
    repeat match goal with |- context [date_of (cmos (?k + ?x)%nat)] =>
      rewrite (Hd (k + x)%nat) by lia end.
    rewrite (Hd t) by lia. done.
  - destruct (negb _); [apply IH; [done|lia]|].
    destruct (bool_decide _); [by eexists _, _|apply IH; [done|lia]].
Qed.
End Rtc.

(** ** Encodings *)

(** Two decimal digits in a byte. *)
Definition bcd_of (x : Z) : Z := 16 * (x / 10) + x `mod` 10.

Lemma CONV_bcd x : 0 ≤ x < 100 → CONV (bcd_of x) = x.
Proof.
  intros Hx. unfold CONV, bcd_of. change 15 with (Z.ones 4).
  rewrite Z.shiftr_div_pow2, Z.land_ones by lia. change (2 ^ 4) with 16. dlia.
Qed.

(** The register file of a clock that shows [d], in either of its two modes. *)
Record shows_date (bcd : bool) (r : Z → Z) (d : rtcdate_t) : Prop := {
  sd_mode : (Z.land (u8 (r CMOS_STATB)) (Z.shiftl 1 2) =? 0) = bcd;
  sd_range : ∀ x, x ∈ [second d; minute d; hour d; day d; month d; year d - 2000] → 0 ≤ x < 100;
  sd_date : date_of r =
    let e x := if bcd then bcd_of x else x in
    RtcDate (e (second d)) (e (minute d)) (e (hour d)) (e (day d)) (e (month d)) (e (year d - 2000));
}.

Lemma shows_date_decode bcd r d :
  shows_date bcd r d →
  let t1 := if bcd then convert (date_of r) else date_of r in
  RtcDate (second t1) (minute t1) (hour t1) (day t1) (month t1) (u32 (year t1 + 2000)) = d.
Proof.
  intros [_ Hr ->]. destruct d as [s mi h dd mo y]. cbn in Hr.
  assert (0 ≤ y - 2000 < 100) by (apply Hr; set_solver).
  destruct bcd; cbn [convert second minute hour day month year].
  - rewrite !CONV_bcd by (apply Hr; set_solver). replace (y - 2000 + 2000) with y by lia.
    rewrite u32_small by (unfold is_u32; lia). done.
  - replace (y - 2000 + 2000) with y by lia. rewrite u32_small by (unfold is_u32; lia). done.
Qed.

(** C31: [rtc_time] returns a time the clock showed. If the clock shows the dates [clock i], in
    binary or BCD and always in the same mode, and is updated at most once during any
    thirteen reads, then what the call returns is the date the clock showed at one instant
    during the call, never a mix of two; and the call returns once the clock keeps still
    with no update announced. *)
Theorem rtc_time_snapshot cmos clock bcd fuel t :
  (∀ i, shows_date bcd (cmos i) (clock i)) → (∀ u, one_update cmos u 13) →
  (∀ d t', rtc_time cmos fuel t = Ret (d, t') → ∃ i, (t < i < t')%nat ∧ d = clock i) ∧
  (∀ n, (∀ i, (n ≤ i)%nat → date_of (cmos i) = date_of (cmos n) ∧
                Z.land (u8 (cmos i CMOS_STATA)) CMOS_UIP = 0) →
        (n - S t < fuel)%nat → ∃ d t', rtc_time cmos fuel t = Ret (d, t')).
Proof.
  intros Hs Hu. unfold rtc_time. cbn [cmos_read]. rewrite (sd_mode _ _ _ (Hs t)). split.
  - intros d t' E. apply res_bind_Ret in E as ([t1 t2]&E&E').
    apply rtc_stable_snapshot in E as (i&Hi&->); [|auto].
    assert (Ed : RtcDate (second (if bcd then convert (date_of (cmos i)) else date_of (cmos i))) _ _ _ _ _ = d
                 ∧ t2 = t') by (injection E' as <- <-; split; reflexivity).
    destruct Ed as [<- <-]. exists i. split; [lia|]. apply shows_date_decode, Hs.
  - intros n Hq Hf. destruct (rtc_stable_ends cmos n fuel (S t) Hq Hf) as (d&t'&->). by eexists _, _.
Qed.

(** A clock in BCD mode at the end of a minute: the seconds roll over at the sixth read. *)
Definition demo_clock (i : nat) : rtcdate_t :=
  if (i <? 6)%nat then RtcDate 59 30 12 24 12 2015 else RtcDate 0 31 12 24 12 2015.
Definition demo_cmos (i : nat) (r : Z) : Z :=
  let d := demo_clock i in
  if r =? SECS then bcd_of (second d) else if r =? MINS then bcd_of (minute d)
  else if r =? HOURS then bcd_of (hour d) else if r =? DAY then bcd_of (day d)
  else if r =? MONTH then bcd_of (month d) else if r =? YEAR then bcd_of (year d - 2000) else 0.

Lemma rtc_time_snapshot_witness :
  ∃ d t', rtc_time demo_cmos 40 0 = Ret (d, t') ∧ ∃ i, d = demo_clock i.
Proof.
  destruct (rtc_time_snapshot demo_cmos demo_clock true 40 0) as [H1 H2].
  - intros i. unfold demo_cmos, demo_clock.
    destruct (i <? 6)%nat; (split; [reflexivity| |reflexivity]); intros x Hx; cbn in Hx;
      repeat (apply elem_of_cons in Hx as [->|Hx]; [lia|]); by apply elem_of_nil in Hx.
  - intros u. exists 6%nat. intros i Hi. unfold demo_cmos, demo_clock.
    destruct (Nat.ltb_spec i 6), (Nat.ltb_spec u 6), (Nat.ltb_spec (u + 13 - 1) 6); try lia; reflexivity.
  - destruct (H2 6%nat) as (d&t'&E).
    + intros i Hi. unfold demo_cmos, demo_clock. destruct (Nat.ltb_spec i 6); [lia|]. split; reflexivity.
    + lia.
    + exists d, t'. split; [exact E|]. destruct (H1 d t' E) as (i&_&Hd). exists i. exact Hd.
Defined.
