(* ===== verification/Ide.v ===== *)
(** * The IDE disk driver: [src/ide_pio.c]

    Requests wait in a list linked through the [qnext] fields of the buffers; the first is the one
    the disk works on. What the driver sends to the ports is recorded in order; what it reads from
    the status port, and the words of a sector, are inputs. [ide_rw] is modelled up to the point
    where it waits for its buffer, which the interrupt handler finishes. *)
From S2P Require Import Prelude.

Definition IDE_BSY : Z := 0x80.
Definition IDE_DRDY : Z := 0x40.
Definition IDE_DF : Z := 0x20.
Definition IDE_ERR : Z := 0x01.
Definition IDE_CMD_READ : Z := 0x20.
Definition IDE_CMD_WRITE : Z := 0x30.
Definition B_BUSY : Z := 1.
Definition B_VALID : Z := 2.
Definition B_DIRTY : Z := 4.

(** [struct buf]; the LRU links are not used here. [data] is 128 words. *)
Record buf : Type := Buf {
  flags : Z; dev : Z; sector : Z; qnext : Z; data : list Z;
}.

Inductive io : Type :=
  | OutB (port value : Z)
  | OutSl (port : Z) (words : list Z).

Record ide : Type := Ide {
  bufs : Z → buf;
  idequeue : Z;
  havedisk1 : bool;
  sent : list io;
}.

Definition set_buf (p : Z) (b : buf) (st : ide) : ide :=
  Ide (<[p := b]> (bufs st)) (idequeue st) (havedisk1 st) (sent st).
Definition set_queue (p : Z) (st : ide) : ide := Ide (bufs st) p (havedisk1 st) (sent st).
Definition send (l : list io) (st : ide) : ide :=
  Ide (bufs st) (idequeue st) (havedisk1 st) (sent st ++ l).

Definition set_qnext (q : Z) (b : buf) : buf := Buf (flags b) (dev b) (sector b) q (data b).
Definition set_flags (f : Z) (b : buf) : buf := Buf f (dev b) (sector b) (qnext b) (data b).
Definition set_data (d : list Z) (b : buf) : buf := Buf (flags b) (dev b) (sector b) (qnext b) d.

(** ** Operations *)

(** [static int ide_wait(int checkerr)] on the values of the status port *)
Fixpoint ide_wait (checkerr : bool) (reads : list Z) : res (Z * list Z) :=
  match reads with
  | [] => Diverge
  | r :: reads =>
      if negb (Z.land r (Z.lor IDE_BSY IDE_DRDY) =? IDE_DRDY) then ide_wait checkerr reads
      else if checkerr && negb (Z.land r (Z.lor IDE_DF IDE_ERR) =? 0) then Ret (-1, reads)
      else Ret (0, reads)
  end.

(** [for (i = 0; i < 1000; i++) if (inb(0x1f7) != 0) { havedisk1 = 1; break; }] *)
Fixpoint probe (n : nat) (reads : list Z) (have : bool) : res (bool * list Z) :=
  match n with
  | O => Ret (have, reads)
  | S n =>
      match reads with
      | [] => Diverge
      | r :: reads => if negb (r =? 0) then Ret (true, reads) else probe n reads have
      end
  end.

(** [void ide_init(void)] *)
Definition ide_init (reads : list Z) (st : ide) : res (ide * list Z) :=
  '(_, reads) ← ide_wait false reads;
  let st := send [OutB 0x1f6 (Z.lor 0xe0 (Z.shiftl 1 4))] st in
  '(have, reads) ← probe 1000 reads (havedisk1 st);
  let st := Ide (bufs st) (idequeue st) have (sent st) in
  Ret (send [OutB 0x1f6 (Z.lor 0xe0 (Z.shiftl 0 4))] st, reads).

(** The port writes of [ide_start] *)
Definition start_io (b : buf) : list io :=
  [OutB 0x3f6 0; OutB 0x1f2 1;
   OutB 0x1f3 (Z.land (sector b) 0xff);
   OutB 0x1f4 (Z.land (Z.shiftr (sector b) 8) 0xff);
   OutB 0x1f5 (Z.land (Z.shiftr (sector b) 16) 0xff);
   OutB 0x1f6 (u8 (Z.lor (Z.lor 0xe0 (Z.shiftl (Z.land (dev b) 1) 4))
                     (Z.land (Z.shiftr (sector b) 24) 0x0f)))] ++
  (if negb (Z.land (flags b) B_DIRTY =? 0) then [OutB 0x1f7 IDE_CMD_WRITE; OutSl 0x1f0 (data b)]
   else [OutB 0x1f7 IDE_CMD_READ]).

(** [static void ide_start(struct buf *b)] *)
Definition ide_start (b : Z) (reads : list Z) (st : ide) : res (ide * list Z) :=
  if b =? 0 then Panic "ide_start"
  else
    '(_, reads) ← ide_wait false reads;
    Ret (send (start_io (bufs st b)) st, reads).

(** [static void ide_int_handler(registers_t *regs)]; [words] is what [insl] reads. *)
Definition ide_int_handler (reads words : list Z) (st : ide) : res (ide * list Z) :=
  let b := idequeue st in
  if b =? 0 then Ret (st, reads)
  else
    let st := set_queue (qnext (bufs st b)) st in
    '(st, reads) ←
      (if Z.land (flags (bufs st b)) B_DIRTY =? 0 then
         '(r, reads) ← ide_wait true reads;
         Ret (if 0 <=? r then set_buf b (set_data words (bufs st b)) st else st, reads)
       else Ret (st, reads));
    let st := set_buf b (set_flags (Z.lor (flags (bufs st b)) B_VALID) (bufs st b)) st in
    let st := set_buf b (set_flags (Z.land (flags (bufs st b)) (Z.lnot B_DIRTY)) (bufs st b)) st in
    if negb (idequeue st =? 0) then ide_start (idequeue st) reads st else Ret (st, reads).

(** [for (pp = &idequeue; *pp; pp = &( *pp)->qnext);] from a buffer on: the last buffer *)
Fixpoint last_buf (fuel : nat) (p : Z) (bs : Z → buf) : res Z :=
  match fuel with
  | O => Diverge
  | S fuel => if qnext (bs p) =? 0 then Ret p else last_buf fuel (qnext (bs p)) bs
  end.

(** [void ide_rw(struct buf *b)] up to its wait *)
Definition ide_rw (fuel : nat) (b : Z) (reads : list Z) (st : ide) : res (ide * list Z) :=
  if Z.land (flags (bufs st b)) B_BUSY =? 0 then Panic "ide_rw: buf not busy"
  else if Z.land (flags (bufs st b)) (Z.lor B_VALID B_DIRTY) =? B_VALID
  then Panic "ide_rw: nothing to do"
  else if negb (dev (bufs st b) =? 0) && negb (havedisk1 st)
  then Panic "ide_rw: ide disk 1 not present"
  else
    let st := set_buf b (set_qnext 0 (bufs st b)) st in
    st ← (if idequeue st =? 0 then Ret (set_queue b st)
          else
            p ← last_buf fuel (idequeue st) (bufs st);
            Ret (set_buf p (set_qnext b (bufs st p)) st));
    if idequeue st =? b then ide_start b reads st else Ret (st, reads).

(** [while ((b->flags & (B_VALID | B_DIRTY)) != B_VALID)]: the wait is over. *)
Definition rw_done (b : Z) (st : ide) : bool :=
  Z.land (flags (bufs st b)) (Z.lor B_VALID B_DIRTY) =? B_VALID.

(** ** The queue *)

(** The buffers linked from [p] on. *)
Fixpoint chain (bs : Z → buf) (p : Z) (l : list Z) : Prop :=
  match l with
  | [] => p = 0
  | b :: l => p = b ∧ b ≠ 0 ∧ chain bs (qnext (bs b)) l
  end.

Lemma chain_agree bs bs' l : ∀ p,
  (∀ b, b ∈ l → qnext (bs' b) = qnext (bs b)) → chain bs p l → chain bs' p l.
Proof.
  induction l as [|b l IH]; intros p Ha Hc; [done|]. destruct Hc as (->&Hb&Hc).
  split; [done|]. split; [done|]. rewrite Ha by left. apply IH; [|done]. intros x Hx. apply Ha. by right.
Qed.

Lemma last_buf_spec bs l : ∀ fuel p b,
  chain bs p (l ++ [b]) → (length l < fuel)%nat → last_buf fuel p bs = Ret b.
Proof.
  induction l as [|x l IH]; intros [|fuel] p b Hc Hf; cbn [app length] in *; try lia.
  - destruct Hc as (->&Hb&Hc). cbn in *. by rewrite Hc.
  - destruct Hc as (->&Hx&Hc). cbn. destruct (Z.eqb_spec (qnext (bs x)) 0) as [E|E].
    + destruct l; cbn in Hc; destruct Hc as (Hq&Hq0&_); congruence.
    + apply IH; [done|lia].
Qed.

Lemma chain_snoc bs p l x b :
  chain bs p (l ++ [x]) → NoDup (l ++ [x]) → b ≠ 0 → b ∉ l ++ [x] → qnext (bs b) = 0 →
  chain (<[x := set_qnext b (bs x)]> bs) p (l ++ [x] ++ [b]).
Proof.
  revert p. induction l as [|y l IH]; intros p Hc Hnd Hb Hnb Hq; cbn [app] in *.
  - destruct Hc as (->&Hx&_). split; [done|]. split; [done|]. rewrite fn_lookup_insert. cbn.
    split; [done|]. split; [done|]. rewrite fn_lookup_insert_ne by set_solver. done.
  - destruct Hc as (->&Hy&Hc). apply NoDup_cons in Hnd as [Hny Hnd].
    split; [done|]. split; [done|]. rewrite fn_lookup_insert_ne by set_solver.
    apply IH; try done; set_solver.
Qed.

(** ** Status reads *)

Definition is_ready (r : Z) : bool := Z.land r (Z.lor IDE_BSY IDE_DRDY) =? IDE_DRDY.

(** The disk becomes ready at least [k] times. *)
Definition ready (k : nat) (reads : list Z) : Prop := (k ≤ length (List.filter is_ready reads))%nat.

Lemma ide_wait_ready k ce reads :
  ready (S k) reads →
  ∃ r reads', ide_wait ce reads = Ret (r, reads') ∧ ready k reads' ∧ (r = 0 ∨ r = -1 ∧ ce = true).
Proof.
  unfold ready. induction reads as [|r reads IH]; cbn [List.filter length]; [lia|]. intros Hr.
  cbn [ide_wait]. fold (is_ready r). destruct (is_ready r); cbn [negb length] in *; [|by apply IH].
  destruct ce, (negb (Z.land r (Z.lor IDE_DF IDE_ERR) =? 0)); cbn [andb];
    eexists _, _; (split; [done|split; [lia|auto]]).
Qed.

(** ** Requests in order *)

(** The same request, wherever it is in the queue. *)
Definition same_request (b c : buf) : Prop :=
  flags b = flags c ∧ dev b = dev c ∧ sector b = sector c ∧ data b = data c.

Lemma start_io_same b c : same_request b c → start_io b = start_io c.
Proof. intros (H1&H2&H3&H4). unfold start_io. by rewrite H1, H2, H3, H4. Qed.

Lemma same_request_next q b : same_request (set_qnext q b) b.
Proof. done. Qed.

(** The requests not finished yet. *)
Definition pending (log : list (Z * buf)) (k : nat) : list (Z * buf) := drop k log.

Definition started (log : list (Z * buf)) (k : nat) : list (Z * buf) :=
  take (match pending log k with [] => k | _ => S k end) log.

(** [log] lists the requests in the order of submission, with the contents of their buffers;
    [k] of them are finished. *)
Record serving (t0 : list io) (log : list (Z * buf)) (k : nat) (st : ide) : Prop := {
  sv_chain : chain (bufs st) (idequeue st) (pending log k).*1;
  sv_nodup : NoDup (pending log k).*1;
  sv_same : ∀ b c, (b, c) ∈ pending log k → same_request (bufs st b) c;
  sv_sent : sent st = t0 ++ concat ((start_io ∘ snd) <$> started log k);
  sv_len : (k ≤ length log)%nat;
}.

Lemma ide_start_run b reads st k :
  b ≠ 0 → ready (S k) reads →
  ∃ reads', ide_start b reads st = Ret (send (start_io (bufs st b)) st, reads') ∧ ready k reads'.
Proof.
  intros Hb Hr. unfold ide_start. destruct (Z.eqb_spec b 0); [done|].
  destruct (ide_wait_ready k false reads Hr) as (r&reads'&->&Hr'&_). cbn. eauto.
Qed.

Lemma pending_snoc log k x : (k ≤ length log)%nat → pending (log ++ [x]) k = pending log k ++ [x].
Proof. intros. unfold pending. by rewrite drop_app_le. Qed.

Lemma started_snoc log k x :
  (k ≤ length log)%nat →
  started (log ++ [x]) k = started log k ++ (match pending log k with [] => [x] | _ => [] end).
Proof.
  intros Hk. unfold started. rewrite pending_snoc by done.
  destruct (pending log k) as [|y p] eqn:E; cbn [app].
  - assert (k = length log).
    { apply (f_equal length) in E. unfold pending in E. rewrite length_drop in E. cbn in E. lia. }
    subst k. rewrite !take_ge by (rewrite ?length_app; cbn; lia). done.
  - assert (k < length log)%nat.
    { apply (f_equal length) in E. unfold pending in E. rewrite length_drop in E. cbn in E. lia. }
    rewrite take_app_le by lia. by rewrite app_nil_r.
Qed.

(** What a caller of [ide_rw] has to see to. *)
Record submittable (st : ide) (log : list (Z * buf)) (k : nat) (b : Z) (c : buf) : Prop := {
  sb_null : b ≠ 0;
  sb_free : b ∉ (pending log k).*1;
  sb_busy : Z.land (flags c) B_BUSY ≠ 0;
  sb_todo : Z.land (flags c) (Z.lor B_VALID B_DIRTY) ≠ B_VALID;
  sb_disk : dev c = 0 ∨ havedisk1 st = true;
}.

Lemma ide_rw_checks fuel b c reads st log k :
  submittable st log k b c →
  ide_rw fuel b reads (set_buf b c st) =
    let st1 := set_buf b (set_qnext 0 c) (set_buf b c st) in
    st ← (if idequeue st =? 0 then Ret (set_queue b st1)
          else p ← last_buf fuel (idequeue st) (bufs st1); Ret (set_buf p (set_qnext b (bufs st1 p)) st1));
    if idequeue st =? b then ide_start b reads st else Ret (st, reads).
Proof.
  intros [Hb0 Hfr Hbu Htd Hd]. unfold ide_rw. cbn [bufs set_buf havedisk1]. rewrite fn_lookup_insert.
  rewrite (proj2 (Z.eqb_neq _ _) Hbu), (proj2 (Z.eqb_neq _ _) Htd).
  assert (negb (dev c =? 0) && negb (havedisk1 st) = false) as ->; [|done].
  destruct Hd as [->| ->]; [done|]. by rewrite andb_false_r.
Qed.

Lemma snoc_cases {A} (l : list A) : l = [] ∨ ∃ l' x, l = l' ++ [x].
Proof. destruct l as [|x l _] using rev_ind; [by left|right; eauto]. Qed.

Lemma submit_serving fuel t0 log k st b c reads :
  serving t0 log k st → submittable st log k b c → (length (pending log k) ≤ fuel)%nat → ready 1 reads →
  ∃ st' reads', ide_rw fuel b reads (set_buf b c st) = Ret (st', reads') ∧
    serving t0 (log ++ [(b, c)]) k st' ∧ havedisk1 st' = havedisk1 st.
Proof.
  intros [Hch Hnd Hsm Hst Hlen] Hsub Hf Hr. rewrite (ide_rw_checks fuel b c reads st log k Hsub). cbv zeta.
  destruct Hsub as [Hb0 Hfr _ _ _]. set (st1 := set_buf b (set_qnext 0 c) (set_buf b c st)).
  assert (Eb : bufs st1 b = set_qnext 0 c) by (cbn; by rewrite fn_lookup_insert).
  assert (Eo : ∀ x, x ≠ b → bufs st1 x = bufs st x) by (intros x Hx; cbn; by rewrite !fn_lookup_insert_ne).
  assert (Hch1 : chain (bufs st1) (idequeue st) (pending log k).*1).
  { eapply chain_agree; [|exact Hch]. intros x Hx. rewrite Eo; [done|]. intros ->. done. }
  assert (Hsm1 : ∀ x cx, (x, cx) ∈ pending log k → same_request (bufs st1 x) cx).
  { intros x cx Hx. rewrite Eo; [by apply Hsm|]. intros ->. apply Hfr, list_elem_of_fmap. by exists (b, cx). }
  change (sent st) with (sent st1) in Hst. change (havedisk1 st) with (havedisk1 st1).
  change (idequeue st) with (idequeue st1) in Hch1 |- *. clearbody st1. clear Hsm Hch Eo.
  pose proof (pending_snoc log k (b, c) Hlen) as Hps. pose proof (started_snoc log k (b, c) Hlen) as Hss.
  destruct (snoc_cases (pending log k)) as [Ep|(l&[x cx]&Ep)]; rewrite Ep in *.
  - cbn in Hch1. rewrite Hch1. cbn [Z.eqb mbind res_bind idequeue set_queue]. rewrite Z.eqb_refl.
    destruct (ide_start_run b reads (set_queue b st1) 0 Hb0 Hr) as (reads'&->&_).
    eexists _, _. split; [done|]. split; [|done]. split; rewrite ?Hps, ?Hss; cbn.
    + by rewrite Eb.
    + apply NoDup_singleton.
    + intros y cy Hy. apply list_elem_of_singleton in Hy as [= -> ->]. by rewrite Eb.
    + rewrite Hst, fmap_app, concat_app. cbn. by rewrite Eb, app_nil_r, <- (assoc_L (++)).
    + rewrite length_app. lia.
  - rewrite fmap_app in *. cbn [fmap list_fmap fst] in *.
    assert (Hq : idequeue st1 ≠ 0 ∧ idequeue st1 ≠ b).
    { destruct l as [|[y cy] l]; cbn in Hch1; destruct Hch1 as (->&?&_); (split; [done|set_solver]). }
    rewrite !(proj2 (Z.eqb_neq (idequeue st1) 0)) by apply Hq.
    rewrite (last_buf_spec _ _ _ _ _ Hch1) by (rewrite length_fmap; rewrite length_app in Hf; cbn in Hf; lia).
    cbn [mbind res_bind idequeue set_buf]. rewrite (proj2 (Z.eqb_neq _ _)) by apply Hq.
    eexists _, _. split; [done|]. split; [|done]. split; rewrite ?Hps, ?Hss, ?fmap_app; cbn.
    + rewrite <- (assoc_L (++)). apply (chain_snoc (bufs st1)); try done. by rewrite Eb.
    + apply NoDup_app. split; [done|]. split; [|apply NoDup_singleton].
      intros y Hy ->%list_elem_of_singleton. done.
    + intros y cy Hy. destruct (decide (y = x)) as [->|].
      * rewrite fn_lookup_insert. apply elem_of_app in Hy as [Hy|Hy%list_elem_of_singleton].
        { apply Hsm1 in Hy. done. }
        injection Hy as -> ->. set_solver.
      * rewrite fn_lookup_insert_ne by done. apply elem_of_app in Hy as [Hy|Hy%list_elem_of_singleton];
          [by apply Hsm1|]. injection Hy as -> ->. by rewrite Eb.
    + destruct l; cbn; by rewrite app_nil_r.
    + rewrite length_app. lia.
Qed.

(** What a finished request leaves in its buffer: the flags, and the data read unless the
    disk reported an error. *)
Definition finished (c : buf) (words : list Z) (err : bool) (b : buf) : Prop :=
  flags b = Z.land (Z.lor (flags c) B_VALID) (Z.lnot B_DIRTY) ∧ dev b = dev c ∧ sector b = sector c ∧
  data b = if negb (Z.land (flags c) B_DIRTY =? 0) || err then data c else words.

Lemma done_flags f :
  Z.land (Z.land (Z.lor f B_VALID) (Z.lnot B_DIRTY)) (Z.lor B_VALID B_DIRTY) = B_VALID.
Proof.
  apply Z.bits_inj'. intros n Hn. rewrite !Z.land_spec, Z.lor_spec, Z.lnot_spec by done.
  change (Z.lor B_VALID B_DIRTY) with 6. unfold B_VALID, B_DIRTY.
  destruct (decide (n = 1)) as [->|]; [by rewrite orb_true_r|].
  destruct (decide (n = 2)) as [->|]; [by rewrite andb_false_r|].
  assert (Z.testbit 6 n = false) as ->.
  { destruct (decide (n = 0)) as [->|]; [done|]. apply Z.bits_above_log2; cbn; lia. }
  rewrite andb_false_r. symmetry.
  destruct (decide (n = 0)) as [->|]; [done|]. apply Z.bits_above_log2; cbn; lia.
Qed.

(** The first part of the handler, up to the next [ide_start]. *)
Lemma handler_first st b c reads words k :
  b ≠ 0 → idequeue st = b → same_request (bufs st b) c → ready (S k) reads →
  ∃ st1 reads' err,
    ide_int_handler reads words st =
      (if negb (idequeue st1 =? 0) then ide_start (idequeue st1) reads' st1 else Ret (st1, reads')) ∧
    ready k reads' ∧ finished c words err (bufs st1 b) ∧ idequeue st1 = qnext (bufs st b) ∧
    (∀ x, x ≠ b → bufs st1 x = bufs st x) ∧ sent st1 = sent st ∧ havedisk1 st1 = havedisk1 st.
Proof.
  intros Hb Hq (Hfl&Hdv&Hse&Hda) Hr. unfold ide_int_handler. rewrite Hq.
  destruct (Z.eqb_spec b 0); [done|]. cbn [bufs set_queue]. rewrite Hfl.
  destruct (Z.eqb_spec (Z.land (flags c) B_DIRTY) 0) as [Ed|Ed].
  - destruct (ide_wait_ready k true reads Hr) as (r&reads'&->&Hr'&Hrv). cbn [mbind res_bind].
    destruct (Z.leb_spec 0 r); cbn [bufs set_buf set_queue].
    + eexists _, _, false. split; [reflexivity|]. split; [done|]. cbn.
      rewrite !fn_lookup_insert. cbn. unfold finished. cbn. rewrite Hfl, Ed. split_and!; try done.
      intros x Hx. by rewrite !fn_lookup_insert_ne.
    + eexists _, _, true. split; [reflexivity|]. split; [done|]. cbn.
      rewrite !fn_lookup_insert. cbn. unfold finished. cbn. rewrite Hfl, Ed. split_and!; try done.
      intros x Hx. by rewrite !fn_lookup_insert_ne.
  - cbn [mbind res_bind]. eexists _, reads, false. split; [reflexivity|]. split; [unfold ready in *; lia|]. cbn.
    rewrite !fn_lookup_insert. cbn. unfold finished. cbn. rewrite Hfl.
    rewrite (proj2 (Z.eqb_neq _ _) Ed). split_and!; try done.
    intros x Hx. by rewrite !fn_lookup_insert_ne.
Qed.

Lemma pending_S log k x rest : pending log k = x :: rest → pending log (S k) = rest ∧ (k < length log)%nat.
Proof.
  unfold pending. intros E. split.
  - replace (S k) with (k + 1)%nat by lia. by rewrite <- drop_drop, E.
  - apply (f_equal length) in E. rewrite length_drop in E. cbn in E. lia.
Qed.

Lemma started_S log k x rest :
  pending log k = x :: rest →
  started log (S k) = started log k ++ (match rest with [] => [] | y :: _ => [y] end).
Proof.
  intros E. destruct (pending_S log k x rest E) as [E' Hk]. unfold started. rewrite E, E'.
  destruct rest as [|y rest]; [by rewrite app_nil_r|].
  assert (log !! S k = Some y) as Hy.
  { unfold pending in E'. rewrite <- (Nat.add_0_r (S k)), <- lookup_drop, E'. done. }
  by rewrite (take_S_r _ _ _ Hy).
Qed.

Lemma irq_serving t0 log k st b c rest reads words :
  serving t0 log k st → pending log k = (b, c) :: rest → ready 2 reads →
  ∃ st' reads' err, ide_int_handler reads words st = Ret (st', reads') ∧
    serving t0 log (S k) st' ∧ rw_done b st' = true ∧ finished c words err (bufs st' b) ∧
    havedisk1 st' = havedisk1 st.
Proof.
  intros [Hch Hnd Hsm Hst Hlen] Ep Hr. rewrite Ep in *. cbn in Hch, Hnd.
  destruct Hch as (Hq&Hb0&Hch). apply NoDup_cons in Hnd as [Hnb Hnd].
  destruct (handler_first st b c reads words 1 Hb0 Hq (Hsm b c ltac:(left)) Hr)
    as (st1&reads1&err&->&Hr1&Hfin&Hq1&Ho&Hs1&Hd1).
  destruct (pending_S log k _ _ Ep) as [Ep' Hk]. pose proof (started_S log k _ _ Ep) as Hss.
  assert (Hne : ∀ x cx, (x, cx) ∈ rest → x ≠ b).
  { intros x cx Hx ->. apply Hnb, list_elem_of_fmap. by exists (b, cx). }
  assert (Hch1 : chain (bufs st1) (idequeue st1) rest.*1).
  { rewrite Hq1. eapply chain_agree; [|exact Hch]. intros x ([y cy]&->&Hy)%list_elem_of_fmap.
    rewrite Ho; [done|]. by eapply Hne. }
  assert (Hsm1 : ∀ x cx, (x, cx) ∈ rest → same_request (bufs st1 x) cx).
  { intros x cx Hx. rewrite Ho by (by eapply Hne). apply Hsm. by right. }
  assert (Hdone : ∀ st', bufs st' b = bufs st1 b → rw_done b st' = true).
  { intros st' E. unfold rw_done. rewrite E. destruct Hfin as [-> _]. rewrite done_flags. done. }
  destruct rest as [|[y cy] rest].
  - cbn in Hch1. rewrite Hch1. cbn [Z.eqb negb]. exists st1, reads1, err.
    split; [done|]. split_and!; [|by apply Hdone|done|done].
    split; rewrite ?Ep'; [done|done|done| |lia]. rewrite Hss, app_nil_r. by rewrite Hs1.
  - cbn in Hch1. destruct Hch1 as (Hqy&Hy0&Hch1). rewrite Hqy.
    rewrite (proj2 (Z.eqb_neq _ _) Hy0). cbn [negb].
    destruct (ide_start_run y reads1 st1 0 Hy0 Hr1) as (reads2&->&_).
    eexists _, _, err. split; [done|]. split_and!; [|by apply Hdone|done|done].
    split; rewrite ?Ep'; [cbn; by rewrite Hqy|done|done| |lia].
    cbn [sent send]. rewrite Hs1, Hst, Hss, fmap_app, concat_app.
    cbn [fmap list_fmap concat compose snd]. rewrite app_nil_r, <- (assoc_L (++)).
    by rewrite (start_io_same _ cy) by (apply Hsm1; left).
Qed.

(** ** Runs of the driver *)

(** Everything that can happen from an idle driver on: a request is submitted, with the contents
    its owner gave the buffer, or an interrupt arrives. *)
Inductive reach (fuel : nat) (st0 : ide) : list (Z * buf) → nat → ide → Prop :=
  | reach_idle : reach fuel st0 [] 0 st0
  | reach_submit log k st b c reads st' reads' :
      reach fuel st0 log k st → submittable st log k b c →
      (length (pending log k) ≤ fuel)%nat → ready 1 reads →
      ide_rw fuel b reads (set_buf b c st) = Ret (st', reads') →
      reach fuel st0 (log ++ [(b, c)]) k st'
  | reach_irq log k st reads words st' reads' :
      reach fuel st0 log k st → ready 2 reads →
      ide_int_handler reads words st = Ret (st', reads') →
      reach fuel st0 log (match pending log k with [] => k | _ => S k end) st'.

Lemma spurious_irq t0 log k st reads words :
  serving t0 log k st → pending log k = [] → ide_int_handler reads words st = Ret (st, reads).
Proof.
  intros Hsv Ep. pose proof (sv_chain _ _ _ _ Hsv) as Hc. rewrite Ep in Hc. cbn in Hc.
  unfold ide_int_handler. by rewrite Hc.
Qed.

Lemma reach_serving fuel st0 log k st :
  idequeue st0 = 0 → reach fuel st0 log k st → serving (sent st0) log k st.
Proof.
  intros H0 Hr. induction Hr as [|log k st b c reads st' reads' _ IH Hsub Hf Hrd E
                                 |log k st reads words st' reads' _ IH Hrd E].
  - split; cbn; [done|constructor|set_solver|by rewrite app_nil_r|lia].
  - destruct (submit_serving fuel _ log k st b c reads IH Hsub Hf Hrd) as (st1&r1&E1&Hs&_).
    rewrite E in E1. by injection E1 as -> ->.
  - destruct (pending log k) as [|[b c] rest] eqn:Ep.
    + rewrite (spurious_irq _ _ _ _ _ _ IH Ep) in E. by injection E as <- <-.
    + destruct (irq_serving _ _ _ _ _ _ _ reads words IH Ep Hrd) as (st1&r1&err&E1&Hs&_).
      rewrite E in E1. by injection E1 as -> ->.
Qed.


(** Two requests are submitted to an idle driver. *)
Definition demo_ide : ide := Ide (λ _, Buf 0 0 0 0 []) 0 false [].
Definition demo_read : buf := Buf B_BUSY 0 0x1234567 0 [].
Definition demo_write : buf := Buf 5 0 99 0 [7].

Definition demo_ide1 : ide :=
  match ide_rw 2 100 [0x40] (set_buf 100 demo_read demo_ide) with Ret (s, _) => s | _ => demo_ide end.


(** The address registers of a command, put together again: sector (28 bits) and drive. *)
Definition addressed (l : list io) : option (Z * Z) :=
  match l with
  | OutB 0x3f6 0 :: OutB 0x1f2 1 :: OutB 0x1f3 a :: OutB 0x1f4 b :: OutB 0x1f5 c :: OutB 0x1f6 d :: _ =>
      Some (a + 256 * b + 65536 * c + 16777216 * Z.land d 0xf, Z.land (Z.shiftr d 4) 1)
  | _ => None
  end.

(** Every command addresses the sector and drive of its buffer. *)
Theorem ide_start_addresses b :
  0 ≤ sector b < 2 ^ 28 → addressed (start_io b) = Some (sector b, Z.land (dev b) 1).
Proof.
  intros Hs. unfold start_io, addressed. cbn [app].
  assert (Hl1 : ∀ x, Z.land x 1 = x `mod` 2) by (intros x; apply (Z.land_ones x 1); lia).
  assert (Hd : Z.land (dev b) 1 = 0 ∨ Z.land (dev b) 1 = 1).
  { rewrite Hl1. pose proof (Z.mod_pos_bound (dev b) 2). lia. }
  change 0xff with (Z.ones 8). change 0x0f with (Z.ones 4).
  rewrite !Z.land_ones, !Z.shiftr_div_pow2 by lia.
  change (2 ^ 8) with 256. change (2 ^ 16) with 65536. change (2 ^ 24) with 16777216. change (2 ^ 4) with 16.
  change (2 ^ 28) with 268435456 in Hs.
  remember ((sector b / 16777216) `mod` 16) as h eqn:Eh.
  assert (Hh : 0 ≤ h < 16) by (subst h; apply Z.mod_pos_bound; lia).
  assert (E : u8 (Z.lor (Z.lor 224 (Z.shiftl (Z.land (dev b) 1) 4)) h) = 224 + 16 * Z.land (dev b) 1 + h).
  { rewrite (lor_aligned _ h 4); [|lia| |lia].
    - unfold u8. destruct Hd as [-> | ->].
      + change (Z.lor 224 (Z.shiftl 0 4)) with 224. rewrite Z.mod_small; lia.
      + change (Z.lor 224 (Z.shiftl 1 4)) with 240. rewrite Z.mod_small; lia.
    - destruct Hd as [-> | ->]; done. }
  rewrite E. f_equal. f_equal.
  - subst h. destruct Hd as [-> | ->]; dlia.
  - rewrite Hl1. destruct Hd as [-> | ->]; dlia.
Qed.

(** A failed read is not noticed: the request is finished as if it had succeeded, with whatever
    data the buffer held. *)
Theorem ide_read_error_lost st b c r words :
  b ≠ 0 → idequeue st = b → same_request (bufs st b) c → qnext (bufs st b) = 0 →
  Z.land (flags c) B_DIRTY = 0 → is_ready r = true → Z.land r (Z.lor IDE_DF IDE_ERR) ≠ 0 →
  ∃ st', ide_int_handler [r] words st = Ret (st', []) ∧ rw_done b st' = true ∧
    data (bufs st' b) = data c.
Proof.
  intros Hb Hq (Hf&_&_&Hd) Hn Hdirty Hr He. unfold ide_int_handler. rewrite Hq.
  destruct (Z.eqb_spec b 0); [done|]. cbn [bufs set_queue]. rewrite Hf, Hdirty. cbn [Z.eqb].
  cbn [ide_wait]. fold (is_ready r). rewrite Hr. cbn [negb andb].
  rewrite (proj2 (Z.eqb_neq _ _) He). cbn [negb mbind res_bind Z.leb Z.compare].
  rewrite Hn. cbn [set_queue set_buf idequeue Z.eqb negb]. eexists. split; [reflexivity|].
  unfold rw_done. cbn. rewrite !fn_lookup_insert. cbn. rewrite Hf. split; [|done].
  apply Z.eqb_eq, done_flags.
Qed.
