(* ===== verification/Elf.v ===== *)
(** * Symbols for back traces: [src/elf.c] and the stack walk of [src/debug.c]

    Section headers, symbols and stack frames are read from byte memory at the offsets of
    [include/elf.h]. *)
From S2P Require Import Prelude Memory CString.

Definition SIZEOF_SHDR : Z := 40.
Definition SIZEOF_SYM : Z := 16.

(** [elf_t] *)
Record elf_t : Type := Elf {
  symtab : Z; symtabsz : Z; strtab : Z; strtabsz : Z;
}.

(** ** Operations *)

(** [sh[i].field] *)
Definition sh_field (m : mem) (sh i off : Z) : Z := load32 m (u32 (sh + SIZEOF_SHDR * i + off)).

(** The loop of [elf_from_multiboot], [n] rounds from [i] on; [s_strtab] and [s_symtab] are the
    addresses of the two literals. *)
Fixpoint sections_loop (fuel n : nat) (m : mem) (sh shstrtab s_strtab s_symtab i : Z) (elf : elf_t)
  : res elf_t :=
  match n with
  | O => Ret elf
  | S n =>
      let name := u32 (shstrtab + sh_field m sh i 0) in
      c1 ← strcmp fuel name s_strtab m;
      let elf := if c1 =? 0 then Elf (symtab elf) (symtabsz elf) (sh_field m sh i 12) (sh_field m sh i 20)
                 else elf in
      c2 ← strcmp fuel name s_symtab m;
      let elf := if c2 =? 0 then Elf (sh_field m sh i 12) (sh_field m sh i 20) (strtab elf) (strtabsz elf)
                 else elf in
      sections_loop fuel n m sh shstrtab s_strtab s_symtab (i + 1) elf
  end.

(** [elf_t elf_from_multiboot(multiboot_t *mb)], for the [num], [addr] and [shndx] of the boot
    loader; [elf] is what the uninitialised result holds. *)
Definition elf_from_multiboot (fuel : nat) (m : mem) (num addr shndx s_strtab s_symtab : Z) (elf : elf_t)
  : res elf_t :=
  let shstrtab := sh_field m addr shndx 12 in
  sections_loop fuel (Z.to_nat num) m addr shstrtab s_strtab s_symtab 0 elf.

(** [elf->symtab[i].field] *)
Definition sym_name (m : mem) (elf : elf_t) (i : Z) : Z := load32 m (symtab elf + SIZEOF_SYM * i).
Definition sym_value (m : mem) (elf : elf_t) (i : Z) : Z := load32 m (symtab elf + SIZEOF_SYM * i + 4).
Definition sym_size (m : mem) (elf : elf_t) (i : Z) : Z := load32 m (symtab elf + SIZEOF_SYM * i + 8).
Definition sym_info (m : mem) (elf : elf_t) (i : Z) : Z := m (symtab elf + SIZEOF_SYM * i + 12).

Definition ELF32_ST_TYPE (i : Z) : Z := Z.land i 0xf.

(** [const char *elf_lookup_symbol(_u32 addr, elf_t *elf)] *)
Fixpoint lookup_loop (n : nat) (m : mem) (elf : elf_t) (addr i : Z) : Z :=
  match n with
  | O => NULL
  | S n =>
      if negb (ELF32_ST_TYPE (sym_info m elf i) =? 2) then lookup_loop n m elf addr (i + 1)
      else if (sym_value m elf i <=? addr) && (addr <? u32 (sym_value m elf i + sym_size m elf i))
      then u32 (strtab elf + sym_name m elf i)
      else lookup_loop n m elf addr (i + 1)
  end.

Definition elf_lookup_symbol (m : mem) (addr : Z) (elf : elf_t) : Z :=
  lookup_loop (Z.to_nat (symtabsz elf / SIZEOF_SYM)) m elf addr 0.

(** [void print_stack_trace()] from the frame pointer [ebp] on: the return addresses printed, each
    with its symbol *)
Fixpoint print_stack_trace (fuel : nat) (m : mem) (elf : elf_t) (ebp : Z) : res (list (Z * Z)) :=
  match fuel with
  | O => Diverge
  | S fuel =>
      if ebp =? 0 then Ret []
      else
        let eip := load32 m (u32 (ebp + 4)) in
        l ← print_stack_trace fuel m elf (load32 m ebp);
        Ret ((eip, elf_lookup_symbol m eip elf) :: l)
  end.

(** ** Symbols *)

(** Symbol [i] is a function that covers [addr]. *)
Definition covers (m : mem) (elf : elf_t) (addr i : Z) : Prop :=
  Z.land (sym_info m elf i) 0xf = 2 ∧ sym_value m elf i ≤ addr < sym_value m elf i + sym_size m elf i.

(** No function reaches past the end of memory. *)
Definition symbols_ok (m : mem) (elf : elf_t) : Prop :=
  ∀ i, 0 ≤ i < symtabsz elf / SIZEOF_SYM → sym_value m elf i + sym_size m elf i < 4294967296.

Lemma lookup_loop_spec m elf addr : ∀ n i,
  (∀ j, i ≤ j < i + Z.of_nat n → sym_value m elf j + sym_size m elf j < 4294967296) →
  (lookup_loop n m elf addr i = NULL ∧ ∀ j, i ≤ j < i + Z.of_nat n → ¬ covers m elf addr j) ∨
  ∃ j, i ≤ j < i + Z.of_nat n ∧ covers m elf addr j ∧
    (∀ k, i ≤ k < j → ¬ covers m elf addr k) ∧
    lookup_loop n m elf addr i = u32 (strtab elf + sym_name m elf j).
Proof.
  induction n as [|n IH]; intros i Hok; cbn [lookup_loop]; [left; split; [done|lia]|].
  assert (Hc : (if negb (ELF32_ST_TYPE (sym_info m elf i) =? 2) then false
                else (sym_value m elf i <=? addr) &&
                     (addr <? u32 (sym_value m elf i + sym_size m elf i))) = true ↔ covers m elf addr i).
  { unfold covers, ELF32_ST_TYPE. rewrite u32_small.
    - destruct (Z.eqb_spec (Z.land (sym_info m elf i) 15) 2); cbn [negb]; [|naive_solver].
      rewrite andb_true_iff, Z.leb_le, Z.ltb_lt. tauto.
    - specialize (Hok i ltac:(lia)). pose proof (load32_range m (symtab elf + SIZEOF_SYM * i + 4)).
      pose proof (load32_range m (symtab elf + SIZEOF_SYM * i + 8)).
      unfold is_u32, sym_value, sym_size in *. lia. }
  assert (Hnext : ¬ covers m elf addr i →
    (lookup_loop n m elf addr (i + 1) = NULL ∧
     ∀ j, i ≤ j < i + Z.of_nat (S n) → ¬ covers m elf addr j) ∨
    ∃ j, i ≤ j < i + Z.of_nat (S n) ∧ covers m elf addr j ∧
      (∀ k, i ≤ k < j → ¬ covers m elf addr k) ∧
      lookup_loop n m elf addr (i + 1) = u32 (strtab elf + sym_name m elf j)).
  { intros Hi. destruct (IH (i + 1)) as [[E Hn]|(j&Hj&Hcj&Hmin&E)]; [intros; apply Hok; lia|left|right].
    - split; [done|]. intros j Hj. destruct (decide (j = i)) as [->|]; [done|]. apply Hn. lia.
    - exists j. split_and!; [lia|lia|done| |done].
      intros k Hk. destruct (decide (k = i)) as [->|]; [done|]. apply Hmin. lia. }
  destruct (negb (ELF32_ST_TYPE (sym_info m elf i) =? 2)).
  { apply Hnext. rewrite <- Hc. done. }
  destruct ((sym_value m elf i <=? addr) && _).
  - right. exists i. split_and!; [lia|lia|by apply Hc|lia|done].
  - apply Hnext. rewrite <- Hc. done.
Qed.

Lemma elf_lookup_spec m addr elf :
  symbols_ok m elf → 0 ≤ symtabsz elf →
  (elf_lookup_symbol m addr elf = NULL ∧
   ∀ j, 0 ≤ j < symtabsz elf / SIZEOF_SYM → ¬ covers m elf addr j) ∨
  ∃ j, 0 ≤ j < symtabsz elf / SIZEOF_SYM ∧ covers m elf addr j ∧
    (∀ k, 0 ≤ k < j → ¬ covers m elf addr k) ∧
    elf_lookup_symbol m addr elf = u32 (strtab elf + sym_name m elf j).
Proof.
  intros Hok Hsz. unfold elf_lookup_symbol.
  assert (Hn : Z.of_nat (Z.to_nat (symtabsz elf / SIZEOF_SYM)) = symtabsz elf / SIZEOF_SYM).
  { apply Z2Nat.id. unfold SIZEOF_SYM. dlia. }
  pose proof (lookup_loop_spec m elf addr (Z.to_nat (symtabsz elf / SIZEOF_SYM)) 0) as H.
  rewrite Hn in H. apply H. intros j Hj. apply Hok. lia.
Qed.

(** ** Frames *)

(** The frames linked from [ebp] on, with their return addresses. *)
Fixpoint frames (m : mem) (ebp : Z) (l : list Z) : Prop :=
  match l with
  | [] => ebp = 0
  | eip :: l => ebp ≠ 0 ∧ 0 ≤ ebp ∧ ebp + 8 ≤ 4294967296 ∧ load32 m (ebp + 4) = eip ∧
                frames m (load32 m ebp) l
  end.

Lemma stack_trace_spec m elf l : ∀ fuel ebp,
  frames m ebp l → (length l < fuel)%nat →
  print_stack_trace fuel m elf ebp = Ret ((λ eip, (eip, elf_lookup_symbol m eip elf)) <$> l).
Proof.
  induction l as [|eip l IH]; intros [|fuel] ebp Hf Hl; cbn [length] in Hl; try lia;
    cbn [print_stack_trace].
  - cbn in Hf. by subst ebp.
  - destruct Hf as (H0&H1&H2&He&Hf). destruct (Z.eqb_spec ebp 0); [done|].
    rewrite u32_small by (unfold is_u32; lia). rewrite He, (IH fuel) by (done || lia). done.
Qed.

(** A back trace names the functions on the stack. On a chain of frames that ends in a null
    frame pointer [print_stack_trace] returns and prints the return addresses from the
    innermost frame out, each with the name of the first function symbol whose range holds
    it, or a null name when there is none. *)
Theorem stack_trace_correct m elf fuel ebp l :
  frames m ebp l → (length l < fuel)%nat → symbols_ok m elf → 0 ≤ symtabsz elf →
  ∃ out, print_stack_trace fuel m elf ebp = Ret out ∧ out.*1 = l ∧
    ∀ eip name, (eip, name) ∈ out →
      (name = NULL ∧ ∀ j, 0 ≤ j < symtabsz elf / SIZEOF_SYM → ¬ covers m elf eip j) ∨
      ∃ j, 0 ≤ j < symtabsz elf / SIZEOF_SYM ∧ covers m elf eip j ∧
        (∀ k, 0 ≤ k < j → ¬ covers m elf eip k) ∧ name = u32 (strtab elf + sym_name m elf j).
Proof.
  intros Hf Hl Hok Hsz. eexists. split; [by apply stack_trace_spec|]. split.
  - rewrite <- list_fmap_compose. clear. induction l as [|e l IH]; [done|]. cbn. by rewrite IH.
  - intros eip name (e&[= -> ->]&_)%list_elem_of_fmap. by apply elf_lookup_spec.
Qed.

(** One function symbol at 0x100 and two frames. *)
Definition demo_image : mem :=
  bytes_from 0x200 [1; 0; 0; 0; 0; 1; 0; 0; 0x50; 0; 0; 0; 2; 0; 0; 0]
    (bytes_from 0x300 [0x10; 3; 0; 0; 0x20; 1; 0; 0] (bytes_from 0x310 [0; 0; 0; 0; 0; 9; 0; 0] (λ _, 0))).
Definition demo_elf : elf_t := Elf 0x200 16 0x400 64.

Lemma stack_trace_correct_witness :
  ∃ out, print_stack_trace 3 demo_image demo_elf 0x300 = Ret out ∧ out.*1 = [0x120; 0x900].
Proof.
  destruct (stack_trace_correct demo_image demo_elf 3 0x300 [0x120; 0x900]) as (out&E&Hl&_).
  - vm_compute. repeat split; discriminate || reflexivity.
  - cbn. lia.
  - intros i Hi. assert (i = 0) as -> by (change (symtabsz demo_elf / SIZEOF_SYM) with 1 in Hi; lia). vm_compute. reflexivity.
  - vm_compute. discriminate.
  - exists out. split; [exact E|exact Hl].
Defined.

(** ** Sections *)

(** The sections [0 .. n-1] have these names. *)
Definition named_sections (m : mem) (sh shstrtab : Z) (i : Z) (names : list (list Z)) : Prop :=
  ∀ (j : nat) s, names !! j = Some s → cstr m (u32 (shstrtab + sh_field m sh (i + Z.of_nat j) 0)) s.

Lemma sections_loop_skip fuel m sh shstrtab p1 l1 p2 l2 names : ∀ i elf,
  named_sections m sh shstrtab i names → cstr m p1 l1 → cstr m p2 l2 →
  Forall (λ s, length s < fuel)%nat names →
  Forall (λ s, strcmp_fun s l1 ≠ 0 ∧ strcmp_fun s l2 ≠ 0) names →
  sections_loop fuel (length names) m sh shstrtab p1 p2 i elf = Ret elf.
Proof.
  induction names as [|s names IH]; intros i elf Hn H1 H2 Hf Hd; [done|].
  apply Forall_cons in Hf as [Hfs Hf]. apply Forall_cons in Hd as [[Hd1 Hd2] Hd].
  cbn [length sections_loop].
  assert (Hs : cstr m (u32 (shstrtab + sh_field m sh i 0)) s).
  { specialize (Hn 0%nat s eq_refl). by rewrite Z.add_0_r in Hn. }
  rewrite (strcmp_spec s l1 fuel _ p1 m Hs H1 Hfs). cbn [mbind res_bind].
  rewrite (strcmp_spec s l2 fuel _ p2 m Hs H2 Hfs). cbn [mbind res_bind].
  rewrite (proj2 (Z.eqb_neq _ _) Hd1), (proj2 (Z.eqb_neq _ _) Hd2).
  apply IH; try done. intros j s' Hj. replace (i + 1 + Z.of_nat j) with (i + Z.of_nat (S j)) by lia.
  by apply Hn.
Qed.

(** Without sections of those names the result is what the uninitialised structure held. *)
Theorem elf_sections_missing fuel m num addr shndx p1 l1 p2 l2 names elf :
  named_sections m addr (sh_field m addr shndx 12) 0 names → Z.of_nat (length names) = num →
  cstr m p1 l1 → cstr m p2 l2 → Forall (λ s, length s < fuel)%nat names →
  Forall (λ s, strcmp_fun s l1 ≠ 0 ∧ strcmp_fun s l2 ≠ 0) names →
  elf_from_multiboot fuel m num addr shndx p1 p2 elf = Ret elf.
Proof.
  intros Hn Hl H1 H2 Hf Hd. unfold elf_from_multiboot. rewrite <- Hl, Nat2Z.id.
  by apply sections_loop_skip with (l1 := l1) (l2 := l2).
Qed.
