(* ===== verification/Boot.v ===== *)
(** * Start-up of the processors: [src/main.c], [src/ap_real.s] and [src/boot.s]

    [start_smp] copies the real-mode start code of the application processors below
    1 MiB, leaves three words for it (the C entry, a stack, the per-processor
    structure) and sends the startup sequence. The start code picks the words up in
    protected mode. *)
From S2P Require Import Prelude Memory CString MM FrameSource KernelMemory Threads Sched Mproc Apic Switch Heap HeapProofs TaskProofs.
Import Lapic.

(** [include/ap_real.h] *)
Definition ADDR_AP_REAL : Z := 0x4000.

Definition store16 (m : mem) (a v : Z) : mem := <[a + 1 := byte_of v 1]> (<[a := byte_of v 0]> m).

(** What an action of the local APIC code does to memory. *)
Definition action_mem (m : mem) (x : action) : mem :=
  match x with Store16 a v => store16 m a v | _ => m end.

(** One processor that was started: its slot in [cpuset], memory and the actions sent. *)
Record startup : Type := Startup {
  su_cpu : nat;
  su_stack : Z;
  su_mem : mem;
  su_actions : list action;
}.

Record boot (A : Type) : Type := Boot {
  b_mem : mem;
  b_alloc : A;
  b_started : list startup;
}.
Arguments Boot {A}. Arguments b_mem {A}. Arguments b_alloc {A}. Arguments b_started {A}.

Section StartSmp.
Context {A : Type} `{KM : KernelMemory A}.
(** the linker's [apinit_start] and [apinit_end], [&__main] and [&cpuset[n]] *)
Context (apinit_start apinit_end main : Z) (cpu_at : nat → Z).

(** One turn of the loop of [start_smp] for an application processor. *)
Definition start_ap (n : nat) (c : cpu_state_t) (s : boot A) : res (boot A) :=
  let m := (memmove ADDR_AP_REAL apinit_start (u32 (apinit_end - apinit_start)) (b_mem s)).2 in
  let m := store32 m (ADDR_AP_REAL - 4) main in
  '(stack, a) ← km_page (b_alloc s);
  if stack =? NULL then Panic "No memory for AP stack"
  else
    let m := store32 m (ADDR_AP_REAL - 8) stack in
    let m := store32 m (ADDR_AP_REAL - 12) (cpu_at n) in
    let acts := lapic_startap (u8 (proc_id c)) ADDR_AP_REAL in
    let m := foldl action_mem m acts in
    Ret (Boot m a (b_started s ++ [Startup n stack m acts])).

(** [for (n = 0; n < mpinfo.ncpu; n++)] *)
Fixpoint start_loop (k n : nat) (cpus : nat → cpu_state_t) (s : boot A) : res (boot A) :=
  match k with
  | O => Ret s
  | S k =>
      s ← (if flag_bsp (cpus n) then Ret s else start_ap n (cpus n) s);
      start_loop k (S n) cpus s
  end.

(** [static void start_smp()] *)
Definition start_smp (st : mp_state) (s : boot A) : res (boot A) :=
  start_loop (Z.to_nat (mp_ncpu st)) 0 (cpuset st) s.
End StartSmp.

(** [pm32] of [src/ap_real.s], from [mov esp, [ADDR_AP_REAL - 8]] to the call, which pushes
    the address behind it. *)
Definition ap_enter (ra : Z) (M : machine) : machine :=
  let M := set_reg ESP (load (ADDR_AP_REAL - 8) M) M in
  let M := push (load (ADDR_AP_REAL - 12) M) M in
  let entry := load (ADDR_AP_REAL - 4) M in
  set_eip entry (push ra M).

(** The application processors of a [cpuset], in order. *)
Definition aps (st : mp_state) : list nat :=
  filter (λ n, flag_bsp (cpuset st n) = false) (seq 0 (Z.to_nat (mp_ncpu st))).

Section Proofs.
Context {A : Type} `{KM : KernelMemory A}.
Context (apinit_start apinit_end main : Z) (cpu_at : nat → Z).

(** The kernel image lies above 1 MiB and the start code is one of its sections, small enough
    for low memory. *)
Record image : Prop := {
  im_low : 0x100000 ≤ apinit_start ≤ apinit_end;
  im_top : apinit_end < 4294967296;
  im_fits : ADDR_AP_REAL + (apinit_end - apinit_start) ≤ 0x100000;
}.
Context (Him : image) (Hmain : is_u32 main) (Hcpu : ∀ n, is_u32 (cpu_at n)).

(** What a started processor finds below its start code, and the code itself. *)
Record handed_over (m0 : mem) (u : startup) : Prop := {
  ho_code : ∀ i, 0 ≤ i < apinit_end - apinit_start →
    su_mem u (ADDR_AP_REAL + i) = m0 (apinit_start + i);
  ho_main : load32 (su_mem u) (ADDR_AP_REAL - 4) = main;
  ho_stack : load32 (su_mem u) (ADDR_AP_REAL - 8) = su_stack u;
  ho_cpu : load32 (su_mem u) (ADDR_AP_REAL - 12) = cpu_at (su_cpu u);
}.

Lemma warm_reset_mem apicid m i :
  i < MPENTRY_WRV ∨ MPENTRY_WRV + 4 ≤ i →
  foldl action_mem m (lapic_startap apicid ADDR_AP_REAL) i = m i.
Proof.
  intros Hi. cbn -[u32 Z.lor Z.shiftl Z.shiftr]. unfold store16.
  rewrite !fn_lookup_insert_ne by (unfold MPENTRY_WRV in *; lia). done.
Qed.

(** One processor: what is handed over, and what of memory changed. *)
Lemma start_ap_spec n c (s : boot A) :
  km_ok (b_alloc s) →
  (start_ap apinit_start apinit_end main cpu_at n c s = Panic "No memory for AP stack" ∧
   ∃ a', km_page (b_alloc s) = Ret (NULL, a')) ∨
  ∃ u s', start_ap apinit_start apinit_end main cpu_at n c s = Ret s' ∧
    b_started s' = b_started s ++ [u] ∧ su_cpu u = n ∧
    su_actions u = lapic_startap (u8 (proc_id c)) ADDR_AP_REAL ∧
    handed_over (b_mem s) u ∧ km_ok (b_alloc s') ∧
    (∀ i, 0x100000 ≤ i → b_mem s' i = b_mem s i) ∧
    su_stack u `mod` 4096 = 0 ∧ 0 < su_stack u ∧ su_stack u + 4096 < 4294967296 ∧
    km_held (b_alloc s') (su_stack u) ∧
    (∀ q, km_held (b_alloc s) q → km_held (b_alloc s') q ∧ apart q 4096 (su_stack u) 4096) ∧
    (∀ b k, km_block (b_alloc s') b k ↔ km_block (b_alloc s) b k).
Proof.
  intros Hok. destruct Him as [L1 L2 L3]. unfold ADDR_AP_REAL in L3. unfold start_ap.
  rewrite (u32_small (apinit_end - _)) by (unfold is_u32; lia).
  destruct (km_page_spec _ Hok) as (p&a'&E&Hok'&Hkeep&Hblk&Hc). rewrite E. cbn [mbind res_bind].
  destruct (Z.eqb_spec p NULL) as [->|Hp]; [left; by eauto|right].
  destruct Hc as [?|(_&P0&Pm&Pt&Ph&Pa)]; [done|].
  eexists _, _. split; [reflexivity|]. cbn [b_started su_cpu su_actions su_mem su_stack b_mem b_alloc].
  split; [reflexivity|]. split; [done|]. split; [done|].
  assert (Hmv : ∀ a, (memmove ADDR_AP_REAL apinit_start (apinit_end - apinit_start) (b_mem s)).2 a =
    if decide (ADDR_AP_REAL ≤ a < ADDR_AP_REAL + (apinit_end - apinit_start))
    then b_mem s (apinit_start + (a - ADDR_AP_REAL)) else b_mem s a).
  { intros a. apply memmove_exact; unfold no_wrap, ADDR_AP_REAL; lia. }
  set (mv := (memmove _ _ _ _).2) in *. unfold ADDR_AP_REAL in *.
  assert (Hwrm : ∀ m b, 0x4000 - 12 ≤ b →
    load32 (foldl action_mem m (lapic_startap (u8 (proc_id c)) 0x4000)) b = load32 m b).
  { intros m b Hb. apply load32_agree. intros i Hi. apply warm_reset_mem. unfold MPENTRY_WRV. lia. }
  split; [split|]; cbn [su_mem su_cpu su_stack].
  - intros i Hi. rewrite warm_reset_mem by (unfold MPENTRY_WRV, ADDR_AP_REAL; lia).
    rewrite !store32_out by (unfold ADDR_AP_REAL; lia). rewrite Hmv, decide_True by (unfold ADDR_AP_REAL; lia). f_equal. unfold ADDR_AP_REAL. lia.
  - rewrite Hwrm by (unfold ADDR_AP_REAL; lia). unfold ADDR_AP_REAL. mem_load. by apply u32_small.
  - rewrite Hwrm by (unfold ADDR_AP_REAL; lia). unfold ADDR_AP_REAL. mem_load. apply u32_small. unfold is_u32. lia.
  - rewrite Hwrm by (unfold ADDR_AP_REAL; lia). unfold ADDR_AP_REAL. mem_load. by apply u32_small.
  - split_and!; try done; [|by eauto].
    intros i Hi. rewrite warm_reset_mem by (unfold MPENTRY_WRV, ADDR_AP_REAL; lia).
    rewrite !store32_out by (unfold ADDR_AP_REAL; lia). rewrite Hmv, decide_False by lia. done.
Qed.

(** The stack of a started processor: a page of its own. *)
Record fresh_stack (a0 a : A) (u : startup) : Prop := {
  fs_page : su_stack u `mod` 4096 = 0 ∧ 0 < su_stack u ∧ su_stack u + 4096 < 4294967296;
  fs_held : km_held a (su_stack u);
  fs_new : ∀ q, km_held a0 q → apart q 4096 (su_stack u) 4096;
}.

(** A processor with all it needs, and the startup sequence sent to it. *)
Record started (cpus : nat → cpu_state_t) (m0 : mem) (a0 a : A) (u : startup) : Prop := {
  st_over : handed_over m0 u;
  st_sent : su_actions u = lapic_startap (u8 (proc_id (cpus (su_cpu u)))) ADDR_AP_REAL;
  st_stack : fresh_stack a0 a u;
}.

Lemma handed_over_image m0 m1 u :
  (∀ i, 0x100000 ≤ i → m1 i = m0 i) → handed_over m1 u → handed_over m0 u.
Proof.
  intros Hm [Hc ? ? ?]. split; try done. intros i Hi. rewrite Hc, Hm; [done| |done].
  destruct Him. lia.
Qed.

Lemma start_loop_spec cpus k : ∀ n (s : boot A),
  km_ok (b_alloc s) →
  (start_loop apinit_start apinit_end main cpu_at k n cpus s = Panic "No memory for AP stack" ∧
   ∃ a a', km_ok a ∧ km_page a = Ret (NULL, a')) ∨
  ∃ us s', start_loop apinit_start apinit_end main cpu_at k n cpus s = Ret s' ∧
    b_started s' = b_started s ++ us ∧
    su_cpu <$> us = filter (λ i, flag_bsp (cpus i) = false) (seq n k) ∧
    Forall (started cpus (b_mem s) (b_alloc s) (b_alloc s')) us ∧ NoDup (su_stack <$> us) ∧
    (∀ q, km_held (b_alloc s) q → km_held (b_alloc s') q) ∧ km_ok (b_alloc s') ∧
    (∀ i, 0x100000 ≤ i → b_mem s' i = b_mem s i) ∧
    (∀ b k, km_block (b_alloc s') b k ↔ km_block (b_alloc s) b k).
Proof.
  induction k as [|k IH]; intros n s Hok; cbn [start_loop].
  { right. exists [], s. rewrite app_nil_r. split_and!; [done..|constructor|constructor|done|done|done|done]. }
  cbn [seq]. rewrite filter_cons. destruct (flag_bsp (cpus n)) eqn:Eb; cbn [mbind res_bind].
  { rewrite decide_False by done. by apply IH. }
  rewrite decide_True by done.
  destruct (start_ap_spec n (cpus n) s Hok)
    as [(->&a'&E)|(u&s1&->&Hs1&Hn&Hact&Hov&Hok1&Hm&S1&S2&S3&Hh&Hq&Hbl)]; [left; eauto|].
  cbn [mbind res_bind]. destruct (IH (S n) s1 Hok1) as [?|(us&s'&->&Hs'&Hf&Hall&Hnd&Hk&Hok'&Hm'&Hbl')]; [by left|right].
  exists (u :: us), s'. split; [done|]. split; [by rewrite Hs', Hs1, <- app_assoc|].
  split; [rewrite fmap_cons, Hn, Hf; done|]. split_and!.
  - constructor.
    + split; [done|by rewrite Hn|]. split; [done|by apply Hk|]. intros q Hq'. by apply Hq.
    + eapply Forall_impl; [exact Hall|]. intros v [V1 V2 [V3 V4 V5]].
      split; [by eapply handed_over_image|done|]. split; [done|done|]. intros q Hq'. by apply V5, Hq.
  - rewrite fmap_cons. constructor; [|done]. intros (v&Ev&Hv)%list_elem_of_fmap.
    rewrite Forall_forall in Hall. destruct (Hall v Hv) as [_ _ [_ _ Hv5]].
    pose proof (Hv5 _ Hh) as Ha. rewrite Ev in Ha. unfold apart in Ha. lia.
  - intros q Hq'. by apply Hk, Hq.
  - done.
  - intros i Hi. by rewrite Hm', Hm.
  - intros b j. by rewrite Hbl', Hbl.
Qed.

(** The start code, run by a processor on the memory it was handed. *)
Lemma ap_enter_spec m0 u M ra :
  handed_over m0 u → memory M = su_mem u → 8 ≤ su_stack u < 4294967296 →
  su_stack u ≤ ADDR_AP_REAL - 12 ∨ ADDR_AP_REAL + 8 ≤ su_stack u →
  let M' := ap_enter ra M in
  eip M' = main ∧ regs M' ESP = su_stack u - 8 ∧
  load32 (memory M') (regs M' ESP + 4) = cpu_at (su_cpu u) ∧
  (∀ i, ¬ (su_stack u - 8 ≤ i < su_stack u) → memory M' i = memory M i).
Proof.
  intros [_ H1 H2 H3] HM Hs Hfar. cbn zeta. unfold ap_enter. unfold ADDR_AP_REAL in *.
  unfold load. cbn [set_reg memory]. rewrite HM, (u32_small (_ - 8)), H2 by done.
  rewrite (u32_small (_ - 12)), H3 by done.
  unfold push, store, set_reg, set_eip. cbn [regs memory eip eflags].
  rewrite !fn_lookup_insert, !(u32_small (su_stack u - 4)) by (unfold is_u32; lia).
  rewrite !(u32_small (_ - 4)) by (unfold is_u32; lia). rewrite HM.
  split_and!.
  - rewrite store32_other by (unfold apart; lia). done.
  - lia.
  - replace (su_stack u - 4 - 4 + 4) with (su_stack u - 4) by lia. mem_load. by apply u32_small.
  - intros i Hi. rewrite !store32_out by lia. done.
Qed.
End Proofs.

(** ** Properties *)


(** Two processors, the second one waiting. *)
Definition two_cpus : mp_state :=
  MpState (λ n, set_proc_id (Z.of_nat (n `mod` 2)) (set_flag_bsp (n =? 0)%nat zero_cpu)) 1 2
    0xFEE00000 0 [].
Definition demo_boot : boot (heap_desc_t * kmem (mmc_t * mem)) :=
  Boot (λ a, a `mod` 251) boot_heap [].

