(* ===== verification/DeviceInit.v ===== *)
(** * Devices at boot: [init_dev] of [src/device.c]

    For every device that is loaded at boot, [init_dev] allocates and fills the common part
    ([blk_dev_t]) and calls the function of the driver. The drivers are called through
    pointers; they are any functions that keep to what [driver_ok] says. *)
From S2P Require Import Prelude Memory MM FrameSource Heap HeapProofs KernelMemory TaskProofs CString Device.

(** ** [blk_dev_t] in memory *)

Definition BDEV_BUF_NUM : Z := 0.
Definition BDEV_BLOCK_SIZE : Z := 4.
Definition BDEV_TOTAL_BLKS : Z := 8.
Definition BDEV_LIST : Z := 12.
Definition BDEV_IO : Z := 20.
Definition BDEV_OPS : Z := 28.
Definition BDEV_LOCK : Z := 32.
Definition SIZEOF_BDEV : Z := 64.

(** [mutex_t] in memory *)
Definition MUTEX_MLOCK : Z := 0.
Definition MUTEX_OWNER : Z := 8.
Definition MUTEX_WQ : Z := 12.
Definition MUTEX_WLOCK : Z := 20.

(** [include/bbuf.h] *)
Definition BLOCK_SIZE : Z := 512.

(** One call of a driver: the device, memory at the call, and what it returned. *)
Record dcall : Type := DCall { dc_dev : nat; dc_mem : mem; dc_status : Z }.

Record dstate (A : Type) : Type := DState {
  d_mem : mem;
  d_alloc : A;
  devices : list dev_t;
  d_calls : list dcall;
}.
Arguments DState {A}. Arguments d_mem {A}. Arguments d_alloc {A}.
Arguments devices {A}. Arguments d_calls {A}.

Definition set_ptr (p : Z) (d : dev_t) : dev_t :=
  Dev (name d) (type d) (init_func d) p (onboot d) (enabled d).

(** [INIT_LIST_HEAD(p)] *)
Definition init_list_at (p : Z) (m : mem) : mem := store32 (store32 m p p) (p + 4) p.

(** [mutex_init(p)] *)
Definition mutex_init_at (p : Z) (m : mem) : mem :=
  let m := store32 m (p + MUTEX_MLOCK) 0 in
  let m := store32 m (p + MUTEX_WLOCK) 0 in
  let m := store32 m (p + MUTEX_WLOCK + 4) NULL in
  let m := init_list_at (p + MUTEX_WQ) m in
  store32 m (p + MUTEX_OWNER) NULL.

(** The stores of [__init_blk_dev_common]; [ops] is [&com_blk_dev_ops]. *)
Definition bdev_stores (ops p : Z) (m : mem) : mem :=
  let m := store32 m (p + BDEV_BUF_NUM) 0 in
  let m := store32 m (p + BDEV_BLOCK_SIZE) BLOCK_SIZE in
  let m := store32 m (p + BDEV_TOTAL_BLKS) 0 in
  let m := init_list_at (p + BDEV_LIST) m in
  let m := init_list_at (p + BDEV_IO) m in
  let m := store32 m (p + BDEV_OPS) ops in
  mutex_init_at (p + BDEV_LOCK) m.

(** [bdev_common_write_block] and [bdev_common_read_block] *)
Definition bdev_common_write_block (buf : Z) : Z := OK.
Definition bdev_common_read_block (buf : Z) : Z := OK.

(** [int init_ide_master(dev_t *dev)] of [src/ide_pio.c] *)
Definition init_ide_master {A} (dev : nat) (s : dstate A) : res (Z * dstate A) := Ret (OK, s).

Section InitDev.
Context {A : Type} `{KM : KernelMemory A}.
Context (ops : Z).
(** the functions behind [init_func] *)
Context (driver : Z → nat → dstate A → res (Z * dstate A)).

(** [static void __init_blk_dev_common(dev_t *dev)] *)
Definition __init_blk_dev_common (i : nat) (s : dstate A) : res (dstate A) :=
  '(p, a) ← km_malloc (d_alloc s) SIZEOF_BDEV;
  let devs := alter (set_ptr p) i (devices s) in
  if p =? NULL then Panic "common blk_dev_init failed"
  else Ret (DState (bdev_stores ops p (d_mem s)) a devs (d_calls s)).

(** [static void __init_dev_common(dev_t *dev)] *)
Definition __init_dev_common (i : nat) (d : dev_t) (s : dstate A) : res (dstate A) :=
  match type d with
  | DEV_BLOCK => __init_blk_dev_common i s
  | _ => Panic "#BUG"
  end.

(** [for (i = 0; i < dev_num; i++)]; a failure of the driver is logged. *)
Fixpoint init_dev_loop (k i : nat) (s : dstate A) : res (dstate A) :=
  match k with
  | O => Ret s
  | S k =>
      match devices s !! i with
      | None => Ret s
      | Some d =>
          if negb (onboot d) then init_dev_loop k (S i) s
          else
            s1 ← __init_dev_common i d s;
            '(status, s2) ← driver (init_func d) i s1;
            init_dev_loop k (S i)
              (DState (d_mem s2) (d_alloc s2) (devices s2)
                 (d_calls s2 ++ [DCall i (d_mem s1) status]))
      end
  end.

(** [void init_dev()] *)
Definition init_dev (s : dstate A) : res (dstate A) := init_dev_loop (length (devices s)) 0 s.

(** ** What a driver keeps to *)

(** A block device without buffers, nobody holding its lock. *)
Record bdev_new (m : mem) (p : Z) : Prop := {
  bn_buf_num : load32 m (p + BDEV_BUF_NUM) = 0;
  bn_block_size : load32 m (p + BDEV_BLOCK_SIZE) = BLOCK_SIZE;
  bn_total : load32 m (p + BDEV_TOTAL_BLKS) = 0;
  bn_list : load32 m (p + BDEV_LIST) = p + BDEV_LIST ∧ load32 m (p + BDEV_LIST + 4) = p + BDEV_LIST;
  bn_io : load32 m (p + BDEV_IO) = p + BDEV_IO ∧ load32 m (p + BDEV_IO + 4) = p + BDEV_IO;
  bn_ops : load32 m (p + BDEV_OPS) = u32 ops;
  bn_mlock : load32 m (p + BDEV_LOCK + MUTEX_MLOCK) = 0;
  bn_owner : load32 m (p + BDEV_LOCK + MUTEX_OWNER) = NULL;
  bn_wq : load32 m (p + BDEV_LOCK + MUTEX_WQ) = p + BDEV_LOCK + MUTEX_WQ ∧
          load32 m (p + BDEV_LOCK + MUTEX_WQ + 4) = p + BDEV_LOCK + MUTEX_WQ;
  bn_wlock : load32 m (p + BDEV_LOCK + MUTEX_WLOCK) = 0;
}.

(** A driver is called with a new [blk_dev_t], and returns. It may fill the structure of its own device and allocate, but leaves the
    other blocks, the table and the log as they are. *)
Definition driver_ok (f : nat → dstate A → res (Z * dstate A)) : Prop := ∀ i s d,
  km_ok (d_alloc s) → devices s !! i = Some d → km_block (d_alloc s) (ptr d) SIZEOF_BDEV →
  bdev_new (d_mem s) (ptr d) →
  ∃ status s', f i s = Ret (status, s') ∧ km_ok (d_alloc s') ∧
    (∀ b k, km_block (d_alloc s) b k → km_block (d_alloc s') b k) ∧
    devices s' = devices s ∧ d_calls s' = d_calls s ∧
    (∀ b k, km_block (d_alloc s) b k → b ≠ ptr d → agree (d_mem s) (d_mem s') b k).

Lemma init_ide_master_ok : driver_ok init_ide_master.
Proof. intros i s d Hok Hd Hb _. exists OK, s. split_and!; done || by intros. Qed.

Ltac bdev_unfold :=
  unfold bdev_stores, mutex_init_at, init_list_at, MUTEX_MLOCK, MUTEX_OWNER, MUTEX_WQ, MUTEX_WLOCK,
    BDEV_BUF_NUM, BDEV_BLOCK_SIZE, BDEV_TOTAL_BLKS, BDEV_LIST, BDEV_IO, BDEV_OPS, BDEV_LOCK in *.

Lemma bdev_stores_new p m : 0 < p → p + SIZEOF_BDEV < 4294967296 → bdev_new (bdev_stores ops p m) p.
Proof.
  unfold SIZEOF_BDEV. intros. split; bdev_unfold; try split;
    mem_load; try done; rewrite ?u32_small by (unfold is_u32; lia); lia.
Qed.

Lemma bdev_stores_agree p m b k :
  apart b k p SIZEOF_BDEV → agree m (bdev_stores ops p m) b k.
Proof.
  unfold SIZEOF_BDEV, apart. intros Ha i Hi. bdev_unfold. rewrite !store32_out by lia. done.
Qed.

(** ** The loop *)

(** What became of device [j]: only its structure is new, and only when it is loaded at boot,
    from device [i] on. *)
Definition dev_after (i : nat) (s s' : dstate A) (j : nat) (d : dev_t) : Prop :=
  ∃ p, devices s' !! j = Some (set_ptr p d) ∧
    ((j < i)%nat ∨ onboot d = false → p = ptr d) ∧
    ((i ≤ j)%nat → onboot d = true → km_block (d_alloc s') p SIZEOF_BDEV ∧
       ∀ b k, km_block (d_alloc s) b k → apart b k p SIZEOF_BDEV).

Definition own_structures (i : nat) (s' : dstate A) : Prop := ∀ j1 j2 d1 d2,
  (i ≤ j1 < j2)%nat → devices s' !! j1 = Some d1 → devices s' !! j2 = Some d2 →
  onboot d1 = true → onboot d2 = true → apart (ptr d1) SIZEOF_BDEV (ptr d2) SIZEOF_BDEV.

(** The blocks that were there are there, with their contents. *)
Definition blocks_kept (s s' : dstate A) : Prop := ∀ b k,
  km_block (d_alloc s) b k → km_block (d_alloc s') b k ∧ agree (d_mem s) (d_mem s') b k.

Definition loaded (devs : list dev_t) (c : dcall) : Prop :=
  ∃ d, devs !! dc_dev c = Some d ∧ bdev_new (dc_mem c) (ptr d).

Definition is_onboot (devs : list dev_t) (i : nat) : Prop := onboot <$> devs !! i = Some true.

#[export] Instance is_onboot_dec devs i : Decision (is_onboot devs i).
Proof. unfold is_onboot. apply _. Defined.

Context (Hdrv : ∀ f, driver_ok (driver f)).

(** One device. *)
Lemma init_one_spec i s d :
  km_ok (d_alloc s) → devices s !! i = Some d → type d = DEV_BLOCK →
  (__init_dev_common i d s = Panic "common blk_dev_init failed" ∧
   ∃ a', km_malloc (d_alloc s) SIZEOF_BDEV = Ret (NULL, a')) ∨
  ∃ p s1 status s2, __init_dev_common i d s = Ret s1 ∧
    driver (init_func d) i s1 = Ret (status, s2) ∧
    km_ok (d_alloc s2) ∧ devices s2 = alter (set_ptr p) i (devices s) ∧ d_calls s2 = d_calls s ∧
    bdev_new (d_mem s1) p ∧ km_block (d_alloc s2) p SIZEOF_BDEV ∧ blocks_kept s s2 ∧
    (∀ b k, km_block (d_alloc s) b k → apart b k p SIZEOF_BDEV).
Proof.
  intros Hok Hd Ht. unfold __init_dev_common. rewrite Ht. unfold __init_blk_dev_common.
  destruct (km_malloc_spec (d_alloc s) SIZEOF_BDEV Hok) as (p&a&E&Hok1&_&Hc);
    [by unfold SIZEOF_BDEV|]. rewrite E. cbn [mbind res_bind].
  destruct (Z.eqb_spec p NULL) as [->|Hp]; [left; eauto|right].
  destruct Hc as [[? _]|(_&Hap&Hbl)]; [done|].
  set (s1 := DState _ _ _ _).
  assert (Hb : km_block a p SIZEOF_BDEV) by (apply Hbl; tauto).
  pose proof (km_block_bounds _ _ _ Hok1 Hb) as (B1&_&B2).
  destruct (Hdrv (init_func d) i s1 (set_ptr p d)) as (status&s2&E2&Hok2&Hk2&Hd2&Hc2&Hm2);
    [done|by cbn; rewrite list_lookup_alter_eq, Hd|done|by apply bdev_stores_new|].
  exists p, s1, status, s2. cbn [s1 d_alloc d_mem devices d_calls ptr set_ptr] in *.
  split_and!; try done; [by apply bdev_stores_new|by apply Hk2|].
  intros b k Hbk. pose proof (Hap b k Hbk) as Hbp.
  assert (Hbk1 : km_block a b k) by (apply Hbl; tauto). split; [by apply Hk2|].
  eapply agree_trans; [by apply bdev_stores_agree|]. apply Hm2; [done|].
  pose proof (km_block_bounds _ _ _ Hok1 Hbk1). unfold apart, SIZEOF_BDEV in *. lia.
Qed.

(** What the loop over the [k] devices from [i] on does: the calls [cs] are made. *)
Record loop_post (i k : nat) (s : dstate A) (cs : list dcall) (s' : dstate A) : Prop := {
  lp_calls : d_calls s' = d_calls s ++ cs;
  lp_devs : dc_dev <$> cs = filter (is_onboot (devices s)) (seq i k);
  lp_len : length (devices s') = length (devices s);
  lp_after : ∀ j d, devices s !! j = Some d → dev_after i s s' j d;
  lp_own : own_structures i s';
  lp_load : Forall (loaded (devices s')) cs;
  lp_kept : blocks_kept s s';
  lp_ok : km_ok (d_alloc s');
}.

Lemma loop_post_nil i s : km_ok (d_alloc s) → (i = length (devices s))%nat → loop_post i 0 s [] s.
Proof.
  intros Hok ->. split; try done; [by rewrite app_nil_r|..].
  - intros j d Hj. exists (ptr d). pose proof (lookup_lt_Some _ _ _ Hj).
    split; [by destruct d|]. split; [done|lia].
  - intros j1 j2 d1 d2 ? _ Hj. pose proof (lookup_lt_Some _ _ _ Hj). lia.
Qed.

(** A device that is not loaded at boot. *)
Lemma loop_post_skip i k s cs s' d :
  devices s !! i = Some d → onboot d = false →
  loop_post (S i) k s cs s' → loop_post i (S k) s cs s'.
Proof.
  intros Hd Eo [? ? ? Hdev Hown ? ? ?]. split; try done.
  - cbn [seq]. rewrite filter_cons, decide_False; [done|].
    unfold is_onboot. rewrite Hd. cbn. congruence.
  - intros j dj Hj. destruct (Hdev j dj Hj) as (p&P1&P2&P3). exists p. split; [done|].
    split; [intros [?|?]; apply P2; [left; lia|by right]|].
    intros Hij Ho. apply P3; [|done]. destruct (decide (j = i)) as [->|]; [congruence|lia].
  - intros j1 j2 d1 d2 Hj Hj1 Hj2 O1 O2. apply (Hown j1 j2); try done.
    destruct (decide (j1 = i)) as [->|]; [|lia].
    destruct (Hdev i d Hd) as (p&P1&_). rewrite Hj1 in P1. injection P1 as ->. cbn in O1. congruence.
Qed.

(** A device that is loaded, with its structure at [p]. *)
Lemma loop_post_cons i k s s3 cs s' d p m status :
  devices s !! i = Some d → onboot d = true →
  devices s3 = alter (set_ptr p) i (devices s) →
  d_calls s3 = d_calls s ++ [DCall i m status] → bdev_new m p →
  km_block (d_alloc s3) p SIZEOF_BDEV → blocks_kept s s3 →
  (∀ b k, km_block (d_alloc s) b k → apart b k p SIZEOF_BDEV) →
  loop_post (S i) k s3 cs s' → loop_post i (S k) s (DCall i m status :: cs) s'.
Proof.
  intros Hd Eo Hd3 Hc3 Hnew Hb3 Hkeep Hap [Hcs Hdv Hlen Hdev Hown Hload Hk Hok'].
  assert (Hl3 : ∀ j, j ≠ i → devices s3 !! j = devices s !! j).
  { intros j Hj. by rewrite Hd3, list_lookup_alter_ne by done. }
  assert (Hi3 : devices s3 !! i = Some (set_ptr p d)) by (by rewrite Hd3, list_lookup_alter_eq, Hd).
  destruct (Hdev i _ Hi3) as (pi&Pi1&Pi2&_). rewrite Pi2 in Pi1 by (left; lia). cbn in Pi1.
  split.
  - by rewrite Hcs, Hc3, <- app_assoc.
  - cbn [seq]. rewrite filter_cons, decide_True by (unfold is_onboot; rewrite Hd; cbn; congruence).
    rewrite fmap_cons. cbn [dc_dev]. f_equal. rewrite Hdv. apply list_filter_iff.
    intros j. unfold is_onboot. destruct (decide (j = i)) as [->|Hj]; [|by rewrite Hl3].
    by rewrite Hi3, Hd.
  - by rewrite Hlen, Hd3, length_alter.
  - intros j dj Hj. destruct (decide (j = i)) as [->|Hne].
    + assert (dj = d) as -> by congruence. exists p. split; [exact Pi1|].
      split; [intros [?|?]; [lia|congruence]|]. intros _ _. split; [by apply (Hk p _ Hb3)|done].
    + destruct (Hdev j dj) as (q&Q1&Q2&Q3); [by rewrite Hl3|]. exists q. split; [done|].
      split; [intros [?|?]; apply Q2; [left; lia|by right]|].
      intros Hij Ho. destruct Q3 as [R1 R2]; [lia|done|]. split; [done|].
      intros b n Hb. by apply R2, Hkeep.
  - intros j1 j2 d1 d2 Hj Hj1 Hj2 O1 O2. destruct (decide (j1 = i)) as [->|]; [|by apply (Hown j1 j2); lia || done].
    rewrite Hj1 in Pi1. injection Pi1 as ->. cbn [ptr set_ptr].
    destruct (lookup_lt_is_Some_2 (devices s3) j2) as [e E2].
    { pose proof (lookup_lt_Some _ _ _ Hj2). lia. }
    destruct (Hdev j2 e E2) as (q&Q1&_&Q3). rewrite Hj2 in Q1. injection Q1 as ->. cbn in *.
    apply Q3; [lia|done|done].
  - constructor; [|done]. by exists (set_ptr p d).
  - intros b n Hb. destruct (Hkeep b n Hb) as [K1 K2]. destruct (Hk b n K1) as [K3 K4].
    split; [done|by eapply agree_trans].
  - done.
Qed.

Lemma init_dev_loop_spec k : ∀ i s,
  km_ok (d_alloc s) → Forall (λ d, type d = DEV_BLOCK) (devices s) →
  (i + k = length (devices s))%nat →
  (init_dev_loop k i s = Panic "common blk_dev_init failed" ∧
   ∃ a a', km_ok a ∧ km_malloc a SIZEOF_BDEV = Ret (NULL, a')) ∨
  ∃ cs s', init_dev_loop k i s = Ret s' ∧ loop_post i k s cs s'.
Proof.
  induction k as [|k IH]; intros i s Hok Hty Hlen; cbn [init_dev_loop].
  { right. exists [], s. split; [done|]. apply loop_post_nil; [done|lia]. }
  destruct (lookup_lt_is_Some_2 (devices s) i) as [d Hd]; [lia|]. rewrite Hd.
  pose proof (Forall_lookup_1 _ _ _ _ Hty Hd) as Ht. cbn in Ht.
  destruct (onboot d) eqn:Eo; cbn [negb]; last first.
  { destruct (IH (S i) s Hok Hty) as [?|(cs&s'&?&?)]; [lia|by left|right].
    exists cs, s'. split; [done|]. by eapply loop_post_skip. }
  destruct (init_one_spec i s d Hok Hd Ht) as
    [(->&a'&E)|(p&s1&status&s2&->&Ed&Hok2&Hd2&Hc2&Hnew&Hb2&Hkeep&Hap)]; [left; eauto|].
  cbn [mbind res_bind]. rewrite Ed. cbn [mbind res_bind].
  set (s3 := DState _ _ _ _).
  destruct (IH (S i) s3) as [?|(cs&s'&E&Hpost)]; [done|..].
  { cbn. rewrite Hd2. apply Forall_alter; [done|]. by intros x _ ?. }
  { cbn. rewrite Hd2, length_alter. lia. }
  { by left. }
  right. exists (DCall i (d_mem s1) status :: cs), s'. split; [done|].
  eapply (loop_post_cons i k s s3); try done. cbn. by rewrite Hc2.
Qed.
End InitDev.

(** ** Property *)

(** [init_dev] loads every device marked for boot. For any drivers that keep to [driver_ok],
    it calls the driver of each of them once, in the order of the table and whether or not
    the ones before succeeded; at the call the device has a [blk_dev_t] of its own: newly
    allocated, apart from those of the other devices, with empty lists, no blocks and a free
    lock. The other devices and the blocks allocated before are left as they were. The only
    way out is the panic when the heap is full. *)
Theorem init_dev_correct {A} `{KernelMemory A} ops driver (s : dstate A) :
  km_ok (d_alloc s) → (∀ f, driver_ok ops (driver f)) → Forall (λ d, type d = DEV_BLOCK) (devices s) →
  d_calls s = [] →
  (init_dev ops driver s = Panic "common blk_dev_init failed" ∧
   ∃ a a', km_ok a ∧ km_malloc a SIZEOF_BDEV = Ret (NULL, a')) ∨
  ∃ s', init_dev ops driver s = Ret s' ∧
    dc_dev <$> d_calls s' = filter (is_onboot (devices s)) (seq 0 (length (devices s))) ∧
    Forall (loaded ops (devices s')) (d_calls s') ∧ own_structures 0 s' ∧
    (∀ j d, devices s !! j = Some d → dev_after 0 s s' j d) ∧ blocks_kept s s'.
Proof.
  intros Hok Hdrv Hty Hc. unfold init_dev.
  destruct (init_dev_loop_spec ops driver Hdrv (length (devices s)) 0 s Hok Hty)
    as [?|(cs&s'&E&[P1 P2 P3 P4 P5 P6 P7 _])]; [done|by left|right].
  rewrite Hc in P1. cbn in P1. exists s'. rewrite P1. by split_and!.
Qed.

(** The table of the source, with drivers that do nothing. *)
Definition demo_devices : dstate (heap_desc_t * kmem (mmc_t * mem)) :=
  DState (λ _, 7) boot_heap devices_demo [].

Lemma init_dev_correct_witness :
  ∃ s', init_dev 0x1000 (λ _, init_ide_master) demo_devices = Ret s' ∧
    dc_dev <$> d_calls s' = [0; 1]%nat.
Proof.
  destruct (init_dev_correct 0x1000 (λ _, init_ide_master) demo_devices) as [[E _]|(s'&E&Hc&_)].
  - exact boot_heap_ok.
  - intros _. exact (init_ide_master_ok _).
  - repeat constructor.
  - reflexivity.
  - exfalso.
    assert (Hb : match init_dev 0x1000 (λ _, init_ide_master) demo_devices with
                 | Panic _ => false | _ => true end = true) by (vm_compute; reflexivity).
    rewrite E in Hb. discriminate.
  - exists s'. split; [exact E|]. rewrite Hc. vm_compute. reflexivity.
Defined.
