(* ===== verification/Hlist.v ===== *)
(** * Hash lists: the [hlist_*] functions of [include/list.h]

    Doubly linked lists with a single pointer as their head. A node points back not to the
    node before it but to the pointer that points to it: the [first] of the head or the
    [next] of a node ([hlist_node **pprev]). That pointer is a value of [pref] here; to
    follow it when it is not one of the two is a fault. *)
From S2P Require Import Prelude.

(** What [pprev] can hold. *)
Inductive pref : Type :=
  | PNull
  | PPoison               (* LIST_POISON2 *)
  | PFirst (h : Z)        (* &h->first *)
  | PNext (n : Z).        (* &n->next *)

#[export] Instance pref_eq_dec : EqDecision pref.
Proof. solve_decision. Defined.

(** [struct hlist_head] and [struct hlist_node] *)
Record hmem : Type := HMem {
  first : Z → Z;
  next : Z → Z;
  pprev : Z → pref;
}.

Definition LIST_POISON1 : Z := 0xFFFFFFF0.

Definition set_first (h v : Z) (m : hmem) : hmem := HMem (<[h := v]> (first m)) (next m) (pprev m).
Definition set_next (n v : Z) (m : hmem) : hmem := HMem (first m) (<[n := v]> (next m)) (pprev m).
Definition set_pprev (n : Z) (r : pref) (m : hmem) : hmem :=
  HMem (first m) (next m) (<[n := r]> (pprev m)).

(** [*r = v] *)
Definition set_at (r : pref) (v : Z) (m : hmem) : res hmem :=
  match r with
  | PFirst h => Ret (set_first h v m)
  | PNext n => Ret (set_next n v m)
  | _ => Panic "page fault"
  end.

(** ** Operations *)

Definition INIT_HLIST_HEAD (h : Z) (m : hmem) : hmem := set_first h NULL m.

Definition INIT_HLIST_NODE (h : Z) (m : hmem) : hmem := set_pprev h PNull (set_next h NULL m).

Definition hlist_unhashed (h : Z) (m : hmem) : bool := bool_decide (pprev m h = PNull).

Definition hlist_empty (h : Z) (m : hmem) : bool := first m h =? NULL.

Definition __hlist_del (n : Z) (m : hmem) : res hmem :=
  let nxt := next m n in
  let pp := pprev m n in
  m ← set_at pp nxt m;
  Ret (if negb (nxt =? NULL) then set_pprev nxt pp m else m).

Definition hlist_del (n : Z) (m : hmem) : res hmem :=
  m ← __hlist_del n m;
  Ret (set_pprev n PPoison (set_next n LIST_POISON1 m)).

Definition hlist_del_init (n : Z) (m : hmem) : res hmem :=
  if negb (hlist_unhashed n m) then
    m ← __hlist_del n m;
    Ret (INIT_HLIST_NODE n m)
  else Ret m.

Definition hlist_add_head (n h : Z) (m : hmem) : hmem :=
  let f := first m h in
  let m := set_next n f m in
  let m := if negb (f =? NULL) then set_pprev f (PNext n) m else m in
  let m := set_first h n m in
  set_pprev n (PFirst h) m.

Definition hlist_add_before (n nxt : Z) (m : hmem) : res hmem :=
  let m := set_pprev n (pprev m nxt) m in
  let m := set_next n nxt m in
  let m := set_pprev nxt (PNext n) m in
  set_at (pprev m n) n m.

Definition hlist_add_behind (n prev : Z) (m : hmem) : hmem :=
  let m := set_next n (next m prev) m in
  let m := set_next prev n m in
  let m := set_pprev n (PNext prev) m in
  if negb (next m n =? NULL) then set_pprev (next m n) (PNext n) m else m.

Definition hlist_add_fake (n : Z) (m : hmem) : hmem := set_pprev n (PNext n) m.

Definition hlist_move_list (old new : Z) (m : hmem) : hmem :=
  let m := set_first new (first m old) m in
  let m := if negb (first m new =? NULL) then set_pprev (first m new) (PFirst new) m else m in
  set_first old NULL m.

(** [hlist_for_each(pos, head)] and [hlist_for_each_safe(pos, n, head)] from node [pos] on *)
Fixpoint hlist_for_each_from {S} (fuel : nat) (body : Z → S → hmem → res (S * hmem))
    (pos : Z) (s : S) (m : hmem) : res (S * hmem) :=
  match fuel with
  | O => Diverge
  | S fuel =>
      if pos =? NULL then Ret (s, m)
      else '(s, m) ← body pos s m; hlist_for_each_from fuel body (next m pos) s m
  end.

Fixpoint hlist_for_each_safe_from {S} (fuel : nat) (body : Z → S → hmem → res (S * hmem))
    (pos : Z) (s : S) (m : hmem) : res (S * hmem) :=
  match fuel with
  | O => Diverge
  | S fuel =>
      if pos =? NULL then Ret (s, m)
      else
        let n := next m pos in
        '(s, m) ← body pos s m; hlist_for_each_safe_from fuel body n s m
  end.

Definition hlist_for_each {S} fuel (body : Z → S → hmem → res (S * hmem)) (h : Z) (s : S) (m : hmem) :=
  hlist_for_each_from fuel body (first m h) s m.
Definition hlist_for_each_safe {S} fuel (body : Z → S → hmem → res (S * hmem)) (h : Z) (s : S) (m : hmem) :=
  hlist_for_each_safe_from fuel body (first m h) s m.

(** ** The list behind a pointer *)

(** [*r] *)
Definition get_at (m : hmem) (r : pref) : Z :=
  match r with PFirst h => first m h | PNext n => next m n | _ => NULL end.

(** From [r] on, the pointers go through [l], and each node of [l] points back. *)
Fixpoint chained (m : hmem) (r : pref) (l : list Z) : Prop :=
  match l with
  | [] => True
  | x :: l => get_at m r = x ∧ pprev m x = r ∧ chained m (PNext x) l
  end.

(** The last pointer of a list. *)
Fixpoint end_of (r : pref) (l : list Z) : pref :=
  match l with [] => r | x :: l => end_of (PNext x) l end.

Definition hlist (m : hmem) (r : pref) (l : list Z) : Prop :=
  chained m r l ∧ get_at m (end_of r l) = NULL.

Lemma end_of_app r l1 l2 : end_of r (l1 ++ l2) = end_of (end_of r l1) l2.
Proof. revert r. induction l1 as [|x l1 IH]; intros r; cbn; [done|apply IH]. Qed.

Lemma end_of_cases r l : end_of r l = r ∨ ∃ x, x ∈ l ∧ end_of r l = PNext x.
Proof.
  revert r. induction l as [|x l IH]; intros r; cbn; [by left|right].
  destruct (IH (PNext x)) as [->|(y&Hy&->)]; eexists; (split; [|done]); set_solver.
Qed.

Lemma chained_app m r l1 l2 :
  chained m r (l1 ++ l2) ↔ chained m r l1 ∧ chained m (end_of r l1) l2.
Proof.
  revert r. induction l1 as [|x l1 IH]; intros r; cbn; [tauto|]. rewrite IH. tauto.
Qed.

Lemma hlist_app m r l1 l2 : hlist m r (l1 ++ l2) ↔ chained m r l1 ∧ hlist m (end_of r l1) l2.
Proof. unfold hlist. rewrite chained_app, end_of_app. tauto. Qed.

Lemma hlist_nil m r : hlist m r [] ↔ get_at m r = NULL.
Proof. unfold hlist. cbn. tauto. Qed.

Lemma hlist_cons m r x l :
  hlist m r (x :: l) ↔ get_at m r = x ∧ pprev m x = r ∧ hlist m (PNext x) l.
Proof. unfold hlist. cbn. tauto. Qed.

(** The pointers of a list. *)
Definition pointers (r : pref) (l : list Z) : list pref := r :: (PNext <$> l).

Lemma end_of_pointer r l : end_of r l ∈ pointers r l.
Proof.
  unfold pointers. destruct (end_of_cases r l) as [->|(x&Hx&->)]; [left|right].
  apply list_elem_of_fmap. eauto.
Qed.

Lemma pointers_NoDup h l : NoDup l → NoDup (pointers (PFirst h) l).
Proof.
  intros Hl. constructor; [intros (x&E&_)%list_elem_of_fmap; done|].
  apply NoDup_fmap_2; [|done]. by intros ?? [= ->].
Qed.

Lemma pointer_next h x l : PNext x ∈ pointers (PFirst h) l ↔ x ∈ l.
Proof.
  unfold pointers. rewrite elem_of_cons, list_elem_of_fmap. split; [|by right; eauto].
  intros [?|(y&[= ->]&?)]; done.
Qed.

(** Only these pointers matter, and the last one only for the end. *)
Lemma chained_same m m' r l :
  NoDup (pointers r l) →
  (∀ r', r' ∈ pointers r l → r' ≠ end_of r l → get_at m' r' = get_at m r') →
  (∀ x, x ∈ l → pprev m' x = pprev m x) → chained m r l → chained m' r l.
Proof.
  revert r. induction l as [|x l IH]; intros r Hnd Hg Hp; [done|].
  intros (H1&H2&H3). apply NoDup_cons in Hnd as [Hr Hnd]. split; [|split].
  - rewrite Hg; [done|left|]. cbn [end_of]. intros Er. destruct Hr. rewrite Er.
    apply (end_of_pointer (PNext x) l).
  - rewrite Hp by left. done.
  - apply IH; [done| |set_solver|done]. intros r' Hr' Hne. apply Hg; [by right|done].
Qed.

Lemma hlist_same m m' r l :
  (∀ r', r' ∈ pointers r l → get_at m' r' = get_at m r') →
  (∀ x, x ∈ l → pprev m' x = pprev m x) → hlist m r l → hlist m' r l.
Proof.
  intros Hg Hp [Hc He]. split; [|by rewrite Hg by apply end_of_pointer].
  clear He. revert r Hg Hc. induction l as [|x l IH]; intros r Hg; [done|].
  intros (H1&H2&H3). split; [rewrite Hg by left; done|]. split; [rewrite Hp by left; done|].
  apply IH; [set_solver| |done]. intros r' Hr'. apply Hg. by right.
Qed.

(** ** Inserting and removing a node *)

(** [m'] is [m] with [n] inserted at the pointer [r]. *)
Record inserted (m m' : hmem) (r : pref) (n : Z) : Prop := {
  in_at : get_at m' r = n;
  in_back : pprev m' n = r;
  in_next : get_at m' (PNext n) = get_at m r;
  in_get : ∀ r', r' ≠ r → r' ≠ PNext n → get_at m' r' = get_at m r';
  in_pprev : ∀ x, x ≠ n → pprev m' x =
    if decide (x = get_at m r ∧ x ≠ NULL) then PNext n else pprev m x;
}.

Lemma hlist_insert m m' h l1 l2 n :
  let r := end_of (PFirst h) l1 in
  NoDup (l1 ++ l2) → NULL ∉ l1 ++ l2 → n ∉ l1 ++ l2 → inserted m m' r n →
  hlist m (PFirst h) (l1 ++ l2) → hlist m' (PFirst h) (l1 ++ n :: l2).
Proof.
  intros r Hnd H0 Hn [I1 I2 I3 I4 I5] [Hc Hl]%hlist_app. fold r in Hl.
  apply NoDup_app in Hnd as (Nd1&Nd&Nd2).
  assert (Hr : r ∈ pointers (PFirst h) l1) by apply end_of_pointer.
  assert (Hhead : ∀ y l3, l2 = y :: l3 → get_at m r = y).
  { intros y l3 ->. by apply hlist_cons in Hl as [? _]. }
  assert (Hout : ∀ y, y ∈ l2 → PNext y ≠ r).
  { intros y Hy <-. apply pointer_next in Hr. by apply (Nd y). }
  apply hlist_app. split.
  - apply (chained_same m); [by apply pointers_NoDup|..|done].
    + intros r' Hr' Hne. apply I4; [done|]. intros ->. apply pointer_next in Hr'. set_solver.
    + intros x Hx. rewrite I5 by set_solver. rewrite decide_False; [done|]. intros [E Hx0].
      destruct l2 as [|y l3]; [apply hlist_nil in Hl; congruence|].
      rewrite (Hhead y l3 eq_refl) in E. subst. by apply (Nd y); [|left].
  - fold r. apply hlist_cons. split; [done|]. split; [done|].
    destruct l2 as [|y l3]; [apply hlist_nil in Hl; apply hlist_nil; congruence|].
    apply hlist_cons in Hl as (L1&L2&L3). apply hlist_cons. split; [congruence|].
    assert (y ≠ n) by set_solver. assert (y ≠ NULL) by set_solver.
    split; [rewrite I5, decide_True by done; done|].
    apply NoDup_cons in Nd2 as [Ny Nd3].
    apply (hlist_same m); [|intros x Hx|done].
    + intros r' Hr'. apply I4; [|intros ->; set_solver].
      intros ->. apply elem_of_cons in Hr' as [E|(x&E&Hx)%list_elem_of_fmap].
      * by apply (Hout y ltac:(left)).
      * apply (Hout x); [by right|done].
    + rewrite I5 by set_solver. rewrite decide_False; [done|]. intros [E _]. set_solver.
Qed.

(** [m'] is [m] without [x]. *)
Record removed (m m' : hmem) (x : Z) : Prop := {
  re_at : get_at m' (pprev m x) = next m x;
  re_get : ∀ r', r' ≠ pprev m x → r' ≠ PNext x → get_at m' r' = get_at m r';
  re_pprev : ∀ y, y ≠ x → pprev m' y =
    if decide (y = next m x ∧ y ≠ NULL) then pprev m x else pprev m y;
}.

Lemma hlist_remove m m' h l1 l2 x :
  NoDup (l1 ++ x :: l2) → NULL ∉ l1 ++ x :: l2 → removed m m' x →
  hlist m (PFirst h) (l1 ++ x :: l2) → hlist m' (PFirst h) (l1 ++ l2).
Proof.
  intros Hnd H0 [R1 R2 R3] [Hc Hl]%hlist_app. set (r := end_of (PFirst h) l1) in *.
  apply hlist_cons in Hl as (L1&L2&L3). rewrite L2 in *.
  apply NoDup_app in Hnd as (Nd1&Nd&Nd2). apply NoDup_cons in Nd2 as [Nx Nd2].
  assert (Hr : r ∈ pointers (PFirst h) l1) by apply end_of_pointer.
  apply hlist_app. split.
  - apply (chained_same m); [by apply pointers_NoDup|..|done].
    + intros r' Hr' Hne. apply R2; [done|]. intros ->. apply pointer_next in Hr'.
      by apply (Nd x); [|left].
    + intros y Hy. rewrite R3 by (intros ->; by apply (Nd x); [|left]).
      rewrite decide_False; [done|]. intros [E Hy0].
      destruct l2 as [|z l3]; [apply hlist_nil in L3; cbn in L3; congruence|].
      apply hlist_cons in L3 as (E3&_). cbn in E3. apply (Nd y); [done|]. set_solver.
  - fold r. destruct l2 as [|z l3]; [apply hlist_nil in L3; apply hlist_nil; cbn in L3; congruence|].
    apply hlist_cons in L3 as (M1&M2&M3). cbn in M1. apply hlist_cons. split; [congruence|].
    assert (z ≠ x) by set_solver. assert (z ≠ NULL) by set_solver.
    split; [rewrite R3, decide_True by done; done|].
    apply NoDup_cons in Nd2 as [Nz Nd3].
    apply (hlist_same m); [|intros y Hy|done].
    + intros r' Hr'. apply R2.
      * intros ->. apply elem_of_cons in Hr' as [E|(y&E&Hy)%list_elem_of_fmap];
          rewrite E in Hr; apply pointer_next in Hr; apply (Nd _ Hr); set_solver.
      * intros ->. apply elem_of_cons in Hr' as [[= E]|(y&[= E]&Hy)%list_elem_of_fmap]; set_solver.
    + rewrite R3 by set_solver. rewrite decide_False; [done|]. intros [E _]. set_solver.
Qed.

(** ** The functions insert and remove *)

Definition put (r : pref) (v : Z) (m : hmem) : hmem :=
  match r with PFirst h => set_first h v m | PNext n => set_next n v m | _ => m end.

Lemma get_put r v m r' :
  r ≠ PNull → r ≠ PPoison → get_at (put r v m) r' = if decide (r' = r) then v else get_at m r'.
Proof.
  intros ??. destruct r as [| |h|n]; [done|done|..]; cbn.
  - destruct r' as [| |h'|n']; try by rewrite decide_False by done. cbn.
    destruct (decide (h' = h)) as [->|]; [by rewrite fn_lookup_insert, decide_True|].
    rewrite fn_lookup_insert_ne, decide_False by congruence. done.
  - destruct r' as [| |h'|n']; try by rewrite decide_False by done. cbn.
    destruct (decide (n' = n)) as [->|]; [by rewrite fn_lookup_insert, decide_True|].
    rewrite fn_lookup_insert_ne, decide_False by congruence. done.
Qed.

Lemma pprev_put r v m : pprev (put r v m) = pprev m.
Proof. by destruct r. Qed.

Lemma get_set_pprev n r m r' : get_at (set_pprev n r m) r' = get_at m r'.
Proof. by destruct r'. Qed.

Lemma pprev_set n r m x : pprev (set_pprev n r m) x = if decide (x = n) then r else pprev m x.
Proof.
  cbn. case_decide; [subst; apply fn_lookup_insert|by apply fn_lookup_insert_ne].
Qed.

Lemma end_of_valid h l : end_of (PFirst h) l ≠ PNull ∧ end_of (PFirst h) l ≠ PPoison.
Proof. by destruct (end_of_cases (PFirst h) l) as [->|(x&_&->)]. Qed.

Lemma set_at_put r v m : r ≠ PNull → r ≠ PPoison → set_at r v m = Ret (put r v m).
Proof. by destruct r. Qed.

Lemma set_next_put n v m : set_next n v m = put (PNext n) v m.
Proof. done. Qed.
Lemma set_first_put h v m : set_first h v m = put (PFirst h) v m.
Proof. done. Qed.

(** Reads behind a sequence of writes. *)
Ltac hread :=
  repeat first
    [ rewrite get_put by done | rewrite pprev_put | rewrite get_set_pprev | rewrite pprev_set ].

(** The pointer at which a node of a list hangs. *)
Lemma hlist_node m h l1 x l2 :
  x ≠ NULL → NoDup (l1 ++ x :: l2) → hlist m (PFirst h) (l1 ++ x :: l2) →
  pprev m x = end_of (PFirst h) l1 ∧ get_at m (pprev m x) = x ∧ pprev m x ≠ PNext x ∧
  hlist m (PNext x) l2 ∧ next m x ≠ x.
Proof.
  intros H0 Hnd [Hc Hl]%hlist_app. apply hlist_cons in Hl as (L1&L2&L3).
  rewrite L2.
  apply NoDup_app in Hnd as (_&Nd&Nd2). apply NoDup_cons in Nd2 as [Nx _].
  split_and!; try done.
  - intros E. pose proof (end_of_pointer (PFirst h) l1) as Hp. rewrite E in Hp.
    apply pointer_next in Hp. apply (Nd x); [done|left].
  - destruct l2 as [|y l3]; [apply hlist_nil in L3; cbn in L3; congruence|].
    apply hlist_cons in L3 as (E&_). cbn in E. set_solver.
Qed.

Lemma hlist_add_head_inserted m n h :
  n ≠ first m h → inserted m (hlist_add_head n h m) (PFirst h) n.
Proof.
  intros Hn. unfold hlist_add_head. rewrite set_next_put, set_first_put.
  destruct (Z.eqb_spec (first m h) NULL) as [E|E]; cbn [negb]; split; intros; hread; cbn [get_at];
    repeat case_decide; naive_solver.
Qed.

Lemma hlist_add_behind_inserted m n x :
  n ≠ x → n ≠ next m x → inserted m (hlist_add_behind n x m) (PNext x) n.
Proof.
  intros Hx Hn. unfold hlist_add_behind. rewrite !set_next_put.
  assert (E : next (set_pprev n (PNext x) (put (PNext x) n (put (PNext n) (next m x) m))) n = next m x).
  { change (get_at (set_pprev n (PNext x) (put (PNext x) n (put (PNext n) (next m x) m))) (PNext n) = next m x).
    hread. repeat case_decide; naive_solver. }
  rewrite E. destruct (Z.eqb_spec (next m x) NULL) as [E0|E0]; cbn [negb]; split; intros; hread; cbn [get_at];
    repeat case_decide; naive_solver.
Qed.

Lemma hlist_add_before_inserted m n x r :
  pprev m x = r → get_at m r = x → r ≠ PNull → r ≠ PPoison → r ≠ PNext n → n ≠ x → x ≠ NULL →
  ∃ m', hlist_add_before n x m = Ret m' ∧ inserted m m' r n.
Proof.
  intros Hp Hg V1 V2 V3 Hx H0. unfold hlist_add_before. rewrite set_next_put.
  assert (E : pprev (set_pprev x (PNext n) (put (PNext n) x (set_pprev n (pprev m x) m))) n = r).
  { hread. repeat case_decide; naive_solver. }
  rewrite E, set_at_put by done. eexists. split; [done|].
  split; intros; hread; repeat case_decide; naive_solver.
Qed.

Lemma __hlist_del_removed m x r :
  pprev m x = r → r ≠ PNull → r ≠ PPoison → r ≠ PNext x → next m x ≠ x →
  ∃ m', __hlist_del x m = Ret m' ∧ removed m m' x.
Proof.
  intros Hp V1 V2 V3 Hx. unfold __hlist_del. rewrite Hp, set_at_put by done. cbn [mbind res_bind].
  eexists. split; [done|].
  destruct (Z.eqb_spec (next m x) NULL) as [E|E]; cbn [negb]; split; intros; rewrite ?Hp in *; hread;
    repeat case_decide; naive_solver.
Qed.

(** What is written to the node itself afterwards does not matter. *)
Lemma removed_node m m' x v r : removed m m' x → pprev m x ≠ PNext x →
  removed m (set_pprev x r (set_next x v m')) x.
Proof.
  intros [R1 R2 R3] Hx. rewrite set_next_put.
  split; intros; hread; rewrite ?decide_False by done; auto.
Qed.

(** ** The lists of a memory *)

(** [W] maps each head to its nodes; the nodes of [U] are unhashed. *)
Record hreps (m : hmem) (W : gmap Z (list Z)) (U : gset Z) : Prop := {
  hr_list : ∀ h l, W !! h = Some l → hlist m (PFirst h) l ∧ NoDup l ∧ NULL ∉ l;
  hr_disj : ∀ h1 l1 h2 l2 x, W !! h1 = Some l1 → W !! h2 = Some l2 → x ∈ l1 → x ∈ l2 → h1 = h2;
  hr_free : ∀ x, x ∈ U → pprev m x = PNull ∧ ∀ h l, W !! h = Some l → x ∉ l;
}.

Definition fresh (W : gmap Z (list Z)) (n : Z) : Prop := ∀ h l, W !! h = Some l → n ∉ l.

(** One list changes. *)
Lemma hreps_update m m' W U U' h l' :
  hreps m W U → hlist m' (PFirst h) l' → NoDup l' → NULL ∉ l' →
  (∀ h2 l2 x, h2 ≠ h → W !! h2 = Some l2 → x ∈ l2 →
     (x ∉ l') ∧ get_at m' (PNext x) = get_at m (PNext x) ∧ pprev m' x = pprev m x) →
  (∀ h2, h2 ≠ h → is_Some (W !! h2) → first m' h2 = first m h2) →
  (∀ x, x ∈ U' → pprev m' x = PNull ∧ (x ∉ l') ∧
     ∀ h2 l2, h2 ≠ h → W !! h2 = Some l2 → x ∉ l2) →
  hreps m' (<[h := l']> W) U'.
Proof.
  intros [HL HD HF] Hl Hnd H0 Hother Hfirst HU. split.
  - intros h2 l2 [[<- <-]|[Hne H2]]%lookup_insert_Some; [done|].
    destruct (HL h2 l2 H2) as (A1&A2&A3). split; [|done].
    apply (hlist_same m); [|intros x Hx; by apply (Hother h2 l2)|done].
    intros r' [->|(x&->&Hx)%list_elem_of_fmap]%elem_of_cons; [apply Hfirst; eauto|].
    by apply (Hother h2 l2).
  - intros h1 l1 h2 l2 x [[<- <-]|[N1 E1]]%lookup_insert_Some [[<- <-]|[N2 E2]]%lookup_insert_Some X1 X2;
      [done| | |by eapply HD].
    + by destruct (Hother h2 l2 x) as [? _].
    + by destruct (Hother h1 l1 x) as [? _].
  - intros x Hx. destruct (HU x Hx) as (A1&A2&A3). split; [done|].
    intros h2 l2 [[<- <-]|[Hne H2]]%lookup_insert_Some; [done|]. by eapply A3.
Qed.

(** [n] is inserted into one list. *)
Lemma hreps_insert m m' W U h l1 l2 n :
  hreps m W U → W !! h = Some (l1 ++ l2) → n ≠ NULL → fresh W n →
  inserted m m' (end_of (PFirst h) l1) n →
  hreps m' (<[h := l1 ++ n :: l2]> W) (U ∖ {[n]}).
Proof.
  intros HR Hh Hn Hf Hin. pose proof HR as [HL HD HF]. destruct (HL _ _ Hh) as (A1&A2&A3).
  pose proof (Hf _ _ Hh) as Hnl. set (r := end_of _ _) in *.
  assert (Hr : r ∈ pointers (PFirst h) l1) by apply end_of_pointer.
  assert (Hnext : ∀ x, x = get_at m r → x ≠ NULL → x ∈ l1 ++ l2).
  { intros x -> Hx. apply hlist_app in A1 as [_ A1]. fold r in A1.
    destruct l2 as [|y l3]; [by apply hlist_nil in A1|]. apply hlist_cons in A1 as (->&_). set_solver. }
  assert (Hpp : ∀ x, x ≠ n → x ∉ l1 ++ l2 → pprev m' x = pprev m x).
  { intros x Hx Hout. rewrite (in_pprev _ _ _ _ Hin) by done. rewrite decide_False; [done|].
    intros [E Hx0]. by apply Hout, Hnext. }
  apply (hreps_update m m' W U); try done.
  - by apply (hlist_insert m m' h l1 l2 n).
  - rewrite <- Permutation_middle. by constructor.
  - set_solver.
  - intros h2 l3 x Hne H2 Hx. assert (x ≠ n) by (intros ->; by apply (Hf h2 l3)).
    assert (Hxl : x ∉ l1 ++ l2) by (intros Hin2; by destruct Hne; eapply HD).
    split; [set_solver|]. split; [|by apply Hpp]. apply (in_get _ _ _ _ Hin); [|congruence].
    intros E. rewrite <- E in Hr. apply pointer_next in Hr. set_solver.
  - intros h2 Hne _. apply (in_get _ _ _ _ Hin (PFirst h2)); [|done]. intros E. rewrite <- E in Hr.
    unfold pointers in Hr. apply elem_of_cons in Hr as [?|(x&?&_)%list_elem_of_fmap]; congruence.
  - intros x [Hx Hxn]%elem_of_difference. destruct (HF x Hx) as [B1 B2].
    assert (x ∉ l1 ++ l2) by by eapply B2. split; [|split; [set_solver|eauto]].
    by rewrite Hpp by set_solver.
Qed.

(** [x] is removed from its list, and may become unhashed. *)
Lemma hreps_remove m m' W U U' h l1 l2 x :
  hreps m W U → W !! h = Some (l1 ++ x :: l2) → removed m m' x →
  U' ⊆ {[x]} ∪ U → (x ∈ U' → pprev m' x = PNull) →
  hreps m' (<[h := l1 ++ l2]> W) U'.
Proof.
  intros HR Hh Hre HU HU'. pose proof HR as [HL HD HF]. destruct (HL _ _ Hh) as (A1&A2&A3).
  assert (Hx0 : x ≠ NULL) by set_solver.
  destruct (hlist_node m h l1 x l2 Hx0 A2 A1) as (P1&_&_&P2&_).
  assert (Hnext : ∀ y, y = next m x → y ≠ NULL → y ∈ l2).
  { intros y -> Hy. destruct l2 as [|z l3]; [by apply hlist_nil in P2|].
    apply hlist_cons in P2 as (E&_). cbn in E. set_solver. }
  assert (Hpp : ∀ y, y ∉ l1 ++ x :: l2 → pprev m' y = pprev m y).
  { intros y Hy. rewrite (re_pprev _ _ _ Hre) by set_solver. rewrite decide_False; [done|].
    intros [E Hy0]. pose proof (Hnext y E Hy0). set_solver. }
  assert (Hr : pprev m x ∈ pointers (PFirst h) l1) by (rewrite P1; apply end_of_pointer).
  pose proof A2 as A2'. rewrite <- Permutation_middle in A2'. apply NoDup_cons in A2' as [Nx Nd].
  apply (hreps_update m m' W U); try done.
  - by apply (hlist_remove m m' h l1 l2 x).
  - set_solver.
  - intros h2 l3 y Hne H2 Hy.
    assert (Hyl : y ∉ l1 ++ x :: l2) by (intros Hin2; by destruct Hne; eapply HD).
    split; [set_solver|]. split; [|by apply Hpp]. apply (re_get _ _ _ Hre); [|set_solver].
    intros E. rewrite <- E in Hr. apply pointer_next in Hr. set_solver.
  - intros h2 Hne _. apply (re_get _ _ _ Hre (PFirst h2)); [|done]. intros E. rewrite <- E in Hr.
    unfold pointers in Hr. apply elem_of_cons in Hr as [?|(y&?&_)%list_elem_of_fmap]; congruence.
  - intros y Hy. destruct (decide (y = x)) as [->|Hne].
    + split; [by apply HU'|]. split; [done|]. intros h2 l3 Hne H2 Hin. destruct Hne. eapply HD; eauto.
      set_solver.
    + assert (y ∈ U) as HyU by set_solver. destruct (HF y HyU) as [B1 B2].
      pose proof (B2 _ _ Hh). split; [by rewrite Hpp|]. split; [set_solver|eauto].
Qed.

(** ** The functions on sequences *)

Fixpoint insert_before (n x : Z) (l : list Z) : list Z :=
  match l with
  | [] => []
  | y :: l => if decide (y = x) then n :: y :: l else y :: insert_before n x l
  end.
Fixpoint insert_behind (n x : Z) (l : list Z) : list Z :=
  match l with
  | [] => []
  | y :: l => if decide (y = x) then y :: n :: l else y :: insert_behind n x l
  end.
Definition remove (x : Z) (l : list Z) : list Z := filter (λ y, y ≠ x) l.

Inductive hcall : Type :=
  | HInitHead (h : Z)
  | HInitNode (n : Z)
  | HAddHead (n h : Z)
  | HAddBefore (n x : Z)
  | HAddBehind (n x : Z)
  | HDel (x : Z)
  | HDelInit (x : Z)
  | HMove (old new : Z).

Definition hrun (m : hmem) (c : hcall) : res hmem :=
  match c with
  | HInitHead h => Ret (INIT_HLIST_HEAD h m)
  | HInitNode n => Ret (INIT_HLIST_NODE n m)
  | HAddHead n h => Ret (hlist_add_head n h m)
  | HAddBefore n x => hlist_add_before n x m
  | HAddBehind n x => Ret (hlist_add_behind n x m)
  | HDel x => hlist_del x m
  | HDelInit x => hlist_del_init x m
  | HMove old new => Ret (hlist_move_list old new m)
  end.

(** What the call does to the sequences and to the set of unhashed nodes. *)
Definition habs (WU : gmap Z (list Z) * gset Z) (c : hcall) : gmap Z (list Z) * gset Z :=
  let '(W, U) := WU in
  match c with
  | HInitHead h => (<[h := []]> W, U)
  | HInitNode n => (W, {[n]} ∪ U)
  | HAddHead n h => (alter (cons n) h W, U ∖ {[n]})
  | HAddBefore n x => (insert_before n x <$> W, U ∖ {[n]})
  | HAddBehind n x => (insert_behind n x <$> W, U ∖ {[n]})
  | HDel x => (remove x <$> W, U)
  | HDelInit x => (remove x <$> W, {[x]} ∪ U)
  | HMove old new => (<[old := []]> (<[new := default [] (W !! old)]> W), U)
  end.

Definition listed (W : gmap Z (list Z)) (x : Z) : Prop := ∃ h l, W !! h = Some l ∧ x ∈ l.

(** What the caller has to see to. *)
Definition hpre (WU : gmap Z (list Z) * gset Z) (c : hcall) : Prop :=
  let '(W, U) := WU in
  match c with
  | HInitHead h => True
  | HInitNode n => fresh W n
  | HAddHead n h => n ≠ NULL ∧ fresh W n ∧ is_Some (W !! h)
  | HAddBefore n x | HAddBehind n x => n ≠ NULL ∧ fresh W n ∧ listed W x
  | HDel x => listed W x
  | HDelInit x => listed W x ∨ x ∈ U
  | HMove old new => old ≠ new ∧ is_Some (W !! old)
  end.

(** A function that changes only the list of [x] changes one list. *)
Lemma fmap_one (f : list Z → list Z) (W : gmap Z (list Z)) h l :
  W !! h = Some l → (∀ h2 l2, h2 ≠ h → W !! h2 = Some l2 → f l2 = l2) → f <$> W = <[h := f l]> W.
Proof.
  intros Hh Hf. apply map_eq. intros h2. rewrite lookup_fmap.
  destruct (decide (h2 = h)) as [->|Hne]; [by rewrite lookup_insert_eq, Hh|].
  rewrite lookup_insert_ne by done. destruct (W !! h2) as [l2|] eqn:E; [|done]. cbn. by rewrite (Hf h2).
Qed.

Lemma insert_before_app n x l1 l2 : x ∉ l1 → insert_before n x (l1 ++ x :: l2) = l1 ++ n :: x :: l2.
Proof.
  induction l1 as [|y l1 IH]; cbn; intros Hx; [by rewrite decide_True|].
  rewrite decide_False by set_solver. by rewrite IH by set_solver.
Qed.
Lemma insert_behind_app n x l1 l2 : x ∉ l1 → insert_behind n x (l1 ++ x :: l2) = l1 ++ x :: n :: l2.
Proof.
  induction l1 as [|y l1 IH]; cbn; intros Hx; [by rewrite decide_True|].
  rewrite decide_False by set_solver. by rewrite IH by set_solver.
Qed.
Lemma insert_before_out n x l : x ∉ l → insert_before n x l = l.
Proof.
  induction l as [|y l IH]; cbn; intros Hx; [done|].
  rewrite decide_False by set_solver. by rewrite IH by set_solver.
Qed.
Lemma insert_behind_out n x l : x ∉ l → insert_behind n x l = l.
Proof.
  induction l as [|y l IH]; cbn; intros Hx; [done|].
  rewrite decide_False by set_solver. by rewrite IH by set_solver.
Qed.
Lemma remove_out x l : x ∉ l → remove x l = l.
Proof.
  unfold remove. induction l as [|y l IH]; intros Hx; [done|]. rewrite filter_cons, decide_True by set_solver.
  by rewrite IH by set_solver.
Qed.
Lemma remove_app x l1 l2 : x ∉ l1 → x ∉ l2 → remove x (l1 ++ x :: l2) = l1 ++ l2.
Proof.
  intros H1 H2. unfold remove. rewrite filter_app, filter_cons, decide_False by tauto.
  f_equal; by apply remove_out.
Qed.

(** The list of a listed node, split at the node. *)
Lemma listed_split m W U x :
  hreps m W U → listed W x →
  ∃ h l1 l2, W !! h = Some (l1 ++ x :: l2) ∧ (x ∉ l1) ∧ (x ∉ l2) ∧ x ≠ NULL ∧
    NoDup (l1 ++ x :: l2) ∧ hlist m (PFirst h) (l1 ++ x :: l2) ∧
    ∀ f : list Z → list Z, (∀ l, x ∉ l → f l = l) → f <$> W = <[h := f (l1 ++ x :: l2)]> W.
Proof.
  intros [HL HD _] (h&l&Hh&Hx). apply list_elem_of_split in Hx as (l1&l2&->).
  destruct (HL _ _ Hh) as (A1&A2&A3). exists h, l1, l2.
  pose proof A2 as A2'. rewrite <- Permutation_middle in A2'. apply NoDup_cons in A2' as [Nx _].
  split_and!; [done|set_solver|set_solver|set_solver|done|done|].
  intros f Hf. apply fmap_one; [done|]. intros h2 l2' Hne H2. apply Hf. intros Hin. destruct Hne.
  eapply HD; eauto. set_solver.
Qed.

(** ** Simulation *)

Lemma add_head_sim m W U n h l :
  hreps m W U → n ≠ NULL → fresh W n → W !! h = Some l →
  hreps (hlist_add_head n h m) (alter (cons n) h W) (U ∖ {[n]}).
Proof.
  intros HR Hn Hf Hh. assert (alter (cons n) h W = <[h := [] ++ n :: l]> W) as ->.
  { apply map_eq. intros h2. rewrite lookup_alter, lookup_insert.
    repeat case_decide; subst; try done. by rewrite Hh. }
  apply (hreps_insert m _ W U h [] l n); try done.
  apply hlist_add_head_inserted. intros E. destruct (hr_list _ _ _ HR _ _ Hh) as (A1&_&_).
  destruct l as [|y l]; [apply hlist_nil in A1; cbn in A1; congruence|].
  apply hlist_cons in A1 as (A1&_). cbn in A1. apply (Hf _ _ Hh). set_solver.
Qed.

Lemma add_before_sim m W U n x :
  hreps m W U → n ≠ NULL → fresh W n → listed W x →
  ∃ m', hlist_add_before n x m = Ret m' ∧ hreps m' (insert_before n x <$> W) (U ∖ {[n]}).
Proof.
  intros HR Hn Hf Hx. destruct (listed_split m W U x HR Hx) as (h&l1&l2&Hh&X1&X2&X0&Nd&Hl&Hm).
  rewrite Hm, insert_before_app by (done || apply insert_before_out).
  destruct (hlist_node m h l1 x l2 X0 Nd Hl) as (P1&P2&_).
  pose proof (Hf _ _ Hh) as Hnl. destruct (end_of_valid h l1) as [V1 V2].
  destruct (hlist_add_before_inserted m n x (end_of (PFirst h) l1)) as (m'&E&Hin);
    [done|by rewrite <- P1|done|done| |set_solver|done|].
  { intros Er. pose proof (end_of_pointer (PFirst h) l1) as Hp. rewrite Er in Hp.
    apply pointer_next in Hp. set_solver. }
  exists m'. split; [done|]. by apply (hreps_insert m m' W U h l1 (x :: l2) n).
Qed.

Lemma add_behind_sim m W U n x :
  hreps m W U → n ≠ NULL → fresh W n → listed W x →
  hreps (hlist_add_behind n x m) (insert_behind n x <$> W) (U ∖ {[n]}).
Proof.
  intros HR Hn Hf Hx. destruct (listed_split m W U x HR Hx) as (h&l1&l2&Hh&X1&X2&X0&Nd&Hl&Hm).
  rewrite Hm, insert_behind_app by (done || apply insert_behind_out).
  destruct (hlist_node m h l1 x l2 X0 Nd Hl) as (_&_&_&P2&_). pose proof (Hf _ _ Hh) as Hnl.
  replace (l1 ++ x :: n :: l2) with ((l1 ++ [x]) ++ n :: l2) by by rewrite <- app_assoc.
  apply (hreps_insert m _ W U); [done|by rewrite <- app_assoc|done|done|].
  rewrite end_of_app. cbn. apply hlist_add_behind_inserted; [set_solver|]. intros E.
  destruct l2 as [|y l3]; [apply hlist_nil in P2; cbn in P2; congruence|].
  apply hlist_cons in P2 as (P2&_). cbn in P2. set_solver.
Qed.

(** Both kinds of deletion, up to what becomes of the node. *)
Lemma del_sim m W U x :
  hreps m W U → listed W x →
  ∃ m', __hlist_del x m = Ret m' ∧ hlist_unhashed x m = false ∧
    ∀ v r U', U' ⊆ {[x]} ∪ U → (x ∈ U' → r = PNull) →
      hreps (set_pprev x r (set_next x v m')) (remove x <$> W) U'.
Proof.
  intros HR Hx. destruct (listed_split m W U x HR Hx) as (h&l1&l2&Hh&X1&X2&X0&Nd&Hl&Hm).
  destruct (hlist_node m h l1 x l2 X0 Nd Hl) as (P1&_&P3&_&P5). destruct (end_of_valid h l1) as [V1 V2].
  destruct (__hlist_del_removed m x (end_of (PFirst h) l1)) as (m'&E&Hre); [by congruence..|].
  exists m'. split; [done|]. split; [apply bool_decide_eq_false; congruence|].
  intros v r U' HU Hr. rewrite Hm, remove_app by (done || apply remove_out).
  apply (hreps_remove m _ W U U' h l1 l2 x); try done; [by apply removed_node|].
  intros Hx'. rewrite pprev_set, decide_True by done. by apply Hr.
Qed.

Lemma init_head_sim m W U h :
  hreps m W U → hreps (INIT_HLIST_HEAD h m) (<[h := []]> W) U.
Proof.
  intros HR. apply (hreps_update m _ W U); try done.
  - apply hlist_nil. cbn. apply fn_lookup_insert.
  - constructor.
  - set_solver.
  - intros. split; [set_solver|done].
  - intros h2 Hne _. cbn. by apply fn_lookup_insert_ne.
  - intros x Hx. destruct (hr_free _ _ _ HR x Hx) as [B1 B2]. split; [done|]. split; [set_solver|eauto].
Qed.

Lemma init_node_sim m W U n : hreps m W U → fresh W n → hreps (INIT_HLIST_NODE n m) W ({[n]} ∪ U).
Proof.
  intros [HL HD HF] Hf. unfold INIT_HLIST_NODE. rewrite set_next_put. split; [|done|].
  - intros h l Hh. destruct (HL h l Hh) as (A1&A2&A3). split; [|done]. pose proof (Hf h l Hh).
    apply (hlist_same m); [|intros x Hx|done].
    + intros r Hr. hread. rewrite decide_False; [done|]. intros ->. by apply pointer_next in Hr.
    + hread. rewrite decide_False by set_solver. done.
  - intros x [->%elem_of_singleton|Hx]%elem_of_union; hread; [by rewrite decide_True|].
    destruct (HF x Hx). by case_decide.
Qed.

(** What [hlist_move_list] does to each pointer. *)
Lemma move_get m old new r :
  get_at (hlist_move_list old new m) r =
  if decide (r = PFirst old) then NULL else if decide (r = PFirst new) then first m old else get_at m r.
Proof.
  unfold hlist_move_list. rewrite !set_first_put.
  destruct (negb _); hread; repeat case_decide; done.
Qed.
Lemma move_pprev m old new x :
  pprev (hlist_move_list old new m) x =
  if decide (x = first m old ∧ x ≠ NULL) then PFirst new else pprev m x.
Proof.
  unfold hlist_move_list. rewrite !set_first_put.
  assert (first (put (PFirst new) (first m old) m) new = first m old) as -> by apply fn_lookup_insert.
  destruct (Z.eqb_spec (first m old) NULL) as [E|E]; cbn [negb]; hread; repeat case_decide; naive_solver.
Qed.

Lemma move_hlist m old new l :
  old ≠ new → hlist m (PFirst old) l → NoDup l → NULL ∉ l →
  hlist (hlist_move_list old new m) (PFirst new) l.
Proof.
  intros Hne Hl Hnd H0. destruct l as [|y l].
  { apply hlist_nil in Hl. apply hlist_nil. rewrite move_get, decide_False, decide_True by congruence. done. }
  apply hlist_cons in Hl as (B1&B2&B3). cbn in B1. apply NoDup_cons in Hnd as [Ny _].
  apply not_elem_of_cons in H0 as [H0 _]. apply hlist_cons. split_and!.
  - by rewrite move_get, decide_False, decide_True by congruence.
  - by rewrite move_pprev, decide_True by done.
  - apply (hlist_same m); [|intros x Hx|done].
    + intros r Hr. rewrite move_get, !decide_False; [done|..]; intros ->;
        apply elem_of_cons in Hr as [?|(x&?&_)%list_elem_of_fmap]; done.
    + rewrite move_pprev, decide_False; [done|]. intros [E _]. congruence.
Qed.

Lemma move_list_sim m W U old new l :
  hreps m W U → old ≠ new → W !! old = Some l →
  hreps (hlist_move_list old new m) (<[old := []]> (<[new := l]> W)) U.
Proof.
  intros HR Hne Hold. rewrite insert_insert_ne by done.
  pose proof HR as [HL HD HF]. destruct (HL _ _ Hold) as (A1&A2&A3).
  assert (Hpp : ∀ x, x ∉ l → pprev (hlist_move_list old new m) x = pprev m x).
  { intros x Hx. rewrite move_pprev, decide_False; [done|]. intros [E Hx0].
    destruct l as [|y l]; [apply hlist_nil in A1; cbn in A1; congruence|].
    apply hlist_cons in A1 as (B1&_). cbn in B1. apply Hx. rewrite E, B1. left. }
  apply (hreps_update (INIT_HLIST_HEAD old m) _ (<[old := []]> W) U); try done.
  - by apply init_head_sim.
  - by apply move_hlist.
  - intros h2 l2 x Hn2 [[<- <-]|[Ho H2]]%lookup_insert_Some Hx; [by apply elem_of_nil in Hx|].
    assert (Hxl : x ∉ l) by (intros Hin; destruct Ho; by eapply HD). split; [done|].
    split; [|by rewrite Hpp]. rewrite move_get, !decide_False by done. done.
  - intros h2 Hn2 _.
    change (get_at (hlist_move_list old new m) (PFirst h2) = get_at (put (PFirst old) NULL m) (PFirst h2)).
    rewrite move_get. hread. repeat case_decide; congruence.
  - intros x Hx. destruct (HF x Hx) as [B1 B2]. pose proof (B2 _ _ Hold).
    split; [by rewrite Hpp|]. split; [done|].
    intros h2 l2 _ [[<- <-]|[_ H2]]%lookup_insert_Some; [apply not_elem_of_nil|eauto].
Qed.

Lemma hrun_sim m W U c :
  hreps m W U → hpre (W, U) c →
  ∃ m', hrun m c = Ret m' ∧ hreps m' (habs (W, U) c).1 (habs (W, U) c).2.
Proof.
  intros HR Hp. destruct c as [h|n|n h|n x|n x|x|x|old new]; cbn [hrun habs fst snd hpre] in *.
  - eexists. split; [done|]. by apply init_head_sim.
  - eexists. split; [done|]. by apply init_node_sim.
  - destruct Hp as (?&?&[l Hl]). eexists. split; [done|]. by eapply add_head_sim.
  - destruct Hp as (?&?&?). by apply add_before_sim.
  - destruct Hp as (?&?&?). eexists. split; [done|]. by apply add_behind_sim.
  - destruct (del_sim m W U x HR Hp) as (m'&E&_&Hs). unfold hlist_del. rewrite E. eexists. split; [done|].
    apply Hs; [set_solver|]. intros Hx. destruct (hr_free _ _ _ HR x Hx) as [_ Hf].
    destruct Hp as (h&l&Hh&Hin). by destruct (Hf h l).
  - destruct (decide (x ∈ U)) as [Hx|Hx].
    + destruct (hr_free _ _ _ HR x Hx) as [Hn Hf]. exists m. unfold hlist_del_init, hlist_unhashed.
      rewrite bool_decide_eq_true_2 by done. split; [done|].
      replace ({[x]} ∪ U) with U by set_solver.
      assert (remove x <$> W = W) as ->; [|done]. apply map_eq. intros h. rewrite lookup_fmap.
      destruct (W !! h) as [l|] eqn:E; [|done]. cbn. by rewrite remove_out by eauto.
    + destruct Hp as [Hp|?]; [|done]. destruct (del_sim m W U x HR Hp) as (m'&E&Hu&Hs).
      unfold hlist_del_init. rewrite Hu, E. cbn. eexists. split; [done|]. by apply Hs.
  - destruct Hp as [Hne [l Hl]]. eexists. split; [done|]. rewrite Hl. by apply move_list_sim.
Qed.

(** ** Iteration *)

(** A body that notes the node, and one that also takes it off its list. *)
Definition visit (x : Z) (acc : list Z) (m : hmem) : res (list Z * hmem) := Ret (acc ++ [x], m).
Definition take_off (x : Z) (acc : list Z) (m : hmem) : res (list Z * hmem) :=
  m ← hlist_del_init x m; Ret (acc ++ [x], m).

Lemma hlist_for_each_spec fuel m r l : ∀ acc,
  hlist m r l → NULL ∉ l → (length l < fuel)%nat →
  hlist_for_each_from fuel visit (get_at m r) acc m = Ret (acc ++ l, m).
Proof.
  revert r fuel. induction l as [|x l IH]; intros r fuel acc Hl H0 Hf;
    (destruct fuel as [|fuel]; [cbn in Hf; lia|]); cbn [hlist_for_each_from].
  - apply hlist_nil in Hl. rewrite Hl, app_nil_r. done.
  - apply hlist_cons in Hl as (->&_&Hl). apply not_elem_of_cons in H0 as [Hx H0].
    rewrite (proj2 (Z.eqb_neq x NULL)) by done. cbn [mbind res_bind visit].
    rewrite (IH (PNext x)) by (done || (cbn in Hf; lia)). by rewrite <- app_assoc.
Qed.

Lemma hlist_for_each_safe_spec fuel h l : ∀ acc m W U,
  hreps m W U → W !! h = Some l → (length l < fuel)%nat →
  ∃ m', hlist_for_each_safe fuel take_off h acc m = Ret (acc ++ l, m') ∧
    hreps m' (<[h := []]> W) (list_to_set l ∪ U).
Proof.
  unfold hlist_for_each_safe. revert fuel.
  induction l as [|x l IH]; intros fuel acc m W U HR Hh Hf;
    (destruct fuel as [|fuel]; [cbn in Hf; lia|]); cbn [hlist_for_each_safe_from];
    destruct (hr_list _ _ _ HR _ _ Hh) as (Hl&Nd&H0).
  { apply hlist_nil in Hl. cbn in Hl. rewrite Hl, app_nil_r. exists m. split; [done|].
    rewrite insert_id by done. cbn. by rewrite (left_id_L ∅ _). }
  pose proof Hl as Hl'. apply hlist_cons in Hl' as (E1&_&Hn). cbn in E1. rewrite E1.
  apply not_elem_of_cons in H0 as [Hx0 H0]. rewrite (proj2 (Z.eqb_neq x NULL)) by done.
  apply NoDup_cons in Nd as [Nx Nd].
  destruct (hrun_sim m W U (HDelInit x) HR) as (m1&Ed&HR1).
  { left. exists h, (x :: l). split; [done|left]. }
  cbn [hrun habs fst snd] in Ed, HR1. assert (take_off x acc m = Ret (acc ++ [x], m1)) as -> by (unfold take_off; by rewrite Ed).
  cbn [mbind res_bind].
  assert (Hh1 : (remove x <$> W) !! h = Some l).
  { rewrite lookup_fmap, Hh. cbn. f_equal. by apply (remove_app x [] l); [apply not_elem_of_nil|]. }
  destruct (IH fuel (acc ++ [x]) m1 _ _ HR1 Hh1) as (m'&E&HR'); [cbn in Hf; lia|].
  assert (E1n : first m1 h = next m x).
  { destruct (hr_list _ _ _ HR1 _ _ Hh1) as (Hl1&_&_). destruct l as [|y l].
    - apply hlist_nil in Hl1, Hn. cbn in Hl1, Hn. congruence.
    - apply hlist_cons in Hl1 as (Hl1&_). apply hlist_cons in Hn as (Hn&_). cbn in Hl1, Hn. congruence. }
  rewrite E1n in E. rewrite E, <- app_assoc. exists m'. split; [done|].
  assert (<[h := []]> W = <[h := []]> (remove x <$> W)) as ->.
  { rewrite (fmap_one _ W h (x :: l)); [by rewrite insert_insert_eq|done|].
    intros h2 l2 Hne H2. apply remove_out. intros Hin. destruct Hne.
    apply (hr_disj _ _ _ HR h2 l2 h (x :: l) x); [done|done|done|left]. }
  replace (list_to_set (x :: l) ∪ U) with (list_to_set l ∪ ({[x]} ∪ U)); [done|].
  rewrite list_to_set_cons. set_solver.
Qed.

(** ** Property *)

Fixpoint hvalid (WU : gmap Z (list Z) * gset Z) (cs : list hcall) : Prop :=
  match cs with [] => True | c :: cs => hpre WU c ∧ hvalid (habs WU c) cs end.

Fixpoint hrun_all (m : hmem) (cs : list hcall) : res hmem :=
  match cs with [] => Ret m | c :: cs => m ← hrun m c; hrun_all m cs end.

Lemma hrun_all_sim cs : ∀ m W U,
  hreps m W U → hvalid (W, U) cs →
  ∃ m', hrun_all m cs = Ret m' ∧ hreps m' (foldl habs (W, U) cs).1 (foldl habs (W, U) cs).2.
Proof.
  induction cs as [|c cs IH]; intros m W U HR; cbn [hvalid hrun_all foldl]; [by exists m|].
  intros [Hp Hv]. destruct (hrun_sim m W U c HR Hp) as (m1&->&HR1). cbn [mbind res_bind].
  destruct (habs (W, U) c) as [W1 U1]. by apply IH.
Qed.

(** C24: the hash lists are sequences. Every sequence of calls of the [hlist] functions, each
    within its precondition, runs without a fault and does to the sequences of nodes what the
    call says: a new head is empty, nodes come in at the front, before or behind a given
    node, deleted ones go, a whole list moves to another head, and [hlist_del_init] of an
    unhashed node does nothing. On the result, [hlist_empty] tells the empty lists,
    [hlist_for_each] visits exactly the nodes in order, and [hlist_for_each_safe] does so
    while its body takes every node off the list. *)
Theorem hlist_refines_sequences m W U cs :
  hreps m W U → hvalid (W, U) cs →
  ∃ m', hrun_all m cs = Ret m' ∧ hreps m' (foldl habs (W, U) cs).1 (foldl habs (W, U) cs).2 ∧
    ∀ h l fuel, (foldl habs (W, U) cs).1 !! h = Some l → (length l < fuel)%nat →
      hlist_empty h m' = bool_decide (l = []) ∧
      hlist_for_each fuel visit h [] m' = Ret (l, m') ∧
      ∃ m'', hlist_for_each_safe fuel take_off h [] m' = Ret (l, m'') ∧
        hlist_empty h m'' = true ∧ ∀ x, x ∈ l → hlist_unhashed x m'' = true.
Proof.
  intros HR Hv. destruct (hrun_all_sim cs m W U HR Hv) as (m'&E&HR'). exists m'. split; [done|].
  split; [done|]. intros h l fuel Hh Hf. destruct (hr_list _ _ _ HR' _ _ Hh) as (Hl&_&H0). split_and!.
  - unfold hlist_empty. destruct l as [|x l]; [by apply hlist_nil in Hl; cbn in Hl; rewrite Hl|].
    apply hlist_cons in Hl as (Hl&_). cbn in Hl. rewrite Hl, bool_decide_eq_false_2 by done.
    apply Z.eqb_neq. set_solver.
  - by apply (hlist_for_each_spec fuel m' (PFirst h) l []).
  - destruct (hlist_for_each_safe_spec fuel h l [] m' _ _ HR' Hh Hf) as (m''&E2&HR2).
    exists m''. split; [done|]. split.
    + destruct (hr_list _ _ _ HR2 h []) as (He&_&_); [by apply lookup_insert_eq|].
      apply hlist_nil in He. unfold hlist_empty. cbn in He. by rewrite He.
    + intros x Hx. apply bool_decide_eq_true. apply (hr_free _ _ _ HR2).
      apply elem_of_union_l, elem_of_list_to_set. done.
Qed.

(** Two heads at 1 and 2, nodes 10 to 30. *)
Definition demo_hcalls : list hcall :=
  [HInitHead 1; HInitHead 2; HAddHead 10 1; HAddBehind 20 10; HAddBefore 30 20; HMove 1 2; HDel 30].

Lemma hlist_refines_sequences_witness :
  foldl habs (∅, ∅) demo_hcalls = (<[1 := []]> {[2 := [10; 20]]}, ∅) ∧
  ∃ m', hrun_all (HMem (λ _, 7) (λ _, 7) (λ _, PPoison)) demo_hcalls = Ret m' ∧
    hlist_for_each 3 visit 2 [] m' = Ret ([10; 20], m').
Proof.
  assert (E : foldl habs (∅, ∅) demo_hcalls = (<[1 := []]> {[2 := [10; 20]]}, ∅))
    by (vm_compute; reflexivity).
  split; [exact E|].
  destruct (hlist_refines_sequences (HMem (λ _, 7) (λ _, 7) (λ _, PPoison)) ∅ ∅ demo_hcalls)
    as (m'&Er&_&Hl).
  - split; intros; [by rewrite lookup_empty in *|by rewrite lookup_empty in *|set_solver].
  - assert (Hfr : ∀ W : gmap Z (list Z), ∀ n, map_Forall (λ _ l, n ∉ l) W → fresh W n) by (intros W n HW h l; apply HW).
    assert (Hin : ∀ (W : gmap Z (list Z)) h l x, W !! h = Some l → x ∈ l → listed W x) by (intros; by exists h, l).
    cbn [demo_hcalls hvalid hpre habs]. split_and!; try done.
    all: try (apply Hfr, (bool_decide_unpack _); by vm_compute).
    all: try (by vm_compute; eexists).
    + apply (Hin _ 1 [10]); [by vm_compute|set_solver].
    + apply (Hin _ 1 [10; 20]); [by vm_compute|set_solver].
    + apply (Hin _ 2 [10; 30; 20]); [by vm_compute|set_solver].
  - exists m'. split; [exact Er|]. destruct (Hl 2 [10; 20] 3%nat) as (_&Hv&_); [by rewrite E|cbn; lia|].
    exact Hv.
Defined.
