(* ===== verification/HlistEntry.v ===== *)
(** * Entries: [container_of] and the entry iterators of the hash lists

    [container_of] leads from a node to the structure around it, [off] bytes before;
    [hlist_entry_safe] keeps [NULL]. The [hlist_for_each_entry] macros of [include/list.h] walk over the structures
    and go back to the node at every step. They are the node iterators of [Hlist.v] with the
    body applied to the structure, as long as no node is [off] itself: the structure at
    address 0 would end the loop. *)
From S2P Require Import Prelude Hlist.

(** [container_of(ptr, type, member)]; [off] is [offsetof(type, member)]. *)
Definition container_of (ptr off : Z) : Z := u32 (ptr - off).

(** [&pos->member] *)
Definition member_of (pos off : Z) : Z := u32 (pos + off).

Definition list_entry (ptr off : Z) : Z := container_of ptr off.
Definition hlist_entry (ptr off : Z) : Z := container_of ptr off.
Definition hlist_entry_safe (ptr off : Z) : Z :=
  if negb (ptr =? NULL) then hlist_entry ptr off else NULL.

Section Entries.
Context (off : Z) {B : Type}.
Implicit Types (body : Z → B → hmem → res (B * hmem)).

(** [hlist_for_each_entry_from(pos, member)] *)
Fixpoint hlist_for_each_entry_from (fuel : nat) body (pos : Z) (s : B) (m : hmem) : res (B * hmem) :=
  match fuel with
  | O => Diverge
  | S fuel =>
      if pos =? NULL then Ret (s, m)
      else
        '(s, m) ← body pos s m;
        hlist_for_each_entry_from fuel body (hlist_entry_safe (next m (member_of pos off)) off) s m
  end.

(** [hlist_for_each_entry(pos, head, member)] *)
Definition hlist_for_each_entry (fuel : nat) body (head : Z) (s : B) (m : hmem) : res (B * hmem) :=
  hlist_for_each_entry_from fuel body (hlist_entry_safe (first m head) off) s m.

(** [hlist_for_each_entry_continue(pos, member)] *)
Definition hlist_for_each_entry_continue (fuel : nat) body (pos : Z) (s : B) (m : hmem) : res (B * hmem) :=
  hlist_for_each_entry_from fuel body (hlist_entry_safe (next m (member_of pos off)) off) s m.

(** [hlist_for_each_entry_safe(pos, n, head, member)]; [n] is a node. *)
Fixpoint entry_safe_loop (fuel : nat) body (pos : Z) (s : B) (m : hmem) : res (B * hmem) :=
  match fuel with
  | O => Diverge
  | S fuel =>
      if pos =? NULL then Ret (s, m)
      else
        let n := next m (member_of pos off) in
        '(s, m) ← body pos s m;
        entry_safe_loop fuel body (hlist_entry_safe n off) s m
  end.

Definition hlist_for_each_entry_safe (fuel : nat) body (head : Z) (s : B) (m : hmem) : res (B * hmem) :=
  entry_safe_loop fuel body (hlist_entry_safe (first m head) off) s m.

(** ** Nodes and structures *)

(** A pointer that the macros can go through. *)
Definition node_ok (p : Z) : Prop := p = NULL ∨ (is_u32 p ∧ p ≠ off).

Definition nodes_ok (m : hmem) : Prop := (∀ n, node_ok (next m n)) ∧ ∀ h, node_ok (first m h).

Lemma container_roundtrip p : is_u32 p → member_of (container_of p off) off = p.
Proof. unfold member_of, container_of, is_u32, u32. intros. dlia. Qed.

Lemma container_not_null p : is_u32 off → is_u32 p → p ≠ off → container_of p off ≠ NULL.
Proof. unfold container_of, is_u32, u32, NULL. intros. dlia. Qed.

(** One step of either loop. *)
Lemma entry_cases p : is_u32 off → node_ok p →
  (p = NULL ∧ hlist_entry_safe p off = NULL) ∨
  (p ≠ NULL ∧ hlist_entry_safe p off = container_of p off ∧ container_of p off ≠ NULL ∧
   member_of (container_of p off) off = p).
Proof.
  intros Ho Hp. unfold hlist_entry_safe, hlist_entry.
  destruct (Z.eqb_spec p NULL) as [->|Hn]; cbn [negb]; [by left|right].
  destruct Hp as [?|[Hu Hne]]; [done|].
  split_and!; [done..|by apply container_not_null|by apply container_roundtrip].
Qed.

Context (body : Z → B → hmem → res (B * hmem)).
Context (Hoff : is_u32 off).
Context (Hbody : ∀ x s m s' m', nodes_ok m → body x s m = Ret (s', m') → nodes_ok m').

Lemma each_entry_equiv fuel : ∀ p s m, nodes_ok m → node_ok p →
  hlist_for_each_entry_from fuel body (hlist_entry_safe p off) s m =
  hlist_for_each_from fuel (λ n, body (container_of n off)) p s m.
Proof.
  induction fuel as [|fuel IH]; intros p s m Hm Hp; [done|]. cbn [hlist_for_each_entry_from hlist_for_each_from].
  destruct (entry_cases p Hoff Hp) as [[-> ->]|(Hn&->&Hc&Hr)]; [done|].
  rewrite (proj2 (Z.eqb_neq _ _) Hn), (proj2 (Z.eqb_neq _ _) Hc).
  destruct (body (container_of p off) s m) as [[s' m']|msg|] eqn:E; [|done..]. cbn [mbind res_bind].
  pose proof (Hbody _ _ _ _ _ Hm E) as Hm'. rewrite Hr. apply IH; [done|apply Hm'].
Qed.

Lemma each_entry_safe_equiv fuel : ∀ p s m, nodes_ok m → node_ok p →
  entry_safe_loop fuel body (hlist_entry_safe p off) s m =
  hlist_for_each_safe_from fuel (λ n, body (container_of n off)) p s m.
Proof.
  induction fuel as [|fuel IH]; intros p s m Hm Hp; [done|]. cbn [entry_safe_loop hlist_for_each_safe_from].
  destruct (entry_cases p Hoff Hp) as [[-> ->]|(Hn&->&Hc&Hr)]; [done|].
  rewrite (proj2 (Z.eqb_neq _ _) Hn), (proj2 (Z.eqb_neq _ _) Hc), Hr.
  destruct (body (container_of p off) s m) as [[s' m']|msg|] eqn:E; [|done..]. cbn [mbind res_bind].
  pose proof (Hbody _ _ _ _ _ Hm E) as Hm'. apply IH; [done|apply Hm].
Qed.
End Entries.

(** C39: the entry iterators of the hash lists are the node iterators. For any body that keeps
    the pointers on the lists usable, [hlist_for_each_entry], [_from], [_continue] and
    [_safe] do the same as a loop over the nodes that calls the body with the structure
    around each node: the same calls, the same end, the same result when the body stops. *)
Theorem hlist_entry_loops_equiv off {B} (body : Z → B → hmem → res (B * hmem)) fuel head node s m :
  is_u32 off →
  (∀ x s m s' m', nodes_ok off m → body x s m = Ret (s', m') → nodes_ok off m') →
  nodes_ok off m → node_ok off node → node ≠ NULL →
  let on_node := λ n, body (container_of n off) in
  hlist_for_each_entry off fuel body head s m = hlist_for_each fuel on_node head s m ∧
  hlist_for_each_entry_safe off fuel body head s m = hlist_for_each_safe fuel on_node head s m ∧
  hlist_for_each_entry_from off fuel body (container_of node off) s m
    = hlist_for_each_from fuel on_node node s m ∧
  hlist_for_each_entry_continue off fuel body (container_of node off) s m
    = hlist_for_each_from fuel on_node (next m node) s m.
Proof.
  intros Ho Hb Hm Hn Hn0. cbn zeta.
  destruct (entry_cases off node Ho Hn) as [[? _]|(_&E1&_&E2)]; [done|]. split_and!.
  - apply each_entry_equiv; [done..|apply Hm].
  - apply each_entry_safe_equiv; [done..|apply Hm].
  - rewrite <- E1. by apply each_entry_equiv.
  - unfold hlist_for_each_entry_continue. rewrite E2. apply each_entry_equiv; [done..|apply Hm].
Qed.

(** Two structures with their nodes at offset 4, on the list at 1. *)
Definition demo_entries : hmem :=
  HMem (<[1 := 104]> (λ _, 0)) (<[104 := 204]> (λ _, 0)) (λ _, PNull).

Lemma demo_entries_ok : nodes_ok 4 demo_entries.
Proof.
  split; intros n; cbn; unfold insert, fn_insert; case_decide; [right|by left|right|by left];
    (split; [unfold is_u32; lia|lia]).
Qed.

Lemma hlist_entry_loops_equiv_witness :
  hlist_for_each_entry 4 3 (λ x (acc : list Z) m, Ret (acc ++ [x], m)) 1 [] demo_entries
  = Ret ([100; 200], demo_entries).
Proof.
  destruct (hlist_entry_loops_equiv 4 (λ x (acc : list Z) m, Ret (acc ++ [x], m)) 3 1 104 [] demo_entries)
    as [-> _].
  - unfold is_u32. lia.
  - intros x s m s' m' Hm [= _ <-]. exact Hm.
  - exact demo_entries_ok.
  - right. split; [unfold is_u32; lia|lia].
  - unfold NULL. lia.
  - reflexivity.
Defined.
