(* ===== verification/Demo.v ===== *)
(** * The demonstration threads of [src/init.c]

    [v1], [v2] and [v3] share a mutex ([mode] is 0 and never changes): each prints its tag and
    five letters between [mutex_lock] and [mutex_unlock], and pauses after every letter.
    They run interleaved in any way, on the mutex of [Mutex.v]. *)
From S2P Require Import Prelude Threads Mutex Console.

(** Where a thread is in its loop: at the lock; before its tag; before the test [i > 0]; before
    the [pause] in the loop, with [i - 1] to go; before the [pause] at the end. *)
Inductive pc : Type :=
  | AtLock
  | AtTag
  | AtTest (i : nat)
  | AtPause (i : nat)
  | AtRest.

(** A character on the screen, with its colours. *)
Definition ink : Type := real_color_t * real_color_t * Z.

Record dsys : Type := DSys {
  d_sys : msys;
  d_pc : Z → pc;
  d_out : list ink;
}.

(** [printk_color(rc_black, c, str)] *)
Definition print (c : real_color_t) (t : Z) (str : list Z) (s : dsys) (k : pc) : dsys :=
  DSys (d_sys s) (<[t := k]> (d_pc s)) (d_out s ++ ((λ x, (rc_black, c, x)) <$> str)).

(** [pause(1)] up to its [schedule()]; the alarm wakes the thread. *)
Definition pause (t : Z) (s : dsys) (k : pc) : dsys :=
  DSys (Msys (mtx (d_sys s)) (make_sleep t (stat (d_sys s))) (at_ (d_sys s)))
    (<[t := k]> (d_pc s)) (d_out s).

Definition tag (l : Z) : list Z := [91; l; 93].

(** The loop the three functions share, from one call to the next, run by thread [t] with the
    letter [l] in colour [c]. *)
Definition loop (l : Z) (c : real_color_t) (t : Z) (s : dsys) : res dsys :=
  let y := d_sys s in
  match d_pc s t with
  | AtLock =>
      '(b, m, st) ← match at_ y t with
                    | Outside => mutex_lock_enter t (mtx y) (stat y)
                    | _ => Ret (mutex_lock_resume t (mtx y) (stat y))
                    end;
      Ret (DSys (Msys m st (<[t := after b]> (at_ y)))
             (<[t := if (b : bool) then AtTag else AtLock]> (d_pc s)) (d_out s))
  | AtTag => Ret (print c t (tag l) s (AtTest 5))
  | AtTest (S i) => Ret (print c t [l] s (AtPause i))
  | AtTest O =>
      let '(m, st) := mutex_unlock (mtx y) (stat y) in
      Ret (DSys (Msys m st (<[t := Outside]> (at_ y))) (<[t := AtRest]> (d_pc s)) (d_out s))
  | AtPause i => Ret (pause t s (AtTest i))
  | AtRest => Ret (pause t s AtLock)
  end.

(** [int v1(void *args)] and its siblings *)
Definition v1 : Z → dsys → res dsys := loop 66 rc_red.
Definition v2 : Z → dsys → res dsys := loop 67 rc_blue.
Definition v3 : Z → dsys → res dsys := loop 65 rc_green.

(** The function a thread was created with. *)
Inductive entry : Type := V1 | V2 | V3.

Section Demo.
Context (prog : Z → entry).

Definition letter (t : Z) : Z := match prog t with V1 => 66 | V2 => 67 | V3 => 65 end.
Definition colour (t : Z) : real_color_t :=
  match prog t with V1 => rc_red | V2 => rc_blue | V3 => rc_green end.

Definition run (t : Z) (s : dsys) : res dsys :=
  match prog t with V1 => v1 t s | V2 => v2 t s | V3 => v3 t s end.

Lemma run_loop t s : run t s = loop (letter t) (colour t) t s.
Proof. unfold run, letter, colour. by destruct (prog t). Qed.

(** A running thread goes on, or the scheduler and the alarms act. *)
Inductive dstep (s : dsys) : res dsys → Prop :=
  | d_run t : stat (d_sys s) t = T_RUNNING → dstep s (run t s)
  | d_sched e st : sched_effect e (stat (d_sys s)) = Some st →
      dstep s (Ret (DSys (Msys (mtx (d_sys s)) st (at_ (d_sys s))) (d_pc s) (d_out s))).

Definition dnext (s s' : dsys) : Prop := dstep s (Ret s').

Definition dinitial (s : dsys) : Prop :=
  minitial (d_sys s) ∧ (∀ t, d_pc s t = AtLock) ∧ d_out s = [].

(** ** What is on the screen *)

(** What one turn of a thread prints. *)
Definition block (t : Z) : list ink :=
  (λ c, (rc_black, colour t, c)) <$> tag (letter t) ++ replicate 5 (letter t).

(** What a thread that has come to [k] has printed in this turn. *)
Definition so_far (t : Z) (k : pc) : list ink :=
  match k with
  | AtTest i | AtPause i => (λ c, (rc_black, colour t, c)) <$> tag (letter t) ++ replicate (5 - i) (letter t)
  | _ => []
  end.

(** Whether a thread at [k] holds the mutex. *)
Definition holds (k : pc) : bool :=
  match k with AtTag | AtTest _ | AtPause _ => true | _ => false end.

Definition in_range (k : pc) : Prop :=
  match k with AtTest i => (i ≤ 5)%nat | AtPause i => (i < 5)%nat | _ => True end.

Record demo_inv (s : dsys) : Prop := {
  di_mutex : mutex_inv (d_sys s);
  di_pc : ∀ t, holds (d_pc s t) = bool_decide (at_ (d_sys s) t = Inside);
  di_rest : ∀ t, d_pc s t = AtRest → at_ (d_sys s) t = Outside;
  di_range : ∀ t, in_range (d_pc s t);
  di_out : ∃ ts part, d_out s = concat (block <$> ts) ++ part ∧
    (∀ t, at_ (d_sys s) t = Inside → part = so_far t (d_pc s t)) ∧
    ((∀ t, at_ (d_sys s) t ≠ Inside) → part = []);
}.

Lemma pc_insert (p : Z → pc) t k u : (<[t := k]> p) u = if decide (u = t) then k else p u.
Proof. unfold insert, fn_insert. repeat case_decide; congruence. Qed.

Lemma inside_unique s t u : mutex_inv s → at_ s t = Inside → at_ s u = Inside → t = u.
Proof. intros Hi Ht%(mi_inside _ Hi) Hu%(mi_inside _ Hi). congruence. Qed.

(** A thread that is not waiting for the mutex goes to sleep. *)
Lemma sleep_inv s t :
  mutex_inv s → at_ s t ≠ Waiting → mutex_inv (Msys (mtx s) (make_sleep t (stat s)) (at_ s)).
Proof.
  intros [I1 I2 I3 I4 I5] Ht. split; cbn; try done. intros u Hu.
  destruct (I2 u Hu) as [Hl [?|(Hw&Hh&Hb)]]; [by auto|]. split; [done|right]. split_and!; try done.
  unfold make_sleep. rewrite status_other; [done|]. congruence.
Qed.

(** The lock is taken, or waited for. *)
Lemma lock_inv s t b m st :
  demo_inv s → d_pc s t = AtLock →
  mutex_inv (Msys m st (<[t := after b]> (at_ (d_sys s)))) →
  demo_inv (DSys (Msys m st (<[t := after b]> (at_ (d_sys s))))
              (<[t := if b then AtTag else AtLock]> (d_pc s)) (d_out s)).
Proof.
  intros [I1 I2 I3 I4 I5] Hk Hm. assert (Ht : at_ (d_sys s) t ≠ Inside).
  { intros E. pose proof (I2 t) as E2. rewrite Hk, bool_decide_eq_true_2 in E2 by done. done. }
  split; cbn [d_sys d_pc d_out at_]; [done|..].
  - intros u. rewrite pc_insert, at_insert. case_decide; [by destruct b|apply I2].
  - intros u. rewrite pc_insert, at_insert. case_decide; [by destruct b|apply I3].
  - intros u. rewrite pc_insert. case_decide; [by destruct b|apply I4].
  - destruct I5 as (ts&part&E&Hin&Hno). exists ts, part. split; [done|]. destruct b; cbn [after] in *.
    + assert (Hnone : ∀ u, at_ (d_sys s) u ≠ Inside).
      { intros u Hu. destruct (decide (u = t)) as [->|Hne]; [done|].
        assert (t = u); [|congruence]. eapply (inside_unique _ t u Hm); cbn;
          rewrite at_insert; [by rewrite decide_True|by rewrite decide_False]. }
      rewrite (Hno Hnone). split; [|done]. intros u. rewrite at_insert, pc_insert.
      case_decide; [done|]. intros Hu. by destruct (Hnone u).
    + split; [intros u|intros Hall; apply Hno; intros u Hu].
      * rewrite at_insert, pc_insert. case_decide; [done|apply Hin].
      * specialize (Hall u). rewrite at_insert in Hall. case_decide; [by subst|done].
Qed.

(** A thread inside changes what it has printed, and nothing else. *)
Lemma inside_inv s t k' more :
  demo_inv s → at_ (d_sys s) t = Inside → holds k' = true → in_range k' →
  so_far t k' = so_far t (d_pc s t) ++ more →
  demo_inv (DSys (d_sys s) (<[t := k']> (d_pc s)) (d_out s ++ more)).
Proof.
  intros [I1 I2 I3 I4 I5] Ht Hh Hr Hs. split; cbn [d_sys d_pc d_out]; [done|..].
  - intros u. rewrite pc_insert. case_decide; [|apply I2]. subst. by rewrite Ht.
  - intros u. rewrite pc_insert. case_decide; [by intros ->|apply I3].
  - intros u. rewrite pc_insert. case_decide; [done|apply I4].
  - destruct I5 as (ts&part&E&Hin&Hno). exists ts, (part ++ more).
    split; [by rewrite E, <- app_assoc|]. split.
    + intros u Hu. assert (u = t) as -> by by eapply inside_unique.
      rewrite pc_insert, decide_True by done. by rewrite Hs, <- (Hin t Ht).
    + intros Hall. by destruct (Hall t).
Qed.

Lemma pause_inv s t k' :
  demo_inv s → at_ (d_sys s) t ≠ Waiting → holds k' = holds (d_pc s t) → k' ≠ AtRest →
  in_range k' → so_far t k' = so_far t (d_pc s t) → demo_inv (pause t s k').
Proof.
  intros [I1 I2 I3 I4 I5] Ht Hh Hk Hr Hs. split; cbn [pause d_sys d_pc d_out at_ mtx stat].
  - by apply sleep_inv.
  - intros u. rewrite pc_insert. case_decide; [|apply I2]. subst. rewrite Hh. apply I2.
  - intros u. rewrite pc_insert. case_decide; [done|apply I3].
  - intros u. rewrite pc_insert. case_decide; [done|apply I4].
  - destruct I5 as (ts&part&E&Hin&Hno). exists ts, part. split; [done|]. split; [|done].
    intros u Hu. rewrite pc_insert. case_decide; [|by apply Hin]. subst. rewrite Hs. by apply Hin.
Qed.

(** The turn is over. *)
Lemma leave_inv s t m st :
  demo_inv s → d_pc s t = AtTest 0 → at_ (d_sys s) t = Inside →
  mutex_inv (Msys m st (<[t := Outside]> (at_ (d_sys s)))) →
  demo_inv (DSys (Msys m st (<[t := Outside]> (at_ (d_sys s)))) (<[t := AtRest]> (d_pc s)) (d_out s)).
Proof.
  intros [I1 I2 I3 I4 I5] Hk Ht Hm.
  assert (Hnone : ∀ u, (<[t := Outside]> (at_ (d_sys s))) u ≠ Inside).
  { intros u. rewrite at_insert. case_decide; [done|]. intros Hu.
    pose proof (inside_unique _ u t I1 Hu Ht). done. }
  split; cbn [d_sys d_pc d_out at_]; [done|..].
  - intros u. rewrite pc_insert, at_insert. case_decide; [done|apply I2].
  - intros u. rewrite pc_insert, at_insert. case_decide; [done|apply I3].
  - intros u. rewrite pc_insert. case_decide; [done|apply I4].
  - destruct I5 as (ts&part&E&Hin&_). exists (ts ++ [t]), []. rewrite (Hin t Ht), Hk in E.
    split; [|split; [intros u Hu; by destruct (Hnone u)|done]].
    rewrite E, fmap_app, concat_app, app_nil_r. cbn [fmap list_fmap concat]. by rewrite app_nil_r.
Qed.

Lemma replicate_snoc {A} n (x : A) : replicate n x ++ [x] = replicate (S n) x.
Proof. induction n as [|n IH]; [done|]. cbn. f_equal. exact IH. Qed.

Lemma letter_printed t i :
  (S i ≤ 5)%nat →
  so_far t (AtPause i) = so_far t (AtTest (S i)) ++ ((λ c, (rc_black, colour t, c)) <$> [letter t]).
Proof.
  intros Hi. unfold so_far. rewrite <- fmap_app, <- app_assoc, replicate_snoc.
  replace (S (5 - S i)) with (5 - i)%nat by lia. done.
Qed.

Lemma turn_inv t s : demo_inv s → ∃ s', run t s = Ret s' ∧ demo_inv s'.
Proof.
  intros Hi. pose proof Hi as [I1 I2 I3 I4 _]. rewrite run_loop. unfold loop. cbv zeta.
  pose proof (I2 t) as Hin. pose proof (I4 t) as Hr.
  destruct (d_pc s t) as [| |[|i]|i|] eqn:Ek; cbn [holds in_range] in Hin, Hr;
    try (symmetry in Hin; apply bool_decide_eq_true in Hin).
  - destruct (at_ (d_sys s) t) eqn:Ea; [| |done].
    + destruct (enter_inv (d_sys s) t I1 Ea) as (b&m&st&->&Hm). cbn.
      eexists. split; [done|]. by apply lock_inv.
    + pose proof (resume_inv (d_sys s) t I1 Ea) as Hm.
      destruct (mutex_lock_resume _ _ _) as [[b m] st]. cbn. eexists. split; [done|]. by apply lock_inv.
  - eexists. split; [done|]. apply (inside_inv s t (AtTest 5)); try done; [cbn; lia|].
    rewrite Ek. unfold so_far. cbn [Nat.sub replicate]. by rewrite app_nil_r.
  - pose proof (unlock_inv (d_sys s) t I1 Hin) as Hm. destruct (mutex_unlock _ _) as [m st].
    eexists. split; [done|]. by apply leave_inv.
  - eexists. split; [done|]. apply (inside_inv s t (AtPause i)); try done.
    rewrite Ek. by apply letter_printed.
  - eexists. split; [done|]. apply pause_inv; [done|congruence|by rewrite Ek|done|cbn; lia|by rewrite Ek].
  - eexists. split; [done|]. apply pause_inv; try done; [|by rewrite Ek|by rewrite Ek].
    rewrite I3; done.
Qed.

Lemma dstep_inv s r : demo_inv s → dstep s r → ∃ s', r = Ret s' ∧ demo_inv s'.
Proof.
  intros Hi [t _|e st He]; [by apply turn_inv|]. eexists. split; [done|].
  destruct Hi as [I1 I2 I3 I4 I5]. split; cbn [d_sys d_pc d_out at_]; try done.
  destruct (mstep_inv (d_sys s) _ I1 (m_sched _ e st He)) as (?&[= <-]&?). done.
Qed.

Lemma demo_reachable_inv s0 s : dinitial s0 → rtc dnext s0 s → demo_inv s.
Proof.
  intros (Hm&Hp&Ho) Hr. assert (H0 : demo_inv s0).
  { destruct Hm as [Hm Ha]. split; [by apply (mreachable_inv (d_sys s0)); [split|]| | | |].
    - intros t. by rewrite Hp, Ha.
    - intros t. by rewrite Ha.
    - intros t. by rewrite Hp.
    - exists [], []. split; [by rewrite Ho|]. split; [|done]. intros t. by rewrite Ha. }
  clear Hm Hp Ho. induction Hr as [|x y z Hxy _ IH]; [done|]. apply IH.
  destruct (dstep_inv x _ H0 Hxy) as (?&[= <-]&?). done.
Qed.
End Demo.

(** ** Property *)

(** C32: the demonstration threads do not mix their output. Whatever the interleaving, with any
    number of threads and wake-ups at any time, the screen shows whole blocks (a tag and five
    letters of one thread, in its colour), followed by a beginning of the block of the thread
    that holds the mutex, if there is one; and no step fails. *)
Theorem demo_blocks_not_mixed prog s0 s :
  dinitial s0 → rtc (dnext prog) s0 s →
  (∃ ts part, d_out s = concat (block prog <$> ts) ++ part ∧
     (part = [] ∨ ∃ t, at_ (d_sys s) t = Inside ∧ part `prefix_of` block prog t)) ∧
  ∀ r, dstep prog s r → ∃ s', r = Ret s'.
Proof.
  intros H0 Hr. pose proof (demo_reachable_inv prog s0 s H0 Hr) as Hi. split.
  - pose proof Hi as [I1 I2 I3 I4 (ts&part&E&Hin&Hno)]. exists ts, part. split; [done|].
    destruct (m_owner (mtx (d_sys s))) as [o|] eqn:Eo; last first.
    { left. apply Hno. intros t Ht%(mi_inside _ I1). congruence. }
    destruct (decide (at_ (d_sys s) o = Inside)) as [Ho|Ho]; last first.
    { left. apply Hno. intros t Ht. pose proof (mi_inside _ I1 t Ht). congruence. }
    right. exists o. split; [done|]. rewrite (Hin o Ho). unfold so_far, block.
    assert (Hp : ∀ i, (i ≤ 5)%nat →
      (λ c, (rc_black, colour prog o, c)) <$> tag (letter prog o) ++ replicate (5 - i) (letter prog o)
      `prefix_of` (λ c, (rc_black, colour prog o, c)) <$> tag (letter prog o) ++ replicate 5 (letter prog o)).
    { intros i Hi'. exists ((λ c, (rc_black, colour prog o, c)) <$> replicate i (letter prog o)).
      rewrite <- fmap_app, <- app_assoc, <- replicate_add. by replace (5 - i + i)%nat with 5%nat by lia. }
    pose proof (I4 o) as Hr'. destruct (d_pc s o); cbn in Hr';
      try apply prefix_nil; apply Hp; lia.
  - intros r Hs. destruct (dstep_inv prog s r Hi Hs) as (s'&->&_). eauto.
Qed.

(** Thread 1 takes the mutex and prints its tag. *)
Definition demo_start : dsys := DSys (Msys mutex_init (λ _, T_RUNNING) (λ _, Outside)) (λ _, AtLock) [].

Lemma demo_blocks_not_mixed_witness :
  ∃ s, rtc (dnext (λ _, V1)) demo_start s ∧
    d_out s = (λ c, (rc_black, rc_red, c)) <$> [91; 66; 93] ∧
    ∀ r, dstep (λ _, V1) s r → ∃ s', r = Ret s'.
Proof.
  set (nxt := dnext (λ _, V1)).
  assert (H1 : nxt demo_start
    (DSys (Msys (Mutex 1 (Some 1) []) (λ _, T_RUNNING) (<[1 := Inside]> (λ _, Outside)))
       (<[1 := AtTag]> (λ _, AtLock)) []))
    by exact (d_run _ demo_start 1 eq_refl).
  set (s1 := DSys _ _ _) in H1.
  assert (H2 : nxt s1 (print rc_red 1 [91; 66; 93] s1 (AtTest 5)))
    by exact (d_run _ s1 1 eq_refl).
  assert (Hr : rtc nxt demo_start (print rc_red 1 [91; 66; 93] s1 (AtTest 5)))
    by (eapply rtc_l; [exact H1|]; by apply rtc_once).
  eexists. split; [exact Hr|]. split; [reflexivity|].
  apply (demo_blocks_not_mixed (λ _, V1) demo_start _); [|exact Hr].
  split; [split; reflexivity|]. split; reflexivity.
Defined.
