(* ===== verification/ListIter.v ===== *)
(** * The iterator macros of [include/list.h]

    Each macro is a [for] loop around a body. The body is a function on an accumulator and the
    memory of the lists; an entry stands for its node. The [_safe] macros hold the next node
    in [n] before the body runs, so that the body may take the current one off the list. *)
From S2P Require Import Prelude ListHead ListProofs.

Section Iterators.
Context {B : Type}.
Definition body_t : Type := Z → B → lmem → res (B * lmem).

(** [for (; pos != head; pos = step(pos)) body] *)
Fixpoint each (step : lmem → Z → Z) (fuel : nat) (body : body_t) (head pos : Z) (s : B) (m : lmem)
  : res (B * lmem) :=
  match fuel with
  | O => Diverge
  | S fuel =>
      if negb (pos =? head) then
        '(s, m) ← body pos s m; each step fuel body head (step m pos) s m
      else Ret (s, m)
  end.

(** [for (; pos != head; pos = n, n = step(n)) body] *)
Fixpoint each_safe (step : lmem → Z → Z) (fuel : nat) (body : body_t) (head pos n : Z) (s : B)
    (m : lmem) : res (B * lmem) :=
  match fuel with
  | O => Diverge
  | S fuel =>
      if negb (pos =? head) then
        '(s, m) ← body pos s m; each_safe step fuel body head n (step m n) s m
      else Ret (s, m)
  end.

Definition list_for_each fuel (body : body_t) head s m :=
  each next fuel body head (next m head) s m.
Definition list_for_each_prev fuel (body : body_t) head s m :=
  each prev fuel body head (prev m head) s m.
Definition list_for_each_safe fuel (body : body_t) head s m :=
  each_safe next fuel body head (next m head) (next m (next m head)) s m.
Definition list_for_each_prev_safe fuel (body : body_t) head s m :=
  each_safe prev fuel body head (prev m head) (prev m (prev m head)) s m.

(** [list_safe_reset_next(pos, n, member)]: the new [n] *)
Definition list_safe_reset_next (m : lmem) (pos : Z) : Z := list_next_entry m pos.

Definition list_prepare_entry (pos head : Z) : Z := if negb (pos =? NULL) then pos else head.

Definition list_for_each_entry_continue fuel (body : body_t) head pos s m :=
  each list_next_entry fuel body head (list_next_entry m pos) s m.
Definition list_for_each_entry_continue_reverse fuel (body : body_t) head pos s m :=
  each list_prev_entry fuel body head (list_prev_entry m pos) s m.
Definition list_for_each_entry_from fuel (body : body_t) head pos s m :=
  each list_next_entry fuel body head pos s m.
Definition list_for_each_entry_safe fuel (body : body_t) head s m :=
  let pos := list_first_entry m head in
  each_safe list_next_entry fuel body head pos (list_next_entry m pos) s m.
Definition list_for_each_entry_safe_continue fuel (body : body_t) head pos s m :=
  let pos := list_next_entry m pos in
  each_safe list_next_entry fuel body head pos (list_next_entry m pos) s m.
Definition list_for_each_entry_safe_from fuel (body : body_t) head pos s m :=
  each_safe list_next_entry fuel body head pos (list_next_entry m pos) s m.
Definition list_for_each_entry_safe_reverse fuel (body : body_t) head s m :=
  let pos := list_last_entry m head in
  each_safe list_prev_entry fuel body head pos (list_prev_entry m pos) s m.
End Iterators.

(** A body that notes the entry, and one that also deletes it. *)
Definition visit (x : Z) (acc : list Z) (m : lmem) : res (list Z * lmem) := Ret (acc ++ [x], m).
Definition drop_entry (x : Z) (acc : list Z) (m : lmem) : res (list Z * lmem) :=
  Ret (acc ++ [x], list_del x m).

(** ** Walks *)

(** From [pos], [step] goes through [l] to the head. *)
Fixpoint walk (step : Z → Z) (h pos : Z) (l : list Z) : Prop :=
  match l with
  | [] => pos = h
  | x :: l => pos = x ∧ x ≠ h ∧ walk step h (step x) l
  end.

Lemma each_walk step fuel m h l : ∀ pos acc,
  walk (step m) h pos l → (length l < fuel)%nat →
  each step fuel visit h pos acc m = Ret (acc ++ l, m).
Proof.
  revert fuel. induction l as [|x l IH]; intros [|fuel] pos acc Hw Hf; cbn in Hf; try lia; cbn [each].
  - rewrite Hw, Z.eqb_refl, app_nil_r. done.
  - destruct Hw as (->&Hx&Hw). rewrite (proj2 (Z.eqb_neq x h)) by done. cbn [negb mbind res_bind visit].
    rewrite IH by (done || lia). by rewrite <- app_assoc.
Qed.

Lemma walk_forward m W h l1 l2 :
  reps m W → W !! h = Some (l1 ++ l2) → walk (next m) h (first_of h l2) l2.
Proof.
  intros HR. revert l1. induction l2 as [|x l2 IH]; intros l1 H; [done|].
  pose proof (reps_nodup _ _ HR _ _ H) as [Hh _]%NoDup_cons.
  split; [done|]. split; [set_solver|]. destruct (ring_node m h l1 x l2) as [_ ->]; [by apply HR|].
  apply (IH (l1 ++ [x])). by rewrite <- app_assoc.
Qed.

Lemma walk_backward m W h l1 l2 :
  reps m W → W !! h = Some (l1 ++ l2) → walk (prev m) h (last_of h l1) (reverse l1).
Proof.
  intros HR. revert l2. induction l1 as [|x l1 IH] using rev_ind; intros l2 H; [done|].
  pose proof (reps_nodup _ _ HR _ _ H) as [Hh _]%NoDup_cons.
  rewrite last_of_snoc, reverse_snoc. split; [done|]. split; [set_solver|].
  rewrite <- app_assoc in H. cbn in H. destruct (ring_node m h l1 x l2) as [-> _]; [by apply HR|].
  by apply (IH (x :: l2)).
Qed.

(** ** Deleting on the way *)

Lemma drop_entry_sim m W h l1 x l2 :
  reps m W → W !! h = Some (l1 ++ x :: l2) → reps (list_del x m) (<[h := l1 ++ l2]> W).
Proof.
  intros HR H. rewrite <- (w_del_lookup m x h W l1 l2) by done.
  apply list_del_sim; [done|]. exists h, (l1 ++ x :: l2). split; [done|set_solver].
Qed.

Lemma each_safe_forward fuel h l1 l2 : ∀ m W n acc,
  reps m W → W !! h = Some (l1 ++ l2) → (∀ x l, l2 = x :: l → n = first_of h l) →
  (length l2 < fuel)%nat →
  ∃ m', each_safe next fuel drop_entry h (first_of h l2) n acc m = Ret (acc ++ l2, m') ∧
    reps m' (<[h := l1]> W).
Proof.
  revert fuel. induction l2 as [|x l2 IH]; intros [|fuel] m W n acc HR H Hn Hf; cbn in Hf; try lia;
    cbn [each_safe first_of hd].
  { rewrite Z.eqb_refl, app_nil_r. exists m. split; [done|]. rewrite app_nil_r in H.
    by rewrite insert_id. }
  pose proof (reps_nodup _ _ HR _ _ H) as [Hh _]%NoDup_cons.
  rewrite (proj2 (Z.eqb_neq x h)) by set_solver. cbn [negb mbind res_bind drop_entry].
  rewrite (Hn x l2 eq_refl). pose proof (drop_entry_sim m W h l1 x l2 HR H) as HR'.
  destruct (IH fuel _ _ (next (list_del x m) (first_of h l2)) (acc ++ [x]) HR') as (m'&E&Hm').
  - apply lookup_insert_eq.
  - intros y l ->. cbn [first_of hd].
    destruct (ring_node (list_del x m) h l1 y l) as [_ ->]; [|done].
    by apply (reps_ring _ _ HR'), lookup_insert_eq.
  - lia.
  - exists m'. rewrite E, <- app_assoc. split; [done|]. by rewrite insert_insert_eq in Hm'.
Qed.

Lemma each_safe_backward fuel h l1 l2 : ∀ m W n acc,
  reps m W → W !! h = Some (l1 ++ l2) → (∀ x l, l1 = l ++ [x] → n = last_of h l) →
  (length l1 < fuel)%nat →
  ∃ m', each_safe prev fuel drop_entry h (last_of h l1) n acc m = Ret (acc ++ reverse l1, m') ∧
    reps m' (<[h := l2]> W).
Proof.
  revert fuel. induction l1 as [|x l1 IH] using rev_ind; intros [|fuel] m W n acc HR H Hn Hf;
    rewrite ?length_app in Hf; cbn in Hf; try lia; cbn [each_safe].
  { unfold last_of. cbn [List.last]. rewrite Z.eqb_refl, app_nil_r. exists m. split; [done|].
    cbn in H. by rewrite insert_id. }
  pose proof (reps_nodup _ _ HR _ _ H) as [Hh _]%NoDup_cons.
  rewrite last_of_snoc, reverse_snoc, (proj2 (Z.eqb_neq x h)) by set_solver.
  cbn [negb mbind res_bind drop_entry].
  rewrite (Hn x l1 eq_refl). rewrite <- app_assoc in H. cbn in H.
  pose proof (drop_entry_sim m W h l1 x l2 HR H) as HR'.
  destruct (IH fuel _ _ (prev (list_del x m) (last_of h l1)) (acc ++ [x]) HR') as (m'&E&Hm').
  - apply lookup_insert_eq.
  - intros y l ->. rewrite last_of_snoc.
    destruct (ring_node (list_del x m) h l y l2) as [-> _]; [|done].
    apply (reps_ring _ _ HR'). rewrite <- app_assoc. cbn. apply lookup_insert_eq.
  - lia.
  - exists m'. rewrite E, <- app_assoc. split; [done|]. by rewrite insert_insert_eq in Hm'.
Qed.

(** ** Property *)

(** The iterators visit what they say. On a well-formed list each loop returns; forwards and
    backwards it visits all the entries, in order, the [_continue] and [_from] loops those
    behind the given one, with or without it. The [_safe] loops do the same while the body
    deletes every entry it visits: exactly these entries are gone afterwards, and every other
    list is as it was. *)
Theorem list_iterators_visit m W h l1 x l2 fuel :
  reps m W → W !! h = Some (l1 ++ x :: l2) → (length (l1 ++ x :: l2) < fuel)%nat →
  let l := l1 ++ x :: l2 in
  list_for_each fuel visit h [] m = Ret (l, m) ∧
  list_for_each_prev fuel visit h [] m = Ret (reverse l, m) ∧
  list_for_each_entry_continue fuel visit h x [] m = Ret (l2, m) ∧
  list_for_each_entry_continue_reverse fuel visit h x [] m = Ret (reverse l1, m) ∧
  list_for_each_entry_from fuel visit h x [] m = Ret (x :: l2, m) ∧
  (∃ m', list_for_each_safe fuel drop_entry h [] m = Ret (l, m') ∧ reps m' (<[h := []]> W)) ∧
  (∃ m', list_for_each_prev_safe fuel drop_entry h [] m = Ret (reverse l, m') ∧
     reps m' (<[h := []]> W)) ∧
  (∃ m', list_for_each_entry_safe_continue fuel drop_entry h x [] m = Ret (l2, m') ∧
     reps m' (<[h := l1 ++ [x]]> W)) ∧
  (∃ m', list_for_each_entry_safe_from fuel drop_entry h x [] m = Ret (x :: l2, m') ∧
     reps m' (<[h := l1]> W)).
Proof.
  intros HR H Hf. cbn zeta. pose proof (reps_ring _ _ HR _ _ H) as Hr.
  rewrite length_app in Hf. cbn in Hf.
  assert (H2 : W !! h = Some ((l1 ++ [x]) ++ l2)) by by rewrite <- app_assoc.
  assert (H0 : W !! h = Some ((l1 ++ x :: l2) ++ [])) by by rewrite app_nil_r.
  destruct (ring_node m h l1 x l2 Hr) as [Hp Hn].
  assert (Hnext : ∀ la y lb, l1 ++ x :: l2 = la ++ y :: lb → next m y = first_of h lb).
  { intros la y lb E. rewrite E in Hr. apply (ring_node m h la y lb Hr). }
  assert (Hprev : ∀ la y lb, l1 ++ x :: l2 = la ++ y :: lb → prev m y = last_of h la).
  { intros la y lb E. rewrite E in Hr. apply (ring_node m h la y lb Hr). }
  split_and!.
  - unfold list_for_each. rewrite (ring_next m h _ Hr). 
    apply (each_walk next fuel m h (l1 ++ x :: l2) _ []); [|rewrite length_app; cbn; lia].
    by apply (walk_forward m W h []).
  - unfold list_for_each_prev. rewrite (ring_prev m h _ Hr).
    apply (each_walk prev fuel m h (reverse _) _ []); [by apply (walk_backward m W h _ [])|]. rewrite length_reverse, length_app. cbn. lia.
  - unfold list_for_each_entry_continue, list_next_entry at 2. rewrite Hn.
    apply (each_walk next fuel m h l2 _ []); [by apply (walk_forward m W h (l1 ++ [x]))|lia].
  - unfold list_for_each_entry_continue_reverse, list_prev_entry at 2. rewrite Hp.
    apply (each_walk prev fuel m h (reverse l1) _ []); [by apply (walk_backward m W h l1 (x :: l2))|]. rewrite length_reverse. lia.
  - apply (each_walk next fuel m h (x :: l2) _ []); [by apply (walk_forward m W h l1 (x :: l2))|cbn; lia].
  - unfold list_for_each_safe. rewrite (ring_next m h _ Hr).
    apply (each_safe_forward fuel h [] (l1 ++ x :: l2)); [done|done| |rewrite length_app; cbn; lia].
    intros y l E. rewrite E. cbn. by apply (Hnext []).
  - unfold list_for_each_prev_safe. rewrite (ring_prev m h _ Hr).
    apply (each_safe_backward fuel h (l1 ++ x :: l2) []); [done|done| |rewrite length_app; cbn; lia].
    intros y l E. rewrite E, last_of_snoc. by apply (Hprev l y []).
  - unfold list_for_each_entry_safe_continue. cbv zeta. unfold list_next_entry at 2 3 4. rewrite Hn.
    apply (each_safe_forward fuel h (l1 ++ [x]) l2); [done|done| |lia].
    intros y l ->. cbn. apply (Hnext (l1 ++ [x])). by rewrite <- app_assoc.
  - apply (each_safe_forward fuel h l1 (x :: l2)); [done|done| |cbn; lia].
    intros y l [= <- <-]. done.
Qed.

Lemma list_iterators_visit_witness :
  list_for_each_entry_continue 4 visit 100 2 [] demo_lists = Ret ([3], demo_lists) ∧
  ∃ m', list_for_each_safe 4 drop_entry 100 [] demo_lists = Ret ([1; 2; 3], m').
Proof.
  destruct (list_iterators_visit demo_lists {[100 := [1; 2; 3]; 200 := []]} 100 [1] 2 [3] 4)
    as (_&_&E1&_&_&(m'&E2&_)&_); [exact demo_reps|by vm_compute|cbn; lia|].
  split; [exact E1|]. exists m'. exact E2.
Defined.
