(* ===== verification/X86.v ===== *)
(** * The processor's side: [src/x86.s], [include/x86.h], [src/gdt_s.s], [idt_flush]

    Loading the descriptor tables, reading and writing the flags, and the string port
    instructions. The tables that [init_gdt] and [init_idt] compute are placed in memory as
    packed structures; the processor finds a descriptor through the table register. *)
From S2P Require Import Prelude Memory Descriptors Switch.

(** ** Table registers and segment registers *)

Inductive segreg : Type := CS | DS | ES | FS | GS | SS.

#[export] Instance segreg_eq_dec : EqDecision segreg.
Proof. solve_decision. Defined.

(** A table register holds the limit and the base of a table. *)
Record sysregs : Type := SysRegs {
  gdtr : Z * Z;
  idtr : Z * Z;
  selector : segreg → Z;
}.

(** [gdt_ptr_t] and [idt_ptr_t] in memory: a 16-bit limit and a 32-bit base, packed. *)
Definition table_ptr (m : mem) (p : Z) : Z * Z := (m p + 256 * m (p + 1), load32 m (p + 2)).
Definition store_ptr (p limit base : Z) (m : mem) : mem :=
  store32 (<[p + 1 := byte_of limit 1]> (<[p := byte_of limit 0]> m)) (p + 2) base.

(** [gdt_flush] with the stack pointer [esp]: the argument is the word above the return
    address. *)
Definition lgdt (m : mem) (p : Z) (r : sysregs) : sysregs := SysRegs (table_ptr m p) (idtr r) (selector r).
Definition load_seg (s : segreg) (v : Z) (r : sysregs) : sysregs :=
  SysRegs (gdtr r) (idtr r) (<[s := v]> (selector r)).
Definition gdt_flush (m : mem) (esp : Z) (r : sysregs) : sysregs :=
  let eax := load32 m (esp + 4) in
  let r := lgdt m eax r in
  let ax := 0x10 in
  let r := load_seg DS ax r in
  let r := load_seg ES ax r in
  let r := load_seg FS ax r in
  let r := load_seg GS ax r in
  let r := load_seg SS ax r in
  load_seg CS 0x08 r.

(** [idt_flush] *)
Definition idt_flush (m : mem) (esp : Z) (r : sysregs) : sysregs :=
  let eax := load32 m (esp + 4) in
  SysRegs (gdtr r) (table_ptr m eax) (selector r).

(** ** Tables in memory *)

(** [n] descriptors of eight bytes each from [base] on *)
Definition place (descr : Z → list Z) (base n : Z) (m : mem) : mem := λ a,
  if (base <=? a) && (a <? base + 8 * n)
  then default 0 (descr ((a - base) / 8) !! Z.to_nat ((a - base) `mod` 8)) else m a.

(** The eight bytes of descriptor [i] of a table, if it is within the limit *)
Definition descriptor (m : mem) (t : Z * Z) (i : Z) : option (list Z) :=
  if 8 * i + 7 <=? t.1 then Some ((λ j, m (t.2 + 8 * i + j)) <$> seqZ 0 8) else None.

(** [init_gdt(cpu)]: the entries at [entries], the pointer at [ptr], and the call of [gdt_flush],
    which pushes [ptr] and the return address [ra] below [esp]. *)
Definition init_gdt (ptr entries ra esp : Z) (gdt : Z → Gdt.gdt_entry_t) (m : mem) (r : sysregs)
  : mem * sysregs :=
  let '(limit, gdt) := Gdt.init_gdt gdt in
  let m := store_ptr ptr limit entries m in
  let m := place (λ i, Gdt.seg_bytes (gdt i)) entries Gdt.MAX_GDT_ENT_PCPU m in
  let m := store32 (store32 m (esp - 4) ptr) (esp - 8) ra in
  (m, gdt_flush m (esp - 8) r).

(** [init_idt()] likewise *)
Definition init_idt (isr irq : Z → Z) (inval stop timer : Z) (ismp : bool) (ptr entries ra esp : Z)
    (m : mem) (r : sysregs) : mem * sysregs :=
  let '(limit, _, idt) := Idt.init_idt isr irq inval stop timer ismp in
  let m := store_ptr ptr limit entries m in
  let m := place (λ i, Idt.gate_bytes (idt i)) entries 256 m in
  let m := store32 (store32 m (esp - 4) ptr) (esp - 8) ra in
  (m, idt_flush m (esp - 8) r).

(** ** Lemmas *)

Lemma store_ptr_read p limit base m :
  0 ≤ limit < 65536 → is_u32 base → table_ptr (store_ptr p limit base m) p = (limit, base).
Proof.
  intros Hl Hb. unfold table_ptr, store_ptr. rewrite store32_same, u32_small by done.
  rewrite !store32_out by lia. rewrite fn_lookup_insert_ne, !fn_lookup_insert by lia.
  f_equal. unfold byte_of. change (256 ^ 0) with 1. change (256 ^ 1) with 256. dlia.
Qed.

Lemma table_ptr_agree m m' p : agree m m' p 6 → table_ptr m' p = table_ptr m p.
Proof.
  intros Ha. unfold table_ptr. rewrite (Ha p), (Ha (p + 1)), (agree_load m m' p 6) by (done || lia). done.
Qed.

Lemma place_agree descr base n m p k :
  apart base (8 * n) p k → agree m (place descr base n m) p k.
Proof.
  intros Ha a Hi. unfold place, apart in *.
  destruct (Z.leb_spec base a), (Z.ltb_spec a (base + 8 * n)); cbn [andb]; (done || lia).
Qed.

(** A descriptor is read as it was placed. *)
Lemma place_descriptor descr base n m m' limit i :
  0 ≤ i < n → 8 * i + 7 ≤ limit → length (descr i) = 8%nat →
  agree (place descr base n m) m' base (8 * n) →
  descriptor m' (limit, base) i = Some (descr i).
Proof.
  intros Hi Hl Hlen Ha. unfold descriptor. cbn [fst snd]. rewrite (proj2 (Z.leb_le _ _)) by lia.
  f_equal. apply list_eq_same_length with 8%nat; [done|by rewrite length_fmap|].
  intros j x y Hj Hx Hy. rewrite list_lookup_fmap in Hx.
  rewrite lookup_seqZ_lt in Hx by lia. cbn in Hx. injection Hx as <-.
  rewrite Ha by lia. unfold place.
  rewrite (proj2 (Z.leb_le _ _)), (proj2 (Z.ltb_lt _ _)) by lia. cbn [andb].
  replace ((base + 8 * i + (0 + Z.of_nat j) - base) / 8) with i by dlia.
  replace ((base + 8 * i + (0 + Z.of_nat j) - base) `mod` 8) with (Z.of_nat j) by dlia.
  by rewrite Nat2Z.id, Hy.
Qed.

Lemma seg_bytes_length e : length (Gdt.seg_bytes e) = 8%nat.
Proof. done. Qed.

Lemma gate_bytes_length g : length (Idt.gate_bytes g) = 8%nat.
Proof. done. Qed.

(** What the processor knows of a segment register and of a vector. *)
Definition segment (m : mem) (r : sysregs) (s : segreg) : option (Z * Z * Z * Z) :=
  Gdt.view_seg <$> descriptor m (gdtr r) (selector r s / 8).
Definition gate (m : mem) (r : sysregs) (v : Z) : option Idt.gate_view :=
  Idt.view_gate <$> descriptor m (idtr r) v.

(** Where the two pointers, the two tables and the stack of the calls are. *)
Record tables_apart (gptr gent iptr ient esp : Z) : Prop := {
  ta_range : is_u32 gptr ∧ is_u32 gent ∧ is_u32 iptr ∧ is_u32 ient;
  ta_gdt : apart gptr 6 gent 80 ∧ apart (esp - 8) 8 gptr 6 ∧ apart (esp - 8) 8 gent 80;
  ta_idt : apart iptr 6 ient 2048 ∧ apart (esp - 8) 8 iptr 6 ∧ apart (esp - 8) 8 ient 2048;
  ta_both : apart gent 80 iptr 6 ∧ apart gent 80 ient 2048;
}.

(** Loading a table: the pointer read through the argument on the stack is the one stored. *)
Lemma flush_reads descr ptr base n limit ra esp m :
  is_u32 ptr → is_u32 base → 0 ≤ limit < 65536 →
  apart ptr 6 base (8 * n) → apart (esp - 8) 8 ptr 6 →
  let m' := store32 (store32 (place descr base n (store_ptr ptr limit base m)) (esp - 4) ptr) (esp - 8) ra in
  table_ptr m' (load32 m' (esp - 8 + 4)) = (limit, base).
Proof.
  intros Hp Hb Hl H1 H2. cbn zeta. unfold apart in *.
  replace (esp - 8 + 4) with (esp - 4) by lia. mem_load. rewrite u32_small by done.
  rewrite <- (store_ptr_read ptr limit base m) by done. apply table_ptr_agree.
  intros a Ha. rewrite !store32_out by lia. eapply (place_agree _ _ n _ ptr 6); [unfold apart; lia|lia].
Qed.

(** The entries of the segment table, whatever was in it. *)
Lemma gdt_entries_view gdt :
  let gdt' := (Gdt.init_gdt gdt).2 in
  Gdt.view_seg (Gdt.seg_bytes (gdt' 1)) = (0, 0xFFFFF, 0x9A, 0xC) ∧
  Gdt.view_seg (Gdt.seg_bytes (gdt' 2)) = (0, 0xFFFFF, 0x92, 0xC).
Proof. split; reflexivity. Qed.

Lemma init_gdt_live gptr gent ra esp gdt m r :
  is_u32 gptr → is_u32 gent →
  apart gptr 6 gent 80 → apart (esp - 8) 8 gptr 6 → apart (esp - 8) 8 gent 80 →
  let '(m', r') := init_gdt gptr gent ra esp gdt m r in
  gdtr r' = (79, gent) ∧ (∀ s, selector r' s = if decide (s = CS) then 8 else 0x10) ∧
  (∀ m'', agree m' m'' gent 80 → ∀ s, segment m'' r' s =
    Some (if decide (s = CS) then (0, 0xFFFFF, 0x9A, 0xC) else (0, 0xFFFFF, 0x92, 0xC))).
Proof.
  intros Hp Hb H1 H2 H3. unfold init_gdt.
  pose proof (gdt_entries_view gdt) as [V1 V2].
  assert (El : (Gdt.init_gdt gdt).1 = 79) by done.
  destruct (Gdt.init_gdt gdt) as [limit gdt'] eqn:E. cbn [fst snd] in *. subst limit.
  set (descr := λ i, Gdt.seg_bytes (gdt' i)).
  pose proof (flush_reads descr gptr gent 10 79 ra esp m Hp Hb ltac:(lia) H1 H2) as Hr. cbn zeta in Hr.
  change Gdt.MAX_GDT_ENT_PCPU with 10.
  set (m1 := place descr gent 10 (store_ptr gptr 79 gent m)) in *.
  assert (Ha : agree m1 (store32 (store32 m1 (esp - 4) gptr) (esp - 8) ra) gent (8 * 10)).
  { intros a Ha. unfold apart in *. rewrite !store32_out by lia. done. }
  set (m' := store32 (store32 m1 (esp - 4) gptr) (esp - 8) ra) in *. clearbody m'.
  assert (Hs : ∀ s, selector (gdt_flush m' (esp - 8) r) s = if decide (s = CS) then 8 else 0x10).
  { intros s. unfold gdt_flush, load_seg. cbn [selector gdtr idtr lgdt]. unfold insert, fn_insert.
    destruct s; reflexivity. }
  split; [exact Hr|]. split; [exact Hs|].
  intros m'' Ha'' s. unfold segment. change (gdtr (gdt_flush m' (esp - 8) r)) with (table_ptr m' (load32 m' (esp - 8 + 4))).
  rewrite Hs, Hr. assert (Hag : agree m1 m'' gent (8 * 10)) by (by eapply agree_trans).
  destruct (decide (s = CS)).
  - change (8 / 8) with 1. subst m1.
    rewrite (place_descriptor descr gent 10 _ m'' 79 1) by (lia || done). unfold descr. cbn [fmap option_fmap option_map].
    by rewrite V1.
  - change (0x10 / 8) with 2. subst m1.
    rewrite (place_descriptor descr gent 10 _ m'' 79 2) by (lia || done). unfold descr. cbn [fmap option_fmap option_map].
    by rewrite V2.
Qed.

Lemma init_idt_live isr irq inval stop timer ismp iptr ient ra esp m r :
  is_u32 iptr → is_u32 ient → (∀ i, is_u32 (isr i)) → (∀ i, is_u32 (irq i)) →
  is_u32 inval → is_u32 stop → is_u32 timer →
  apart iptr 6 ient 2048 → apart (esp - 8) 8 iptr 6 → apart (esp - 8) 8 ient 2048 →
  let '(m', r') := init_idt isr irq inval stop timer ismp iptr ient ra esp m r in
  gdtr r' = gdtr r ∧ selector r' = selector r ∧
  (∀ p n, apart iptr 6 p n → apart ient 2048 p n → apart (esp - 8) 8 p n → agree m m' p n) ∧
  ∀ v, 0 ≤ v < 256 →
    match Idt.stub_of isr irq inval stop timer ismp v with
    | Some h => gate m' r' v = Some (Idt.GateView true 14 0 8 h)
    | None => Idt.g_present <$> gate m' r' v = Some false
    end.
Proof.
  intros Hp Hb A1 A2 A3 A4 A5 H1 H2 H3. unfold init_idt.
  pose proof (λ v, Idt.init_idt_correct isr irq inval stop timer ismp v A1 A2 A3 A4 A5) as Hv.
  destruct (Idt.init_idt isr irq inval stop timer ismp) as [[limit ports] idt].
  assert (El : limit = 2047) by (by destruct (Hv 0 ltac:(lia))). subst limit.
  set (descr := λ i, Idt.gate_bytes (idt i)).
  pose proof (flush_reads descr iptr ient 256 2047 ra esp m Hp Hb ltac:(lia) H1 H2) as Hr. cbn zeta in Hr.
  assert (Hag : ∀ m1, agree m1 (store32 (store32 m1 (esp - 4) iptr) (esp - 8) ra) ient (8 * 256)).
  { intros m1 a Ha. unfold apart in *. rewrite !store32_out by lia. done. }
  split; [done|]. split; [done|]. split.
  - intros p n P1 P2 P3 a Ha. unfold apart in *. rewrite !store32_out by lia.
    rewrite (place_agree descr ient 256 _ p n) by (unfold apart; lia).
    unfold store_ptr. rewrite store32_out, !fn_lookup_insert_ne by lia. done.
  - intros v Hvr. unfold gate, idt_flush. cbn [idtr]. rewrite Hr.
    rewrite (place_descriptor descr ient 256 _ _ 2047 v) by (lia || done || apply Hag).
    cbn [fmap option_fmap option_map]. destruct (Hv v Hvr) as [_ Hg].
    destruct (Idt.stub_of isr irq inval stop timer ismp v); unfold descr; by rewrite Hg.
Qed.

(** C20: the descriptor tables are live. After [init_gdt] and then [init_idt], as [main] calls
    them, the processor finds through its table registers: in [cs] a present ring-0 code
    segment and in every other segment register a writable ring-0 data segment, all with
    base 0 and a limit of 4 GiB; and for each of the 256 vectors the interrupt gate of its
    stub, or a gate that is not present when it has none. *)
Theorem descriptor_tables_live isr irq inval stop timer ismp gptr gent iptr ient ra ra' esp gdt m r :
  tables_apart gptr gent iptr ient esp →
  (∀ i, is_u32 (isr i)) → (∀ i, is_u32 (irq i)) → is_u32 inval → is_u32 stop → is_u32 timer →
  let '(m1, r1) := init_gdt gptr gent ra esp gdt m r in
  let '(m2, r2) := init_idt isr irq inval stop timer ismp iptr ient ra' esp m1 r1 in
  (∀ s, segment m2 r2 s =
     Some (if decide (s = CS) then (0, 0xFFFFF, 0x9A, 0xC) else (0, 0xFFFFF, 0x92, 0xC))) ∧
  ∀ v, 0 ≤ v < 256 →
    match Idt.stub_of isr irq inval stop timer ismp v with
    | Some h => gate m2 r2 v = Some (Idt.GateView true 14 0 8 h)
    | None => Idt.g_present <$> gate m2 r2 v = Some false
    end.
Proof.
  intros [(R1&R2&R3&R4) (G1&G2&G3) (I1&I2&I3) (B1&B2)] A1 A2 A3 A4 A5.
  pose proof (init_gdt_live gptr gent ra esp gdt m r R1 R2 G1 G2 G3) as Hg.
  destruct (init_gdt gptr gent ra esp gdt m r) as [m1 r1]. destruct Hg as (_&_&Hg).
  pose proof (init_idt_live isr irq inval stop timer ismp iptr ient ra' esp m1 r1 R3 R4 A1 A2 A3 A4 A5 I1 I2 I3) as Hi.
  destruct (init_idt isr irq inval stop timer ismp iptr ient ra' esp m1 r1) as [m2 r2].
  destruct Hi as (Eg&Es&Ha&Hv). split; [|exact Hv].
  intros s. unfold segment. rewrite Eg, Es. apply Hg, Ha; unfold apart in *; lia.
Qed.

Lemma descriptor_tables_live_witness :
  let '(m1, r1) := init_gdt 0x201000 0x201010 99 0x9000 (λ _, Gdt.Seg 0 0 0 0 0 0) (λ _, 0)
                     (SysRegs (0, 0) (0, 0) (λ _, 0)) in
  let '(m2, r2) := init_idt (λ i, 0x1000 + i `mod` 32) (λ i, 0x1020 + i `mod` 16) 0x1030 0x1031 0x1032 true
                     0x202000 0x203000 98 0x9000 m1 r1 in
  segment m2 r2 CS = Some (0, 0xFFFFF, 0x9A, 0xC) ∧
  gate m2 r2 14 = Some (Idt.GateView true 14 0 8 0x100E).
Proof.
  pose proof (descriptor_tables_live (λ i, 0x1000 + i `mod` 32) (λ i, 0x1020 + i `mod` 16) 0x1030 0x1031
    0x1032 true 0x201000 0x201010 0x202000 0x203000 99 98 0x9000 (λ _, Gdt.Seg 0 0 0 0 0 0) (λ _, 0)
    (SysRegs (0, 0) (0, 0) (λ _, 0))) as H.
  destruct (init_gdt _ _ _ _ _ _ _) as [m1 r1]. destruct (init_idt _ _ _ _ _ _ _ _ _ _ _ _) as [m2 r2].
  destruct H as [Hs Hv].
  - split; unfold is_u32, apart; lia.
  - intros i. unfold is_u32. dlia.
  - intros i. unfold is_u32. dlia.
  - unfold is_u32. lia.
  - unfold is_u32. lia.
  - unfold is_u32. lia.
  - split; [exact (Hs CS)|exact (Hv 14 ltac:(lia))].
Defined.

(** ** Flags: [src/x86.s] *)

Definition local_get_flags : list instr := [PUSHF; POP EAX; RET].
Definition local_set_flags : list instr := [MOV_load EAX ESP 4; PUSH EAX; POPF; RET].

(** Reading the flags returns them and leaves the stack to the caller; writing back what was
    read restores them, whatever happened to the flags in between. *)
Lemma local_get_flags_run callee M :
  4 ≤ regs M ESP < 4294967292 → is_u32 (eflags M) →
  let M' := run callee local_get_flags M in
  regs M' EAX = eflags M ∧ eflags M' = eflags M ∧ regs M' ESP = regs M ESP + 4 ∧
  eip M' = load32 (memory M) (regs M ESP).
Proof.
  intros He Hf. unfold local_get_flags. cbn zeta. rewrite run_pushf_pop by (done || lia).
  cbn -[store32 load32 u32]. unfold load. cbn -[store32 load32 u32].
  repeat first [rewrite fn_lookup_insert | rewrite fn_lookup_insert_ne by done].
  rewrite !u32_small by (unfold is_u32 in *; (done || lia)).
  split_and!; [done..|]. by rewrite store32_other by (unfold apart; lia).
Qed.

Lemma local_set_flags_run callee M :
  4 ≤ regs M ESP → regs M ESP + 8 < 4294967296 →
  let M' := run callee local_set_flags M in
  eflags M' = load32 (memory M) (regs M ESP + 4) ∧ regs M' ESP = regs M ESP + 4 ∧
  eip M' = load32 (memory M) (regs M ESP) ∧
  (∀ r, r ∈ [EBX; ESI; EDI; EBP] → regs M' r = regs M r).
Proof.
  intros He Ht. unfold local_set_flags. cbn zeta. rewrite (run_load callee EAX ESP 4 _ _ (regs M ESP)) by (done || lia).
  pose proof (load32_range (memory M) (regs M ESP + 4)) as Hr.
  destruct M as [rs fl ip m]. cbn [regs memory] in *. set (v := load32 m (rs ESP + 4)) in *. clearbody v.
  cbn -[store32 load32 u32]. unfold load, store. cbn -[store32 load32 u32].
  repeat first [rewrite fn_lookup_insert | rewrite fn_lookup_insert_ne by done].
  rewrite !(u32_small (rs ESP - 4)), !store32_same by (unfold is_u32; lia).
  replace (rs ESP - 4 + 4) with (rs ESP) by lia.
  rewrite (u32_small (rs ESP)), (u32_small (rs ESP)) by (unfold is_u32; lia).
  rewrite (u32_small (rs ESP + 4)), (u32_small v) by (unfold is_u32 in *; lia).
  split_and!; [done|done| |].
  - by rewrite store32_other by (unfold apart; lia).
  - intros r Hr'. rewrite !elem_of_cons in Hr'.
    destruct Hr' as [->|[->|[->|[->|Hr'%elem_of_nil]]]]; [done..|done].
Qed.

(** ** String port instructions: [include/x86.h] *)

(** [outsl(port, addr, cnt)]: the words sent to the port *)
Fixpoint outsl (cnt : nat) (m : mem) (addr : Z) : list Z :=
  match cnt with
  | O => []
  | S cnt => load32 m addr :: outsl cnt m (u32 (addr + 4))
  end.

(** [insl(port, addr, cnt)] when the port delivers [words] *)
Fixpoint insl (cnt : nat) (words : list Z) (m : mem) (addr : Z) : mem :=
  match cnt, words with
  | S cnt, w :: words => insl cnt words (store32 m addr w) (u32 (addr + 4))
  | _, _ => m
  end.

Lemma insl_out cnt : ∀ words m addr a,
  0 ≤ addr → addr + 4 * Z.of_nat cnt < 4294967296 → ¬ (addr ≤ a < addr + 4 * Z.of_nat cnt) →
  insl cnt words m addr a = m a.
Proof.
  induction cnt as [|cnt IH]; intros [|w words] m addr a H0 H1 Ha; try done. cbn [insl].
  rewrite (u32_small (addr + 4)) by (unfold is_u32; lia). rewrite IH by lia. apply store32_out. lia.
Qed.

(** The bytes of a word that was loaded. *)
Lemma store_loaded m m' a b i :
  (∀ j, 0 ≤ j < 4 → 0 ≤ m (a + j) < 256) → 0 ≤ i < 4 → store32 m' b (load32 m a) (b + i) = m (a + i).
Proof.
  intros Hb Hi. pose proof (Hb 0 ltac:(lia)) as B0. pose proof (Hb 1 ltac:(lia)) as B1.
  pose proof (Hb 2 ltac:(lia)) as B2. pose proof (Hb 3 ltac:(lia)) as B3. rewrite Z.add_0_r in B0.
  unfold store32, load32. rewrite u32_small by (unfold is_u32; lia).
  assert (i = 0 ∨ i = 1 ∨ i = 2 ∨ i = 3) as [->|[->|[->| ->]]] by lia; rewrite ?Z.add_0_r;
    repeat first [rewrite fn_lookup_insert | rewrite fn_lookup_insert_ne by lia]; unfold byte_of;
    change (256 ^ 0) with 1; change (256 ^ 1) with 256; change (256 ^ 2) with 65536;
    change (256 ^ 3) with 16777216; dlia.
Qed.

(** What [outsl] sends and [insl] gets back is the same bytes, and [insl] changes nothing else. *)
Lemma outsl_insl cnt : ∀ m src m' dst,
  0 ≤ src → src + 4 * Z.of_nat cnt < 4294967296 → 0 ≤ dst → dst + 4 * Z.of_nat cnt < 4294967296 →
  (∀ a, src ≤ a < src + 4 * Z.of_nat cnt → 0 ≤ m a < 256) →
  ∀ i, 0 ≤ i < 4 * Z.of_nat cnt → insl cnt (outsl cnt m src) m' dst (dst + i) = m (src + i).
Proof.
  induction cnt as [|cnt IH]; intros m src m' dst S0 S1 D0 D1 Hb i Hi; [lia|]. cbn [outsl insl].
  rewrite !u32_small by (unfold is_u32; lia).
  destruct (Z.lt_ge_cases i 4).
  - rewrite insl_out by lia. apply store_loaded; [|lia]. intros j Hj. apply Hb. lia.
  - replace (dst + i) with (dst + 4 + (i - 4)) by lia. rewrite IH by (lia || (intros; apply Hb; lia)).
    f_equal. lia.
Qed.

(** [inb(port)] and [inw(port)] when the port delivers [v] *)
Definition inb (v : Z) : Z := u8 v.
Definition inw (v : Z) : Z := u16 v.
