(* ===== verification/StartCode.v ===== *)
(** * The first instructions: [start] of [src/boot.s] and [src/ap_real.s]

    The boot loader enters [start] in protected mode; a startup command enters [ap_start] in real
    mode, in the copy of the code that [start_smp] made. Both end in a call of C. Where the
    assembler puts the labels of the copied code is left open. *)
From S2P Require Import Prelude Memory Descriptors Switch X86 Mproc Boot.

(** ** [src/boot.s] *)

Definition MBOOT_PAGE_ALIGN : Z := Z.shiftl 1 0.
Definition MBOOT_MEM_INFO : Z := Z.shiftl 1 1.
Definition MBOOT_HEADER_MAGIC : Z := 0x1BADB002.
Definition MBOOT_HEADER_FLAGS : Z := Z.lor MBOOT_PAGE_ALIGN MBOOT_MEM_INFO.
Definition MBOOT_CHECKSUM : Z := u32 (- (MBOOT_HEADER_MAGIC + MBOOT_HEADER_FLAGS)).

(** The words at [mboot]; the addresses are the linker's. *)
Definition mboot_header (mboot code bss end_ start : Z) : list Z :=
  [MBOOT_HEADER_MAGIC; MBOOT_HEADER_FLAGS; MBOOT_CHECKSUM; mboot; code; bss; end_; start].

(** [equ $ - stack - 1], 32768 bytes behind [stack]: a number, not an address *)
Definition STACK_TOP : Z := 32768 - 1.

(** [cli] and [and esp, v] *)
Definition cli (M : machine) : machine := set_eflags (Z.ldiff (eflags M) 0x200) M.
Definition and_esp (v : Z) (M : machine) : machine := set_reg ESP (Z.land (regs M ESP) v) M.

(** [start], to the entry of [main]; the call pushes the address [ra] behind it. *)
Definition start (main ra : Z) (M : machine) : machine :=
  let M := cli M in
  let M := set_reg ESP STACK_TOP M in
  let M := set_reg EBP 0 M in
  let M := and_esp 0xfffffff0 M in
  let M := push (regs M EBX) M in
  set_eip main (push ra M).

(** ** [include/ap_real.asm] *)

Definition S_DRW : Z := 0x92.
Definition S_CR : Z := 0x9a.
Definition S_G : Z := 0x8000.
Definition S_DB : Z := 0x4000.

(** [dw] and [db] *)
Definition dw (v : Z) : list Z := [byte_of v 0; byte_of v 1].
Definition db (v : Z) : list Z := [byte_of v 0].
Definition dd (v : Z) : list Z := [byte_of v 0; byte_of v 1; byte_of v 2; byte_of v 3].

(** [%macro GDT_SET 3] *)
Definition GDT_SET (base limit attr : Z) : list Z :=
  dw (Z.land limit 0xffff) ++ dw (Z.land base 0xffff) ++ db (Z.land (Z.shiftr base 16) 0xff) ++
  dw (Z.lor (Z.land (Z.shiftr limit 8) 0x0f00) (Z.land attr 0xf0ff)) ++
  db (Z.land (Z.shiftr base 24) 0xff).

(** ** [src/ap_real.s] *)

Definition SEL_KCODE : Z := 8.
Definition SEL_KDATA : Z := 16.

(** The data at [gdt] and at [gdtdesc]; [gdt] is the offset of the label. *)
Definition ap_gdt : list Z :=
  GDT_SET 0 0 0 ++ GDT_SET 0 0xffffffff (S_CR + S_G + S_DB) ++ GDT_SET 0 0xffffffff (S_DRW + S_G + S_DB).
Definition ap_gdtdesc (gdt : Z) : list Z := dw (Z.of_nat (length ap_gdt) - 1) ++ dd (ADDR_AP_REAL + gdt).

(** A processor that starts: the machine of [Switch.v], the tables and segment registers of
    [X86.v], and [cr0]. *)
Record processor : Type := Processor { p_machine : machine; p_sys : sysregs; p_cr0 : Z }.

Definition on_machine (f : machine → machine) (P : processor) : processor :=
  Processor (f (p_machine P)) (p_sys P) (p_cr0 P).
Definition on_sys (f : sysregs → sysregs) (P : processor) : processor :=
  Processor (p_machine P) (f (p_sys P)) (p_cr0 P).

(** [mov ax, v] leaves the upper half of [eax]. *)
Definition set_ax (v : Z) (M : machine) : machine :=
  set_reg EAX (65536 * (regs M EAX / 65536) + v `mod` 65536) M.
Definition ax (P : processor) : Z := regs (p_machine P) EAX `mod` 65536.

(** [mov s, ax] *)
Definition mov_seg (s : segreg) (P : processor) : processor := on_sys (load_seg s (ax P)) P.

(** [lgdt [off]] in real mode: the operand is in the data segment, and with 16-bit operands
    the base has 24 bits. *)
Definition lgdt16 (off : Z) (P : processor) : processor :=
  let p := 16 * selector (p_sys P) DS + off in
  let '(limit, base) := table_ptr (memory (p_machine P)) p in
  on_sys (λ r, SysRegs (limit, Z.land base 0xFFFFFF) (idtr r) (selector r)) P.

(** [ap_start], to the far jump; [pm32] and [gdtdesc] are offsets of labels. *)
Definition ap_start (pm32 gdtdesc : Z) (P : processor) : processor :=
  let P := on_machine (set_ax (selector (p_sys P) CS)) P in
  let P := mov_seg DS P in
  let P := on_machine cli P in
  let P := lgdt16 gdtdesc P in
  let P := on_machine (set_reg EAX (p_cr0 P)) P in
  let P := on_machine (λ M, set_reg EAX (Z.lor (regs M EAX) 1) M) P in
  let P := Processor (p_machine P) (p_sys P) (regs (p_machine P) EAX) in
  on_machine (set_eip (ADDR_AP_REAL + pm32)) (on_sys (load_seg CS SEL_KCODE) P).

(** [pm32], to the entry of C *)
Definition pm32 (ra : Z) (P : processor) : processor :=
  let P := on_machine (set_ax SEL_KDATA) P in
  let P := mov_seg SS (mov_seg ES (mov_seg DS P)) in
  let P := on_machine (set_ax 0) P in
  let P := mov_seg GS (mov_seg FS P) in
  on_machine (ap_enter ra) P.

(** ** What the start code finds *)

Definition bytes_at (m : mem) (a : Z) (l : list Z) : Prop :=
  ∀ i b, l !! i = Some b → m (a + Z.of_nat i) = b.

Lemma bytes_at_app m a l l' :
  bytes_at m a (l ++ l') → bytes_at m a l ∧ bytes_at m (a + Z.of_nat (length l)) l'.
Proof.
  intros H. split; intros i b Hi.
  - apply H. by apply lookup_app_l_Some.
  - rewrite <- Z.add_assoc, <- Nat2Z.inj_add. apply H. by rewrite lookup_app_r, Nat.add_sub' by lia.
Qed.

Lemma bytes_at_agree m m' a l :
  agree m m' a (Z.of_nat (length l)) → bytes_at m a l → bytes_at m' a l.
Proof. intros Ha H i b Hi. apply lookup_lt_Some in Hi as Hl. rewrite Ha by lia. by apply H. Qed.

(** A table entry in the bytes of a table *)
Lemma descriptor_at m base l t i :
  bytes_at m base l → t = (Z.of_nat (length l) - 1, base) → 0 ≤ i → 8 * i + 8 ≤ Z.of_nat (length l) →
  descriptor m t i = Some (take 8 (drop (Z.to_nat (8 * i)) l)).
Proof.
  intros Hb -> Hi Hl. unfold descriptor. cbn [fst snd].
  rewrite (proj2 (Z.leb_le _ _)) by lia. f_equal. apply list_eq. intros j.
  rewrite list_lookup_fmap. destruct (decide (j < 8)%nat) as [Hj|Hj].
  - rewrite (lookup_seqZ_lt 0 8 j) by lia. cbn [fmap option_fmap option_map].
    rewrite lookup_take_lt, lookup_drop by lia.
    destruct (lookup_lt_is_Some_2 l (Z.to_nat (8 * i) + j)) as [b Hlk]; [lia|].
    rewrite Hlk. f_equal. rewrite <- (Hb _ _ Hlk). f_equal. lia.
  - rewrite (lookup_seqZ_ge 0 8 j) by lia. rewrite lookup_take_ge by lia. done.
Qed.

(** The pointer that [lgdt] reads *)
Lemma table_ptr_at m p v w :
  bytes_at m p (dw v ++ dd w) → table_ptr m p = (v `mod` 65536, u32 w).
Proof.
  intros H. unfold table_ptr. unfold dw, dd in H.
  assert (H0 : m p = byte_of v 0) by (rewrite <- (Z.add_0_r p); exact (H 0%nat _ eq_refl)).
  assert (H1 : m (p + 1) = byte_of v 1) by exact (H 1%nat _ eq_refl).
  assert (H2 : m (p + 2) = byte_of w 0) by exact (H 2%nat _ eq_refl).
  assert (H3 : m (p + 3) = byte_of w 1) by exact (H 3%nat _ eq_refl).
  assert (H4 : m (p + 4) = byte_of w 2) by exact (H 4%nat _ eq_refl).
  assert (H5 : m (p + 5) = byte_of w 3) by exact (H 5%nat _ eq_refl). unfold load32.
  replace (p + 2 + 1) with (p + 3) by lia. replace (p + 2 + 2) with (p + 4) by lia.
  replace (p + 2 + 3) with (p + 5) by lia. rewrite H0, H1, H2, H3, H4, H5. unfold byte_of, u32. change (256 ^ 0) with 1. change (256 ^ 1) with 256.
  change (256 ^ 2) with 65536. change (256 ^ 3) with 16777216. f_equal; dlia.
Qed.

(** The multiboot header is one, *)
Lemma mboot_header_valid mboot code bss end_ start :
  match mboot_header mboot code bss end_ start with
  | magic :: flags :: sum :: _ => magic = 0x1BADB002 ∧ u32 (magic + flags + sum) = 0
  | _ => False
  end.
Proof. by split. Qed.

(** and the kernel is entered with the pointer of the boot loader, without interrupts and with the
    frame pointer 0 that ends a stack trace; but on the stack that ends at [0x7FF0]. *)
Lemma start_enters_main main ra M :
  let M' := start main ra M in
  eip M' = main ∧ regs M' ESP = 0x7FE8 ∧ regs M' EBP = 0 ∧ Z.testbit (eflags M') 9 = false ∧
  load32 (memory M') (regs M' ESP + 4) = u32 (regs M EBX) ∧
  (∀ i, ¬ (0x7FE8 ≤ i < 0x7FF0) → memory M' i = memory M i).
Proof.
  cbn zeta. unfold start, and_esp, cli, push, store, set_reg, set_eip, set_eflags. cbn [regs memory eip eflags].
  repeat first [rewrite fn_lookup_insert | rewrite fn_lookup_insert_ne by done].
  change (u32 (Z.land STACK_TOP 0xfffffff0 - 4)) with 0x7FEC. change (u32 (0x7FEC - 4)) with 0x7FE8.
  change (u32 0x7FEC) with 0x7FEC. change (u32 0x7FE8) with 0x7FE8. split_and!; try done.
  - rewrite Z.ldiff_spec. change (Z.testbit 0x200 9) with true. apply andb_false_r.
  - change (0x7FE8 + 4) with 0x7FEC. by mem_load.
  - intros i Hi. rewrite !store32_out by lia. done.
Qed.

(** ** Into protected mode *)

(** The data of the copied code, at the offset [gdt] and within one page *)
Record start_code (m0 : mem) (apinit_start gdt : Z) : Prop := {
  sc_gdt : bytes_at m0 (apinit_start + gdt) (ap_gdt ++ ap_gdtdesc gdt);
  sc_page : 0 ≤ gdt ∧ gdt + 30 ≤ 4096;
}.

(** A flat segment of 4 GiB: base 0, the limit in pages, 32 bits *)
Definition flat (access : Z) : option (Z * Z * Z * Z) := Some (0, 0xFFFFF, access, 0xC).

Lemma ap_descriptors m base :
  bytes_at m base ap_gdt →
  Gdt.view_seg <$> descriptor m (23, base) 1 = flat S_CR ∧ Gdt.view_seg <$> descriptor m (23, base) 2 = flat S_DRW.
Proof.
  intros H. rewrite (descriptor_at m base ap_gdt (23, base) 1 H), (descriptor_at m base ap_gdt (23, base) 2 H) by done.
  done.
Qed.

Section Protected.
Context (apinit_start apinit_end main : Z) (cpu_at : nat → Z) (m0 : mem) (u : startup).
Context (gdt off ra : Z) (P : processor).
Context (Hover : handed_over apinit_start apinit_end main cpu_at m0 u).
Context (Hcode : start_code m0 apinit_start gdt) (Hlen : gdt + 30 ≤ apinit_end - apinit_start).
Context (HP : memory (p_machine P) = su_mem u) (Hcs : 16 * selector (p_sys P) CS = ADDR_AP_REAL).

Lemma copied_data : bytes_at (su_mem u) (ADDR_AP_REAL + gdt) (ap_gdt ++ ap_gdtdesc gdt).
Proof.
  intros i b Hi. apply lookup_lt_Some in Hi as Hl. change (length (ap_gdt ++ ap_gdtdesc gdt)) with 30%nat in Hl.
  destruct (sc_page _ _ _ Hcode). rewrite <- Z.add_assoc, (ho_code _ _ _ _ _ _ Hover) by lia.
  rewrite Z.add_assoc. by apply (sc_gdt _ _ _ Hcode).
Qed.

(** The state at [pm32] *)
Lemma ap_start_spec :
  let P' := ap_start off (gdt + 24) P in
  gdtr (p_sys P') = (23, ADDR_AP_REAL + gdt) ∧ selector (p_sys P') CS = SEL_KCODE ∧
  p_cr0 P' = Z.lor (p_cr0 P) 1 ∧ Z.testbit (eflags (p_machine P')) 9 = false ∧
  eip (p_machine P') = ADDR_AP_REAL + off ∧ memory (p_machine P') = su_mem u.
Proof.
  destruct (sc_page _ _ _ Hcode) as [G1 G2].
  assert (Hcs' : selector (p_sys P) CS = 0x400) by (unfold ADDR_AP_REAL in *; lia).
  cbn zeta. unfold ap_start, lgdt16.
  cbn [on_machine on_sys mov_seg p_machine p_sys p_cr0 load_seg selector cli set_eflags set_reg memory regs].
  set (a := ax _). assert (Ha : a = 0x400).
  { subst a. unfold ax, set_ax, on_machine. cbn [p_machine set_reg regs]. rewrite fn_lookup_insert, Hcs'.
    change (0x400 `mod` 65536) with 0x400. dlia. }
  rewrite Ha, fn_lookup_insert. change (16 * 0x400) with ADDR_AP_REAL.
  change (memory (set_ax _ (p_machine P))) with (memory (p_machine P)). rewrite HP.
  destruct (bytes_at_app _ _ _ _ copied_data) as [_ Hd].
  change (Z.of_nat (length ap_gdt)) with 24 in Hd. rewrite Z.add_assoc.
  rewrite (table_ptr_at _ _ _ _ Hd), u32_small by (unfold is_u32, ADDR_AP_REAL; lia).
  change ((Z.of_nat (length ap_gdt) - 1) `mod` 65536) with 23. change 0xFFFFFF with (Z.ones 24).
  rewrite Z.land_ones, Z.mod_small by (unfold ADDR_AP_REAL; lia).
  split; [done|]. split; [done|]. split; [done|]. split; [|split; [done|exact HP]].
  cbn [on_machine on_sys mov_seg p_machine set_reg eflags set_eip cli set_eflags]. rewrite Z.ldiff_spec.
  change (Z.testbit 0x200 9) with true. apply andb_false_r.
Qed.

(** The segment registers that [pm32] loads *)
Lemma pm32_spec Q :
  gdtr (p_sys (pm32 ra Q)) = gdtr (p_sys Q) ∧ p_cr0 (pm32 ra Q) = p_cr0 Q ∧
  eflags (p_machine (pm32 ra Q)) = eflags (p_machine Q) ∧
  selector (p_sys (pm32 ra Q)) CS = selector (p_sys Q) CS ∧
  (∀ s, s ∈ [DS; ES; SS] → selector (p_sys (pm32 ra Q)) s = SEL_KDATA) ∧
  (∀ s, s ∈ [FS; GS] → selector (p_sys (pm32 ra Q)) s = 0) ∧
  ∃ M, p_machine (pm32 ra Q) = ap_enter ra M ∧ memory M = memory (p_machine Q).
Proof.
  assert (Hax : ∀ v R, ax (on_machine (set_ax v) R) = v `mod` 65536).
  { intros v R. unfold ax, set_ax, on_machine. cbn [p_machine set_reg regs]. rewrite fn_lookup_insert. dlia. }
  unfold pm32, mov_seg. cbn [on_machine on_sys p_sys p_machine p_cr0 load_seg gdtr selector].
  split; [done|]. split; [done|]. split; [done|]. split; [done|].
  split; [|split].
  - intros s Hs. rewrite !elem_of_cons, elem_of_nil in Hs.
    destruct Hs as [->|[->|[->|[]]]]; unfold load_seg; cbn [selector];
      repeat first [rewrite fn_lookup_insert | rewrite fn_lookup_insert_ne by done]; apply Hax.
  - intros s Hs. rewrite !elem_of_cons, elem_of_nil in Hs.
    destruct Hs as [->|[->|[]]]; unfold load_seg; cbn [selector];
      repeat first [rewrite fn_lookup_insert | rewrite fn_lookup_insert_ne by done]; apply Hax.
  - eexists. split; [done|]. done.
Qed.
End Protected.

(** The flat descriptors stay in memory when the call has pushed its two words. *)
Lemma gdt_kept m m' gdt stack :
  bytes_at m (ADDR_AP_REAL + gdt) ap_gdt → 0 ≤ gdt ∧ gdt + 30 ≤ 4096 → 0x6000 ≤ stack →
  (∀ i, ¬ (stack - 8 ≤ i < stack) → m' i = m i) → bytes_at m' (ADDR_AP_REAL + gdt) ap_gdt.
Proof.
  intros Hb Hg Hs Hm. apply (bytes_at_agree m); [|done]. change (Z.of_nat (length ap_gdt)) with 24.
  intros i Hi. apply Hm. unfold ADDR_AP_REAL in *. lia.
Qed.

(** ** Properties *)

(** C19: the way of an application processor into C. A processor that a startup command puts at the
    start of the page the code was copied to, in real mode, comes through [ap_start] and [pm32] to
    the C entry: in protected mode, without interrupts, with a code segment and data and stack
    segments that are flat 4 GiB segments in the copied table, with null selectors in FS and
    GS, and with a pointer to its own slot of [cpuset] as the argument. Its stack pointer,
    however, was the lowest address of its page: argument and return address are the 8 bytes
    below the page, and nothing of the page itself is used. *)
Theorem ap_reaches_main apinit_start apinit_end main cpu_at m0 u gdt off ra P :
  (∀ n, is_u32 (cpu_at n)) → handed_over apinit_start apinit_end main cpu_at m0 u →
  start_code m0 apinit_start gdt → gdt + 30 ≤ apinit_end - apinit_start →
  0x6000 ≤ su_stack u < 4294967296 → su_stack u `mod` 4096 = 0 →
  memory (p_machine P) = su_mem u → 16 * selector (p_sys P) CS = ADDR_AP_REAL →
  let Q := ap_start off (gdt + 24) P in
  let P' := pm32 ra Q in
  let m := memory (p_machine P') in
  let esp := regs (p_machine P') ESP in
  eip (p_machine Q) = ADDR_AP_REAL + off ∧ eip (p_machine P') = main ∧
  Z.testbit (p_cr0 P') 0 = true ∧ Z.testbit (eflags (p_machine P')) 9 = false ∧
  segment m (p_sys P') CS = flat S_CR ∧
  (∀ s, s ∈ [DS; ES; SS] → segment m (p_sys P') s = flat S_DRW) ∧
  (∀ s, s ∈ [FS; GS] → selector (p_sys P') s = 0) ∧
  load32 m (esp + 4) = cpu_at (su_cpu u) ∧ esp = su_stack u - 8 ∧
  agree (su_mem u) m (su_stack u) 4096.
Proof.
  intros Hcpu Ho Hc Hl Hs Hm HP Hcs. cbn zeta.
  destruct (ap_start_spec apinit_start apinit_end main cpu_at m0 u gdt off P Ho Hc Hl HP Hcs)
    as (Q1&Q2&Q3&Q4&Q5&Q6). set (Q := ap_start off (gdt + 24) P) in *.
  destruct (pm32_spec ra Q) as (S1&S2&S3&S4&S5&S6&M&S7&S8). rewrite Q6 in S8.
  destruct (ap_enter_spec apinit_start apinit_end main cpu_at Hcpu m0 u M ra Ho S8)
    as (E1&E2&E3&E4); [lia|unfold ADDR_AP_REAL; lia|]. rewrite <- S7 in E1, E2, E3, E4.
  rewrite S8 in E4.
  destruct (bytes_at_app _ _ _ _ (copied_data _ _ _ _ _ _ gdt Ho Hc Hl)) as [Hg _].
  destruct (ap_descriptors _ _ (gdt_kept _ _ gdt (su_stack u) Hg (sc_page _ _ _ Hc) (proj1 Hs) E4)) as [D1 D2].
  unfold segment. rewrite S1, S4, Q1, Q2, S2, S3, Q3, Q4.
  split; [done|]. split; [done|]. split; [by rewrite Z.lor_spec, orb_true_r|]. split; [done|].
  split; [exact D1|]. split; [intros s Hin; rewrite (S5 s Hin); exact D2|]. split; [done|]. split; [done|].
  split; [done|]. intros i Hi. apply E4. lia.
Qed.

(** The example: the data at the offset 64, the second processor with its stack at [0x9000]. *)
Definition demo_image : mem := λ a, default 0 ((ap_gdt ++ ap_gdtdesc 64) !! Z.to_nat (a - 0x100040)).
Definition demo_copy : mem :=
  store32 (store32 (store32 (λ a, default 0 ((ap_gdt ++ ap_gdtdesc 64) !! Z.to_nat (a - 0x4040)))
    0x3FFC 0x1234) 0x3FF8 0x9000) 0x3FF4 0x5678.
Definition demo_ap : processor :=
  Processor (Machine (λ _, 0) 0x202 0 demo_copy)
    (SysRegs (0xFFFF, 0) (0x3FF, 0) (λ s, match s with CS => 0x400 | _ => 0 end)) 0x10.

Lemma ap_reaches_main_witness :
  let P' := pm32 77 (ap_start 32 88 demo_ap) in
  eip (p_machine P') = 0x1234 ∧ segment (memory (p_machine P')) (p_sys P') CS = flat 0x9A ∧
  regs (p_machine P') ESP = 0x8FF8.
Proof.
  destruct (ap_reaches_main 0x100000 0x101000 0x1234 (λ _, 0x5678) demo_image (Startup 1 0x9000 demo_copy [])
    64 32 77 demo_ap) as (_&E1&_&_&E2&_&_&_&E3&_).
  - intros _. unfold is_u32. lia.
  - split; cbn [su_mem su_stack su_cpu]; unfold demo_copy, ADDR_AP_REAL; [|by mem_load..].
    intros i Hi. rewrite !store32_out by lia. unfold demo_image. do 3 f_equal. lia.
  - split; [|lia]. intros i b Hi. unfold demo_image. replace (Z.to_nat _) with i by lia. by rewrite Hi.
  - lia.
  - cbn [su_stack]. lia.
  - reflexivity.
  - reflexivity.
  - reflexivity.
  - split; [exact E1|]. split; [exact E2|exact E3].
Defined.
