(* ===== verification/Interrupt.v ===== *)
(** * Interrupt entry and return: [src/interrupt.s], [include/isr.h]

    The stubs the interrupt table points to, as sequences of the instructions they use,
    on a machine with the general registers, the segment registers, the flags and byte
    memory. The processor's own part (the delivery through a gate without a change of
    privilege, and [iret]) is modelled from its manual. The C functions the stubs call
    are any code that gives its stack back. *)
From S2P Require Import Prelude Memory Descriptors.

Inductive reg : Type := EAX | ECX | EDX | EBX | ESP | EBP | ESI | EDI.
Inductive sreg : Type := CS | DS | ES | FS | GS.

#[export] Instance ireg_eq_dec : EqDecision reg.
Proof. solve_decision. Defined.
#[export] Instance sreg_eq_dec : EqDecision sreg.
Proof. solve_decision. Defined.

Record machine : Type := Machine {
  regs : reg → Z;
  segs : sreg → Z;
  eflags : Z;
  eip : Z;
  memory : mem;
}.

Definition set_reg (r : reg) (v : Z) (M : machine) : machine :=
  Machine (<[r := v]> (regs M)) (segs M) (eflags M) (eip M) (memory M).
Definition set_seg (s : sreg) (v : Z) (M : machine) : machine :=
  Machine (regs M) (<[s := u16 v]> (segs M)) (eflags M) (eip M) (memory M).
Definition set_eflags (v : Z) (M : machine) : machine :=
  Machine (regs M) (segs M) v (eip M) (memory M).
Definition set_eip (v : Z) (M : machine) : machine :=
  Machine (regs M) (segs M) (eflags M) v (memory M).

Definition push (v : Z) (M : machine) : machine :=
  let esp := u32 (regs M ESP - 4) in
  Machine (<[ESP := esp]> (regs M)) (segs M) (eflags M) (eip M) (store32 (memory M) esp v).

Definition pop (M : machine) : Z * machine :=
  (load32 (memory M) (regs M ESP), set_reg ESP (u32 (regs M ESP + 4)) M).

Definition pushes (l : list Z) (M : machine) : machine := foldl (λ M v, push v M) M l.

(** A word with its low half replaced: a write to [ax]. *)
Definition low_half (old v : Z) : Z := old - u16 old + u16 v.

(** The flags the processor clears for an interrupt gate: TF, IF, NT, RF, VM. *)
Definition gate_flags (fl : Z) : Z :=
  Z.ldiff fl (2 ^ 8 + 2 ^ 9 + 2 ^ 14 + 2 ^ 16 + 2 ^ 17).

Inductive c_function : Type := ISR_HANDLER | IRQ_HANDLER.

Inductive instr : Type :=
  | CLI
  | STI
  | PUSH_byte (v : Z)
  | PUSH (r : reg)
  | POP (r : reg)
  | PUSHA
  | POPA
  | MOV_ax_seg (s : sreg)      (* mov ax, s *)
  | MOV_ax (v : Z)             (* mov ax, v *)
  | MOV_seg (s : sreg) (r : reg)   (* mov s, the low half of r *)
  | CALL (f : c_function)
  | ADD_esp (n : Z)
  | IRET.

Definition pop_to (r : reg) (M : machine) : machine :=
  let '(v, M) := pop M in set_reg r v M.

(** The words of [pusha] in the reverse order; the saved [esp] is dropped. *)
Definition pops (l : list (option reg)) (M : machine) : machine :=
  foldl (λ M o, match o with Some r => pop_to r M | None => snd (pop M) end) M l.

Definition popa (M : machine) : machine :=
  pops [Some EDI; Some ESI; Some EBP; None; Some EBX; Some EDX; Some ECX; Some EAX] M.

Definition iret (M : machine) : machine :=
  let '(ip, M) := pop M in
  let '(cs, M) := pop M in
  let '(fl, M) := pop M in
  set_eflags fl (set_seg CS cs (set_eip ip M)).

Section Exec.
(** The C functions, from their entry, with the return address on the stack, to their
    return; [ra] is the address after the call. *)
Context (callee : c_function → machine → machine) (ra : Z).

Definition exec (i : instr) (M : machine) : machine :=
  match i with
  | CLI => set_eflags (Z.clearbit (eflags M) 9) M
  | STI => set_eflags (Z.setbit (eflags M) 9) M
  | PUSH_byte v => push v M
  | PUSH r => push (regs M r) M
  | POP r => pop_to r M
  | PUSHA => pushes (regs M <$> [EAX; ECX; EDX; EBX; ESP; EBP; ESI; EDI]) M
  | POPA => popa M
  | MOV_ax_seg s => set_reg EAX (low_half (regs M EAX) (segs M s)) M
  | MOV_ax v => set_reg EAX (low_half (regs M EAX) v) M
  | MOV_seg s r => set_seg s (regs M r) M
  | CALL f => callee f (push ra M)
  | ADD_esp n => set_reg ESP (u32 (regs M ESP + n)) M
  | IRET => iret M
  end.

Definition run (code : list instr) (M : machine) : machine := foldl (λ M i, exec i M) M code.
End Exec.

(** [isr_common_stub] and [irq_common_stub] up to the call: *)
Definition save_state : list instr :=
  [ PUSHA; MOV_ax_seg DS; PUSH EAX; MOV_ax 0x10; MOV_seg DS EAX; MOV_seg ES EAX;
    MOV_seg FS EAX; MOV_seg GS EAX; PUSH ESP ].

(** ... and after it. *)
Definition restore_state : list instr :=
  [ ADD_esp 4; POP EBX; MOV_seg DS EBX; MOV_seg ES EBX; MOV_seg FS EBX; MOV_seg GS EBX;
    POPA; ADD_esp 8; STI; IRET ].

Definition isr_common_stub : list instr := save_state ++ [CALL ISR_HANDLER] ++ restore_state.
Definition irq_common_stub : list instr := save_state ++ [CALL IRQ_HANDLER] ++ restore_state.

(** The macros; [push byte] extends the sign of its operand, which is below 128 here. *)
Definition ISR_NOERRCODE (n : Z) : list instr := [CLI; PUSH_byte 0; PUSH_byte n] ++ isr_common_stub.
Definition ISR_ERRCODE (n : Z) : list instr := [CLI; PUSH_byte n] ++ isr_common_stub.
Definition IRQ (n v : Z) : list instr := [CLI; PUSH_byte 0; PUSH_byte v] ++ irq_common_stub.
Definition SMP_IRQ (v : Z) : list instr := [CLI; PUSH_byte 0; PUSH_byte v] ++ irq_common_stub.

(** [isr0] .. [isr31] *)
Definition isr_stub (n : Z) : list instr :=
  if bool_decide (n ∈ [8; 10; 11; 12; 13; 14]) then ISR_ERRCODE n else ISR_NOERRCODE n.

(** [irq0] .. [irq15] *)
Definition irq_stub (n : Z) : list instr := IRQ n (32 + n).

(** [smp_irq_inval_tlb], [smp_irq_stop_cpu], [smp_irq_local_timer] *)
Definition smp_irq_inval_tlb : list instr := SMP_IRQ 52.
Definition smp_irq_stop_cpu : list instr := SMP_IRQ 53.
Definition smp_irq_local_timer : list instr := SMP_IRQ 54.

(** [registers_t]; [useresp] and [ss] are pushed only by an interrupt from another ring. *)
Record registers_t : Type := Registers {
  r_ds : Z; r_edi : Z; r_esi : Z; r_ebp : Z; r_esp : Z; r_ebx : Z; r_edx : Z; r_ecx : Z;
  r_eax : Z; r_int_no : Z; r_err_code : Z; r_eip : Z; r_cs : Z; r_eflags : Z;
  r_useresp : Z; r_ss : Z;
}.

Definition registers_at (m : mem) (p : Z) : registers_t :=
  let f i := load32 m (p + 4 * i) in
  Registers (f 0) (f 1) (f 2) (f 3) (f 4) (f 5) (f 6) (f 7) (f 8) (f 9) (f 10) (f 11) (f 12)
    (f 13) (f 14) (f 15).

(** ** The processor *)

(** The exceptions for which the processor pushes an error code. *)
Definition has_error_code (v : Z) : bool := bool_decide (v ∈ [8; 10; 11; 12; 13; 14; 17]).

(** Delivery through an interrupt gate of the same privilege level. *)
Definition deliver (g : Idt.gate_view) (v err : Z) (M : machine) : machine :=
  let M := pushes ([eflags M; segs M CS; eip M] ++ (if has_error_code v then [err] else [])) M in
  set_eflags (gate_flags (eflags M)) (set_seg CS (Idt.g_selector g) (set_eip (Idt.g_offset g) M)).

(** Interrupt [v] with the table [idt]: the gate's entry point is executed; [text] is the
    code at an entry point. A gate that is not present does not get that far. *)
Definition interrupt (callee : c_function → machine → machine) (ra : Z)
    (text : Z → list instr) (idt : Z → Idt.idt_entry_t) (v err : Z) (M : machine) : option machine :=
  let g := Idt.view_gate (Idt.gate_bytes (idt v)) in
  if negb (Idt.g_present g) then None
  else
    let M := deliver g v err M in
    Some (run callee ra (text (eip M)) M).

(** ** Pushing and popping *)

(** The stack below [e]: [n] words fit without wrapping. *)
Lemma pushes_spec l M :
  4 * Z.of_nat (length l) ≤ regs M ESP < 4294967296 →
  let M' := pushes l M in
  regs M' ESP = regs M ESP - 4 * Z.of_nat (length l) ∧
  (∀ r, r ≠ ESP → regs M' r = regs M r) ∧
  segs M' = segs M ∧ eflags M' = eflags M ∧ eip M' = eip M ∧
  (∀ i v, l !! i = Some v → load32 (memory M') (regs M ESP - 4 * (Z.of_nat i + 1)) = u32 v) ∧
  ∀ a, ¬ (regs M ESP - 4 * Z.of_nat (length l) ≤ a < regs M ESP) → memory M' a = memory M a.
Proof.
  revert M. induction l as [|v l IH]; intros M He.
  - cbn. split_and!; try done; lia.
  - cbn [length] in *. rewrite Nat2Z.inj_succ in *. cbn [pushes foldl]. fold (pushes l (push v M)).
    assert (E1 : regs (push v M) ESP = regs M ESP - 4).
    { cbn. rewrite fn_lookup_insert. apply u32_small. unfold is_u32. lia. }
    destruct (IH (push v M)) as (He'&Hr&Hs&Hf&Hi&Hl&Hm); [lia|]. cbn zeta.
    rewrite E1 in He', Hl, Hm.
    assert (Hm1 : ∀ a, ¬ (regs M ESP - 4 ≤ a < regs M ESP) → memory (push v M) a = memory M a).
    { intros a Ha. cbn. rewrite u32_small by (unfold is_u32; lia). apply store32_out. lia. }
    split_and!; try done.
    + lia.
    + intros r Hne. rewrite Hr by done. cbn. by rewrite fn_lookup_insert_ne by done.
    + intros [|i] w Hw.
      * injection Hw as <-. rewrite (load32_agree (memory (push v M))).
        -- cbn. rewrite u32_small by (unfold is_u32; lia).
           replace (regs M ESP - 4 * (Z.of_nat 0 + 1)) with (regs M ESP - 4) by lia. apply store32_same.
        -- intros a Ha. apply Hm. lia.
      * rewrite <- (Hl i w Hw). f_equal. lia.
    + intros a Ha. rewrite Hm, Hm1 by lia. done.
Qed.

(** A pop in range. *)
Lemma pop_to_eq r M e :
  regs M ESP = e → 0 ≤ e → e + 4 < 4294967296 →
  pop_to r M = set_reg r (load32 (memory M) e) (set_reg ESP (e + 4) M).
Proof.
  intros <- H0 H1. unfold pop_to, pop. rewrite u32_small by (unfold is_u32; lia). done.
Qed.

(** ** Entry: what the handler finds *)

(** The state the handler is called in. *)
Definition handler_entry (callee : c_function → machine → machine) (ra : Z)
    (g : Idt.gate_view) (v err : Z) (nums : list instr) (M : machine) : machine :=
  push ra (run callee ra (nums ++ save_state) (deliver g v err M)).

(** The words on the stack, from the top of the interrupted stack down. *)
Definition frame_words (M : machine) (v err : Z) : list Z :=
  [ eflags M; segs M CS; eip M; err; v;
    regs M EAX; regs M ECX; regs M EDX; regs M EBX; regs M ESP - 20; regs M EBP; regs M ESI;
    regs M EDI; low_half (regs M EAX) (segs M DS); regs M ESP - 56 ].

Lemma pushes_app l1 l2 M : pushes (l1 ++ l2) M = pushes l2 (pushes l1 M).
Proof. apply foldl_app. Qed.

(** Same stack pointer and memory. *)
Definition same_stack (M N : machine) : Prop :=
  regs M ESP = regs N ESP ∧ memory M = memory N.

Lemma same_stack_pushes l M N : same_stack M N → same_stack (pushes l M) (pushes l N).
Proof.
  revert M N. induction l as [|v l IH]; intros M N [He Hm]; [done|]. cbn. apply IH.
  unfold push. cbn. by rewrite He, Hm.
Qed.

(** Both kinds of stub push the same words, whoever supplies the error code. *)
Definition stub_entry (n : Z) (noerr : bool) : list instr :=
  [CLI] ++ (if noerr then [PUSH_byte 0] else []) ++ [PUSH_byte n].

(** The numbers on the stack. *)
Lemma stub_entry_run callee ra g v err noerr M :
  20 ≤ regs M ESP < 4294967296 → noerr = negb (has_error_code v) →
  let M' := run callee ra (stub_entry v noerr) (deliver g v err M) in
  same_stack M' (pushes [eflags M; segs M CS; eip M; if noerr then 0 else err; v] M) ∧
  (∀ r, r ≠ ESP → regs M' r = regs M r) ∧
  segs M' = <[CS := u16 (Idt.g_selector g)]> (segs M) ∧
  eflags M' = Z.clearbit (gate_flags (eflags M)) 9.
Proof.
  intros He ->. unfold deliver, stub_entry.
  destruct (has_error_code v); cbn -[gate_flags Z.clearbit];
    (split_and!; [done| |done..]); intros r Hr; by rewrite !fn_lookup_insert_ne by done.
Qed.

Lemma low_half_u16 x v : u16 (low_half x v) = u16 v.
Proof. unfold low_half, u16. dlia. Qed.

Ltac lookups := repeat first [rewrite fn_lookup_insert | rewrite fn_lookup_insert_ne by done].

(** The general registers and the data segment on the stack. *)
Lemma save_state_run callee ra M :
  40 ≤ regs M ESP < 4294967296 →
  let M' := run callee ra save_state M in
  same_stack M' (pushes ((regs M <$> [EAX; ECX; EDX; EBX; ESP; EBP; ESI; EDI]) ++
    [low_half (regs M EAX) (segs M DS); regs M ESP - 36]) M) ∧
  segs M' CS = segs M CS ∧ (∀ s, s ≠ CS → segs M' s = 0x10) ∧ eflags M' = eflags M.
Proof.
  intros He. unfold run, save_state. cbn [foldl exec]. set (l := regs M <$> _).
  destruct (pushes_spec l M) as (Pe&Pr&Ps&Pf&_&_&_); [cbn; lia|]. cbn zeta.
  rewrite pushes_app.
  generalize dependent (pushes l M). intros N Pe Pr Ps Pf. clear -Pe Pr Ps Pf He.
  cbn [length l fmap list_fmap] in Pe. unfold same_stack, pushes, push, set_reg, set_seg.
  cbn -[u32 store32 low_half]. lookups. rewrite !low_half_u16, Ps, Pf, (Pr EAX), Pe by done.
  split_and!; try done.
  - f_equal; f_equal. rewrite u32_small by (unfold is_u32; lia). lia.
  - intros [] Hs; try done; by lookups.
Qed.

(** The stack when the handler is called. *)
Lemma handler_entry_stack callee ra g v err noerr M :
  64 ≤ regs M ESP < 4294967296 → noerr = negb (has_error_code v) →
  let M' := handler_entry callee ra g v err (stub_entry v noerr) M in
  same_stack M' (pushes (frame_words M v (if noerr then 0 else err) ++ [ra]) M) ∧
  segs M' CS = u16 (Idt.g_selector g) ∧ (∀ s, s ≠ CS → segs M' s = 0x10) ∧
  Z.testbit (eflags M') 9 = false.
Proof.
  intros He Hn. unfold handler_entry, run. rewrite foldl_app. fold (run callee ra).
  destruct (stub_entry_run callee ra g v err noerr M) as (Hst&Hr&Hs&Hf); [lia|done|].
  unfold run in Hst, Hr, Hs, Hf. set (l5 := [eflags M; _; _; _; _]) in *.
  destruct (pushes_spec l5 M) as (Pe&_); [cbn; lia|]. cbn [length l5] in Pe.
  generalize dependent (foldl (λ M i, exec callee ra i M) (deliver g v err M) (stub_entry v noerr)).
  intros N Hst Hr Hs Hf.
  assert (HN : regs N ESP = regs M ESP - 20) by (rewrite (proj1 Hst), Pe; lia).
  destruct (save_state_run callee ra N) as (Sst&Scs&Sds&Sf); [lia|]. unfold run in Sst, Scs, Sds, Sf.
  generalize dependent (foldl (λ M i, exec callee ra i M) N save_state). intros K Sst Scs Sds Sf.
  cbn zeta in *. split_and!.
  - rewrite pushes_app. apply (same_stack_pushes [ra]).
    replace (frame_words M v (if noerr then 0 else err)) with
      (l5 ++ (regs N <$> [EAX; ECX; EDX; EBX; ESP; EBP; ESI; EDI]) ++
       [low_half (regs N EAX) (segs N DS); regs N ESP - 36]).
    + rewrite pushes_app. destruct Sst as [S1 S2]. destruct (same_stack_pushes
        ((regs N <$> [EAX; ECX; EDX; EBX; ESP; EBP; ESI; EDI]) ++
         [low_half (regs N EAX) (segs N DS); regs N ESP - 36]) _ _ Hst) as [T1 T2].
      split; congruence.
    + unfold frame_words, l5. cbn -[low_half]. rewrite HN, Hs, !Hr by done. lookups.
      by replace (regs M ESP - 20 - 36) with (regs M ESP - 56) by lia.
  - cbn. rewrite Scs, Hs. by lookups.
  - done.
  - cbn [eflags push]. rewrite Sf, Hf. apply Z.clearbit_eq.
Qed.

(** What the handler finds behind its pointer. *)
Lemma handler_entry_frame callee ra g v err noerr M :
  64 ≤ regs M ESP < 4294967296 → noerr = negb (has_error_code v) →
  let M' := handler_entry callee ra g v err (stub_entry v noerr) M in
  let p := regs M ESP - 56 in
  regs M' ESP = p - 8 ∧ load32 (memory M') (p - 4) = p ∧
  (∀ i w, frame_words M v (if noerr then 0 else err) !! i = Some w →
    load32 (memory M') (regs M ESP - 4 * (Z.of_nat i + 1)) = u32 w) ∧
  ∀ a, ¬ (p - 8 ≤ a < regs M ESP) → memory M' a = memory M a.
Proof.
  intros He Hn. cbn zeta.
  destruct (handler_entry_stack callee ra g v err noerr M) as ([Hst Hm]&_); [done..|].
  rewrite Hst, Hm. set (l := frame_words M v _ ++ [ra]).
  destruct (pushes_spec l M) as (Pe&_&_&_&_&Pl&Pm); [cbn; lia|].
  change (length l) with 16%nat in Pe, Pm. split_and!.
  - lia.
  - specialize (Pl 14%nat (regs M ESP - 56) eq_refl). cbn [Z.of_nat] in Pl.
    rewrite u32_small in Pl by (unfold is_u32; lia). rewrite <- Pl at 2. f_equal. lia.
  - intros i w Hi. apply Pl. by apply lookup_app_l_Some.
  - intros a Ha. apply Pm. lia.
Qed.

(** ** Return *)

(** The machine a [registers_t] describes. *)
Definition restored (f : registers_t) (esp : Z) (m : mem) (M : machine) : Prop :=
  regs M EAX = r_eax f ∧ regs M ECX = r_ecx f ∧ regs M EDX = r_edx f ∧ regs M EBX = r_ebx f ∧
  regs M ESP = esp ∧ regs M EBP = r_ebp f ∧ regs M ESI = r_esi f ∧ regs M EDI = r_edi f ∧
  eip M = r_eip f ∧ eflags M = r_eflags f ∧ segs M CS = u16 (r_cs f) ∧
  (∀ s, s ≠ CS → segs M s = u16 (r_ds f)) ∧ memory M = m.

Lemma pops_spec l M e :
  Some ESP ∉ l → NoDup (omap id l) →
  regs M ESP = e → 0 ≤ e → e + 4 * Z.of_nat (length l) < 4294967296 →
  let M' := pops l M in
  (∀ i r, l !! i = Some (Some r) → regs M' r = load32 (memory M) (e + 4 * Z.of_nat i)) ∧
  (∀ r, r ≠ ESP → Some r ∉ l → regs M' r = regs M r) ∧
  regs M' ESP = e + 4 * Z.of_nat (length l) ∧
  segs M' = segs M ∧ eflags M' = eflags M ∧ memory M' = memory M.
Proof.
  revert M e. induction l as [|o l IH]; intros M e Hesp Hnd He H0 H1.
  - cbn. split_and!; try done; lia.
  - cbn [length] in *. rewrite Nat2Z.inj_succ in *.
    apply not_elem_of_cons in Hesp as [Ho Hesp].
    set (N := match o with Some r => pop_to r M | None => snd (pop M) end).
    assert (regs N ESP = e + 4 ∧ (∀ r, r ≠ ESP → Some r ≠ o → regs N r = regs M r) ∧
      (∀ r, o = Some r → regs N r = load32 (memory M) e) ∧
      segs N = segs M ∧ eflags N = eflags M ∧ memory N = memory M) as (Ne&Nr&No&Ns&Nf&Nm).
    { subst N. destruct o as [r|].
      - rewrite (pop_to_eq r M e) by lia. cbn. assert (r ≠ ESP) by congruence. lookups.
        split_and!; try done; intros; [by rewrite !fn_lookup_insert_ne by congruence|].
        simplify_eq. by lookups.
      - cbn. rewrite He, u32_small by (unfold is_u32; lia). lookups.
        split_and!; try done; intros r Hr Hn; by lookups. }
    cbn [pops foldl]. fold N. fold (pops l N). clearbody N.
    assert (Hnd' : NoDup (omap id l)) by (destruct o; cbn in Hnd; [by apply NoDup_cons in Hnd as [_ ?]|done]).
    destruct (IH N (e + 4)) as (Il&Ir&Ie&Is&If&Im); [done..|lia|lia|]. cbn zeta.
    rewrite Ie, Is, If, Im. split_and!; try done; [| |lia].
    + intros [|i] r Hi; cbn in Hi.
      * injection Hi as ->. rewrite Ir; [rewrite Z.add_0_r; by apply No|congruence|].
        intros Hin. cbn in Hnd. apply NoDup_cons in Hnd as [Hnin _]. apply Hnin.
        apply list_elem_of_omap. by exists (Some r).
      * rewrite (Il i r Hi), Nm. f_equal. lia.
    + intros r Hr Hin. apply not_elem_of_cons in Hin as [? ?]. rewrite Ir, Nr by done. done.
Qed.

Lemma popa_spec M e :
  regs M ESP = e → 0 ≤ e → e + 32 < 4294967296 →
  let f i := load32 (memory M) (e + 4 * i) in
  let M' := popa M in
  regs M' EDI = f 0 ∧ regs M' ESI = f 1 ∧ regs M' EBP = f 2 ∧ regs M' EBX = f 4 ∧
  regs M' EDX = f 5 ∧ regs M' ECX = f 6 ∧ regs M' EAX = f 7 ∧ regs M' ESP = e + 32 ∧
  segs M' = segs M ∧ eflags M' = eflags M ∧ memory M' = memory M.
Proof.
  intros He H0 H1. unfold popa. set (l := [Some EDI; _; _; _; _; _; _; _]).
  destruct (pops_spec l M e) as (Pl&_&Pe&Ps&Pf&Pm); try done.
  - by apply (bool_decide_unpack _); vm_compute.
  - by apply (bool_decide_unpack _); vm_compute.
  - generalize dependent (pops l M). intros N. intros. split_and!; try done.
    + by apply (Pl 0%nat).
    + by apply (Pl 1%nat).
    + by apply (Pl 2%nat).
    + by apply (Pl 4%nat).
    + by apply (Pl 5%nat).
    + by apply (Pl 6%nat).
    + by apply (Pl 7%nat).
Qed.

Lemma iret_spec M e :
  regs M ESP = e → 0 ≤ e → e + 12 < 4294967296 →
  let M' := iret M in
  (∀ r, r ≠ ESP → regs M' r = regs M r) ∧ regs M' ESP = e + 12 ∧
  eip M' = load32 (memory M) e ∧ segs M' = <[CS := u16 (load32 (memory M) (e + 4))]> (segs M) ∧
  eflags M' = load32 (memory M) (e + 8) ∧ memory M' = memory M.
Proof.
  intros He H0 H1. destruct M as [rs sg fl ip m]. cbn in He.
  assert (Hu : ∀ k, 0 ≤ k ≤ 12 → u32 (e + k) = e + k) by (intros; apply u32_small; unfold is_u32; lia).
  unfold iret, pop, set_reg, set_seg, set_eip, set_eflags. cbn -[u32 u16 load32]. lookups. rewrite He.
  rewrite (Hu 4) by lia. replace (e + 4 + 4) with (e + 8) by lia.
  rewrite (Hu 8) by lia. replace (e + 8 + 4) with (e + 12) by lia.
  rewrite (Hu 12) by lia. split; [|done]. intros r Hr. by lookups.
Qed.

(** The data segments, up to [popa]. *)
Lemma restore_segs_run callee ra M p :
  regs M ESP = p - 4 → 4 ≤ p → p + 56 < 4294967296 →
  let M' := run callee ra (take 6 restore_state) M in
  regs M' ESP = p + 4 ∧ segs M' CS = segs M CS ∧
  (∀ s, s ≠ CS → segs M' s = u16 (load32 (memory M) p)) ∧ memory M' = memory M.
Proof.
  intros He H0 H1. unfold run, restore_state. cbn [foldl exec take].
  replace (u32 (regs M ESP + 4)) with p by (rewrite He, u32_small; unfold is_u32; lia).
  rewrite (pop_to_eq EBX _ p) by (cbn; lookups; lia).
  cbn -[u16 load32]. lookups. split_and!; try done. intros [] Hs; try done; by lookups.
Qed.

Lemma restore_state_run callee ra M p :
  regs M ESP = p - 4 → 4 ≤ p → p + 56 < 4294967296 →
  restored (registers_at (memory M) p) (p + 56) (memory M) (run callee ra restore_state M).
Proof.
  intros He H0 H1.
  change (run callee ra restore_state M) with
    (run callee ra [POPA; ADD_esp 8; STI; IRET] (run callee ra (take 6 restore_state) M)).
  destruct (restore_segs_run callee ra M p He H0 H1) as (Ae&_&As&Am).
  generalize dependent (run callee ra (take 6 restore_state) M). intros A Ae As Am.
  unfold run. cbn [foldl exec].
  destruct (popa_spec A (p + 4)) as (B0&B1&B2&B4&B5&B6&B7&Be&Bs&_&Bm); [done|lia..|].
  generalize dependent (popa A). intros B. rewrite Am. intros.
  set (C := set_eflags _ _).
  assert (HC : regs C ESP = p + 44 ∧ (∀ r, r ≠ ESP → regs C r = regs B r) ∧ segs C = segs A ∧
    memory C = memory M).
  { subst C. cbn -[u32]. lookups. rewrite Be, Bs, Bm, u32_small by (unfold is_u32; lia).
    split_and!; [lia| |done|done]. intros r Hr. by lookups. }
  clearbody C. destruct HC as (Ce&Cr&Cs&Cm).
  destruct (iret_spec C (p + 44)) as (Ir&Ie&Ii&Is&If&Im); [done|lia..|].
  generalize dependent (iret C). intros N. rewrite Cm, Cs. intros.
  unfold restored, registers_at. cbn -[load32 u16]. rewrite Z.add_0_r.
  rewrite (Ir EAX), (Ir ECX), (Ir EDX), (Ir EBX), (Ir EBP), (Ir ESI), (Ir EDI), !Cr by done.
  rewrite B0, B1, B2, B4, B5, B6, B7, Ii, If, Is, Ie. lookups.
  rewrite <- !Z.add_assoc. split_and!; try done. intros s Hs. lookups. by apply As.
Qed.

(** ** The whole of an interrupt *)

Definition imachine_ok (M : machine) : Prop :=
  (∀ r, is_u32 (regs M r)) ∧ (∀ s, 0 ≤ segs M s < 65536) ∧ is_u32 (eflags M) ∧ is_u32 (eip M).

(** The registers of the interrupted code as the handler sees them. *)
Definition interrupted_frame (M : machine) (v err : Z) : registers_t :=
  Registers (low_half (regs M EAX) (segs M DS)) (regs M EDI) (regs M ESI) (regs M EBP)
    (regs M ESP - 20) (regs M EBX) (regs M EDX) (regs M ECX) (regs M EAX) v
    (if has_error_code v then err else 0) (eip M) (segs M CS) (eflags M)
    (load32 (memory M) (regs M ESP)) (load32 (memory M) (regs M ESP + 4)).

(** The C function of a vector. *)
Definition handler_of (v : Z) : c_function := if v <? 32 then ISR_HANDLER else IRQ_HANDLER.

Lemma low_half_range x v : is_u32 x → is_u32 (low_half x v).
Proof. unfold is_u32, low_half, u16. intros. dlia. Qed.

Lemma frame_at_entry callee ra g v err noerr M :
  imachine_ok M → is_u32 v → is_u32 err → 64 ≤ regs M ESP → noerr = negb (has_error_code v) →
  let M' := handler_entry callee ra g v err (stub_entry v noerr) M in
  registers_at (memory M') (regs M ESP - 56) = interrupted_frame M v err.
Proof.
  intros (Hr&Hs&Hf&Hi) Hv Herr He Hn.
  destruct (handler_entry_frame callee ra g v err noerr M) as (_&_&Hw&Hm);
    [pose proof (Hr ESP) as Hr'; unfold is_u32 in Hr'; lia|done|].
  cbn zeta in *. generalize dependent (handler_entry callee ra g v err (stub_entry v noerr) M).
  intros N Hw Hm. assert (Hw' : ∀ i w, frame_words M v (if noerr then 0 else err) !! i = Some w →
    is_u32 w → load32 (memory N) (regs M ESP - 56 + 4 * (13 - Z.of_nat i)) = w).
  { intros i w Hlk Hw32. rewrite <- (u32_small w) by done. rewrite <- (Hw i w Hlk). f_equal. lia. }
  unfold registers_at, interrupted_frame.
  assert (Hcs : ∀ s, is_u32 (segs M s)) by (intros s; specialize (Hs s); unfold is_u32; lia).
  assert (Herr' : is_u32 (if noerr then 0 else err)) by (by destruct noerr).
  f_equal.
  - by apply (Hw' 13%nat); [|apply low_half_range].
  - by apply (Hw' 12%nat).
  - by apply (Hw' 11%nat).
  - by apply (Hw' 10%nat).
  - apply (Hw' 9%nat); [done|]. pose proof (Hr ESP) as Hr'. unfold is_u32 in *. lia.
  - by apply (Hw' 8%nat).
  - by apply (Hw' 7%nat).
  - by apply (Hw' 6%nat).
  - by apply (Hw' 5%nat).
  - by apply (Hw' 4%nat).
  - transitivity (if noerr then 0 else err); [by apply (Hw' 3%nat)|].
    subst noerr. by destruct (has_error_code v).
  - by apply (Hw' 2%nat).
  - by apply (Hw' 1%nat).
  - by apply (Hw' 0%nat).
  - replace (regs M ESP - 56 + 4 * 14) with (regs M ESP) by lia.
    apply load32_agree. intros a Ha. apply Hm. lia.
  - replace (regs M ESP - 56 + 4 * 15) with (regs M ESP + 4) by lia.
    apply load32_agree. intros a Ha. apply Hm. lia.
Qed.

Lemma error_stub v : v ≠ 17 → bool_decide (v ∈ [8; 10; 11; 12; 13; 14]) = has_error_code v.
Proof.
  intros Hv. apply bool_decide_ext. rewrite !elem_of_cons, !elem_of_nil. lia.
Qed.

(** The end of a stub on a stack where the frame is as it was pushed. *)
Lemma frame_restores callee ra v err g noerr M K :
  imachine_ok M → is_u32 v → is_u32 err → 64 ≤ regs M ESP → noerr = negb (has_error_code v) →
  let H := handler_entry callee ra g v err (stub_entry v noerr) M in
  let M' := run callee ra restore_state K in
  regs K ESP = regs M ESP - 60 →
  (∀ a, regs M ESP - 56 ≤ a < regs M ESP → memory K a = memory H a) →
  (∀ r, regs M' r = regs M r) ∧ eip M' = eip M ∧ eflags M' = eflags M ∧
  segs M' CS = segs M CS ∧ (∀ s, s ≠ CS → segs M' s = segs M DS) ∧ memory M' = memory K.
Proof.
  intros Hok Hv Herr He Hn. cbn zeta. intros Hk Hm. pose proof (proj1 Hok ESP) as HE. unfold is_u32 in HE.
  pose proof (frame_at_entry callee ra g v err noerr M Hok Hv Herr He Hn) as Ef.
  cbn zeta in *. generalize dependent (handler_entry callee ra g v err (stub_entry v noerr) M).
  intros H Hm Ef.
  destruct (restore_state_run callee ra K (regs M ESP - 56)) as (R1&R2&R3&R4&R5&R6&R7&R8&R9&R10&R11&R12&R13);
    [lia..|].
  assert (Hf : ∀ i, 0 ≤ i < 14 → load32 (memory K) (regs M ESP - 56 + 4 * i)
    = load32 (memory H) (regs M ESP - 56 + 4 * i)).
  { intros i Hi. apply load32_agree. intros a Ha. apply Hm. lia. }
  unfold registers_at, interrupted_frame in R1, R2, R3, R4, R6, R7, R8, R9, R10, R11, R12, Ef.
  cbn [r_eax r_ecx r_edx r_ebx r_ebp r_esi r_edi r_eip r_eflags r_cs r_ds] in *.
  rewrite Hf in R1, R2, R3, R4, R6, R7, R8, R9, R10, R11 by lia.
  injection Ef as F0 F1 F2 F3 F4 F5 F6 F7 F8 F9 F10 F11 F12 F13 F14 F15.
  destruct Hok as (_&Hs&_&_). split_and!.
  - intros []; try congruence. rewrite R5. lia.
  - congruence.
  - congruence.
  - rewrite R11, F12. unfold u16. by apply Z.mod_small.
  - intros s Hne. rewrite R12, Hf, F0, low_half_u16 by (done || lia). unfold u16. by apply Z.mod_small.
  - done.
Qed.

Section Interrupts.
Context (callee : c_function → machine → machine) (ra : Z).

(** The linked program: where the stubs are, and the code there. *)
Context (isr irq : Z → Z) (inval stop timer : Z) (text : Z → list instr).

Record stubs_placed : Prop := {
  sp_isr : ∀ i, 0 ≤ i < 32 → text (isr i) = isr_stub i;
  sp_irq : ∀ i, 0 ≤ i < 16 → text (irq i) = irq_stub i;
  sp_inval : text inval = smp_irq_inval_tlb;
  sp_stop : text stop = smp_irq_stop_cpu;
  sp_timer : text timer = smp_irq_local_timer;
  sp_addr : (∀ i, is_u32 (isr i)) ∧ (∀ i, is_u32 (irq i)) ∧ is_u32 inval ∧ is_u32 stop ∧ is_u32 timer;
}.

(** The handlers: what they may use of the stack, and other memory they may change. *)
Context (depth : Z) (own : Z → Prop).

Record handlers_ok : Prop := {
  ho_esp : ∀ f M, regs (callee f M) ESP = u32 (regs M ESP + 4);
  ho_mem : ∀ f M a, ¬ (regs M ESP - depth ≤ a < regs M ESP + 8) → ¬ own a →
    memory (callee f M) a = memory M a;
}.

Lemma stub_text ismp v a :
  stubs_placed → Idt.stub_of isr irq inval stop timer ismp v = Some a → v ≠ 17 →
  0 ≤ v < 55 ∧
  text a = stub_entry v (negb (has_error_code v)) ++ save_state ++ [CALL (handler_of v)] ++ restore_state.
Proof.
  intros [Hisr Hirq Hi Hs Ht _] Hst Hv. unfold Idt.stub_of in Hst.
  assert (Hnone : ∀ w, 32 ≤ w → has_error_code w = false).
  { intros w Hw. apply bool_decide_eq_false. rewrite !elem_of_cons, elem_of_nil. lia. }
  destruct ((0 <=? v) && (v <? 32)) eqn:E1.
  - injection Hst as <-. apply andb_prop in E1 as [?%Z.leb_le Hlt%Z.ltb_lt]. split; [lia|].
    rewrite Hisr by lia. unfold isr_stub, handler_of. rewrite (proj2 (Z.ltb_lt _ _) Hlt).
    rewrite error_stub by done. by destruct (has_error_code v).
  - destruct ((32 <=? v) && (v <? 48)) eqn:E2.
    + injection Hst as <-. apply andb_prop in E2 as [?%Z.leb_le ?%Z.ltb_lt]. split; [lia|].
      rewrite Hirq by lia. rewrite (Hnone v) by lia. unfold handler_of.
      rewrite (proj2 (Z.ltb_ge _ _)) by lia. unfold irq_stub.
      by replace (32 + (v - 32)) with v by lia.
    + destruct ismp; [cbn [negb] in Hst|done]. unfold Idt.IRQ_INVAL_TLB, Idt.IRQ_STOP_CPU, Idt.IRQ_LOCAL_TIMER in Hst.
      destruct (Z.eqb_spec v 52) as [->|]; [by simplify_eq|].
      destruct (Z.eqb_spec v 53) as [->|]; [by simplify_eq|].
      destruct (Z.eqb_spec v 54) as [->|]; by simplify_eq.
Qed.

(** The interrupted code goes on as if nothing had happened, but for [es], [fs], [gs]. *)
Record resumed (M M' : machine) : Prop := {
  re_regs : ∀ r, regs M' r = regs M r;
  re_eip : eip M' = eip M;
  re_eflags : eflags M' = eflags M;
  re_cs : segs M' CS = segs M CS;
  re_data : ∀ s, s ≠ CS → segs M' s = segs M DS;
  re_mem : ∀ a, ¬ (regs M ESP - 64 - depth ≤ a < regs M ESP) → ¬ own a → memory M' a = memory M a;
}.

(** From the handler's return to the end of the stub. *)
Lemma return_resumes v err g noerr M :
  handlers_ok → imachine_ok M → is_u32 v → is_u32 err →
  0 ≤ depth → 64 + depth ≤ regs M ESP → noerr = negb (has_error_code v) →
  (∀ a, regs M ESP - 56 ≤ a < regs M ESP → ¬ own a) →
  let H := handler_entry callee ra g v err (stub_entry v noerr) M in
  resumed M (run callee ra restore_state (callee (handler_of v) H)).
Proof.
  intros [Hesp Hmem] Hok Hv Herr Hd He Hn Hown. cbn zeta.
  pose proof (proj1 Hok ESP) as HE. unfold is_u32 in HE.
  destruct (handler_entry_frame callee ra g v err noerr M) as (Ee&_&_&Em); [lia|done|].
  pose proof (frame_restores callee ra v err g noerr M) as Hfr. cbn zeta in *.
  generalize dependent (handler_entry callee ra g v err (stub_entry v noerr) M).
  intros H Ee Em Hfr. specialize (Hesp (handler_of v) H). specialize (Hmem (handler_of v) H).
  rewrite Ee in Hesp, Hmem. rewrite u32_small in Hesp by (unfold is_u32; lia).
  generalize dependent (callee (handler_of v) H). intros K Hesp Hmem.
  destruct (Hfr K) as (R1&R2&R3&R4&R5&R6); [done|done|done|lia|done|lia| |].
  { intros a Ha. apply Hmem; [lia|by apply Hown]. }
  split; [done..|]. intros a Ha Ho. rewrite R6, Hmem, Em by (done || lia). done.
Qed.
End Interrupts.

(** C12: an interrupt is invisible to the code it interrupts, and its handler sees that
    code's registers. With the table [init_idt] builds, the delivery of any vector that
    has a gate reaches the stub of that vector; the stub calls the C handler with
    interrupts off, the kernel data segment in all data segments, and a pointer to a
    [registers_t] that holds the vector, the error code (0 when the processor gives
    none) and every register of the interrupted code. When the handler returns, having
    changed no more than its stack below and memory of its own, the stub restores all
    general registers, the stack pointer, the flags, the code and data segment and the
    instruction pointer, and memory outside the part of the stack below the interrupted
    stack pointer is as the handler left it. [es], [fs] and [gs] come back equal to
    [ds]. (Vector 17 is excluded: see [alignment_check_frame].) *)
Theorem interrupt_transparent callee ra isr irq inval stop timer text depth own ismp v a err M :
  stubs_placed isr irq inval stop timer text → handlers_ok callee depth own →
  Idt.stub_of isr irq inval stop timer ismp v = Some a → v ≠ 17 →
  imachine_ok M → is_u32 err → 0 ≤ depth → 64 + depth ≤ regs M ESP →
  (∀ x, regs M ESP - 56 ≤ x < regs M ESP → ¬ own x) →
  let '(_, _, idt) := Idt.init_idt isr irq inval stop timer ismp in
  let H := handler_entry callee ra (Idt.GateView true 14 0 8 a) v err
             (stub_entry v (negb (has_error_code v))) M in
  let p := load32 (memory H) (regs H ESP + 4) in
  registers_at (memory H) p = interrupted_frame M v err ∧
  Z.testbit (eflags H) 9 = false ∧ (∀ s, s ≠ CS → segs H s = 0x10) ∧
  ∃ M', interrupt callee ra text idt v err M = Some M' ∧
    M' = run callee ra restore_state (callee (handler_of v) H) ∧ resumed depth own M M'.
Proof.
  intros Hpl Hho Hst Hv Hok Herr Hd He Hown.
  destruct (stub_text isr irq inval stop timer text ismp v a Hpl Hst Hv) as [Hv' Htext].
  pose proof (proj1 Hok ESP) as HE. unfold is_u32 in HE.
  destruct (sp_addr _ _ _ _ _ _ Hpl) as (A1&A2&A3&A4&A5).
  pose proof (Idt.init_idt_correct isr irq inval stop timer ismp v A1 A2 A3 A4 A5 ltac:(lia)) as Hidt.
  destruct (Idt.init_idt isr irq inval stop timer ismp) as [[limit ports] idt].
  destruct Hidt as [_ Hg]. rewrite Hst in Hg. cbn zeta.
  set (g := Idt.GateView true 14 0 8 a) in *. set (noerr := negb (has_error_code v)) in *.
  destruct (handler_entry_stack callee ra g v err noerr M) as (_&_&Hs&Hf); [lia|done|].
  destruct (handler_entry_frame callee ra g v err noerr M) as (Ee&Ep&_&_); [lia|done|].
  pose proof (return_resumes callee ra depth own v err g noerr M Hho Hok ltac:(unfold is_u32; lia)
    Herr Hd He eq_refl Hown) as Hres.
  pose proof (frame_at_entry callee ra g v err noerr M Hok ltac:(unfold is_u32; lia) Herr ltac:(lia) eq_refl) as Hfr.
  cbn zeta in *. rewrite Ee. replace (regs M ESP - 56 - 8 + 4) with (regs M ESP - 56 - 4) by lia.
  rewrite Ep. split_and!; [done..|]. eexists. split; [|done].
  unfold interrupt. rewrite Hg. cbn [Idt.g_present g negb]. f_equal.
  assert (Hip : eip (deliver g v err M) = a) by done.
  rewrite Hip, Htext. unfold run. rewrite !foldl_app. cbn [foldl exec].
  unfold handler_entry, run. by rewrite foldl_app.
Qed.

(** A program in which the stubs are where the table says, for the witness. *)
Definition demo_text (a : Z) : list instr :=
  if a <? 0x1020 then isr_stub (a - 0x1000)
  else if a <? 0x1030 then irq_stub (a - 0x1020)
  else if a =? 0x1030 then smp_irq_inval_tlb
  else if a =? 0x1031 then smp_irq_stop_cpu else smp_irq_local_timer.

Definition demo_callee (f : c_function) (M : machine) : machine :=
  set_reg ESP (u32 (regs M ESP + 4)) M.

Definition demo_machine : machine :=
  Machine (λ r, match r with ESP => 0x9000 | EAX => 0x12345678 | _ => 7 end)
    (λ s, match s with CS => 8 | _ => 0x10 end) 0x202 0x4000 (λ _, 0).

Lemma interrupt_transparent_witness :
  ∃ M', interrupt demo_callee 0 demo_text
      (snd (Idt.init_idt (λ i, 0x1000 + i `mod` 32) (λ i, 0x1020 + i `mod` 16) 0x1030 0x1031 0x1032 true))
      14 2 demo_machine = Some M' ∧ regs M' EAX = 0x12345678 ∧ eip M' = 0x4000.
Proof.
  pose proof (interrupt_transparent demo_callee 0 (λ i, 0x1000 + i `mod` 32) (λ i, 0x1020 + i `mod` 16)
    0x1030 0x1031 0x1032 demo_text 0 (λ _, False) true 14 0x100E 2 demo_machine) as H.
  destruct (Idt.init_idt _ _ _ _ _ _) as [[l ports] idt]. cbn [snd].
  destruct H as (_&_&_&M'&E&_&R).
  - split; try done.
    + intros i Hi. unfold demo_text. rewrite Z.mod_small, (proj2 (Z.ltb_lt _ _)) by lia. f_equal. lia.
    + intros i Hi. unfold demo_text. rewrite Z.mod_small, (proj2 (Z.ltb_ge _ _)) by lia.
      rewrite (proj2 (Z.ltb_lt _ _)) by lia. f_equal. lia.
    + unfold is_u32. split_and!; try lia; intros i; dlia.
  - split; done.
  - done.
  - done.
  - split_and!; unfold is_u32; cbn; try lia; [intros []; lia|intros []; lia].
  - unfold is_u32. lia.
  - lia.
  - cbn. lia.
  - tauto.
  - exists M'. split; [exact E|]. split; [exact (re_regs _ _ _ _ R EAX)|exact (re_eip _ _ _ _ R)].
Defined.

(** For the alignment-check exception (17) the processor pushes an error code and the
    stub, one of those for exceptions without, pushes another: one word more than the
    frame the common stub removes. (The exception is not raised in ring 0.) *)
Lemma alignment_check_frame callee ra g err M :
  same_stack (run callee ra (stub_entry 17 true) (deliver g 17 err M))
    (pushes [eflags M; segs M CS; eip M; err; 0; 17] M).
Proof. split; reflexivity. Qed.
