(* ===== verification/Preempt.v ===== *)
(** * Preemption: interrupt, handler, [schedule] and [switch_to] together

    The timer interrupt saves a thread's registers on its stack ([src/interrupt.s]); the C
    code of the handler reaches [schedule()], which calls [switch_to] ([src/switch.s]); other
    threads run; one of them switches back, [switch_to] returns, the C code returns to the
    stub, and the stub returns to the interrupted instruction. [Interrupt.v] and [Switch.v]
    model the two ends; here they are put together. The compiled C code in between is any
    code that keeps to the calling convention. *)
From S2P Require Import Prelude Memory Descriptors Switch Interrupt.

(** The machine of [Switch.v] has the registers [switch_to] uses. *)
Definition of_reg (r : Switch.reg) : reg :=
  match r with
  | Switch.EAX => EAX | Switch.ECX => ECX | Switch.EBX => EBX | Switch.ESI => ESI
  | Switch.EDI => EDI | Switch.EBP => EBP | Switch.ESP => ESP
  end.

Definition to_switch (M : machine) : Switch.machine :=
  Switch.Machine (λ r, regs M (of_reg r)) (eflags M) (eip M) (memory M).

(** [R] is [S] with the registers that machine does not have. *)
Definition at_switch (R : machine) (S : Switch.machine) : Prop :=
  (∀ r, regs R (of_reg r) = Switch.regs S r) ∧ eflags R = Switch.eflags S ∧
  eip R = Switch.eip S ∧ memory R = Switch.memory S.

(** Compiled C code around a call: [before] leads from the entry of the handler to the entry
    of the function it ends up calling, [after] from the return of that function, to [ret], to
    the return of the handler. It uses [depth] bytes of stack and the memory [own]. What
    [after] relies on is what the convention gives it: its stack frames and the callee-saved
    registers as they were at the call. *)
Record around_call (before after : machine → machine) (ret depth : Z) (own : Z → Prop) : Prop := {
  ac_before : ∀ H a, depth ≤ regs H ESP → regs H ESP + 8 < 4294967296 →
    ¬ (regs H ESP - depth ≤ a < regs H ESP + 8) → ¬ own a →
    memory (before H) a = memory H a;
  ac_after : ∀ H R, depth ≤ regs H ESP → regs H ESP + 8 < 4294967296 →
    eip R = ret → regs R ESP = regs (before H) ESP + 4 →
    (∀ r, r ∈ [EBP; EBX; ESI; EDI] → regs R r = regs (before H) r) →
    (∀ a, regs (before H) ESP + 4 ≤ a < regs H ESP + 8 → memory R a = memory (before H) a) →
    regs (after R) ESP = regs H ESP + 4 ∧
    ∀ a, ¬ (regs H ESP - depth ≤ a < regs H ESP + 8) → ¬ own a → memory (after R) a = memory R a;
}.

(** ** The switch back, with memory *)

Lemma switch_back_mem callee depth own own_len ra M ret old new M' ret' cur n :
  cdecl callee depth own own_len → Switch.calling M ret old new → 4 ≤ n →
  context_ok depth own own_len (context_of M) →
  kept (saved_mem M old) (Switch.memory M') old (Switch.regs M Switch.ESP) n →
  Switch.calling M' ret' cur old → harmless M' cur old (Switch.regs M Switch.ESP) n →
  apart old 24 (Switch.regs M Switch.ESP) n → apart own own_len (Switch.regs M Switch.ESP) n →
  agree (Switch.memory M) (Switch.memory (Switch.run callee (switch_to ra) M'))
    (Switch.regs M Switch.ESP) n.
Proof.
  intros Hcd Hc Hn Hok [Kc Ks] Hc' (H1&H2&H3&H4) Ho Hw a Ha.
  assert (Ec : context_at (saved_mem M' cur) old = context_of M).
  { rewrite <- (saved_context M old) by apply Hc. rewrite <- (context_agree _ _ _ Kc).
    apply context_agree. intros i Hi. apply saved_out; unfold apart in *; lia. }
  destruct (switch_to_enters callee depth own own_len Hcd ra M' ret' cur old Hc') as [_ _ _ _ _ _ _ Fm];
    [by rewrite Ec|].
  rewrite Fm; last first.
  { rewrite Ec. cbn [c_esp context_of]. unfold scratch, apart in *. lia. }
  unfold apart in *. rewrite saved_out by lia. rewrite Ks by lia. rewrite saved_out by lia. done.
Qed.

(** ** The whole way *)

Section Preempt.
Context (pe : Switch.machine → Switch.machine) (pdepth pown plen : Z) (Hpe : cdecl pe pdepth pown plen).
Context (before after : machine → machine) (ret depth : Z) (own : Z → Prop).
Context (Hac : around_call before after ret depth own).

(** What the other threads do until they switch back: [S2] is the machine at the call
    [switch_to(cur, old)], with the context of the first thread and the [n] bytes of its
    stack from the stack pointer of its own call on as it left them. *)
Record away (S1 : Switch.machine) (old n : Z) (S2 : Switch.machine) (ret' cur : Z) : Prop := {
  aw_kept : kept (saved_mem S1 old) (Switch.memory S2) old (Switch.regs S1 Switch.ESP) n;
  aw_call : Switch.calling S2 ret' cur old;
  aw_harmless : harmless S2 cur old (Switch.regs S1 Switch.ESP) n;
}.

Lemma switch_returns ra H R old new n S2 ret' cur :
  Switch.calling (to_switch (before H)) ret old new → 4 ≤ n →
  context_ok pdepth pown plen (context_of (to_switch (before H))) →
  apart old 24 (regs (before H) ESP) n → apart pown plen (regs (before H) ESP) n →
  away (to_switch (before H)) old n S2 ret' cur →
  at_switch R (Switch.run pe (switch_to ra) S2) →
  eip R = ret ∧ regs R ESP = regs (before H) ESP + 4 ∧
  (∀ r, r ∈ [EBP; EBX; ESI; EDI] → regs R r = regs (before H) r) ∧
  agree (memory (before H)) (memory R) (regs (before H) ESP) n.
Proof.
  intros Hc Hn Hok Ho Hw [Kk Hc' Hh] ER.
  destruct (switch_back pe pdepth pown plen Hpe ra _ ret old new S2 ret' cur n Hc Hn Hok Kk Hc' Hh)
    as (B1&B2&B3&_).
  pose proof (switch_back_mem pe pdepth pown plen ra _ ret old new S2 ret' cur n
    Hpe Hc Hn Hok Kk Hc' Hh Ho Hw) as Bm.
  destruct ER as (E1&_&E3&E4). cbn zeta in *. split_and!.
  - by rewrite E3.
  - exact (eq_trans (E1 Switch.ESP) B2).
  - intros r Hr. rewrite !elem_of_cons in Hr. destruct Hr as [->|[->|[->|[->|Hr%elem_of_nil]]]].
    + exact (eq_trans (E1 Switch.EBP) (B3 Switch.EBP ltac:(left))).
    + exact (eq_trans (E1 Switch.EBX) (B3 Switch.EBX ltac:(right; left))).
    + exact (eq_trans (E1 Switch.ESI) (B3 Switch.ESI ltac:(right; right; left))).
    + exact (eq_trans (E1 Switch.EDI) (B3 Switch.EDI ltac:(right; right; right; left))).
    + done.
  - rewrite E4. exact Bm.
Qed.
End Preempt.

(** C13: a preempted thread does not notice. A thread is interrupted; the handler reaches
    [switch_to(old, new)], and any other threads run, on any processor, sparing the thread's
    context and the part of its stack in use, until one of them calls [switch_to(cur, old)].
    Then the handler returns, the stub restores the frame, and the thread goes on at the
    interrupted instruction with all its registers, its flags, its code and data segments and
    its stack, except that [es], [fs] and [gs] have the value of [ds]. *)
Theorem preemption_transparent pe pdepth pown plen before after ret depth own
    callee ra rsw g v err M R old new n S2 ret' cur :
  cdecl pe pdepth pown plen → around_call before after ret depth own →
  imachine_ok M → is_u32 v → is_u32 err → 0 ≤ depth → 64 + depth ≤ regs M ESP →
  (∀ a, regs M ESP - 56 ≤ a < regs M ESP → ¬ own a) →
  let H := handler_entry callee ra g v err (stub_entry v (negb (has_error_code v))) M in
  let S1 := to_switch (before H) in
  let esp := regs (before H) ESP in
  Switch.calling S1 ret old new → context_ok pdepth pown plen (context_of S1) →
  esp ≤ regs H ESP → regs M ESP ≤ esp + n → apart old 24 esp n → apart pown plen esp n →
  away S1 old n S2 ret' cur →
  at_switch R (Switch.run pe (switch_to rsw) S2) →
  let M' := run callee ra restore_state (after R) in
  (∀ r, regs M' r = regs M r) ∧ eip M' = eip M ∧ eflags M' = eflags M ∧
  segs M' CS = segs M CS ∧ (∀ s, s ≠ CS → segs M' s = segs M DS) ∧
  (∀ a, regs M ESP ≤ a < esp + n → ¬ own a → memory M' a = memory M a).
Proof.
  intros Hpe [Hbef Haft] Hok Hv Herr Hd He Hown. cbn zeta.
  pose proof (proj1 Hok ESP) as HE. unfold is_u32 in HE.
  destruct (handler_entry_frame callee ra g v err (negb (has_error_code v)) M) as (Ee&_&_&Em); [lia|done|].
  pose proof (frame_restores callee ra v err g (negb (has_error_code v)) M (after R)
    Hok Hv Herr ltac:(lia) eq_refl) as Hfr.
  cbn zeta in *. generalize dependent (handler_entry callee ra g v err (stub_entry v (negb (has_error_code v))) M).
  intros H Ee Em Hfr Hc Hctx Hdown Hn Ho Hw Haw ER.
  destruct (switch_returns pe pdepth pown plen Hpe before ret rsw H R old new n S2 ret' cur)
    as (B1&B2&B3&Bm); [done|lia|done..|].
  destruct (Haft H R) as [Ae Am]; [lia|lia|done|done|done|intros a Ha; apply Bm; lia|].
  rewrite Ee in Ae, Am, Hdown.
  assert (Hkeep : ∀ a, regs M ESP - 56 ≤ a < regs (before H) ESP + n → ¬ own a →
    memory (after R) a = memory H a).
  { intros a Ha Hna. rewrite Am, Bm by (done || lia). apply Hbef; [lia..|done]. }
  destruct Hfr as (R1&R2&R3&R4&R5&R6); [lia|intros a Ha; apply Hkeep; [lia|by apply Hown]|].
  split_and!; [done..|]. intros a Ha Hna. rewrite R6, Hkeep, Em by (done || lia). done.
Qed.

(** The example: a timer interrupt ([IRQ0]); the handler calls [switch_to(5000, 6000)] at once,
    and a thread with its stack at 2000 switches back. *)
Definition demo_before (H : machine) : machine := pushes [6000; 5000; 77] H.
Definition demo_after (R : machine) : machine := set_reg ESP (regs R ESP + 12) R.

Lemma demo_around : around_call demo_before demo_after 77 64 (λ _, False).
Proof.
  split.
  - intros H a H1 H2 Ha _. unfold demo_before.
    destruct (pushes_spec [6000; 5000; 77] H) as (_&_&_&_&_&_&Pm); [cbn; lia|].
    apply Pm. cbn. lia.
  - intros H R H1 H2 _ He _ _. unfold demo_before in *.
    destruct (pushes_spec [6000; 5000; 77] H) as (Pe&_); [cbn; lia|]. cbn [length] in Pe. cbn zeta in Pe.
    split; [|done]. unfold demo_after. cbn [set_reg regs]. rewrite fn_lookup_insert, He, Pe. lia.
Qed.

Definition demo_gate : Idt.gate_view := Idt.GateView true 14 0 8 0x1020.
Definition demo_entry : machine :=
  handler_entry demo_callee 0 demo_gate 32 0 (stub_entry 32 true) Interrupt.demo_machine.
Definition demo_switch : Switch.machine := to_switch (demo_before demo_entry).
Definition demo_other : Switch.machine :=
  Switch.Machine (λ r, match r with Switch.ESP => 2000 | _ => 0 end) 0 0
    (store32 (store32 (store32 (saved_mem demo_switch 5000) 2000 99) 2004 6000) 2008 5000).
Definition demo_back : machine :=
  let S := Switch.run (set_flag 9000) (switch_to 44) demo_other in
  Machine (λ r, match r with
                | EAX => Switch.regs S Switch.EAX | ECX => Switch.regs S Switch.ECX
                | EBX => Switch.regs S Switch.EBX | ESI => Switch.regs S Switch.ESI
                | EDI => Switch.regs S Switch.EDI | EBP => Switch.regs S Switch.EBP
                | ESP => Switch.regs S Switch.ESP | EDX => 0 end)
    (λ _, 0x10) (Switch.eflags S) (Switch.eip S) (Switch.memory S).

Lemma demo_switch_calls : Switch.calling demo_switch 77 5000 6000.
Proof.
  split; [split; [intros []; vm_compute; (split; [discriminate|done])|vm_compute; (split; [discriminate|done])]|..].
  - vm_compute. done.
  - vm_compute. done.
  - vm_compute. done.
  - vm_compute. split; [discriminate|done].
  - done.
  - left. vm_compute. discriminate.
Qed.

Lemma demo_away : away demo_switch 5000 128 demo_other 99 6000.
Proof.
  assert (Ee : Switch.regs demo_switch Switch.ESP = 36788) by (vm_compute; reflexivity).
  split.
  - rewrite Ee. split; intros a Ha; cbn [demo_other Switch.memory]; rewrite !store32_out by lia; done.
  - split; [split; [intros []; done|done]|..]; cbn [demo_other Switch.memory Switch.regs].
    + by mem_load.
    + by mem_load.
    + by mem_load.
    + done.
    + done.
    + by right.
  - rewrite Ee. unfold harmless. cbn [demo_other Switch.regs]. unfold apart. lia.
Qed.

Lemma preemption_transparent_witness :
  let M' := run demo_callee 0 restore_state (demo_after demo_back) in
  (∀ r, regs M' r = regs Interrupt.demo_machine r) ∧ eip M' = 0x4000.
Proof.
  assert (Ee : regs (demo_before demo_entry) ESP = 36788) by (vm_compute; reflexivity).
  assert (Eh : regs demo_entry ESP = 36800) by (vm_compute; reflexivity).
  destruct (preemption_transparent (set_flag 9000) 64 9000 4 demo_before demo_after 77 64 (λ _, False)
    demo_callee 0 44 demo_gate 32 0 Interrupt.demo_machine demo_back 5000 6000 128 demo_other 99 6000)
    as (Hr&Hi&_).
  - by apply set_flag_cdecl.
  - exact demo_around.
  - split_and!; unfold is_u32; cbn; try lia; [intros []; lia|intros []; lia].
  - unfold is_u32. lia.
  - unfold is_u32. lia.
  - lia.
  - cbn. lia.
  - tauto.
  - exact demo_switch_calls.
  - vm_compute. split; [repeat split; discriminate|left; discriminate].
  - change (regs (demo_before demo_entry) ESP ≤ regs demo_entry ESP). rewrite Ee, Eh. lia.
  - change (regs Interrupt.demo_machine ESP ≤ regs (demo_before demo_entry) ESP + 128).
    rewrite Ee. cbn. lia.
  - change (apart 5000 24 (regs (demo_before demo_entry) ESP) 128). rewrite Ee. by left.
  - change (apart 9000 4 (regs (demo_before demo_entry) ESP) 128). rewrite Ee. by left.
  - exact demo_away.
  - split_and!; [intros []; reflexivity|reflexivity..].
  - split; [exact Hr|exact Hi].
Defined.
