(* ===== verification/InitTask.v ===== *)
(** * The first task: [setup_init_task] of [src/task.c] and the first [schedule]

    What [setup_init_task] leaves behind on every path, and what [init_sched] makes of
    it. [Main.v] uses both. *)
From S2P Require Import Prelude Memory ListHead ListProofs MM KernelMemory Threads Timer Sched Switch Task TaskProofs.

(** ** An idle machine *)

Lemma pick_loop_idle n : ∀ i stats, (∀ j, (j < i + n)%nat → stats j = (0, 0)) →
  pick_loop n i 0 (0, 0) stats = 0%nat.
Proof.
  induction n as [|n IH]; intros i stats Hs; [done|]. cbn [pick_loop].
  rewrite (Hs (0 + i)%nat) by lia.
  destruct i as [|i]; [apply (IH 1%nat); intros j Hj; apply Hs; lia|].
  cbn [Nat.eqb fst snd orb Z.ltb Z.compare Z.eqb andb]. apply IH. intros j Hj. apply Hs. lia.
Qed.

(** With empty run queues the first processor is picked. *)
Lemma pick_processor_idle {A} ismp ncpu this (s : kstate A) :
  (∀ j, (j < ncpu)%nat → runq (k_cpus s j) = []) →
  pick_processor ismp ncpu this s = if ismp then 0%nat else this.
Proof.
  intros Hq. unfold pick_processor. destruct ismp; [|done]. apply pick_loop_idle.
  intros j Hj. unfold rq_calc_len_and_ready. by rewrite Hq.
Qed.

(** ** [setup_init_task] *)

Section InitTask.
Context {A : Type} `{KM : KernelMemory A}.
Context (ismp : bool) (ncpu this : nat).
Context (all_tasks k_pdir mm_phys fin K_INIT : Z).
Implicit Types (s : kstate A).

(** The kernel's own data lie below everything the allocator hands out. *)
Context (low : Z) (Hlow : ∀ a p n, km_ok a → km_block a p n → low ≤ p).
Context (Hgroup : 16 < all_tasks ∧ all_tasks + 12 ≤ low).
Context (Hmm : is_u32 mm_phys) (Hmm0 : mm_phys ≠ NULL) (Hinit : is_u32 K_INIT) (Hfin : is_u32 fin).

(** The ways out when memory runs out. *)
Definition setup_panics : list string :=
  ["taskp->status == T_INIT"; "not a list"; "Kernel task setup failed"].

(** The init task is set up and its thread queued on processor [cpu]. *)
Record init_queued (cpu : nat) s (t stk taskp page : Z) s' : Prop := {
  iq_cpus : k_cpus s' = <[cpu := set_runq (runq (k_cpus s cpu) ++ [t]) (k_cpus s cpu)]> (k_cpus s);
  iq_thread : ∃ m, new_thread m t stk taskp K_INIT NULL fin ∧ untouched m (k_mem s') t stk;
  iq_ready : statuses_in (k_mem s') t = T_READY;
  iq_task : load32 (k_mem s') (taskp + TASK_ID) = u32 (k_next_id s + 1) ∧
            load32 (k_mem s') (taskp + TASK_STATUS) = state_value T_READY ∧
            load32 (k_mem s') (taskp + TASK_ADDR_SPACE) = page;
  iq_group : k_links s' !! (all_tasks + GROUP_TASKS) = Some [taskp + TASK_LINK];
  iq_apart : apart t 76 stk 4096 ∧ apart t 76 taskp 36 ∧ apart stk 4096 taskp 36;
  iq_blocks : km_block (k_alloc s') t 76 ∧ km_block (k_alloc s') stk 4096 ∧
              km_block (k_alloc s') taskp 36 ∧ km_held (k_alloc s') page;
}.

Definition setup_post (cpu : nat) s s' : Prop :=
  km_ok (k_alloc s') ∧ spared s (k_mem s') ∧
  (∀ b k, km_block (k_alloc s) b k → km_block (k_alloc s') b k) ∧
  (k_cpus s' = k_cpus s ∨ ∃ t stk taskp page, init_queued cpu s t stk taskp page s').

(** Queueing a new task whose thread exists. *)
Lemma add_task_run s taskp t :
  load32 (k_mem s) (taskp + TASK_STATUS) = state_value T_INIT →
  k_links s !! (taskp + TASK_THREADS) = Some [t + THR_LINK] →
  init_task_sched ismp ncpu this taskp s =
  match Task.add_thread_to_rq ismp ncpu this t s with
  | Ret (rc, s1) =>
      if rc =? 0 then
        (_ ← wr (taskp + TASK_STATUS) (state_value T_READY); mret OK : code A Z) s1
      else Ret (1, s1)
  | Panic msg => Panic msg
  | Diverge => Diverge
  end.
Proof.
  intros Hs Hl. destruct s as [m a W id cpus]. cbn [k_mem k_links] in *.
  unfold init_task_sched, add_task_to_rq, rd, first_thread. run_code. cbn [k_mem].
  rewrite Hs. cbn [Z.eqb state_value negb]. run_code. cbn [k_links]. rewrite Hl.
  rewrite run_mret. replace (t + THR_LINK - THR_LINK) with t by lia.
  unfold mbind, code_bind. destruct (Task.add_thread_to_rq _ _ _ _ _) as [[rc s1]|msg|]; [|done..].
  by destruct (rc =? 0).
Qed.

(** Queueing after a failed creation: the null task has no list of threads. *)
Lemma add_null_task s :
  k_links s !! TASK_THREADS = None →
  init_task_sched ismp ncpu this NULL s = Panic "taskp->status == T_INIT" ∨
  init_task_sched ismp ncpu this NULL s = Panic "not a list".
Proof.
  intros Hl. destruct s as [m a W id cpus]. cbn [k_links] in *.
  unfold init_task_sched, add_task_to_rq, rd, first_thread. run_code. cbn [k_mem].
  destruct (load32 m (NULL + TASK_STATUS) =? state_value T_INIT); cbn [negb]; [right|by left].
  run_code. cbn [k_links]. change (NULL + TASK_THREADS) with TASK_THREADS. by rewrite Hl.
Qed.

(** The stores of the queueing go to new blocks. *)
Lemma queue_spared m0 m a L ptr a' t taskp W id cpus :
  km_ok (k_alloc m0) → blocks_plus (k_alloc m0) L a → spared m0 m →
  (t, 76) ∈ L → (taskp, 36) ∈ L → blocks_plus a [(ptr, 20)] a' →
  spared m0 (k_mem (KState (A := A) (store32 (store32 (store32 m (ptr + 8) t) (t + 4) 1) (taskp + 4) 1) a' W id cpus)).
Proof.
  intros Hok HbL [Sb Sh] Lt Ltk Hb. cbn [k_mem].
  assert (Hag : ∀ b k, apart ptr 20 b k → apart t 76 b k → apart taskp 36 b k →
    agree m (store32 (store32 (store32 m (ptr + 8) t) (t + 4) 1) (taskp + 4) 1) b k).
  { intros b k H1 H2 H3 i Hi. unfold apart in *. rewrite !store32_out by lia. done. }
  split.
  - intros b k Hbk. eapply agree_trans; [by apply Sb|]. apply Hag; apply apart_sym.
    + eapply Hb; [apply HbL; by left|left].
    + by eapply HbL.
    + by eapply HbL.
  - intros q Hq. eapply agree_trans; [by apply Sh|].
    assert (Hq' : km_held a' q) by (by apply Hb, HbL).
    apply Hag; (eapply (km_block_held a'); [apply Hb| |done]); apply Hb.
    + right. left.
    + left. apply HbL. by right.
    + left. apply HbL. by right.
Qed.

(** Queueing the thread of the new task: the node is a new block, so that only the statuses
    of the thread and of the task change. *)
Lemma queue_task_spec cpu s1 taskp t stk page m0 L W0 :
  km_ok (k_alloc m0) → blocks_plus (k_alloc m0) L (k_alloc s1) → spared m0 (k_mem s1) →
  (∀ s2, k_cpus s2 = k_cpus s1 → pick_processor ismp ncpu this s2 = cpu) →
  new_task (k_mem s1) taskp (u32 (k_next_id m0 + 1)) mm_phys page →
  new_thread (k_mem s1) t stk taskp K_INIT NULL fin →
  (t, 76) ∈ L → (stk, 4096) ∈ L → (taskp, 36) ∈ L →
  km_held (k_alloc s1) page →
  apart t 76 stk 4096 → apart t 76 taskp 36 → apart stk 4096 taskp 36 →
  k_links s1 = w_add_tail (taskp + TASK_LINK) (all_tasks + GROUP_TASKS)
                 (<[taskp + TASK_THREADS := [t + THR_LINK]]> W0) →
  W0 !! (all_tasks + GROUP_TASKS) = Some [] → k_cpus s1 = k_cpus m0 →
  ∃ rc s', init_task_sched ismp ncpu this taskp s1 = Ret (rc, s') ∧
    load32 (k_mem s') (taskp + TASK_ID) = u32 (k_next_id m0 + 1) ∧ setup_post cpu m0 s'.
Proof.
  intros Hok0 HbL Hsp Hpick Htask Hthr Lt Ls Ltk Hpg A1 A2 A3 Hl HW Hcpus.
  pose proof (bp_ok _ _ _ HbL) as Hok.
  assert (Bt : km_block (k_alloc s1) t 76) by (apply HbL; by right).
  assert (Bs : km_block (k_alloc s1) stk 4096) by (apply HbL; by right).
  assert (Btk : km_block (k_alloc s1) taskp 36) by (apply HbL; by right).
  pose proof (Hlow _ _ _ Hok Btk) as Llow.
  assert (Hhead : (taskp + TASK_THREADS) ≠ all_tasks + GROUP_TASKS)
    by (unfold TASK_THREADS, GROUP_TASKS; lia).
  rewrite (w_add_tail_lookup _ _ _ []) in Hl by (by rewrite lookup_insert_ne).
  rewrite (add_task_run s1 taskp t); [|apply Htask|by rewrite Hl, lookup_insert_ne, lookup_insert_eq].
  destruct (malloc_blocks (k_alloc s1) SIZEOF_RTHREAD Hok) as (ptr&a'&E&Hc); [done|].
  destruct s1 as [m a W id cpus]. cbn [k_mem k_alloc k_links k_cpus] in *.
  rewrite (add_thread_run ismp ncpu this m a W id cpus t ptr a' E).
  rewrite Hpick by done.
  destruct Hc as [[-> Hb]|(Hp&Hb&P0&P1)].
  { cbn [Z.eqb NULL]. eexists _, _. split; [done|]. cbn [k_mem].
    split; [apply Htask|]. split; [apply Hb|]. split; [done|]. split; [|by left].
    intros b k Hbk. apply Hb. left. apply HbL. by left. }
  destruct (Z.eqb_spec ptr NULL); [done|]. cbn [Z.eqb OK]. run_code.
  eexists _, _. split; [reflexivity|]. cbn [k_mem].
  assert (Pt : apart t 76 ptr 20) by (eapply Hb; [exact Bt|left]).
  assert (Ps : apart stk 4096 ptr 20) by (eapply Hb; [exact Bs|left]).
  assert (Pk : apart taskp 36 ptr 20) by (eapply Hb; [exact Btk|left]).
  destruct Htask as [K1 K2 K3 K4 K5]. unfold apart in *. offsets. cbn [state_value] in *.
  split; [by mem_load|]. split; [apply Hb|].
  split; [by eapply queue_spared|]. split; [intros b k Hbk; apply Hb; left; apply HbL; by left|].
  right. exists t, stk, taskp, page.
  split; cbn [k_mem k_cpus k_links k_alloc].
  - by rewrite Hcpus.
  - exists m. split; [done|].
    split; intros i Hi; unfold THR_CONTEXT in *; rewrite !store32_out by lia; done.
  - unfold statuses_in. offsets. mem_load. done.
  - offsets. split_and!; mem_load; done.
  - rewrite Hl. apply lookup_insert_eq.
  - unfold apart. lia.
  - split_and!; [apply Hb; by left..|by apply Hb].
Qed.

Lemma setup_init_task_spec s :
  km_ok (k_alloc s) → k_links s = ∅ → u32 (k_next_id s + 1) ≠ 0 →
  (∀ j, (j < ncpu)%nat → runq (k_cpus s j) = []) →
  (∃ msg, setup_init_task ismp ncpu this all_tasks k_pdir mm_phys fin K_INIT s = Panic msg ∧
     msg ∈ setup_panics) ∨
  (∃ s', setup_init_task ismp ncpu this all_tasks k_pdir mm_phys fin K_INIT s = Ret ((), s') ∧
     setup_post (if ismp then 0%nat else this) s s').
Proof.
  intros Hok HW Hid Hq. destruct s as [m a W id cpus]. cbn [k_alloc k_links k_next_id k_cpus] in *.
  subst W. unfold setup_init_task, init_task_group. run_code. unfold create_kernel_task. run_code.
  set (s0 := KState m a _ id cpus).
  destruct (create_task_spec k_pdir fin s0 all_tasks mm_phys K_INIT NULL) as (r&s1&E&Hcp&Hsp&Hc);
    [done..|].
  unfold mbind at 1, code_bind at 1. rewrite E.
  assert (Hg : all_tasks + GROUP_TASKS ≠ TASK_THREADS) by (unfold GROUP_TASKS, TASK_THREADS; lia).
  assert (Hnull : r = NULL → k_links s1 !! TASK_THREADS = None →
    ∃ msg, (tid ← (_ ← init_task_sched ismp ncpu this r; rd (r + TASK_ID));
            (if tid =? 0 then panic "Kernel task setup failed" else mret ()) : code A unit) s1
           = Panic msg ∧ msg ∈ setup_panics).
  { intros -> Hn. rewrite run_assoc. unfold mbind at 1, code_bind at 1.
    destruct (add_null_task s1 Hn) as [-> | ->]; eexists; (split; [done|]); unfold setup_panics; set_solver. }
  destruct Hc as [(Hr&_&Hl)|(_&taskp&mmcp&page&Ht&Hp&_&Hh&Htask&_&Hc)].
  { left. apply Hnull; [done|]. rewrite Hl. cbn. rewrite lookup_insert_ne by done. done. }
  destruct Hc as [(Hr&_&Hl)|(->&t&stk&Hb&A1&A2&A3&Hthr&Hl)].
  { left. apply Hnull; [done|]. rewrite Hl. cbn.
    rewrite !lookup_insert_ne by (done || (unfold TASK_THREADS, NULL in *; lia)). done. }
  right. rewrite (proj2 (Z.eqb_neq _ _) Hmm0) in Htask.
  destruct (queue_task_spec (if ismp then 0%nat else this) s1 taskp t stk page s0
    ([(stk, 4096); (t, 76)] ++ owns taskp mmcp) (k_links s0)) as (rc&s'&E2&Hid'&Hpost); try done.
  - intros s2 E2. apply pick_processor_idle. intros j Hj. by rewrite E2, Hcp, Hq.
  - right. left.
  - left.
  - apply elem_of_app. right. apply owns_task.
  - cbn. apply lookup_insert_eq.
  - exists s'. split; last first.
    { destruct Hpost as (P1&P2&P3&[P4|(t'&stk'&tk'&pg'&[])]); (split_and!; [done..|]); [by left|].
      right. exists t', stk', tk', pg'. by split. }
    unfold mbind at 1, code_bind at 1. rewrite E, run_assoc.
    unfold mbind at 1, code_bind at 1. rewrite E2. destruct s' as [m' a' W' id' cpus']. unfold rd. run_code. cbn [k_mem] in *.
    rewrite Hid'. cbn [k_next_id s0]. by rewrite (proj2 (Z.eqb_neq _ _) Hid).
Qed.
End InitTask.

(** ** The first [schedule] *)

(** The first scheduling of the bootstrap processor takes the only queued thread. *)
Lemma init_sched_first fuel c st env t :
  (1 ≤ fuel)%nat → rthread c = NULL → runq c = [t] → t ≠ NULL → st t = T_READY →
  (∀ st k u, st u = T_READY → env st k u = T_READY) →
  ∃ c' st', init_sched fuel c st env = Ret (c', st') ∧ rthread c' = t ∧ runq c' = [t] ∧
    scheduler c' = SCHED_RR ∧ preempt_on c' = false ∧ st' t = T_RUNNING.
Proof.
  intros Hf Hr Hq Ht Hst Henv. destruct fuel as [|fuel]; [lia|]. destruct c as [id b pre sf q r sc].
  cbn in Hr, Hq. subst r q. unfold init_sched. cbn [flag_bsp runq].
  rewrite bool_decide_eq_false_2 by done. rewrite andb_true_r, orb_negb_l. cbn [ASSERT mbind res_bind].
  unfold schedule, preempt_disable, set_preempt, set_scheduler. cbn [rthread proc_id flag_bsp saved_flags runq scheduler].
  set (st1 := if bool_decide (st NULL = T_RUNNING) then set_thread_status NULL T_READY st else st).
  assert (Hst1 : st1 t = T_READY).
  { subst st1. destruct (bool_decide _); [|done]. by rewrite status_other. }
  unfold pick_next_thread. cbn [scheduler]. unfold __do_sched_rr. cbn [rthread Z.eqb NULL negb].
  cbn [sched_rr_loop rthread runq Z.eqb NULL negb]. unfold set_rthread.
  cbn [proc_id flag_bsp preempt_on saved_flags runq scheduler threadp nth].
  rewrite bool_decide_eq_true_2 by (by apply Henv). cbn [mbind res_bind].
  eexists _, _. split; [reflexivity|]. cbn. split_and!; try done.
  apply status_same.
Qed.

(** The switch to the init thread calls [K_INIT(NULL)]. *)
Lemma init_thread_starts {A} `{KernelMemory A} all_tasks fin K_INIT cpu (s s' : kstate A) t stk taskp page :
  km_ok (k_alloc s') → init_queued all_tasks fin K_INIT cpu s t stk taskp page s' →
  ∀ callee depth own own_len ra M,
    cdecl callee depth own own_len → 0 ≤ depth ≤ 4080 → apart own own_len stk 4096 →
    is_u32 (regs M ESP) → regs M ESP + 8 < 4294967296 →
    load32 (memory M) (regs M ESP + 4) = t + THR_CONTEXT → untouched (k_mem s') (memory M) t stk →
    calls_with (run callee (switch_to_init ra) M) K_INIT NULL fin.
Proof.
  intros Hok [_ (m&Hn&Hu) _ _ _ _ (Bt&Bs&_)] callee depth own own_len ra M Hcd Hd Hown He He' Harg Hu'.
  pose proof (km_block_bounds _ _ _ Hok Bt) as (T0&_&T1).
  pose proof (km_block_bounds _ _ _ Hok Bs) as (S0&_&S1).
  assert (Hum : untouched m (memory M) t stk).
  { destruct Hu as [U1 U2], Hu' as [V1 V2]. split; by eapply agree_trans. }
  eapply entered_calls; [exact Hn|exact Hown|exact Hum|].
  apply switch_to_init_enters; [done|done|done|done| |].
  - unfold THR_CONTEXT. lia.
  - by eapply new_thread_context_ok.
Qed.
