(* ===== verification/Main.v ===== *)
(** * Booting: [main] and [__main] of [src/main.c]

    The initialisation of the whole kernel, in the order of [main]: processors, tables,
    interrupt controllers, paging, heap, devices, the other processors, the clock, the
    first task and the first [schedule]. Each part is the function of its own file; here
    they are put together, each on the state the ones before left. *)
From S2P Require Import Prelude Memory ListHead ListProofs MM MMProofs FrameSource Heap HeapProofs Paging PagingProofs KernelMemory Threads Timer Sched Switch Task TaskProofs Descriptors Mproc MprocProofs Apic Device DeviceInit Boot InitTask.

(** ** Kernel memory above kernel space

    The frames behind the heap start where kernel space ends, so that nothing the
    allocators hand out overlaps the kernel image, its data or its page directory. *)

Definition kalloc : Type := heap_desc_t * kmem (mmc_t * mem).

Definition above (f : mmc_t * mem) : Prop := K_SPACE_END ≤ frame_base f.1.
Definition same_base (f f' : mmc_t * mem) : Prop := frame_base f'.1 = frame_base f.1.

#[export] Instance same_base_refl : Reflexive same_base.
Proof. by intros f. Qed.

Lemma mm_alloc_base (f : mmc_t * mem) n p f' :
  fs_ok f → is_u32 n → fs_alloc f n = Ret (p, f') → same_base f f'.
Proof.
  destruct f as [c m]. cbn. intros Hw Hn E. unfold mm_alloc in E. cbn in E.
  destruct (alloc_frames_cases m c n Hw Hn) as [(s&k&m'&_&_&_&_&_&_&_&_&_&E1)|[_ E1]];
    rewrite E1 in E; by injection E as <- <-.
Qed.

Lemma mm_live_above f a : above f → mm_live f a → K_SPACE_END ≤ a.
Proof. intros Ha (i&Hi&->&_). unfold above, frame in *. lia. Qed.

Definition high_ok (a : kalloc) : Prop := heap_ok a ∧ above (k_frames a.2).

Lemma high_malloc a n p a' :
  high_ok a → 0 < n < 4294967296 → heap_malloc a n = Ret (p, a') → above (k_frames a'.2).
Proof.
  intros [[Hw _] Ha] Hn E. unfold heap_malloc in E. rewrite kmalloc_unfold in E by done.
  destruct (__kmalloc_spec a.1 a.2 n Hw Hn) as (q&st'&E1&_). rewrite E1 in E. cbn in E.
  injection E as <- <-. cbn. unfold above in *.
  rewrite (kmalloc_frames_rel same_base a.1 n a.2 q st'); [done| |done|done].
  intros f r f' Hok. apply mm_alloc_base; [done|unfold is_u32; lia].
Qed.

Lemma high_kfree a p rc a' :
  high_ok a → heap_kfree a p = Ret (rc, a') → above (k_frames a'.2).
Proof.
  intros [[Hw _] Ha] E. unfold heap_kfree in E. rewrite kfree_unfold in E by done.
  pose proof (kfree_frames a.1 p a.2) as Ef.
  destruct (__kfree p a.1 a.2) as [r st']. cbn in *. injection E as <- <-. cbn. by rewrite Ef.
Qed.

Lemma high_page a p a' : high_ok a → heap_page a = Ret (p, a') → above (k_frames a'.2).
Proof.
  intros [[Hw _] Ha] E. unfold heap_page in E.
  destruct (fs_alloc_spec (k_frames a.2) 1) as (q&f&E1&_); [apply Hw|done|].
  rewrite E1 in E. cbn in E. injection E as <- <-. cbn. unfold above in *.
  rewrite (mm_alloc_base (k_frames a.2) 1 q f); [done|apply Hw|unfold is_u32; lia|done].
Qed.

#[export] Program Instance high_memory : KernelMemory kalloc := {|
  km_malloc := heap_malloc;
  km_free := heap_kfree;
  km_page := heap_page;
  km_ok := high_ok;
  km_block := heap_block;
  km_held := heap_held;
|}.
Next Obligation. intros a p n [Hok _]. by apply (km_block_bounds (KernelMemory := heap_memory)). Qed.
Next Obligation. intros a p n q [Hok _]. by apply (km_block_held (KernelMemory := heap_memory)). Qed.
Next Obligation.
  intros a n Hok Hn. destruct (heap_malloc_spec a n (proj1 Hok) Hn) as (p&a'&E&Hok'&Hrest).
  exists p, a'. split; [done|]. split; [split; [done|by eapply high_malloc]|done].
Qed.
Next Obligation.
  intros a p n Hok Hb. destruct (heap_kfree_spec a p n (proj1 Hok) Hb) as (a'&E&Hok'&Hrest).
  exists a'. split; [done|]. split; [split; [done|by eapply high_kfree]|done].
Qed.
Next Obligation.
  intros a Hok. destruct (heap_page_spec a (proj1 Hok)) as (p&a'&E&Hok'&Hrest).
  exists p, a'. split; [done|]. split; [split; [done|by eapply high_page]|done].
Qed.

(** From here on the allocators are these. *)
#[local] Remove Hints heap_memory : typeclass_instances.

Lemma high_block (a : kalloc) p n : km_ok a → km_block a p n → K_SPACE_END ≤ p.
Proof.
  intros [[Hw Hl] Ha] Hb. destruct (heap_block_area a p n Hw Hb) as (B1&B2&B3).
  assert (Hs : fs_live (k_frames a.2) (heap_start a.1 - heap_start a.1 `mod` 4096)).
  { pose proof (Z.mod_pos_bound (heap_start a.1) 4096). apply Hl; [dlia|lia..]. }
  pose proof (mm_live_above _ _ Ha Hs). pose proof (Z.mod_pos_bound (heap_start a.1) 4096). lia.
Qed.

Lemma high_held (a : kalloc) q : km_ok a → km_held a q → K_SPACE_END ≤ q.
Proof. intros [_ Ha] (_&Hl&_). by eapply mm_live_above. Qed.

(** ** [main] *)

(** What the hardware answers: the interrupt mode register, the version, command and id
    registers of the local APIC, the I/O APIC, the seconds of the clock, the timer count and [cr0]. *)
Record hardware : Type := Hardware {
  hw_in23 : Z;
  hw_lapic_ver : Z;
  hw_lapic_cmd : list Z;
  hw_idreg : Z;
  hw_ioapic : Ioapic.ioapic_t;
  hw_seconds : list Z;
  hw_ccr : Z;
  hw_cr0 : Z;
}.

(** What the boot loader left: memory by words (for the memory map and the page tables, as in
    [Paging.v]) and by bytes (for everything else), the memory map, and what the two
    uninitialised counters of [get_mem_info_from_multiboot] held. *)
Record loader : Type := Loader {
  ld_words : mem;
  ld_bytes : mem;
  ld_mmap_addr : Z;
  ld_mmap_length : Z;
  ld_total : Z;
  ld_avail : Z;
}.

(** The addresses of the linked kernel. *)
Record symbols : Type := Symbols {
  sy_k_start : Z;
  sy_apinit_start : Z;
  sy_apinit_end : Z;
  sy_main : Z;                  (* __main *)
  sy_cpu_at : nat → Z;          (* &cpuset[n] *)
  sy_blk_ops : Z;
  sy_all_tasks : Z;
  sy_mm_phys : Z;
  sy_finish_thread : Z;
  sy_K_INIT : Z;
  sy_timer_callback : Z;
  sy_page_fault_handler : Z;
  sy_stop_handler : Z;          (* lapic_irq_stop_cpu_handler *)
  sy_isr : Z → Z;
  sy_irq : Z → Z;
  sy_inval : Z;
  sy_stop : Z;
  sy_timer : Z;
}.

(** The clock that was started. *)
Inductive clock : Type := PitClock (ports : list (Z * Z)) | ApicClock (actions : list Lapic.action).

(** [static void init_timer_cb()] of [src/timer.c]; [cb] is [&timer_callback]. *)
Definition init_timer_cb (cb : Z) (handlers : Z → Z) : Z → Z :=
  (Idt.register_interrupt_handler Idt.IRQ0 cb handlers).2.

(** [void init_apic_timer(_u32 frequency)] *)
Definition init_apic_timer (cb frequency ccr : Z) (seconds : list Z) (handlers : Z → Z)
  : res (list Lapic.action * (Z → Z)) :=
  let handlers := init_timer_cb cb handlers in
  acts ← Lapic.lapic_init_timer frequency ccr seconds;
  Ret (acts, handlers).

(** The clock part of [main]. *)
Definition init_clock (ismp : bool) (cb : Z) (hw : hardware) (handlers : Z → Z)
  : res (clock * (Z → Z)) :=
  if negb ismp then Ret (PitClock (init_pit_timer CLOCK_INT_HZ), init_timer_cb cb handlers)
  else
    '(acts, handlers) ← init_apic_timer cb CLOCK_INT_HZ (hw_ccr hw) (hw_seconds hw) handlers;
    Ret (ApicClock acts, handlers).

(** [void init_global_descriptor_table(cpu_state_t *cpu)] and
    [void init_interrupt_descriptor_table()] *)
Definition init_global_descriptor_table (gdt : Z → Gdt.gdt_entry_t) : Z * (Z → Gdt.gdt_entry_t) :=
  Gdt.init_gdt gdt.
Definition init_interrupt_descriptor_table (sy : symbols) (ismp : bool)
  : Z * list (Z * Z) * (Z → Idt.idt_entry_t) :=
  Idt.init_idt (sy_isr sy) (sy_irq sy) (sy_inval sy) (sy_stop sy) (sy_timer sy) ismp.

(** [void switch_page_directory(page_directory_t *dir)]: [cr3] and [cr0]; the tables are the
    first field. *)
Definition switch_page_directory (dir cr0 : Z) : Z * Z := (dir, Z.lor cr0 0x80000000).

(** The handlers an action of the local APIC code registers. *)
Definition action_handlers (h : Z) (handlers : Z → Z) (acts : list Lapic.action) : Z → Z :=
  foldl (λ hs x, match x with
                 | Lapic.Handler irq => (Idt.register_interrupt_handler irq h hs).2
                 | _ => hs end) handlers acts.

(** The state of the kernel when the first thread is entered. *)
Record booted : Type := Booted {
  bt_mp : mp_state;
  bt_lapic : list Lapic.action;
  bt_gdt : Z → Gdt.gdt_entry_t;
  bt_idt : Z → Idt.idt_entry_t;
  bt_ioapic : Ioapic.ioapic_t;
  bt_paging : paging;
  bt_control : Z * Z;           (* cr3 and cr0 *)
  bt_devices : dstate kalloc;
  bt_boot : boot kalloc;
  bt_clock : clock;
  bt_handlers : Z → Z;
  bt_tasks : kstate kalloc;
  bt_this : nat;                (* the processor that boots *)
  bt_cpu : cpu_state_t;         (* its state after the first [schedule] *)
  bt_statuses : statuses;
}.

Section Main.
Context (hw : hardware) (ld : loader) (sy : symbols).
(** the device table and the functions behind its pointers *)
Context (devs : list dev_t) (driver : Z → nat → dstate kalloc → res (Z * dstate kalloc)).
(** bounds for the loops over the MP table and of the scheduler; what interrupts do meanwhile *)
Context (fuel_mp fuel : nat) (env : statuses → nat → statuses).

(** The first half: processors, tables and controllers. [init_local_apic] is called in
    [init_bootstrap_processor]. *)
Definition main_platform : res (mp_state * list Lapic.action * Ioapic.ioapic_t) :=
  '(ap, st) ← init_bootstrap_processor fuel_mp (hw_in23 hw) (ld_bytes ld) boot_mp;
  lapic ← (if ap : bool
           then Lapic.init_local_apic (lapic_regp st) (hw_lapic_ver hw) (hw_lapic_cmd hw)
           else Ret []);
  _ ← ASSERT (bool_decide (is_Some (get_boot_processor st))) "cpu != NULL";
  io ← Ioapic.init_io_apic (negb (mp_ismp st =? 0)) (ioapic_id st) (hw_ioapic hw);
  Ret (st, lapic, io).

(** The second half: memory, devices, and the other processors. *)
Definition main_memory (st : mp_state) : res (paging * dstate kalloc * boot kalloc) :=
  pg ← init_paging (ld_words ld) (sy_k_start sy) (ld_mmap_addr ld) (ld_mmap_length ld)
         (ld_total ld) (ld_avail ld);
  heap ← init_kheap (Kmem (mm_phys pg, pg_mem pg) (λ _, (0, 0)) ∅);
  d ← init_dev (sy_blk_ops sy) driver (DState (ld_bytes ld) heap devs []);
  let b := Boot (d_mem d) (d_alloc d) [] in
  b ← (if negb (mp_ismp st =? 0)
       then start_smp (sy_apinit_start sy) (sy_apinit_end sy) (sy_main sy) (sy_cpu_at sy) st b
       else Ret b);
  Ret (pg, d, b).

(** The end: the first task, and its start. [get_processor()] without an answer is [NULL];
    the model stops there. *)
Definition main_tasks (st : mp_state) (pg : paging) (b : boot kalloc)
  : res (nat * kstate kalloc * cpu_state_t * statuses) :=
  this ← (match get_processor st (hw_idreg hw) with
          | Some n => Ret n
          | None => Panic "get_processor() == NULL"
          end);
  '(_, k) ← setup_init_task (negb (mp_ismp st =? 0)) (Z.to_nat (mp_ncpu st)) this
              (sy_all_tasks sy) (k_pdir pg) (sy_mm_phys sy) (sy_finish_thread sy) (sy_K_INIT sy)
              (KState (b_mem b) (b_alloc b) ∅ 0 (cpuset st));
  '(c, sts) ← init_sched fuel (k_cpus k this) (statuses_in (k_mem k)) env;
  Ret (this, k, c, sts).

(** [int main(multiboot_t *mbp)], up to the switch to the first thread *)
Definition main : res booted :=
  '(st, lapic, io) ← main_platform;
  let ismp := negb (mp_ismp st =? 0) in
  let '(_, gdt) := init_global_descriptor_table (λ _, Gdt.Seg 0 0 0 0 0 0) in
  let '(_, _, idt) := init_interrupt_descriptor_table sy ismp in
  '(pg, d, b) ← main_memory st;
  let handlers := action_handlers (sy_stop_handler sy) (λ _, 0) lapic in
  let handlers := (Idt.register_interrupt_handler 14 (sy_page_fault_handler sy) handlers).2 in
  '(ck, handlers) ← init_clock ismp (sy_timer_callback sy) hw handlers;
  '(this, k, c, sts) ← main_tasks st pg b;
  Ret (Booted st lapic gdt idt io pg (switch_page_directory (k_pdir pg) (hw_cr0 hw)) d b ck
         handlers k this c sts).

(** ** The machine the kernel boots on *)

(** Several processors in an MP table, numbered from 0, the first of them the bootstrap
    processor; controllers that answer; a clock that runs. *)
Record platform_ok (mp conf : Z) (l : list mp_entry) (flags : Z) : Prop := {
  po_table : mp_table (ld_bytes ld) mp conf l;
  po_fuel : (length l < fuel_mp)%nat;
  po_lapic : load32 (ld_bytes ld) (conf + 36) ≠ NULL;
  po_order : in_order 0 (procs l) = true;
  po_several : (2 ≤ length (procs l))%nat;
  po_first : procs l !! 0%nat = Some (0, flags) ∧ Z.land flags MPBOOT ≠ 0;
  po_idreg : is_u32 (hw_idreg hw) ∧ Z.shiftr (hw_idreg hw) 24 = 0;
  po_sent : Lapic.wait_delivery (hw_lapic_cmd hw) = Ret ();
  po_ioapic : Z.shiftr (Ioapic.table (hw_ioapic hw) Ioapic.REG_ID) 24 = last_ioapic 0 l;
  po_clock : ∃ acts, Lapic.lapic_init_timer CLOCK_INT_HZ (hw_ccr hw) (hw_seconds hw) = Ret acts;
}.

(** A memory map with available memory from below the end of kernel space to well above it. *)
Record memory_ok (n : Z) (pre : list addr_range_t) (e : addr_range_t) (post : list addr_range_t)
  : Prop := {
  mo_kernel : 0x10A000 ≤ sy_k_start sy ≤ 0x1000000;
  mo_map : 1 ≤ n ∧ 0 ≤ ld_mmap_addr ld ∧ ld_mmap_addr ld + 24 * n < 4294967296 ∧
           ld_mmap_length ld = 24 * n;
  mo_sane : Forall sane (ards_table (ld_words ld) (ld_mmap_addr ld) n);
  mo_total : K_SPACE_END + avail_total (ards_table (ld_words ld) (ld_mmap_addr ld) n)
             ≤ LARGE * Z.min (table_frames (sy_k_start sy)) 1023;
  mo_entries : ards_table (ld_words ld) (ld_mmap_addr ld) n = pre ++ e :: post;
  mo_pre : ∀ x, x ∈ pre → ar_type x ≠ ARDS_TYPE_AVAIL ∨
                          base_addr_low x + length_low x < K_SPACE_END;
  mo_avail : ar_type e = ARDS_TYPE_AVAIL ∧ base_addr_low e ≤ K_SPACE_END ∧
             K_SPACE_END + 8192 ≤ base_addr_low e + length_low e;
}.

(** The linked kernel: its data lie in kernel space. *)
Record symbols_ok : Prop := {
  so_image : image (sy_apinit_start sy) (sy_apinit_end sy);
  so_main : is_u32 (sy_main sy);
  so_cpu : ∀ n, is_u32 (sy_cpu_at sy n);
  so_tasks : 16 < sy_all_tasks sy ∧ sy_all_tasks sy + 12 ≤ K_SPACE_END;
  so_mm_phys : is_u32 (sy_mm_phys sy) ∧ sy_mm_phys sy ≠ NULL;
  so_code : is_u32 (sy_K_INIT sy) ∧ is_u32 (sy_finish_thread sy);
}.

(** The devices are block devices with well-behaved drivers; interrupts that come while the
    scheduler polls leave ready threads ready. *)
Record software_ok : Prop := {
  sw_devs : Forall (λ d, type d = DEV_BLOCK) devs;
  sw_driver : ∀ f, driver_ok (sy_blk_ops sy) (driver f);
  sw_fuel : (1 ≤ fuel)%nat;
  sw_env : ∀ st k u, st u = T_READY → env st k u = T_READY;
}.

(** ** The phases *)

Lemma bootstrap_state mp conf l st :
  mp_table (ld_bytes ld) mp conf l → (length l < fuel_mp)%nat →
  init_bootstrap_processor fuel_mp (hw_in23 hw) (ld_bytes ld) boot_mp = Ret (true, st) →
  st = (table_state (ld_bytes ld) mp conf (hw_in23 hw) l boot_mp).2.
Proof.
  intros Ht Hf E. unfold init_bootstrap_processor in E.
  change (MpState (λ _, zero_cpu) _ _ _ _ _) with boot_mp in E.
  rewrite (init_mp_spec fuel_mp _ _ boot_mp mp conf l Ht Hf) in E. cbn [mbind res_bind] in E.
  destruct (table_state _ _ _ _ _ _) as [ap st']. cbn [snd].
  destruct (ap <? 0); [done|]. destruct (0 <? ap); [by injection E as <-|done].
Qed.

Lemma main_platform_spec mp conf l flags :
  platform_ok mp conf l flags →
  ∃ lapic io, main_platform = Ret ((table_state (ld_bytes ld) mp conf (hw_in23 hw) l boot_mp).2, lapic, io) ∧
    Lapic.init_local_apic (load32 (ld_bytes ld) (conf + 36)) (hw_lapic_ver hw) (hw_lapic_cmd hw) = Ret lapic.
Proof.
  intros [Ht Hf Hlap Ho Hn [Hp Hb] [Hi1 Hi2] Hs Hio _]. unfold main_platform.
  destruct (processors_found fuel_mp (hw_in23 hw) (ld_bytes ld) mp conf l 0 (0, flags))
    as (st&E&Hmp&_&Hboot&_); try done; [intros j pf' Hj; lia|].
  pose proof (bootstrap_state _ _ _ _ Ht Hf E) as Hst.
  rewrite E. cbn [mbind res_bind]. rewrite <- Hst.
  assert (Hreg : lapic_regp st = load32 (ld_bytes ld) (conf + 36) ∧ ioapic_id st = last_ioapic 0 l).
  { rewrite Hst. unfold table_state. by rewrite Ho. }
  destruct Hreg as [-> ->]. unfold Lapic.init_local_apic at 1.
  rewrite (proj2 (Z.eqb_neq _ _) Hlap). cbn [negb ASSERT mbind res_bind]. rewrite Hs. cbn [mbind res_bind].
  rewrite Hboot, bool_decide_eq_true_2 by by eexists. cbn [ASSERT mbind res_bind]. rewrite Hmp.
  cbn [Z.eqb negb]. unfold Ioapic.init_io_apic. cbn [negb Ioapic.ioapic_read Ioapic.table].
  rewrite Hio, Z.eqb_refl. cbn [negb mbind res_bind].
  eexists _, _. split; [done|]. unfold Lapic.init_local_apic.
  rewrite (proj2 (Z.eqb_neq _ _) Hlap). cbn [negb ASSERT mbind res_bind]. by rewrite Hs.
Qed.

Definition memory_panics : list string :=
  ["Kernel heap not set up"; "common blk_dev_init failed"; "No memory for AP stack"].

(** What the memory half leaves. *)
Record memory_up (st : mp_state) (pg : paging) (d : dstate kalloc) (b : boot kalloc) : Prop := {
  mu_identity : ∀ va, 0 ≤ va < K_SPACE_END → translate (pg_mem pg) (k_pdir pg) va = Some va;
  mu_space : space_wf (pg_mem pg) (mm_pgtbls pg) (k_pdir pg);
  mu_alloc : km_ok (b_alloc b);
  mu_calls : dc_dev <$> d_calls d = filter (is_onboot devs) (seq 0 (length devs));
  mu_loaded : Forall (loaded (sy_blk_ops sy) (devices d)) (d_calls d);
  mu_started : su_cpu <$> b_started b = aps st;
  mu_handed : Forall (handed_over (sy_apinit_start sy) (sy_apinit_end sy) (sy_main sy)
                        (sy_cpu_at sy) (d_mem d)) (b_started b);
  mu_stacks : NoDup (su_stack <$> b_started b) ∧ Forall (λ u, km_held (b_alloc b) (su_stack u)) (b_started b);
  mu_blocks : ∀ p n, km_block (d_alloc d) p n →
                km_block (b_alloc b) p n ∧ agree (d_mem d) (b_mem b) p n;
}.

Lemma init_kheap_high (f : mmc_t * mem) :
  mm_wf f.2 f.1 → above f →
  init_kheap (Kmem f (λ _, (0, 0)) ∅) = Panic "Kernel heap not set up" ∨
  ∃ a, init_kheap (Kmem f (λ _, (0, 0)) ∅) = Ret a ∧ high_ok a.
Proof.
  intros Hw Ha. unfold init_kheap. set (st := Kmem f _ _).
  assert (Hok : fs_ok (k_frames st)) by exact Hw.
  destruct (init_heap_spec K_HEAP_SIZE st Hok) as (rc&o&st'&E&Hc); [done|].
  rewrite E. cbn [mbind res_bind]. destruct Hc as [[-> ->]|(h&->&->&_)]; [by left|right].
  cbn [Z.eqb]. eexists. split; [done|]. split; [by apply (init_heap_ok K_HEAP_SIZE st)|].
  unfold init_heap in E. destruct (fs_alloc_spec (k_frames st) (PAGE_CONTAIN K_HEAP_SIZE) Hok) as (q&g&Eq&Hg&_);
    [done|]. pose proof (mm_alloc_base _ (PAGE_CONTAIN K_HEAP_SIZE) _ _ Hok ltac:(done) Eq) as Hb1.
  rewrite Eq in E. cbn [mbind res_bind] in E. destruct (q =? NULL); [done|]. unfold HEAP_FB in E.
  apply res_bind_Ret in E as ([mp g']&Em&E). cbn [k_frames set_frames] in Em.
  pose proof (mm_alloc_base _ 1 _ _ Hg ltac:(unfold is_u32; lia) Em) as Hb2.
  destruct (mp =? NULL); [done|]. apply res_bind_Ret in E as (st2&Ef&E).
  apply avail_fill_frames in Ef. cbn in Ef. injection E as <- <-. cbn in *.
  rewrite Ef. unfold above, same_base in *. lia.
Qed.

Lemma main_memory_spec st n pre e post :
  memory_ok n pre e post → symbols_ok → software_ok → mp_ismp st = 1 →
  (∃ msg, main_memory st = Panic msg ∧ msg ∈ memory_panics) ∨
  ∃ pg d b, main_memory st = Ret (pg, d, b) ∧ memory_up st pg d b.
Proof.
  intros [M1 (M2&M3&M4&M5) M6 M7 M8 M9 (M10&M11&M12)] [S1 S2 S3 _ _ _] [W1 W2 _ _] Hmp.
  unfold main_memory, memory_panics. rewrite Hmp. cbn [Z.eqb negb]. rewrite M5.
  destruct (init_paging_spec (ld_words ld) (sy_k_start sy) (ld_mmap_addr ld) n
    (ld_total ld) (ld_avail ld) pre e post)
    as (pg&va'&->&Psp&Pwf&_&_&Pid&_&_&Pmeta&_); [done..|]. cbn [mbind res_bind].
  destruct (init_kheap_high (mm_phys pg, pg_mem pg)) as [->|(a&->&Hok)]; [done| | |].
  { unfold above. cbn. destruct (wf_geom _ _ Pwf). lia. }
  { left. eexists. split; [done|]. left. }
  cbn [mbind res_bind]. unfold init_dev. cbn [devices].
  destruct (init_dev_loop_spec (A := kalloc) (sy_blk_ops sy) driver W2 (length devs) 0
    (DState (A := kalloc) (ld_bytes ld) a devs [])) as [[-> _]|(cs&d&->&[D1 D2 _ _ _ D3 _ D4])]; [done..| |].
  { left. eexists. split; [done|]. right. left. }
  cbn [mbind res_bind]. cbn [d_calls app] in D1. unfold start_smp.
  destruct (start_loop_spec _ _ (sy_main sy) (sy_cpu_at sy) S1 S2 S3 (cpuset st) (Z.to_nat (mp_ncpu st)) 0
    (Boot (d_mem d) (d_alloc d) [])) as [[-> _]|(us&b&->&B1&B2&B3&B4&B5&B6&B7&B8)]; [done| |].
  { left. eexists. split; [done|]. right. right. left. }
  cbn [b_started app b_alloc b_mem] in *. right. exists pg, d, b. split; [done|]. rewrite Forall_forall in B3.
  split; rewrite ?D1, ?B1; try done.
  - apply Forall_forall. intros u Hu. apply (B3 u Hu).
  - split; [done|]. apply Forall_forall. intros u Hu. apply (B3 u Hu).
  - intros p k Hb. split; [by apply B8|]. intros i Hi. apply B7.
    pose proof (high_block _ _ _ D4 Hb). unfold K_SPACE_END in *. lia.
Qed.

(** What the processors look like before tasks exist. *)
Record processors_up (st : mp_state) : Prop := {
  pu_ismp : mp_ismp st = 1;
  pu_this : get_processor st (hw_idreg hw) = Some 0%nat;
  pu_idle : ∀ j, (j < Z.to_nat (mp_ncpu st))%nat → runq (cpuset st j) = [] ∧ rthread (cpuset st j) = NULL;
  pu_several : (2 ≤ Z.to_nat (mp_ncpu st))%nat;
  pu_boot : get_boot_processor st = Some 0%nat ∧ flag_bsp (cpuset st 0%nat) = true;
}.

Lemma processors_are_up mp conf l flags :
  platform_ok mp conf l flags →
  processors_up (table_state (ld_bytes ld) mp conf (hw_in23 hw) l boot_mp).2.
Proof.
  intros [Ht Hf Hlap Ho Hn [Hp Hb] [Hi1 Hi2] _ _ _].
  destruct (processors_found fuel_mp (hw_in23 hw) (ld_bytes ld) mp conf l 0 (0, flags))
    as (st&E&H1&H2&H3&H4); try done; [intros j pf' Hj; lia|].
  pose proof (bootstrap_state _ _ _ _ Ht Hf E) as Hst.
  assert (Hc : ∀ j pf, procs l !! j = Some pf → cpuset st j = cpu_of pf zero_cpu).
  { intros j pf Hj. rewrite Hst. unfold table_state. rewrite Ho. cbn [snd cpuset].
    by rewrite fill_cpus_lookup, Nat.sub_0_r, Hj. }
  rewrite <- Hst. split; [done|by apply H4; [lia|..]| |lia|].
  - intros j Hj. rewrite H2, Nat2Z.id in Hj. destruct (lookup_lt_is_Some_2 _ _ Hj) as [pf Hpf].
    by rewrite (Hc j pf Hpf).
  - split; [done|]. rewrite (Hc 0%nat _ Hp). cbn. by apply negb_true_iff, Z.eqb_neq.
Qed.

Definition tasks_panics : list string :=
  setup_panics ++ ["!cpu->flag_bsp || (cpu->flag_bsp && !list_empty(&cpu->runq))"].

(** The init thread runs on the bootstrap processor. *)
Record tasks_up (b : boot kalloc) (k : kstate kalloc) (c : cpu_state_t) (sts : statuses)
    (t stk taskp page : Z) (s0 : kstate kalloc) : Prop := {
  tu_alloc : km_ok (k_alloc k);
  tu_queued : init_queued (sy_all_tasks sy) (sy_finish_thread sy) (sy_K_INIT sy) 0 s0 t stk taskp page k;
  tu_running : rthread c = t ∧ runq c = [t] ∧ scheduler c = SCHED_RR ∧ sts t = T_RUNNING;
  tu_kept : ∀ p n, km_block (b_alloc b) p n →
              km_block (k_alloc k) p n ∧ agree (b_mem b) (k_mem k) p n;
  tu_stacks : ∀ q, km_held (b_alloc b) q → agree (b_mem b) (k_mem k) q 4096;
}.

Lemma main_tasks_spec st pg b :
  symbols_ok → software_ok → processors_up st → km_ok (b_alloc b) →
  (∃ msg, main_tasks st pg b = Panic msg ∧ msg ∈ tasks_panics) ∨
  ∃ k c sts t stk taskp page, main_tasks st pg b = Ret (0%nat, k, c, sts) ∧
    tasks_up b k c sts t stk taskp page (KState (b_mem b) (b_alloc b) ∅ 0 (cpuset st)).
Proof.
  intros [_ _ _ S4 [S5 S6] [S7 S8]] [_ _ W3 W4] [P1 P2 P3 P4 [_ P5]] Hok. unfold main_tasks.
  rewrite P2, P1. cbn [mbind res_bind Z.eqb negb].
  set (s0 := KState (b_mem b) (b_alloc b) ∅ 0 (cpuset st)).
  destruct (setup_init_task_spec (A := kalloc) true (Z.to_nat (mp_ncpu st)) 0 (sy_all_tasks sy) (k_pdir pg)
    (sy_mm_phys sy) (sy_finish_thread sy) (sy_K_INIT sy) K_SPACE_END high_block S4 S5 S6 S7 S8 s0)
    as [(msg&->&Hmsg)|(k&->&Hok'&Hsp&Hbl&Hc)]; [done..|intros j Hj; by apply P3| |].
  { left. exists msg. split; [done|]. apply elem_of_app. by left. }
  cbn [mbind res_bind]. destruct Hc as [Hc|(t&stk&taskp&page&Hq)].
  { left. eexists. split; [|apply elem_of_app; right; left].
    unfold init_sched. rewrite Hc. cbn [s0 k_cpus]. rewrite P5. destruct (P3 0%nat) as [-> _]; [lia|].
    rewrite bool_decide_eq_true_2 by done. done. }
  right. destruct (P3 0%nat) as [Q1 Q2]; [lia|].
  pose proof (iq_cpus _ _ _ _ _ _ _ _ _ _ Hq) as Hcpus. cbn [s0 k_cpus] in Hcpus.
  assert (Ht : t ≠ NULL).
  { destruct (iq_blocks _ _ _ _ _ _ _ _ _ _ Hq) as (Bt&_).
    pose proof (km_block_bounds _ _ _ Hok' Bt). unfold NULL. lia. }
  destruct (init_sched_first fuel (k_cpus k 0%nat) (statuses_in (k_mem k)) env t W3)
    as (c&sts&->&R1&R2&R3&_&R5); try done.
  - by rewrite Hcpus, fn_lookup_insert.
  - rewrite Hcpus, fn_lookup_insert. cbn. by rewrite Q1.
  - apply Hq.
  - cbn [mbind res_bind]. exists k, c, sts, t, stk, taskp, page. split; [done|].
    destruct Hsp as [Hs1 Hs2]. split; try done. intros p n Hp. split; [by apply Hbl|by apply Hs1].
Qed.

Definition out_of_memory : list string := memory_panics ++ tasks_panics.

(** The handlers that are registered during the boot. *)
Lemma lapic_handlers regp acts h hs :
  Lapic.init_local_apic regp (hw_lapic_ver hw) (hw_lapic_cmd hw) = Ret acts →
  action_handlers h hs acts = <[53 := h]> hs.
Proof.
  unfold Lapic.init_local_apic. destruct (regp =? NULL); cbn [negb ASSERT mbind res_bind]; [done|].
  destruct (Lapic.wait_delivery _) as [[]| |]; cbn [mbind res_bind]; [|done..]. intros [= <-].
  by destruct (4 <=? _).
Qed.

Definition handlers_up (bt : booted) : Prop :=
  bt_handlers bt 14 = sy_page_fault_handler sy ∧ bt_handlers bt 32 = sy_timer_callback sy ∧
  bt_handlers bt 53 = sy_stop_handler sy ∧ ∀ v, v ∉ [14; 32; 53] → bt_handlers bt v = 0.

(** The first thread is entered as a call of [K_INIT(NULL)] that returns to
    [__finish_thread], whatever the machine holds elsewhere. *)
Definition enters_init (k : kstate kalloc) (t stk : Z) : Prop :=
  ∀ callee depth own own_len ra M,
    cdecl callee depth own own_len → 0 ≤ depth ≤ 4080 → apart own own_len stk 4096 →
    is_u32 (regs M ESP) → regs M ESP + 8 < 4294967296 →
    load32 (memory M) (regs M ESP + 4) = t + THR_CONTEXT → untouched (k_mem k) (memory M) t stk →
    calls_with (run callee (switch_to_init ra) M) (sy_K_INIT sy) NULL (sy_finish_thread sy).

(** The booted machine. *)
Record boot_ok (bt : booted) (t stk taskp page : Z) : Prop := {
  bo_processors : processors_up (bt_mp bt) ∧ bt_this bt = 0%nat;
  bo_memory : memory_up (bt_mp bt) (bt_paging bt) (bt_devices bt) (bt_boot bt);
  bo_control : bt_control bt = switch_page_directory (k_pdir (bt_paging bt)) (hw_cr0 hw);
  bo_handlers : handlers_up bt;
  bo_tasks : tasks_up (bt_boot bt) (bt_tasks bt) (bt_cpu bt) (bt_statuses bt) t stk taskp page
               (KState (b_mem (bt_boot bt)) (b_alloc (bt_boot bt)) ∅ 0 (cpuset (bt_mp bt)));
  bo_enters : enters_init (bt_tasks bt) t stk;
}.

Lemma main_boot_spec mp conf l flags n pre e post :
  platform_ok mp conf l flags → memory_ok n pre e post → symbols_ok → software_ok →
  (∃ msg, main = Panic msg ∧ msg ∈ out_of_memory) ∨
  ∃ bt t stk taskp page, main = Ret bt ∧ boot_ok bt t stk taskp page.
Proof.
  intros Hp Hm Hsy Hsw. pose proof (processors_are_up _ _ _ _ Hp) as Hup. unfold main.
  destruct (main_platform_spec _ _ _ _ Hp) as (lapic&io&->&Hlap). cbn [mbind res_bind].
  set (st := (table_state _ _ _ _ _ _).2) in *. clearbody st.
  destruct (po_clock _ _ _ _ Hp) as [acts Hck].
  destruct (init_global_descriptor_table _) as [glim gdt].
  destruct (init_interrupt_descriptor_table _ _) as [[ilim ports] idt].
  destruct (main_memory_spec st n pre e post Hm Hsy Hsw (pu_ismp _ Hup))
    as [(msg&->&Hmsg)|(pg&d&b&->&Hmem)].
  { left. exists msg. split; [done|]. apply elem_of_app. by left. }
  cbn [mbind res_bind]. rewrite (pu_ismp _ Hup). cbn [Z.eqb negb].
  unfold init_clock, init_apic_timer. cbn [negb]. rewrite Hck. cbn [mbind res_bind].
  destruct (main_tasks_spec st pg b Hsy Hsw Hup (mu_alloc _ _ _ _ Hmem))
    as [(msg&->&Hmsg)|(k&c&sts&t&stk&taskp&page&->&Htk)].
  { left. exists msg. split; [done|]. apply elem_of_app. by right. }
  right. cbn [mbind res_bind]. eexists _, t, stk, taskp, page. split; [done|].
  split; cbn [bt_mp bt_paging bt_devices bt_boot bt_control bt_tasks bt_cpu bt_statuses bt_this]; try done.
  - unfold handlers_up. cbn [bt_handlers]. rewrite (lapic_handlers _ _ _ _ Hlap).
    unfold init_timer_cb, Idt.register_interrupt_handler. cbn [snd].
    change (u8 Idt.IRQ0) with 32. change (u8 14) with 14.
    split; [done|]. split; [done|]. split; [done|]. intros v Hv.
    rewrite !not_elem_of_cons in Hv. destruct Hv as (?&?&?&_).
    rewrite !fn_lookup_insert_ne by congruence. done.
  - intros callee depth own own_len ra M. eapply init_thread_starts; [apply Htk|apply Htk].
Qed.
End Main.

(** The example for the clients: two megabytes of frames above kernel space, and the heap on them. *)
Definition high_frames : mmc_t * mem :=
  match minit_pgtbl (λ _, 0) (Mmc 0 0 0 0 0 0 0 0) K_SPACE_END 0x200000 with
  | Ret (_, c, m) => (c, m)
  | _ => (Mmc 0 0 0 0 0 0 0 0, λ _, 0)
  end.

Definition high_heap : kalloc :=
  match init_kheap (Kmem high_frames (λ _, (0, 0)) ∅) with
  | Ret a => a
  | _ => (HeapDesc 0 0 0 0 0, Kmem high_frames (λ _, (0, 0)) ∅)
  end.

Lemma high_frames_ok : mm_wf high_frames.2 high_frames.1 ∧ above high_frames.
Proof.
  destruct (minit_pgtbl_spec (λ _, 0) (Mmc 0 0 0 0 0 0 0 0) K_SPACE_END 0x200000)
    as (c&m&E&Hwf&_); [done..|vm_compute; discriminate|].
  split; [unfold high_frames; rewrite E; exact Hwf|]. vm_compute. discriminate.
Qed.

Lemma high_heap_ok : high_ok high_heap.
Proof.
  destruct high_frames_ok as [Hw Ha].
  assert (Hb : match init_kheap (Kmem high_frames (λ _, (0, 0)) ∅) with Panic _ => false | _ => true end = true)
    by (vm_compute; reflexivity).
  destruct (init_kheap_high high_frames Hw Ha) as [E|(a&E&Hok)].
  - rewrite E in Hb. discriminate Hb.
  - unfold high_heap. rewrite E. exact Hok.
Qed.

(** ** The other processors *)

(** [void init_application_processor()] of [src/cpu.c] *)
Definition init_application_processor (regp ver : Z) (cmd : list Z) : res (list Lapic.action) :=
  Lapic.init_local_apic regp ver cmd.

(** [static int __main(cpu_state_t *cpu)], up to its [init_sched], which polls the empty run
    queue of the processor until a thread is added. *)
Definition __main (hw : hardware) (sy : symbols) (st : mp_state) (gdt : Z → Gdt.gdt_entry_t)
    (k_pdir : Z) (fuel : nat) (cpu : cpu_state_t) (sts : statuses) (env : statuses → nat → statuses)
  : res (list Lapic.action * (Z → Gdt.gdt_entry_t) * (Z → Idt.idt_entry_t) * (Z * Z) *
         (cpu_state_t * statuses)) :=
  acts ← init_application_processor (lapic_regp st) (hw_lapic_ver hw) (hw_lapic_cmd hw);
  let '(_, gdt) := init_global_descriptor_table gdt in
  let '(_, _, idt) := init_interrupt_descriptor_table sy (negb (mp_ismp st =? 0)) in
  let control := switch_page_directory k_pdir (hw_cr0 hw) in
  r ← init_sched fuel cpu sts env;
  Ret (acts, gdt, idt, control, r).

(** An application processor without threads does not leave [__main]. *)
Lemma rr_loop_empty fuel : ∀ cur tlist env k,
  rthread cur = NULL → runq cur = [] → sched_rr_loop fuel cur tlist env k = Diverge.
Proof.
  induction fuel as [|fuel IH]; intros cur tlist env k Hr Hq; [done|]. cbn [sched_rr_loop].
  rewrite Hr, Hq. cbn [Z.eqb NULL negb]. by apply IH.
Qed.

Lemma ap_waits hw sy st gdt pdir fuel cpu sts env acts :
  Lapic.init_local_apic (lapic_regp st) (hw_lapic_ver hw) (hw_lapic_cmd hw) = Ret acts →
  flag_bsp cpu = false → rthread cpu = NULL → runq cpu = [] →
  __main hw sy st gdt pdir fuel cpu sts env = Diverge.
Proof.
  intros Ha Hb Hr Hq. unfold __main, init_application_processor. rewrite Ha. cbn [mbind res_bind].
  destruct (init_global_descriptor_table _), (init_interrupt_descriptor_table _ _) as [[??]?].
  unfold init_sched. rewrite Hb. cbn [negb orb ASSERT mbind res_bind].
  unfold schedule, pick_next_thread, __do_sched_rr. cbn [scheduler set_scheduler preempt_disable set_preempt].
  by rewrite rr_loop_empty.
Qed.

(** The init thread goes to the first slot of [cpuset]. When the bootstrap processor has another
    one, its own queue stays empty and the assertion of [init_sched] stops the boot. *)
Lemma bootstrap_not_first_panics hw sy fuel env st pg b bsp :
  symbols_ok sy → mp_ismp st = 1 → get_processor st (hw_idreg hw) = Some bsp → bsp ≠ 0%nat →
  flag_bsp (cpuset st bsp) = true → (∀ j, runq (cpuset st j) = []) → km_ok (b_alloc b) →
  ∃ msg, main_tasks hw sy fuel env st pg b = Panic msg.
Proof.
  intros [_ _ _ S4 [S5 S6] [S7 S8]] P1 P2 Hne Hb Hidle Hok. unfold main_tasks.
  rewrite P2, P1. cbn [mbind res_bind Z.eqb negb].
  destruct (setup_init_task_spec (A := kalloc) true (Z.to_nat (mp_ncpu st)) bsp (sy_all_tasks sy)
    (k_pdir pg) (sy_mm_phys sy) (sy_finish_thread sy) (sy_K_INIT sy) K_SPACE_END high_block S4 S5 S6 S7 S8
    (KState (b_mem b) (b_alloc b) ∅ 0 (cpuset st)))
    as [(msg&->&Hmsg)|(k&->&_&_&_&Hc)]; [done..|intros j Hj; apply Hidle| |].
  { by exists msg. }
  assert (Hk : k_cpus k bsp = cpuset st bsp).
  { destruct Hc as [->|(t&stk&taskp&page&Hq)]; [done|].
    rewrite (iq_cpus _ _ _ _ _ _ _ _ _ _ Hq). by rewrite fn_lookup_insert_ne. }
  cbn [mbind res_bind]. unfold init_sched. rewrite Hk, Hb, Hidle.
  rewrite bool_decide_eq_true_2 by done. by eexists.
Qed.

(** ** Properties *)


(** Two processors, 17 MB of memory from 1 MB on, the two devices of the source. *)
Definition demo_hw : hardware := Hardware 0 0x50014 [0] 0 Ioapic.demo_ioapic [1; 1; 2; 3] 1000 1.
Definition small_map : mem :=
  <[0x9004 := 0x100000]> (<[0x900C := 0x1040000]> (<[0x9014 := 1]> (λ _, 0))).
Definition demo_ld : loader := Loader small_map demo_bios 0x9000 24 7 7.
Definition demo_sy : symbols :=
  Symbols 0x200000 0x100000 0x100040 0x201000 (λ n, 0x210000 + 256 * (Z.of_nat n `mod` 32)) 0x202000
    0x203000 0x204000 0x205000 0x206000 0x207000 0x208000 0x209000
    (λ i, 0x20A000 + i `mod` 256) (λ i, 0x20B000 + i `mod` 256) 1 2 3.

Lemma demo_boots :
  match main demo_hw demo_ld demo_sy devices_demo (λ _, init_ide_master) 4 1 (λ st _, st) with
  | Panic _ => false | _ => true end = true.
Proof. vm_compute. reflexivity. Qed.

