(* ===== verification/RamfsInit.v ===== *)
(** * The RAM disk at boot: [init_ramfs] of [src/ramfs.c] in memory

    [init_dev] calls the drivers through pointers; [DeviceInit.v] says in [driver_ok] what it relies
    on. Here [init_ramfs], with [bdev_init_buffer_cache] of [src/bbuf.c], works on the
    structures in memory, and is shown to be such a driver: the kernel boots with it. *)
From S2P Require Import Prelude Memory MM MMProofs FrameSource Heap HeapProofs Paging KernelMemory Threads Sched Device DeviceInit TaskProofs Main.

(** ** [buf_cache_t] and [dev_ramfs_t] in memory *)

Definition BUF_BDEV : Z := 0.
Definition BUF_BLKNO : Z := 4.
Definition BUF_FLAGS : Z := 8.
Definition BUF_LIST : Z := 12.
Definition BUF_IO : Z := 20.
Definition BUF_WQ : Z := 28.
Definition BUF_USR : Z := 36.
Definition BUF_DATA : Z := 40.
Definition SIZEOF_BUF : Z := 552.
Definition B_UNUSED : Z := 8.

Definition RAMFS_RAMHEAD : Z := 8.
Definition RAMFS_RAMLOCK : Z := 12.
Definition SIZEOF_RAMFS : Z := 40.
Definition BDEV_META : Z := 60.

Definition RAMFS_PAGES : Z := 10.
Definition RAMFS_BUF_BLKS : nat := 100.

(** [list_add_tail(new, head)] *)
Definition list_add_tail_at (new head : Z) (m : mem) : mem :=
  let prv := load32 m (head + 4) in
  let m := store32 m (head + 4) new in
  let m := store32 m new head in
  let m := store32 m (new + 4) prv in
  store32 m prv new.

(** The stores to one new buffer *)
Definition buf_stores (bdev buf : Z) (m : mem) : mem :=
  let m := store32 m (buf + BUF_BDEV) bdev in
  let m := store32 m (buf + BUF_BLKNO) 0 in
  let m := store32 m (buf + BUF_FLAGS) B_UNUSED in
  let m := store32 m (buf + BUF_USR) NULL in
  let m := list_add_tail_at (buf + BUF_LIST) (bdev + BDEV_LIST) m in
  let m := init_list_at (buf + BUF_IO) m in
  let m := init_list_at (buf + BUF_WQ) m in
  bzero m (buf + BUF_DATA) BLOCK_SIZE.

Section Cache.
Context {A : Type} `{KM : KernelMemory A}.

(** [for (; blks > 0; blks--)] *)
Fixpoint buffer_loop (blks : nat) (bdev : Z) (m : mem) (a : A) : res (Z * mem * A) :=
  match blks with
  | O => Ret (OK, m, a)
  | S blks =>
      '(buf, a) ← km_malloc a SIZEOF_BUF;
      if buf =? NULL then Ret (-1, m, a)
      else buffer_loop blks bdev (buf_stores bdev buf m) a
  end.

(** [int bdev_init_buffer_cache(blk_dev_t *bdev, size_t blks)] *)
Definition bdev_init_buffer_cache (bdev : Z) (blks : nat) (m : mem) (a : A) : res (Z * mem * A) :=
  buffer_loop blks bdev (store32 m (bdev + BDEV_BUF_NUM) (Z.of_nat blks)) a.
End Cache.

(** ** The driver *)

(** [void *get_free_pages(size_t npg)] and [int free_pages(void *page)] *)
Definition get_free_pages (a : kalloc) (npg : Z) : res (Z * kalloc) :=
  '(p, f) ← mm_alloc (k_frames a.2) npg; Ret (p, (a.1, set_frames f a.2)).
Definition free_pages (a : kalloc) (page : Z) : res (Z * kalloc) :=
  '(rc, c, m) ← free_frames (k_frames a.2).2 (k_frames a.2).1 page;
  Ret (rc, (a.1, set_frames (c, m) a.2)).

(** The labels [heap_failed] and [bbuf_failed]; [ramfs] is null at the first. *)
Definition bbuf_failed (err fs_head : Z) (m : mem) (a : kalloc) : res (Z * mem * kalloc) :=
  '(_, a) ← (if negb (fs_head =? NULL) then free_pages a fs_head else Ret (0, a));
  Ret (err, m, a).

(** [int init_ramfs(dev_t *dev)] from [blk_dev = dev->ptr] on; [ops] is [&ramfs_dev_ops]. *)
Definition init_ramfs_at (ops blk_dev : Z) (m : mem) (a : kalloc) : res (Z * mem * kalloc) :=
  _ ← ASSERT (negb (blk_dev =? NULL)) "blk_dev != NULL";
  let m := store32 m (blk_dev + BDEV_OPS) ops in
  '(fs_head, a) ← get_free_pages a RAMFS_PAGES;
  if fs_head =? NULL then Ret (-2, m, a)
  else
    let size := load32 m (blk_dev + BDEV_BLOCK_SIZE) in
    if size =? 0 then Panic "divide error"
    else
      let m := store32 m (blk_dev + BDEV_TOTAL_BLKS) (RAMFS_PAGES * PAGE_SIZE / size) in
      '(err, m, a) ← bdev_init_buffer_cache blk_dev RAMFS_BUF_BLKS m a;
      if negb (err =? 0) then bbuf_failed err fs_head m a
      else
        '(ramfs, a) ← km_malloc a SIZEOF_RAMFS;
        if ramfs =? NULL then bbuf_failed (-3) fs_head m a
        else
          let m := store32 m (ramfs + RAMFS_RAMHEAD) fs_head in
          let m := mutex_init_at (ramfs + RAMFS_RAMLOCK) m in
          Ret (OK, store32 m (blk_dev + BDEV_META) ramfs, a).

Definition init_ramfs (ops : Z) (dev : nat) (s : dstate kalloc) : res (Z * dstate kalloc) :=
  match devices s !! dev with
  | None => Panic "no such device"
  | Some d =>
      '(st, m, a) ← init_ramfs_at ops (ptr d) (d_mem s) (d_alloc s);
      Ret (st, DState m a (devices s) (d_calls s))
  end.

(** ** Rings in memory *)

(** [a->next] is [b] and [b->prev] is [a]. *)
Definition linked (m : mem) (a b : Z) : Prop := load32 m a = b ∧ load32 m (b + 4) = a.

(** The list with the head [h] and the nodes [l] *)
Definition ring_at (m : mem) (h : Z) (l : list Z) : Prop := Forall2 (linked m) (h :: l) (l ++ [h]).

(** Nodes that do not overlap. *)
Definition spread (l : list Z) : Prop :=
  NoDup l ∧ (∀ x y, x ∈ l → y ∈ l → x ≠ y → apart x 8 y 8) ∧ ∀ x, x ∈ l → 0 ≤ x ∧ x + 8 < 4294967296.

Lemma ring_last m h l z L :
  ring_at m h l → h :: l = L ++ [z] → load32 m (h + 4) = z ∧ Forall2 (linked m) L l.
Proof.
  intros Hr E. unfold ring_at in Hr. rewrite E in Hr.
  assert (Hlen : length L = length l).
  { pose proof (f_equal length E) as El. rewrite length_app in El. cbn in El. lia. }
  apply Forall2_app_inv in Hr as [H1 H2]; [|done].
  apply Forall2_cons in H2 as [[_ H2] _]. by split.
Qed.

Lemma list_add_tail_ring m h l new :
  spread (h :: l ++ [new]) → ring_at m h l → ring_at (list_add_tail_at new h m) h (l ++ [new]).
Proof.
  intros (Hnd&Hap&Hrg) Hr.
  destruct (exists_last (l := h :: l)) as (L&z&E); [done|].
  destruct (ring_last m h l z L Hr E) as [Hz HL].
  assert (Hzin : z ∈ h :: l) by (rewrite E; set_solver).
  assert (HLin : ∀ x, x ∈ L → x ∈ h :: l) by (rewrite E; set_solver).
  assert (Hnew : new ∉ h :: l).
  { change (h :: l ++ [new]) with ((h :: l) ++ [new]) in Hnd. apply NoDup_app in Hnd as (_&Hd&_). set_solver. }
  assert (HLz : z ∉ L).
  { change (h :: l ++ [new]) with ((h :: l) ++ [new]) in Hnd. rewrite E in Hnd.
    apply NoDup_app in Hnd as (Hnd&_&_). apply NoDup_app in Hnd as (_&Hd&_). set_solver. }
  assert (Hhl : h ∉ l) by (apply NoDup_cons in Hnd as [Hh _]; set_solver).
  assert (In : ∀ x, x ∈ h :: l → x ∈ h :: l ++ [new]) by set_solver.
  assert (Inew : new ∈ h :: l ++ [new]) by set_solver.
  pose proof (Hrg h (In h ltac:(left))) as Rh. pose proof (Hrg z (In z Hzin)) as Rz.
  pose proof (Hrg new Inew) as Rn.
  assert (An : ∀ x, x ∈ h :: l → apart x 8 new 8) by (intros x Hx; apply Hap; [by apply In|done|set_solver]).
  assert (Ah : ∀ x y, x ∈ h :: l → y ∈ h :: l → x ≠ y → apart x 8 y 8) by (intros; apply Hap; auto).
  pose proof (An h ltac:(left)) as Ahn. pose proof (An z Hzin) as Azn.
  unfold ring_at, list_add_tail_at. cbv zeta. rewrite Hz. set (m' := store32 _ z new).
  assert (Hzh : apart z 4 (h + 4) 4).
  { destruct (decide (z = h)) as [->|Hne]; [unfold apart; lia|].
    pose proof (Ah z h Hzin ltac:(left) Hne). unfold apart in *. lia. }
  change (h :: l ++ [new]) with ((h :: l) ++ [new]). rewrite E, <- !app_assoc.
  unfold is_u32 in *. apply Forall2_app; [|constructor; [|constructor; [|constructor]]].
  - apply Forall2_same_length_lookup. split; [by eapply Forall2_length|]. intros i a b La Lb.
    destruct (Forall2_lookup_lr _ _ _ _ _ _ HL La Lb) as [L1 L2].
    apply list_elem_of_lookup_2 in La as Ha. apply list_elem_of_lookup_2 in Lb as Hb.
    assert (a ∈ h :: l) as Ha' by auto. assert (b ∈ h :: l) as Hb' by set_solver.
    assert (a ≠ z) by (intros ->; done). assert (b ≠ h) by (intros ->; done).
    pose proof (An a Ha') as Aan. pose proof (An b Hb') as Abn.
    pose proof (Ah a z Ha' Hzin ltac:(done)) as Aaz. pose proof (Ah b h Hb' ltac:(left) ltac:(done)) as Abh.
    assert (Aah : apart a 4 (h + 4) 4).
    { destruct (decide (a = h)) as [->|Hne]; [unfold apart; lia|].
      pose proof (Ah a h Ha' ltac:(left) Hne). unfold apart in *. lia. }
    assert (Abz : apart (b + 4) 4 z 4).
    { destruct (decide (b = z)) as [->|Hne]; [unfold apart; lia|].
      pose proof (Ah b z Hb' Hzin Hne). unfold apart in *. lia. }
    subst m'. unfold linked, apart in *. split; mem_load; done.
  - subst m'. unfold linked, apart in *. split; mem_load; apply u32_small; unfold is_u32; lia.
  - subst m'. unfold linked, apart in *. split; mem_load; apply u32_small; unfold is_u32; lia.
Qed.

Lemma ring_at_agree m m' h l :
  (∀ x, x ∈ h :: l → agree m m' x 8) → ring_at m h l → ring_at m' h l.
Proof.
  intros Ha Hr. unfold ring_at in *. apply Forall2_same_length_lookup. split; [by eapply Forall2_length|].
  intros i a b La Lb. destruct (Forall2_lookup_lr _ _ _ _ _ _ Hr La Lb) as [L1 L2].
  apply list_elem_of_lookup_2 in La, Lb.
  assert (b ∈ h :: l) as Hb by set_solver. split.
  - by rewrite (agree_load m m' a 8) by (auto || lia).
  - by rewrite (agree_load m m' b 8) by (auto || lia).
Qed.

Lemma list_add_tail_out m new h z a :
  load32 m (h + 4) = z → ¬ (h + 4 ≤ a < h + 8) → ¬ (new ≤ a < new + 8) → ¬ (z ≤ a < z + 4) →
  list_add_tail_at new h m a = m a.
Proof. intros Hz H1 H2 H3. unfold list_add_tail_at. cbv zeta. rewrite Hz, !store32_out by lia. done. Qed.

(** ** New buffers *)

Record buf_fresh (m : mem) (bdev b : Z) : Prop := {
  bf_bdev : load32 m (b + BUF_BDEV) = bdev;
  bf_blkno : load32 m (b + BUF_BLKNO) = 0;
  bf_flags : load32 m (b + BUF_FLAGS) = B_UNUSED;
  bf_usr : load32 m (b + BUF_USR) = NULL;
  bf_io : load32 m (b + BUF_IO) = b + BUF_IO ∧ load32 m (b + BUF_IO + 4) = b + BUF_IO;
  bf_wq : load32 m (b + BUF_WQ) = b + BUF_WQ ∧ load32 m (b + BUF_WQ + 4) = b + BUF_WQ;
  bf_data : ∀ i, 0 ≤ i < BLOCK_SIZE → m (b + BUF_DATA + i) = 0;
}.

Ltac buf_offsets :=
  unfold BUF_BDEV, BUF_BLKNO, BUF_FLAGS, BUF_LIST, BUF_IO, BUF_WQ, BUF_USR, BUF_DATA, SIZEOF_BUF, BLOCK_SIZE,
    BDEV_LIST, BDEV_BUF_NUM, init_list_at in *.

Lemma buf_fresh_agree m m' bdev b :
  agree m m' b 12 → agree m m' (b + 20) 532 → buf_fresh m bdev b → buf_fresh m' bdev b.
Proof.
  intros A1 A2 [F1 F2 F3 F4 F5 F6 F7]. split; buf_offsets.
  - by rewrite (agree_load _ _ _ _ _ A1) by lia.
  - by rewrite (agree_load _ _ _ _ _ A1) by lia.
  - by rewrite (agree_load _ _ _ _ _ A1) by lia.
  - by rewrite (agree_load _ _ _ _ _ A2) by lia.
  - by rewrite !(agree_load _ _ _ _ _ A2) by lia.
  - by rewrite !(agree_load _ _ _ _ _ A2) by lia.
  - intros i Hi. rewrite A2 by lia. by apply F7.
Qed.

(** The four plain stores to a buffer, and what follows the list insertion. *)
Definition buf_head (bdev buf : Z) (m : mem) : mem :=
  store32 (store32 (store32 (store32 m (buf + BUF_BDEV) bdev) (buf + BUF_BLKNO) 0)
    (buf + BUF_FLAGS) B_UNUSED) (buf + BUF_USR) NULL.
Definition buf_rest (buf : Z) (m : mem) : mem :=
  bzero (init_list_at (buf + BUF_WQ) (init_list_at (buf + BUF_IO) m)) (buf + BUF_DATA) BLOCK_SIZE.

Lemma buf_stores_eq bdev buf m :
  buf_stores bdev buf m =
  buf_rest buf (list_add_tail_at (buf + BUF_LIST) (bdev + BDEV_LIST) (buf_head bdev buf m)).
Proof. done. Qed.

Lemma buf_head_out bdev buf m a :
  ¬ (buf ≤ a < buf + 12) → ¬ (buf + 36 ≤ a < buf + 40) → buf_head bdev buf m a = m a.
Proof. intros H1 H2. unfold buf_head. buf_offsets. rewrite !store32_out by lia. done. Qed.

Lemma buf_rest_out buf m a : ¬ (buf + 20 ≤ a < buf + 36) → ¬ (buf + 40 ≤ a < buf + 552) → buf_rest buf m a = m a.
Proof.
  intros H1 H2. unfold buf_rest. buf_offsets. unfold bzero.
  destruct (Z.leb_spec (buf + 40) a), (Z.ltb_spec a (buf + 40 + 512)); cbn [andb]; try lia;
    rewrite !store32_out by lia; done.
Qed.

(** What one round leaves alone: all but the buffer, the last link of the list and the head's. *)
Lemma buf_stores_out bdev buf m z a :
  apart buf 552 (bdev + 12) 8 → load32 m (bdev + 16) = z →
  ¬ (buf ≤ a < buf + 552) → ¬ (bdev + 16 ≤ a < bdev + 20) → ¬ (z ≤ a < z + 4) →
  buf_stores bdev buf m a = m a.
Proof.
  intros Hap Hz H1 H2 H3. rewrite buf_stores_eq, buf_rest_out by lia. unfold BUF_LIST, BDEV_LIST.
  rewrite (list_add_tail_out _ _ _ z); [apply buf_head_out; lia| |lia..].
  rewrite <- Hz. replace (bdev + 12 + 4) with (bdev + 16) by lia. apply load32_agree.
  intros i Hi. apply buf_head_out; unfold apart in *; lia.
Qed.

Lemma buf_stores_fresh bdev buf m z :
  is_u32 bdev → 0 < buf → buf + 552 < 4294967296 → apart buf 552 (bdev + 12) 8 →
  load32 m (bdev + 16) = z → apart buf 552 z 4 → buf_fresh (buf_stores bdev buf m) bdev buf.
Proof.
  intros Hb B1 B2 Hap Hz Haz. rewrite buf_stores_eq.
  set (m1 := list_add_tail_at _ _ _).
  assert (Hh : ∀ i, buf ≤ i < buf + 12 ∨ buf + 36 ≤ i < buf + 40 → m1 i = buf_head bdev buf m i).
  { intros i Hi. unfold m1, BUF_LIST, BDEV_LIST. apply (list_add_tail_out _ _ _ z); unfold apart in *; [|lia..].
    rewrite <- Hz. replace (bdev + 12 + 4) with (bdev + 16) by lia. apply load32_agree.
    intros j Hj. apply buf_head_out; lia. }
  assert (A1 : agree (buf_head bdev buf m) (buf_rest buf m1) buf 12).
  { intros i Hi. rewrite buf_rest_out, Hh by lia. done. }
  assert (A2 : agree (buf_head bdev buf m) (buf_rest buf m1) (buf + 36) 4).
  { intros i Hi. rewrite buf_rest_out, Hh by lia. done. }
  assert (Hbz : ∀ m a b n, 0 ≤ n → a + 4 ≤ b → load32 (bzero m b n) a = load32 m a).
  { intros m0 a b n Hn Hab. apply load32_agree. apply bzero_agree. unfold apart. lia. }
  split; buf_offsets.
  - rewrite (agree_load _ _ _ _ _ A1) by lia. unfold buf_head. buf_offsets. mem_load. by apply u32_small.
  - rewrite (agree_load _ _ _ _ _ A1) by lia. unfold buf_head. buf_offsets. by mem_load.
  - rewrite (agree_load _ _ _ _ _ A1) by lia. unfold buf_head. buf_offsets. by mem_load.
  - rewrite (agree_load _ _ _ _ _ A2) by lia. unfold buf_head. buf_offsets. by mem_load.
  - unfold buf_rest. buf_offsets. rewrite !Hbz by lia. split; mem_load; apply u32_small; unfold is_u32; lia.
  - unfold buf_rest. buf_offsets. rewrite !Hbz by lia. split; mem_load; apply u32_small; unfold is_u32; lia.
  - intros i Hi. unfold buf_rest. buf_offsets. unfold bzero.
    by rewrite (proj2 (Z.leb_le _ _)), (proj2 (Z.ltb_lt _ _)) by lia.
Qed.

Section CacheProofs.
Context {A : Type} `{KM : KernelMemory A}.

(** The device at [bdev] with the buffers [r], the newest first: they are the blocks that were
    allocated since [a0], they are fresh and on the list of the device in the order of their
    allocation, and nothing else has changed since [m0]. *)
Record cache_at (bdev : Z) (m0 : mem) (a0 : A) (r : list Z) (m : mem) (a : A) : Prop := {
  ca_blocks : blocks_plus a0 ((λ b, (b, SIZEOF_BUF)) <$> r) a;
  ca_ring : ring_at m (bdev + BDEV_LIST) ((λ b, b + BUF_LIST) <$> reverse r);
  ca_fresh : ∀ b, b ∈ r → buf_fresh m bdev b;
  ca_nodup : NoDup r;
  ca_apart : ∀ b b', b ∈ r → b' ∈ r → b ≠ b' → apart b SIZEOF_BUF b' SIZEOF_BUF;
  ca_frame : ∀ p n, apart p n (bdev + BDEV_LIST) 8 → (∀ b, b ∈ r → apart p n b SIZEOF_BUF) →
    agree m0 m p n;
}.

Context (bdev : Z) (m0 : mem) (a0 : A).
Context (Hok0 : km_ok a0) (Hdev : km_block a0 bdev SIZEOF_BDEV).

Lemma cache_dev_apart r m a b : cache_at bdev m0 a0 r m a → b ∈ r → apart b SIZEOF_BUF bdev SIZEOF_BDEV.
Proof.
  intros Hc Hb. apply apart_sym. eapply (bp_apart _ _ _ (ca_blocks _ _ _ _ _ _ Hc)); [done|].
  apply list_elem_of_fmap. by exists b.
Qed.

Lemma cache_range r m a b :
  cache_at bdev m0 a0 r m a → b ∈ r → 0 < b ∧ b + SIZEOF_BUF < 4294967296.
Proof.
  intros Hc Hb. destruct (km_block_bounds a b SIZEOF_BUF) as (?&_&?); [apply Hc| |done].
  apply (ca_blocks _ _ _ _ _ _ Hc). right. apply list_elem_of_fmap. by exists b.
Qed.

(** The nodes of the list do not overlap. *)
Lemma cache_spread r m a new :
  cache_at bdev m0 a0 r m a → 0 < new → new + SIZEOF_BUF < 4294967296 →
  (∀ b, b ∈ r → apart b SIZEOF_BUF new SIZEOF_BUF) → apart bdev SIZEOF_BDEV new SIZEOF_BUF →
  spread ((bdev + BDEV_LIST) :: ((λ b, b + BUF_LIST) <$> reverse r) ++ [new + BUF_LIST]).
Proof.
  intros Hc N1 N2 Hn Hbn. pose proof (km_block_bounds _ _ _ Hok0 Hdev) as (D1&_&D2).
  assert (Hin : ∀ x, x ∈ ((λ b, b + BUF_LIST) <$> reverse r) → ∃ b, x = b + BUF_LIST ∧ b ∈ r).
  { intros x (b&->&Hb)%list_elem_of_fmap. exists b. split; [done|]. by rewrite elem_of_reverse in Hb. }
  pose proof (cache_dev_apart r m a) as Hd. unfold SIZEOF_BUF, SIZEOF_BDEV, BUF_LIST, BDEV_LIST, apart in *.
  split_and!.
  - apply NoDup_cons. split.
    + intros [Hx|Hx%list_elem_of_singleton]%elem_of_app; [|lia].
      destruct (Hin _ Hx) as (b&E&Hb). pose proof (Hd b Hc Hb). lia.
    + apply NoDup_app. split_and!.
      * apply NoDup_fmap_2_strong; [intros x y _ _ E; lia|].
        rewrite reverse_Permutation. exact (ca_nodup _ _ _ _ _ _ Hc).
      * intros x Hx [= ->]%list_elem_of_singleton. destruct (Hin _ Hx) as (b&E&Hb). pose proof (Hn b Hb). lia.
      * apply NoDup_singleton.
  - intros x y Hx Hy Hne. unfold apart.
    apply elem_of_cons in Hx as [->|[Hx|Hx%list_elem_of_singleton]%elem_of_app];
      apply elem_of_cons in Hy as [->|[Hy|Hy%list_elem_of_singleton]%elem_of_app]; subst; try lia.
    + destruct (Hin _ Hy) as (b&->&Hb). pose proof (Hd b Hc Hb). lia.
    + destruct (Hin _ Hx) as (b&->&Hb). pose proof (Hd b Hc Hb). lia.
    + destruct (Hin _ Hx) as (b&->&Hb), (Hin _ Hy) as (b'&->&Hb').
      pose proof (ca_apart _ _ _ _ _ _ Hc b b' Hb Hb' ltac:(lia)) as Hbb. unfold SIZEOF_BUF, apart in Hbb. lia.
    + destruct (Hin _ Hx) as (b&->&Hb). pose proof (Hn b Hb). lia.
    + destruct (Hin _ Hy) as (b&->&Hb). pose proof (Hn b Hb). lia.
  - intros x Hx. apply elem_of_cons in Hx as [->|[Hx|Hx%list_elem_of_singleton]%elem_of_app]; [lia| |lia].
    destruct (Hin _ Hx) as (b&->&Hb). pose proof (cache_range r m a b Hc Hb) as Hr. unfold SIZEOF_BUF in Hr. lia.
Qed.

(** The link that the next insertion changes is the head's or that of a buffer. *)
Lemma cache_last r m a :
  cache_at bdev m0 a0 r m a →
  ∃ z, load32 m (bdev + 16) = z ∧ (z = bdev + 12 ∨ ∃ b, b ∈ r ∧ z = b + 12).
Proof.
  intros Hc. set (l := (λ b, b + BUF_LIST) <$> reverse r).
  destruct (exists_last (l := (bdev + BDEV_LIST) :: l)) as (L&z&E); [done|].
  destruct (ring_last m _ _ z L (ca_ring _ _ _ _ _ _ Hc) E) as [Hz _].
  unfold BDEV_LIST in Hz. replace (bdev + 12 + 4) with (bdev + 16) in Hz by lia. exists z. split; [done|].
  assert (Hin : z ∈ (bdev + BDEV_LIST) :: l) by (rewrite E; set_solver).
  apply elem_of_cons in Hin as [->|(b&->&Hb)%list_elem_of_fmap]; [by left|right].
  exists b. split; [by rewrite elem_of_reverse in Hb|done].
Qed.

Lemma cache_step r m a p a' :
  cache_at bdev m0 a0 r m a → blocks_plus a [(p, SIZEOF_BUF)] a' →
  0 < p → p + SIZEOF_BUF < 4294967296 →
  cache_at bdev m0 a0 (p :: r) (buf_stores bdev p m) a'.
Proof.
  intros Hc Hb P1 P2. destruct (blocks_plus_app _ _ _ _ _ _ (ca_blocks _ _ _ _ _ _ Hc) Hb) as [Hbl Hap].
  pose proof (km_block_bounds _ _ _ Hok0 Hdev) as (D1&_&D2).
  assert (Hpr : ∀ b, b ∈ r → apart b SIZEOF_BUF p SIZEOF_BUF).
  { intros b Hbr. apply Hap, list_elem_of_fmap. by exists b. }
  assert (Hpd : apart bdev SIZEOF_BDEV p SIZEOF_BUF).
  { eapply (bp_apart _ _ _ Hb); [|left]. apply (ca_blocks _ _ _ _ _ _ Hc). by left. }
  destruct (cache_last r m a Hc) as (z&Hz&Hzc).
  pose proof (λ b, cache_dev_apart r m a b Hc) as Hd.
  pose proof (cache_spread r m a p Hc P1 P2 Hpr Hpd) as Hsp.
  assert (Hout : ∀ i, ¬ (p ≤ i < p + 552) → ¬ (bdev + 16 ≤ i < bdev + 20) → ¬ (z ≤ i < z + 4) →
    buf_stores bdev p m i = m i).
  { intros i. apply buf_stores_out; [|done]. unfold apart, SIZEOF_BUF, SIZEOF_BDEV in *. lia. }
  destruct Hc as [Cb Cr Cf Cn Ca Cm]. split.
  - exact Hbl.
  - rewrite reverse_cons, fmap_app, buf_stores_eq. cbn [fmap list_fmap].
    assert (Hin : ∀ x, x ∈ ((bdev + BDEV_LIST) :: ((λ b, b + BUF_LIST) <$> reverse r)) →
      apart x 8 p SIZEOF_BUF).
    { intros x [->|(b&->&Hbr)%list_elem_of_fmap]%elem_of_cons.
      - unfold apart, SIZEOF_BUF, SIZEOF_BDEV, BDEV_LIST in *. lia.
      - rewrite elem_of_reverse in Hbr. pose proof (Hpr b Hbr). unfold apart, SIZEOF_BUF, BUF_LIST in *. lia. }
    eapply ring_at_agree; [|apply list_add_tail_ring; [exact Hsp|eapply ring_at_agree; [|exact Cr]]].
    + intros x Hx i Hi. rewrite app_comm_cons in Hx. apply elem_of_app in Hx as [Hx|Hx%list_elem_of_singleton].
      * specialize (Hin x Hx). apply buf_rest_out; unfold apart, SIZEOF_BUF in *; lia.
      * subst x. apply buf_rest_out; unfold BUF_LIST in *; lia.
    + intros x Hx i Hi. specialize (Hin x Hx). apply buf_head_out; unfold apart, SIZEOF_BUF in *; lia.
  - intros b [->|Hbr]%elem_of_cons.
    + eapply buf_stores_fresh; [unfold is_u32; unfold SIZEOF_BDEV in *; lia|done|done| |exact Hz|];
        unfold apart, SIZEOF_BUF, SIZEOF_BDEV in *; [lia|].
      destruct Hzc as [->|(b&Hbr&->)]; [lia|]. pose proof (Hpr b Hbr). lia.
    + pose proof (Hpr b Hbr) as Hbp. pose proof (Hd b Hbr) as Hbd.
      apply (buf_fresh_agree m); [| |by apply Cf]; intros i Hi; apply Hout;
        unfold apart, SIZEOF_BUF, SIZEOF_BDEV in *; try lia; (destruct Hzc as [->|(b'&Hb'&->)]; [lia|]);
        (destruct (decide (b = b')) as [->|Hne]; [lia|]); pose proof (Ca b b' Hbr Hb' Hne); lia.
  - apply NoDup_cons. split; [|done]. intros Hin. pose proof (Hpr p Hin) as Hx. unfold apart, SIZEOF_BUF in Hx. lia.
  - intros b b' [->|Hb1]%elem_of_cons [->|Hb2]%elem_of_cons Hne; [done|apply apart_sym; auto|auto|auto].
  - intros q n Hq1 Hq2 i Hi. rewrite Hout.
    + apply (Cm q n); [done| |lia]. intros b Hbr. apply Hq2. by right.
    + pose proof (Hq2 p ltac:(left)). unfold apart, SIZEOF_BUF in *. lia.
    + unfold apart, BDEV_LIST in *. lia.
    + destruct Hzc as [->|(b&Hbr&->)]; [unfold apart, BDEV_LIST in *; lia|].
      pose proof (Hq2 b ltac:(by right)). unfold apart, SIZEOF_BUF in *. lia.
Qed.

Lemma buffer_loop_spec n : ∀ r m a,
  cache_at bdev m0 a0 r m a →
  ∃ st m' a' r', buffer_loop n bdev m a = Ret (st, m', a') ∧ cache_at bdev m0 a0 r' m' a' ∧
    ((st = OK ∧ length r' = (length r + n)%nat) ∨ (st = -1 ∧ (length r' < length r + n)%nat)).
Proof.
  induction n as [|n IH]; intros r m a Hc; cbn [buffer_loop].
  { exists OK, m, a, r. split; [done|]. split; [done|]. left. split; [done|lia]. }
  destruct (malloc_blocks a SIZEOF_BUF (bp_ok _ _ _ (ca_blocks _ _ _ _ _ _ Hc))) as (p&a'&E&Hp);
    [unfold SIZEOF_BUF; lia|]. rewrite E. cbn [mbind res_bind].
  destruct Hp as [[-> Hb]|(Hp0&Hb&P1&P2)].
  { exists (-1), m, a', r. split; [done|]. split; [|right; split; [done|lia]].
    destruct Hc as [Cb Cr Cf Cn Ca Cm]. split; try done. by eapply blocks_plus_same. }
  rewrite (proj2 (Z.eqb_neq _ _) Hp0).
  destruct (IH (p :: r) (buf_stores bdev p m) a') as (st&m'&a''&r'&E'&Hc'&Hst);
    [by eapply cache_step|].
  exists st, m', a'', r'. split; [exact E'|]. split; [done|]. cbn [length] in Hst.
  destruct Hst as [[-> ?]|[-> ?]]; [left|right]; (split; [done|lia]).
Qed.

(** From the device as [__init_blk_dev_common] leaves it. *)
Lemma cache_at_nil m :
  load32 m (bdev + BDEV_LIST) = bdev + BDEV_LIST ∧ load32 m (bdev + BDEV_LIST + 4) = bdev + BDEV_LIST →
  m = m0 → cache_at bdev m0 a0 [] m a0.
Proof.
  intros Hl ->. split; try done.
  - by apply blocks_plus_nil.
  - constructor; [exact Hl|constructor].
  - intros b Hb. by apply elem_of_nil in Hb.
  - constructor.
  - intros b b' Hb. by apply elem_of_nil in Hb.
Qed.
End CacheProofs.

(** The allocator functions are all that the loop takes from the interface. *)
Lemma buffer_loop_ext {A} (K1 K2 : KernelMemory A) n : ∀ bdev m a,
  (∀ a k, km_malloc (KernelMemory := K1) a k = km_malloc (KernelMemory := K2) a k) →
  buffer_loop (KM := K1) n bdev m a = buffer_loop (KM := K2) n bdev m a.
Proof.
  induction n as [|n IH]; intros bdev m a H; [done|]. cbn [buffer_loop]. rewrite H.
  destruct (km_malloc a SIZEOF_BUF) as [[p a']|msg|]; [|done..]. cbn [mbind res_bind].
  destruct (p =? NULL); [done|]. by apply IH.
Qed.

(** ** Frames with a run set aside

    While the disk is set up, the ten frames it has taken must not count among those the heap
    lives on, since they are given back on failure. *)

Definition in_run (p n a : Z) : Prop := ∃ i, 0 ≤ i < n ∧ a = p + 4096 * i.

(** The [n] frames at [p] are one block of the allocator. *)
Definition run_at (p n : Z) (f : mmc_t * mem) : Prop :=
  ∃ s, p = frame f.1 s ∧ block (colour f.2 f.1) (nframes f.1) s n.

Lemma run_live p n f a : run_at p n f → in_run p n a → mm_live f a.
Proof.
  intros (s&->&B1&B2&B3&B4&B5&_) (i&Hi&->). exists (s + i). split; [lia|].
  split; [unfold frame; lia|]. rewrite B5 by lia. done.
Qed.

#[local] Program Definition reserved_frames (p n : Z) : FrameSource (mmc_t * mem) := {|
  fs_alloc := mm_alloc;
  fs_ok f := mm_wf f.2 f.1 ∧ run_at p n f ∧ above f;
  fs_live f a := mm_live f a ∧ ¬ in_run p n a;
|}.
Next Obligation.
  intros p n [c m] k (Hwf&Hrun&Hab) Hu. cbn in *.
  destruct (fs_alloc_spec (FrameSource := mm_frames) (c, m) k Hwf Hu) as (q&f'&E&Hok&Hc). cbn in E, Hok.
  exists q, f'. split; [exact E|].
  destruct (alloc_frames_correct m c k Hwf Hu) as (q1&c1&m1&E1&_&Hcases).
  unfold mm_alloc in E. cbn in E. rewrite E1 in E. cbn in E. injection E as <- <-.
  assert (Hrun' : run_at p n (c1, m1) ∧ above (c1, m1)).
  { destruct Hcases as [(s&_&_&_&_&_&_&->&Hblk&_)|(_&->&->&_)]; [|done].
    destruct Hrun as (s0&->&Hb). split; [|exact Hab]. exists s0. split; [done|]. cbn. apply Hblk. by right. }
  split; [by split|]. destruct Hc as [[-> E0]|(Q1&Q2&Q3&Q4&Q5&Q6)]; [by left|right].
  split_and!; try done.
  - intros i Hi [Hl _]. by apply (Q5 i Hi).
  - intros a. cbn in Q6. rewrite Q6. split.
    + intros [[Hl|Hi] Hn]; [by left|by right].
    + intros [[Hl Hn]|(i&Hi&->)]; [by split; [left|]|]. split; [right; eauto|].
      intros Hin. apply (Q5 i Hi). by eapply run_live.
Qed.

(** The heap on one view of the frames is a heap on another that shows it its own frames. *)
Lemma heap_wf_view {F} (F1 F2 : FrameSource F) heap (st : kmem F) f :
  heap_wf (FS := F1) heap st → fs_ok (FrameSource := F2) f →
  (∀ a, fs_live (FrameSource := F1) (k_frames st) a → fs_live (FrameSource := F2) f a) →
  heap_wf (FS := F2) heap (set_frames f st).
Proof.
  intros [[H1 H2 H3 H4] T1 T2 T3] Hok Hlive. split; try done. split; try done.
  intros x Hx. destruct (H3 x Hx) as (?&?&?). split; [done|]. split; [done|by apply Hlive].
Qed.

(** Both views hand out the same memory. *)
Lemma reserved_malloc p n (a : kalloc) k :
  km_malloc (KernelMemory := high_memory) a k =
  km_malloc (KernelMemory := heap_memory (FS := reserved_frames p n)) a k.
Proof. reflexivity. Qed.

Lemma blocks_apart {F} {FS : FrameSource F} (a : heap_desc_t * kmem F) p n q k :
  heap_wf a.1 a.2 → heap_block a p n → heap_block a q k → p ≠ q → apart p n q k.
Proof.
  intros Hw Hp Hq Hne. unfold heap_block in *. pose proof (wf_tiles _ _ Hw) as Ht.
  apply list_elem_of_split in Hp as (l1&l2&E). rewrite E in Ht, Hq.
  rewrite <- (Permutation_middle l1 l2), <- !Permutation_middle in Ht.
  assert (Hin : (q, k) ∈ l1 ++ l2).
  { apply elem_of_app in Hq as [?|Hq]; [set_solver|]. apply elem_of_cons in Hq as [[= -> _]|?]; [done|set_solver]. }
  apply list_elem_of_split in Hin as (l3&l4&E2). rewrite E2 in Ht.
  rewrite <- (Permutation_middle l3 l4), <- !Permutation_middle in Ht.
  apply tiles_apart in Ht. unfold apart. lia.
Qed.

Section Reserve.
Context (a : kalloc) (Hok : high_ok a).

(** The pages of the disk. *)
Lemma get_free_pages_spec :
  ∃ p a1, get_free_pages a RAMFS_PAGES = Ret (p, a1) ∧
    (∀ b k, heap_block a1 b k ↔ heap_block a b k) ∧
    ((p = NULL ∧ high_ok a1) ∨
     (0 < p ∧ p `mod` 4096 = 0 ∧ p + 4096 * RAMFS_PAGES < 4294967296 ∧
      (∀ x, in_run p RAMFS_PAGES x → ¬ mm_live (k_frames a.2) x) ∧
      heap_ok (FS := reserved_frames p RAMFS_PAGES) a1)).
Proof.
  destruct Hok as [[Hw Ha] Hab]. destruct a as [heap st]. cbn [fst snd] in *.
  pose proof (sh_frames _ _ Hw) as Hf. destruct (k_frames st) as [c m] eqn:Ef. cbn in Hf.
  destruct (fs_alloc_spec (FrameSource := mm_frames) (c, m) RAMFS_PAGES Hf ltac:(by unfold is_u32, RAMFS_PAGES))
    as (q&f'&E&Hok'&Hc). cbn in E, Hok'.
  destruct (alloc_frames_correct m c RAMFS_PAGES Hf ltac:(by unfold is_u32, RAMFS_PAGES)) as (q1&c1&m1&E1&_&Hcases).
  assert (E2 : mm_alloc (c, m) RAMFS_PAGES = Ret (q1, (c1, m1))) by (unfold mm_alloc; cbn; by rewrite E1).
  rewrite E2 in E. injection E as <- <-.
  eexists q1, (heap, set_frames (c1, m1) st). unfold get_free_pages. cbn [fst snd]. rewrite Ef, E2.
  split; [done|]. split; [done|].
  destruct Hc as [[-> E0]|(Q1&Q2&Q3&Q4&Q5&Q6)].
  { left. split; [done|]. injection E0 as -> ->. rewrite <- Ef. by destruct st. }
  right. split_and!; [done..| |].
  { intros x (i&Hi&->). by apply Q5. }
  destruct Hcases as [(s&->&_&_&_&_&_&Ec&Hblk&_)|(-> &_)]; [|unfold NULL in Q1; lia].
  assert (Hrun : run_at (frame c s) RAMFS_PAGES (c1, m1)).
  { exists s. cbn. subst c1. split; [done|]. apply Hblk. by left. }
  assert (Hlive : ∀ x, mm_live (c, m) x → mm_live (c1, m1) x ∧ ¬ in_run (frame c s) RAMFS_PAGES x).
  { intros x Hx. split; [apply Q6; by left|]. intros (i&Hi&->). by apply (Q5 i Hi). }
  assert (Hab1 : above (c1, m1)) by (subst c1; exact Hab).
  split; cbn [fst snd k_frames set_frames].
  - apply (heap_wf_view mm_frames); [done|by split|]. rewrite Ef. exact Hlive.
  - intros x X1 X2 X3. by apply Hlive, Ha.
Qed.
End Reserve.

Lemma reserved_back p n a : heap_ok (FS := reserved_frames p n) a → high_ok a.
Proof.
  intros [Hw Ha]. destruct a as [heap st]. cbn [fst snd] in *.
  pose proof (sh_frames _ _ Hw) as (Hf&_&Hab). split; [split|exact Hab]; cbn [fst snd].
  - assert (E : st = set_frames (k_frames st) st) by (by destruct st). rewrite E.
    apply (heap_wf_view (reserved_frames p n)); [done|exact Hf|]. by intros x [Hx _].
  - intros x X1 X2 X3. by apply Ha.
Qed.

Lemma free_pages_spec p n a :
  p `mod` 4096 = 0 → is_u32 p → heap_ok (FS := reserved_frames p n) a →
  ∃ a', free_pages a p = Ret (0, a') ∧ high_ok a' ∧ (∀ b k, heap_block a' b k ↔ heap_block a b k) ∧
    (∀ x, in_run p n x → ¬ mm_live (k_frames a'.2) x).
Proof.
  intros Hp Hpu [Hw Ha]. destruct a as [heap st]. cbn [fst snd] in *.
  pose proof (sh_frames _ _ Hw) as (Hf&Hrun&Hab). destruct (k_frames st) as [c m] eqn:Ef. cbn in Hf.
  destruct Hrun as (s&Es&Hb). cbn [fst snd] in Es, Hb.
  assert (Hmask : Z.land PAGE_MASK p = p).
  { rewrite Z.land_comm. by apply page_aligned. }
  destruct (free_frames_correct m c p Hf) as (rc&c'&m'&E&Hwf'&Hc). rewrite Hmask in Hc.
  destruct Hc as [(i&s'&n'&->&Ei&Hb'&Hi&->&Hblk)|(_&_&_&Hno)]; last first.
  { destruct Hb as (B1&B2&B3&B4&_). destruct B4. apply (Hno s); [lia|]. exact (eq_sym Es). }
  assert (Eis : i = s) by (unfold frame in *; lia). subst i.
  destruct (block_inj _ _ _ _ _ _ s Hb Hb') as [-> ->]; [destruct Hb as (?&?&_); lia|done|].
  eexists (heap, set_frames (_, m') st). unfold free_pages. cbn [fst snd]. rewrite Ef. cbn [fst snd]. rewrite E.
  split; [done|].
  assert (Hlive : ∀ x, mm_live (c, m) x ∧ ¬ in_run p n' x → mm_live (set_nfree c (nfree c + n'), m') x).
  { intros x [(j&Hj&->&Hcj) Hn]. cbn [fst snd] in *. exists j. cbn [fst snd]. split; [done|]. split; [done|].
    destruct (block_cover (colour m c) (nframes c) j) as (s1&n1&Hb1&Hj1); [done..|].
    assert (Hb2 : block (colour m' c) (nframes c) s1 n1).
    { apply Hblk. split; [done|]. intros [-> ->]. apply Hn. exists (j - s'). split; [lia|].
      rewrite Es. unfold frame. lia. }
    destruct Hb2 as (_&_&_&B4&B5&_). change (colour m' c j ≠ 0). rewrite B5 by lia. done. }
  split; [split; [split|exact Hab]|split; [done|]]; cbn [fst snd k_frames set_frames].
  - apply (heap_wf_view (reserved_frames p n')); [done|exact Hwf'|]. rewrite Ef. exact Hlive.
  - intros x X1 X2 X3. by apply Hlive, Ha.
  - intros x (k&Hk&->) (j&Hj&Ej&Hcj). cbn [fst snd] in *.
    change (colour m' (set_nfree c (nfree c + n')) j) with (colour m' c j) in Hcj.
    change (nframes (set_nfree c (nfree c + n'))) with (nframes c) in Hj.
    change (frame (set_nfree c (nfree c + n')) j) with (frame c j) in Ej.
    assert (j = s' + k) by (rewrite Es in Ej; unfold frame in *; lia). subst j.
    destruct (block_cover (colour m' c) (nframes c) (s' + k)) as (s1&n1&Hb1&Hj1); [done..|].
    apply Hblk in Hb1 as [Hb1 Hne]. apply Hne.
    destruct (block_inj _ _ _ _ _ _ (s' + k) Hb1 Hb) as [? ?]; [lia|lia|done].
Qed.

(** The pages are none of the heap's. *)
Lemma reserved_apart p n a b k :
  p `mod` 4096 = 0 → 0 < n → heap_ok (FS := reserved_frames p n) a → heap_block a b k →
  apart b k p (4096 * n).
Proof.
  intros Hp Hn [Hw Ha] Hb. destruct (heap_block_area a b k Hw Hb) as (B1&B2&B3).
  destruct (decide (b + k ≤ p)); [by left|]. destruct (decide (p + 4096 * n ≤ b)); [by right|].
  exfalso. set (x := p + 4096 * (Z.max 0 (b - p) / 4096)).
  assert (Hx : p ≤ x ∧ x `mod` 4096 = 0 ∧ x < b + k ∧ b < x + 4096 ∧ x < p + 4096 * n) by (unfold x; dlia).
  destruct Hx as (X1&X2&X3&X4&X5).
  destruct (Ha x X2 ltac:(lia) ltac:(lia)) as [_ Hno]. apply Hno.
  exists (Z.max 0 (b - p) / 4096). split; [dlia|done].
Qed.

(** ** The driver is well behaved *)

(** The disk at the device [blk]: the pages at [p], the metadata at [ramfs], and the
    buffers [bufs] in the order of the device's list. *)
Record disk_at (ops : Z) (m : mem) (a : kalloc) (blk p ramfs : Z) (bufs : list Z) : Prop := {
  dk_ops : load32 m (blk + BDEV_OPS) = u32 ops;
  dk_total : load32 m (blk + BDEV_TOTAL_BLKS) = 80;
  dk_num : load32 m (blk + BDEV_BUF_NUM) = 100;
  dk_meta : load32 m (blk + BDEV_META) = ramfs;
  dk_ring : ring_at m (blk + BDEV_LIST) ((λ b, b + BUF_LIST) <$> bufs);
  dk_bufs : length bufs = 100%nat ∧ NoDup bufs ∧
            ∀ b, b ∈ bufs → heap_block a b SIZEOF_BUF ∧ buf_fresh m blk b;
  dk_ramhead : load32 m (ramfs + RAMFS_RAMHEAD) = p;
  dk_ramlock : load32 m (ramfs + RAMFS_RAMLOCK + MUTEX_MLOCK) = 0 ∧
               load32 m (ramfs + RAMFS_RAMLOCK + MUTEX_OWNER) = NULL ∧
               load32 m (ramfs + RAMFS_RAMLOCK + MUTEX_WQ) = ramfs + RAMFS_RAMLOCK + MUTEX_WQ;
  dk_block : heap_block a ramfs SIZEOF_RAMFS;
  dk_pages : p `mod` 4096 = 0 ∧ (∀ x, in_run p RAMFS_PAGES x → mm_live (k_frames a.2) x) ∧
             ∀ b k, heap_block a b k → apart b k p (4096 * RAMFS_PAGES);
}.

(** What a call of the driver leaves to the others. *)
Record others_kept (blk : Z) (m m' : mem) (a a' : kalloc) : Prop := {
  ok_alloc : high_ok a';
  ok_blocks : ∀ b k, heap_block a b k → heap_block a' b k;
  ok_mem : ∀ b k, heap_block a b k → b ≠ blk → agree m m' b k;
}.

(** The run that was taken is free again, or there was none. *)
Definition given_back (st : Z) (a a' : kalloc) : Prop :=
  st = -2 ∨ (st = -1 ∨ st = -3) ∧ ∃ p, ∀ x, in_run p RAMFS_PAGES x →
    ¬ mm_live (k_frames a.2) x ∧ ¬ mm_live (k_frames a'.2) x.

Section Driver.
Context (ops0 ops blk : Z) (m : mem) (a : kalloc).
Context (Hok : high_ok a) (Hblk : heap_block a blk SIZEOF_BDEV) (Hnew : bdev_new ops0 m blk).

Lemma blk_bounds : 0 < blk ∧ blk + 64 < 4294967296.
Proof. destruct (km_block_bounds (KernelMemory := high_memory) a blk 64 Hok Hblk) as (?&_&?). done. Qed.

Lemma blk_apart b k : heap_block a b k → b ≠ blk → apart b k blk 64.
Proof. intros Hb Hne. exact (blocks_apart a b k blk 64 (proj1 (proj1 Hok)) Hb Hblk Hne). Qed.

(** Memory when the buffers are allocated. *)
Definition before_cache : mem :=
  store32 (store32 (store32 m (blk + BDEV_OPS) ops) (blk + BDEV_TOTAL_BLKS) 80) (blk + BDEV_BUF_NUM) 100.

Lemma before_cache_out i : ¬ (blk ≤ i < blk + 64) → before_cache i = m i.
Proof.
  intros Hi. unfold before_cache, BDEV_OPS, BDEV_TOTAL_BLKS, BDEV_BUF_NUM. rewrite !store32_out by lia. done.
Qed.

Lemma before_cache_list :
  load32 before_cache (blk + BDEV_LIST) = blk + BDEV_LIST ∧
  load32 before_cache (blk + BDEV_LIST + 4) = blk + BDEV_LIST.
Proof.
  destruct (bn_list _ _ _ Hnew) as [H1 H2].
  unfold before_cache, BDEV_OPS, BDEV_TOTAL_BLKS, BDEV_BUF_NUM, BDEV_LIST in *. split; mem_load; done.
Qed.

(** Memory when the disk is ready. *)
Definition with_meta (p ramfs : Z) (m1 : mem) : mem :=
  store32 (mutex_init_at (ramfs + RAMFS_RAMLOCK) (store32 m1 (ramfs + RAMFS_RAMHEAD) p)) (blk + BDEV_META) ramfs.

Ltac meta_offsets :=
  unfold with_meta, mutex_init_at, init_list_at, RAMFS_RAMLOCK, RAMFS_RAMHEAD, BDEV_META,
    MUTEX_MLOCK, MUTEX_OWNER, MUTEX_WQ, MUTEX_WLOCK; cbv zeta.

Lemma with_meta_out p ramfs m1 i :
  ¬ (ramfs ≤ i < ramfs + 40) → ¬ (blk + 60 ≤ i < blk + 64) → with_meta p ramfs m1 i = m1 i.
Proof.
  intros H1 H2. meta_offsets. rewrite !store32_out by lia. done.
Qed.

(** The end of the driver, with the run [p] taken. *)
Section Taken.
Context (p : Z) (a1 : kalloc).
Context (Hp : 0 < p) (Hal : p `mod` 4096 = 0) (Hpu : p + 4096 * RAMFS_PAGES < 4294967296).
Context (Hfree : ∀ x, in_run p RAMFS_PAGES x → ¬ mm_live (k_frames a.2) x).
Context (Hb1 : ∀ b k, heap_block a1 b k ↔ heap_block a b k).
Context (Hok1 : heap_ok (FS := reserved_frames p RAMFS_PAGES) a1).

#[local] Instance taken : KernelMemory kalloc := heap_memory (FS := reserved_frames p RAMFS_PAGES).

Lemma taken_others r m1 a2 :
  cache_at (KM := taken) blk before_cache a1 r m1 a2 →
  (∀ b k, heap_block a b k → heap_block a2 b k) ∧
  (∀ b k, heap_block a b k → b ≠ blk → agree m m1 b k).
Proof.
  intros Hc. split.
  - intros b k Hb. apply (ca_blocks _ _ _ _ _ _ Hc). left. by apply Hb1.
  - intros b k Hb Hne. pose proof (blk_apart b k Hb Hne) as Hap.
    eapply agree_trans; [intros i Hi; apply before_cache_out; unfold apart in *; lia|].
    apply (ca_frame _ _ _ _ _ _ Hc); [unfold apart, BDEV_LIST in *; lia|]. intros x Hx.
    eapply (bp_apart _ _ _ (ca_blocks _ _ _ _ _ _ Hc)); [by apply Hb1|].
    apply list_elem_of_fmap. by exists x.
Qed.

Lemma bbuf_failed_spec err r m1 a2 :
  cache_at (KM := taken) blk before_cache a1 r m1 a2 → err = -1 ∨ err = -3 →
  ∃ a', bbuf_failed err p m1 a2 = Ret (err, m1, a') ∧ others_kept blk m m1 a a' ∧ given_back err a a'.
Proof.
  intros Hc Herr. unfold bbuf_failed. rewrite (proj2 (Z.eqb_neq p NULL)) by (unfold NULL; lia). cbn [negb].
  destruct (free_pages_spec p RAMFS_PAGES a2 Hal) as (a'&->&Hok'&Hb'&Hgone);
    [unfold is_u32; unfold RAMFS_PAGES in *; lia|apply (ca_blocks _ _ _ _ _ _ Hc)|].
  destruct (taken_others r m1 a2 Hc) as [O1 O2].
  exists a'. split; [done|]. split; [split; [done| |done]|].
  - intros b k Hb. by apply Hb', O1.
  - right. split; [done|]. exists p. intros x Hx. split; [by apply Hfree|by apply Hgone].
Qed.

(** All buffers and the metadata allocated *)
Section Ready.
Context (r : list Z) (m1 : mem) (a2 : kalloc) (ramfs : Z) (a3 : kalloc).
Context (Hc : cache_at (KM := taken) blk before_cache a1 r m1 a2) (Hlen : length r = 100%nat).
Context (H3 : blocks_plus (KM := taken) a2 [(ramfs, SIZEOF_RAMFS)] a3).
Context (R1 : 0 < ramfs) (R2 : ramfs + 40 < 4294967296).

Lemma ramfs_apart b k : heap_block a2 b k → apart b k ramfs 40.
Proof. intros Hb. eapply (bp_apart _ _ _ H3); [exact Hb|left]. Qed.

Lemma bufs_apart b : b ∈ r → heap_block a2 b SIZEOF_BUF ∧ apart b SIZEOF_BUF blk SIZEOF_BDEV.
Proof.
  intros Hb. split; [|eapply (cache_dev_apart (KM := taken)); [by apply Hb1|exact Hc|done]].
  apply (ca_blocks _ _ _ _ _ _ Hc). right. apply list_elem_of_fmap. by exists b.
Qed.

Lemma dev_agree q n :
  blk ≤ q → q + n ≤ blk + 12 ∨ blk + 20 ≤ q ∧ q + n ≤ blk + 60 → agree before_cache (with_meta p ramfs m1) q n.
Proof.
  intros Q1 Q2. destruct (taken_others r m1 a2 Hc) as [O1 _]. pose proof (ramfs_apart blk 64 (O1 _ _ Hblk)).
  eapply agree_trans.
  - apply (ca_frame _ _ _ _ _ _ Hc); [unfold apart, BDEV_LIST; lia|].
    intros b [_ Hb]%bufs_apart. unfold apart, SIZEOF_BUF, SIZEOF_BDEV in *. lia.
  - intros i Hi. apply with_meta_out; unfold apart in *; lia.
Qed.

Lemma buf_agree b q n :
  b ∈ r → b ≤ q → q + n ≤ b + SIZEOF_BUF → agree m1 (with_meta p ramfs m1) q n.
Proof.
  intros [Hb Hd]%bufs_apart Q1 Q2 i Hi. pose proof (ramfs_apart b _ Hb).
  apply with_meta_out; unfold apart, SIZEOF_BUF, SIZEOF_BDEV in *; lia.
Qed.

Lemma with_meta_others : others_kept blk m (with_meta p ramfs m1) a a3.
Proof.
  destruct (taken_others r m1 a2 Hc) as [O1 O2]. split.
  - eapply reserved_back. apply H3.
  - intros b k Hb. apply (bp_iff _ _ _ H3). left. by apply O1.
  - intros b k Hb Hne. eapply agree_trans; [by apply O2|].
    pose proof (blk_apart b k Hb Hne). pose proof (ramfs_apart b k (O1 b k Hb)).
    intros i Hi. apply with_meta_out; unfold apart in *; lia.
Qed.

Lemma with_meta_disk : disk_at ops (with_meta p ramfs m1) a3 blk p ramfs (reverse r).
Proof.
  destruct (taken_others r m1 a2 Hc) as [O1 _]. pose proof blk_bounds as [D1 D2].
  pose proof (ramfs_apart blk 64 (O1 _ _ Hblk)) as Hbr. split.
  - rewrite (agree_load _ _ _ _ _ (dev_agree (blk + 20) 40 ltac:(lia) ltac:(lia))) by (unfold BDEV_OPS; lia).
    unfold before_cache, BDEV_OPS, BDEV_TOTAL_BLKS, BDEV_BUF_NUM. by mem_load.
  - rewrite (agree_load _ _ _ _ _ (dev_agree blk 12 ltac:(lia) ltac:(lia))) by (unfold BDEV_TOTAL_BLKS; lia).
    unfold before_cache, BDEV_OPS, BDEV_TOTAL_BLKS, BDEV_BUF_NUM. by mem_load.
  - rewrite (agree_load _ _ _ _ _ (dev_agree blk 12 ltac:(lia) ltac:(lia))) by (unfold BDEV_BUF_NUM; lia).
    unfold before_cache, BDEV_BUF_NUM. by mem_load.
  - unfold with_meta. mem_load. apply u32_small. unfold is_u32. lia.
  - eapply ring_at_agree; [|exact (ca_ring _ _ _ _ _ _ Hc)].
    intros x [->|(b&->&Hb)%list_elem_of_fmap]%elem_of_cons.
    + intros i Hi. apply with_meta_out; unfold apart, BDEV_LIST in *; lia.
    + rewrite elem_of_reverse in Hb. apply (buf_agree b); [done|unfold BUF_LIST, SIZEOF_BUF; lia..].
  - split; [by rewrite length_reverse|]. split; [rewrite reverse_Permutation; exact (ca_nodup _ _ _ _ _ _ Hc)|].
    intros b Hb. rewrite elem_of_reverse in Hb. split; [apply (bp_iff _ _ _ H3); left; by apply bufs_apart|].
    apply (buf_fresh_agree m1); [apply (buf_agree b); [done|unfold SIZEOF_BUF; lia..]..|].
    by apply (ca_fresh _ _ _ _ _ _ Hc).
  - meta_offsets. unfold apart, RAMFS_PAGES in *. mem_load. apply u32_small. unfold is_u32. lia.
  - meta_offsets. unfold apart in *.
    split; [by mem_load|]. split; [by mem_load|]. mem_load. apply u32_small. unfold is_u32. lia.
  - apply (bp_iff _ _ _ H3). right. left.
  - split; [done|]. pose proof (bp_ok _ _ _ H3) as Hok3. split.
    + intros x Hx. eapply run_live; [|exact Hx]. apply (sh_frames _ _ (proj1 Hok3)).
    + intros b k. by apply reserved_apart.
Qed.
End Ready.
End Taken.

Lemma init_ramfs_at_spec :
  ∃ st m' a', init_ramfs_at ops blk m a = Ret (st, m', a') ∧ others_kept blk m m' a a' ∧
    ((st = OK ∧ ∃ p ramfs bufs, disk_at ops m' a' blk p ramfs bufs ∧
        ∀ x, in_run p RAMFS_PAGES x → ¬ mm_live (k_frames a.2) x) ∨
     given_back st a a').
Proof.
  pose proof blk_bounds as [D1 D2]. unfold init_ramfs_at.
  rewrite (proj2 (Z.eqb_neq blk NULL)) by (unfold NULL; lia). cbn [negb ASSERT mbind res_bind].
  destruct (get_free_pages_spec a Hok) as (p&a1&->&Hb1&[[-> Hok1]|(P1&P2&P3&Hfree&Hok1)]); cbn [mbind res_bind].
  { eexists (-2), _, a1. split; [done|]. split; [split|right; by left].
    - done.
    - intros b k. by rewrite Hb1.
    - intros b k Hb Hne i Hi. pose proof (blk_apart b k Hb Hne). unfold apart, BDEV_OPS in *.
      by rewrite store32_out by lia. }
  rewrite (proj2 (Z.eqb_neq p NULL)) by (unfold NULL; lia).
  assert (Hbs : load32 (store32 m (blk + BDEV_OPS) ops) (blk + BDEV_BLOCK_SIZE) = 512).
  { etransitivity; [|exact (bn_block_size _ _ _ Hnew)]. unfold BDEV_OPS, BDEV_BLOCK_SIZE. by mem_load. }
  rewrite Hbs. change (512 =? 0) with false. change (RAMFS_PAGES * PAGE_SIZE / 512) with 80.
  unfold bdev_init_buffer_cache. change (store32 _ (blk + BDEV_BUF_NUM) _) with before_cache.
  set (K := heap_memory (FS := reserved_frames p RAMFS_PAGES) : KernelMemory kalloc).
  rewrite (buffer_loop_ext high_memory K) by (intros; apply reserved_malloc).
  destruct (buffer_loop_spec (A := kalloc) (KM := K) blk before_cache a1 Hok1 ltac:(by apply Hb1) RAMFS_BUF_BLKS [] before_cache a1)
    as (st&m1&a2&r&->&Hc&Hst); [by apply (cache_at_nil (KM := K)); [|apply before_cache_list|]|].
  cbn [mbind res_bind]. destruct Hst as [[-> Hlen]|[-> _]].
  - change (negb (OK =? 0)) with false. cbv iota.
    change (km_malloc a2 SIZEOF_RAMFS) with (km_malloc (KernelMemory := K) a2 SIZEOF_RAMFS).
    destruct (malloc_blocks (A := kalloc) (KM := K) a2 SIZEOF_RAMFS) as (ramfs&a3&->&Hm);
      [apply (ca_blocks _ _ _ _ _ _ Hc)|by unfold SIZEOF_RAMFS|]. cbn [mbind res_bind].
    destruct Hm as [[-> H3]|(Hr&H3&R1&R2)].
    + assert (Hc3 : cache_at (KM := K) blk before_cache a1 r m1 a3).
      { destruct Hc as [Cb Cr Cf Cn Ca Cm]. split; try done. by eapply blocks_plus_same. }
      destruct (bbuf_failed_spec p a1 P1 P2 P3 Hfree Hb1 (-3) r m1 a3 Hc3) as (a'&E&H1&H2); [by right|].
      exists (-3), m1, a'. split; [exact E|]. split; [done|by right].
    + rewrite (proj2 (Z.eqb_neq _ _) Hr). eexists OK, (with_meta p ramfs m1), a3. split; [done|].
      split; [by eapply with_meta_others|]. left. split; [done|]. exists p, ramfs, (reverse r).
      split; [by eapply with_meta_disk|done].
  - destruct (bbuf_failed_spec p a1 P1 P2 P3 Hfree Hb1 (-1) r m1 a2 Hc) as (a'&E&H1&H2); [by left|].
    exists (-1), m1, a'. split; [exact E|]. split; [done|by right].
Qed.
End Driver.

Lemma init_ramfs_spec ops0 ops i s d :
  high_ok (d_alloc s) → devices s !! i = Some d → heap_block (d_alloc s) (ptr d) SIZEOF_BDEV →
  bdev_new ops0 (d_mem s) (ptr d) →
  ∃ st s', init_ramfs ops i s = Ret (st, s') ∧ devices s' = devices s ∧ d_calls s' = d_calls s ∧
    others_kept (ptr d) (d_mem s) (d_mem s') (d_alloc s) (d_alloc s') ∧
    ((st = OK ∧ ∃ p ramfs bufs, disk_at ops (d_mem s') (d_alloc s') (ptr d) p ramfs bufs ∧
        ∀ x, in_run p RAMFS_PAGES x → ¬ mm_live (k_frames (d_alloc s).2) x) ∨
     given_back st (d_alloc s) (d_alloc s')).
Proof.
  intros Hok Hd Hb Hn. unfold init_ramfs. rewrite Hd.
  destruct (init_ramfs_at_spec ops0 ops (ptr d) (d_mem s) (d_alloc s) Hok Hb Hn) as (st&m'&a'&->&Hr).
  by eexists st, _.
Qed.

(** The driver keeps to what [init_dev] relies on, *)
Lemma init_ramfs_ok ops0 ops : driver_ok (A := kalloc) (KM := high_memory) ops0 (init_ramfs ops).
Proof.
  intros i s d Hok Hd Hb Hn.
  destruct (init_ramfs_spec ops0 ops i s d Hok Hd Hb Hn) as (st&s'&E&H1&H2&[K1 K2 K3]&_).
  by exists st, s'.
Qed.

(** and so do all drivers of the device table; [ramfs] is the address of [init_ramfs]. *)
Definition drivers (ramfs ops f : Z) : nat → dstate kalloc → res (Z * dstate kalloc) :=
  if f =? ramfs then init_ramfs ops else init_ide_master.

Lemma drivers_ok ops0 ramfs ops f : driver_ok (A := kalloc) (KM := high_memory) ops0 (drivers ramfs ops f).
Proof. unfold drivers. destruct (f =? ramfs); [apply init_ramfs_ok|apply init_ide_master_ok]. Qed.

(** The kernel boots with its own drivers. *)
Lemma boots_with_drivers hw ld sy devs ramfs ops fuel_mp fuel env mp conf l flags n pre e post :
  platform_ok hw ld fuel_mp mp conf l flags → memory_ok ld sy n pre e post → symbols_ok sy →
  Forall (λ d, type d = DEV_BLOCK) devs → (1 ≤ fuel)%nat →
  (∀ st k u, st u = T_READY → env st k u = T_READY) →
  (∃ msg, main hw ld sy devs (drivers ramfs ops) fuel_mp fuel env = Panic msg ∧ msg ∈ out_of_memory) ∨
  ∃ bt t stk taskp page, main hw ld sy devs (drivers ramfs ops) fuel_mp fuel env = Ret bt ∧
    boot_ok hw sy devs bt t stk taskp page.
Proof.
  intros H1 H2 H3 H4 H5 H6. eapply main_boot_spec; [done..|]. split; [done| |done|done].
  intros f. apply drivers_ok.
Qed.

(** ** Properties *)


(** The device table of the source *)
Definition demo_devtab : dstate kalloc := DState (λ _, 7) high_heap devices_demo [].

Definition ram_dev : dev_t := Dev 16 DEV_BLOCK 1 NULL true true.

Lemma demo_disk :
  match __init_dev_common (KM := high_memory) 0x1000 0 ram_dev demo_devtab with
  | Ret s1 => match init_ramfs 0x2000 0 s1 with
              | Ret (st, s2) => (st, load32 (d_mem s2) (ptr (default ram_dev (devices s2 !! 0%nat)) + BDEV_BUF_NUM))
              | _ => (1, 0) end
  | _ => (1, 0) end = (OK, 100).
Proof. vm_compute. reflexivity. Qed.

