(* ===== verification/Debug.v ===== *)
(** * Messages for people: [src/debug.c], [src/panic.c], and the reports of [src/mm.c] and
    [src/kmalloc.c]

    Functions that only print, on the console of [Console.v] with the formatter of
    [Printk.v], and [panic]. What they print is described by [prints]: the format, read
    once from left to right, turns into the text. *)
From S2P Require Import Prelude Memory MM FrameSource Heap CString Printk Console Elf Apic Paging.

(** [printk] without what [%n] stores *)
Definition say (format : list Z) (args : list arg) (s : console) : res console :=
  '(s, _) ← printk s format args; Ret s.

(** ** [src/debug.c] *)

(** "[0x%08X] 0x%08X 0x%08X 0x%08X 0x%08X" and a newline *)
Definition DUMP_LINE : list Z := chars "[0x%08X] 0x%08X 0x%08X 0x%08X 0x%08X" ++ [10].

(** [log_level_t] of [include/klog.h], with its values *)
Inductive log_level_t : Type := LOG_ERR | LOG_WARN | LOG_INFO | LOG_DBG | LOG_LAST.
Definition level_value (l : log_level_t) : Z :=
  match l with LOG_ERR => 0 | LOG_WARN => 1 | LOG_INFO => 2 | LOG_DBG => 3 | LOG_LAST => 4 end.

Definition LOG_LEVEL : log_level_t := LOG_INFO.

(** [KLOG_ERR], [KLOG_WARN], [KLOG_INFO], [KLOG_DBG] *)
Definition KLOG (l : log_level_t) : bool := level_value l <=? level_value LOG_LEVEL.

(** [log_err], [log_warn], [log_info], [log_dbg] *)
Definition log (l : log_level_t) (format : list Z) (args : list arg) (s : console) : res console :=
  if KLOG l then say format args s else Ret s.

(** [static void lapic_irq_stop_cpu_handler(registers_t *regs)]: what it prints before it
    loops for ever *)
Definition lapic_irq_stop_cpu_handler (id : Z) (s : console) : res console :=
  say (chars "CPU #%u received IRQ_STOP_CPU, stopped." ++ [10]) [AInt id] s.

(** [void print_memory(void *bp, _u32 lines)] *)
Fixpoint print_memory (lines : nat) (m : mem) (p : Z) (s : console) : res console :=
  match lines with
  | O => Ret s
  | S lines =>
      s ← say DUMP_LINE
            [AInt p; AInt (load32 m p); AInt (load32 m (u32 (p + 4)));
             AInt (load32 m (u32 (p + 8))); AInt (load32 m (u32 (p + 12)))] s;
      print_memory lines m (u32 (p + 16)) s
  end.

(** [void print_cur_status()]; [round] is its static counter. *)
Definition print_cur_status (cs ds es ss round : Z) (s : console) : res (console * Z) :=
  s ← say (chars "print_cur_status %d" ++ [10]) [AInt round] s;
  s ← say (chars "  @ring %d" ++ [10]) [AInt (Z.land (u16 cs) 0x3)] s;
  s ← say (chars "   cs = 0x%016x" ++ [10]) [AInt (u16 cs)] s;
  s ← say (chars "   ds = 0x%016x" ++ [10]) [AInt (u16 ds)] s;
  s ← say (chars "   es = 0x%016x" ++ [10]) [AInt (u16 es)] s;
  s ← say (chars "   ss = 0x%016x" ++ [10]) [AInt (u16 ss)] s;
  Ret (s, u32 (round + 1)).

(** A string in memory, for [%s]. *)
Fixpoint string_at (fuel : nat) (m : mem) (p : Z) : res (list Z) :=
  match fuel with
  | O => Diverge
  | S fuel => if m p =? 0 then Ret [] else l ← string_at fuel m (ptr_inc p); Ret (m p :: l)
  end.

(** The lines of [print_stack_trace]: address and symbol of each frame. *)
Fixpoint print_frames (fuel : nat) (m : mem) (l : list (Z * Z)) (s : console) : res console :=
  match l with
  | [] => Ret s
  | (eip, name) :: l =>
      str ← string_at fuel m name;
      s ← say (chars "   [0x%x] %s" ++ [10]) [AInt eip; AStr str] s;
      print_frames fuel m l s
  end.

(** [void init_debug(multiboot_t *mboot_ptr)] *)
Definition init_debug (fuel : nat) (m : mem) (num addr shndx s_strtab s_symtab : Z) (elf : elf_t)
  : res elf_t := elf_from_multiboot fuel m num addr shndx s_strtab s_symtab elf.

(** ** [src/panic.c] *)

(** [void panic(const char *msg, const char *file, _u32 line)] up to its endless loop: what is
    sent to the other processors, the seconds waited for them, and the screen. *)
Definition panic (fuel : nat) (m : mem) (elf : elf_t) (ebp : Z) (ismp : bool) (proc_id : Z)
    (msg file : list Z) (line : Z) (s : console) : res (list Lapic.action * Z * console) :=
  let wait_hlt := 2 in
  '(acts, waited, s) ←
    (if ismp then
       s ← say ([10] ++ chars "wait %d seconds for other processors to stop" ++ [10]) [AInt wait_hlt] s;
       Ret (Lapic.smp_halt_others ismp, wait_hlt, s)
     else Ret ([], 0, s));
  s ← say ([10] ++ chars "*** KERNEL PANIC on CPU #%u: %s, in %s line %d" ++ [10])
        [AInt proc_id; AStr msg; AStr file; AInt line] s;
  l ← print_stack_trace fuel m elf ebp;
  s ← print_frames fuel m l s;
  s ← say (chars "***" ++ [10]) [] s;
  Ret (acts, waited, s).

(** ** [src/mm.c] *)

(** [void show_kernel_pos()] *)
Definition show_kernel_pos (k_start : Z) (s : console) : res console :=
  say (chars "kernel code_seg start @ 0x%08X" ++ [10]) [AInt k_start] s.

(** The loop of [show_ARDS_from_multiboot] *)
Fixpoint show_ards_loop (fuel : nat) (m : mem) (mmap lim mem_size mem_avail : Z) (s : console)
  : res (Z * Z * console) :=
  match fuel with
  | O => Diverge
  | S fuel =>
      if mmap <? lim then
        let e := read_ards m mmap in
        s ← say (chars "base_addr = 0x%X%08X, length = 0x%X%08X, type = 0x%X" ++ [10])
              [AInt (base_addr_high e); AInt (base_addr_low e); AInt (length_high e);
               AInt (length_low e); AInt (ar_type e)] s;
        show_ards_loop fuel m (u32 (mmap + ARDS_SIZE)) lim (u32 (mem_size + length_low e))
          (if ar_type e =? ARDS_TYPE_AVAIL then u32 (mem_avail + length_low e) else mem_avail) s
      else Ret (mem_size, mem_avail, s)
  end.

(** [void show_ARDS_from_multiboot(multiboot_t *mbp)] *)
Definition show_ARDS_from_multiboot (m : mem) (mmap_addr length : Z) (s : console) : res console :=
  s ← say (chars "Memory map:" ++ [10]) [] s;
  '(mem_size, mem_avail, s) ←
    show_ards_loop (S (Z.to_nat length)) m mmap_addr (u32 (mmap_addr + length)) 0 0 s;
  s ← say ([10] ++ chars "total main memory size : %d KB" ++ [10]) [AInt (mem_size / 1024)] s;
  say (chars "available memory size  : %d KB" ++ [10; 10]) [AInt (mem_avail / 1024)] s.

(** ** [src/kmalloc.c] *)

Section ShowHeap.
Context {F : Type} `{FrameSource F}.

(** One list of [show_heap] *)
Fixpoint show_blocks (l : list Z) (st : kmem F) (s : console) : res console :=
  match l with
  | [] => Ret s
  | hbp :: l =>
      s ← say (chars "[0x%08X]0x%08X(0x%08X) ->") [AInt hbp; AInt (blk_base st hbp); AInt (blk_size st hbp)] s;
      show_blocks l st s
  end.

(** [static void show_heap(heap_desc_t *heap)] *)
Definition show_heap (heap : heap_desc_t) (st : kmem F) (s : console) : res console :=
  s ← say ([10] ++ chars "free_list: ") [] s;
  s ← show_blocks (default [] (k_lists st !! heap_free heap)) st s;
  s ← say (chars "|" ++ [10] ++ chars "res_list: ") [] s;
  s ← show_blocks (default [] (k_lists st !! heap_res heap)) st s;
  say (chars "|" ++ [10]) [] s.
End ShowHeap.

(** ** Formats *)

(** The format [fmt] with arguments [args] prints [out], whatever was printed before. *)
Definition prints (fmt : list Z) (args : list arg) (out : list Z) : Prop :=
  ∀ fuel acc st, (length fmt < fuel)%nat →
    vsprintf_loop fuel fmt args acc st = Ret (acc ++ out, st).

Lemma prints_nil args : prints [] args [].
Proof. intros [|fuel] acc st Hf; [lia|]. cbn. by rewrite app_nil_r. Qed.

(** Text without a percent sign. *)
Lemma prints_text l fmt args out :
  Forall (λ c, c ≠ 37) l → prints fmt args out → prints (l ++ fmt) args (l ++ out).
Proof.
  intros Hl Hp. induction Hl as [|c l Hc Hl IH]; [done|]. intros [|fuel] acc st Hf; [cbn in Hf; lia|].
  cbn [app vsprintf_loop]. rewrite (proj2 (Z.eqb_neq _ _) Hc). cbn [negb].
  cbn in Hf. rewrite IH by lia. by rewrite <- app_assoc.
Qed.

Lemma prints_lit l args : Forall (λ c, c ≠ 37) l → prints l args l.
Proof.
  intros Hl. pose proof (prints_text l [] args [] Hl (prints_nil args)) as Hp.
  by rewrite !app_nil_r in Hp.
Qed.

(** A conversion that is one [number]. *)
Definition converts (conv : list Z) (base width flags : Z) : Prop := ∀ v fmt args fuel acc st,
  vsprintf_loop (S fuel) (conv ++ fmt) (AInt v :: args) acc st =
  match number v base width (-1) flags with
  | Some o => vsprintf_loop fuel fmt args (acc ++ o) (st ++ [])
  | None => Panic "null string pointer"
  end.

Lemma prints_number conv v o fmt args out base width flags :
  converts conv base width flags → conv ≠ [] →
  number v base width (-1) flags = Some o → prints fmt args out →
  prints (conv ++ fmt) (AInt v :: args) (o ++ out).
Proof.
  intros Hs Hne Ho Hp [|fuel] acc st Hf; [lia|]. rewrite Hs, Ho, length_app in *.
  rewrite Hp; [by rewrite app_nil_r, <- app_assoc|]. destruct conv; cbn in *; [done|lia].
Qed.

(** Literal formats as numbers. *)
Ltac literal :=
  repeat match goal with
  | |- context [chars ?s] => let l := eval vm_compute in (chars s) in change (chars s) with l
  end.
Ltac conversion :=
  intros v fmt args fuel acc st; literal; cbn -[number]; by destruct (number _ _ _ _ _).

Lemma conv_08X : converts (chars "%08X") 16 8 ZEROPAD.
Proof. conversion. Qed.
Lemma conv_X : converts (chars "%X") 16 (-1) 0.
Proof. conversion. Qed.
Lemma conv_u : converts (chars "%u") 10 (-1) 0.
Proof. conversion. Qed.
Lemma conv_d : converts (chars "%d") 10 (-1) SIGN.
Proof. conversion. Qed.

Lemma prints_string l fmt args out :
  prints fmt args out → prints (chars "%s" ++ fmt) (AStr l :: args) (l ++ out).
Proof.
  intros Hp [|fuel] acc st Hf; [lia|]. revert Hf. literal. intros Hf. cbn -[take pad_post] in *.
  change (has 0 LEFT) with false. cbn [negb]. unfold pad_post.
  replace (Z.to_nat (-1 - Z.of_nat (length l))) with 0%nat by lia.
  replace (Z.to_nat (Z.min (-1) (Z.of_nat (length l)) - 1 - Z.of_nat (length l))) with 0%nat by lia.
  rewrite Nat2Z.id, firstn_all. cbn [replicate app mbind res_bind tail].
  rewrite Hp by lia. by rewrite !app_nil_r, <- app_assoc.
Qed.

(** A message that fits the buffer. *)
Lemma say_prints fmt args out s :
  prints fmt args out → (length out < 1024)%nat → say fmt args s = Ret (c80_write s (out ++ [0])).
Proof.
  intros Hp Hl. unfold say, printk, fill_buff, vsprintf. rewrite Hp by lia.
  cbn [mbind res_bind app]. rewrite (proj2 (Z.ltb_lt _ _)) by lia. done.
Qed.

(** ** Hexadecimal numbers of eight digits *)

Definition hex8 (v : Z) (o : list Z) : Prop :=
  length o = 8%nat ∧ Forall (is_dig 16 false) o ∧ val 16 (rev o) = v.

Lemma val_zeros base l : Forall (λ c, c = 48) l → val base l = 0.
Proof.
  induction 1 as [|c l -> _ IH]; [done|]. change (undigit 48 + base * val base l = 0).
  rewrite IH. change (undigit 48) with 0. lia.
Qed.

Lemma number_hex8 v : is_u32 v → ∃ o, number v 16 8 (-1) ZEROPAD = Some o ∧ hex8 v o.
Proof.
  intros Hv. destruct (number_unfold v 16 8 (-1) ZEROPAD) as (ds&Hval&Hd&Hne&Hk&E); [lia|done|].
  change (magnitude v ZEROPAD) with v in *. cbv zeta in E.
  assert (Hlen : (length ds ≤ 8)%nat) by (apply Hk; [lia|unfold is_u32 in Hv; cbn; lia]).
  assert (Hpos : (0 < length ds)%nat) by (destruct ds; [done|cbn; lia]).
  change (has ZEROPAD LEFT || has ZEROPAD ZEROPAD) with true in E.
  change (has ZEROPAD LEFT) with false in E. change (has ZEROPAD ZEROPAD) with true in E.
  change (sign_chars v ZEROPAD) with (@nil Z) in E. change (prefix_chars 16 ZEROPAD) with (@nil Z) in E.
  cbn [replicate app length Z.of_nat] in E. rewrite app_nil_r in E.
  eexists. split; [exact E|]. clear E.
  replace (Z.to_nat (Z.max (-1) _ - _)) with 0%nat by lia. cbn [replicate app].
  split; [rewrite length_app, length_replicate, length_rev; lia|]. split.
  - apply Forall_app. split; [|by apply Forall_rev]. apply Forall_replicate. exists 0. split; [lia|done].
  - rewrite rev_app_distr, rev_involutive, val_app, Hval.
    rewrite val_zeros by (by apply Forall_rev, Forall_replicate). lia.
Qed.

(** Decimal numbers without padding. *)
Lemma number_dec v type :
  type = 0 ∨ type = SIGN → 0 ≤ v < 2147483648 →
  ∃ o, number v 10 (-1) (-1) type = Some o ∧ (length o ≤ 10)%nat ∧ val 10 (rev o) = v.
Proof.
  intros Ht Hv. destruct (number_unfold v 10 (-1) (-1) type) as (ds&Hval&_&Hne&Hk&E);
    [lia|unfold is_u32; lia|].
  assert (Hm : magnitude v type = v).
  { unfold magnitude. destruct (has type SIGN && (s32 v <? 0)) eqn:Es; [|done].
    apply andb_prop in Es as [_ Es%Z.ltb_lt]. unfold s32 in Es. rewrite u32_small in Es by (unfold is_u32; lia).
    destruct (Z.ltb_spec v 2147483648); lia. }
  assert (Hs : sign_chars v type = []).
  { unfold sign_chars. replace (has type SIGN && (s32 v <? 0)) with false.
    - by destruct Ht as [->| ->].
    - symmetry. apply andb_false_iff. right. apply Z.ltb_ge. unfold s32.
      rewrite u32_small by (unfold is_u32; lia). destruct (Z.ltb_spec v 2147483648); lia. }
  assert (Hp : prefix_chars 10 type = []) by (by destruct Ht as [->| ->]).
  assert (Hl : has type LEFT = false ∧ has type ZEROPAD = false) by (by destruct Ht as [->| ->]).
  destruct Hl as [Hl Hz]. cbv zeta in E. rewrite Hs, Hp, Hl, Hz in E. cbn [orb app length Z.of_nat] in E.
  replace (Z.to_nat (-1 - 0 - 0 - _)) with 0%nat in E by lia.
  replace (Z.to_nat (Z.max (-1) _ - _)) with 0%nat in E by lia.
  cbn [replicate app] in E. rewrite app_nil_r in E. rewrite Hm in *.
  exists (rev ds). split; [done|]. rewrite length_rev, rev_involutive. split; [|done].
  apply Hk; [lia|]. cbn. lia.
Qed.

(** ** A memory dump *)

(** A line of the dump: the address and four words. *)
Definition dump_text (a w0 w1 w2 w3 : list Z) : list Z :=
  chars "[0x" ++ a ++ chars "] 0x" ++ w0 ++ chars " 0x" ++ w1 ++ chars " 0x" ++ w2 ++ chars " 0x" ++ w3 ++ [10].

Definition dump_line (m : mem) (p : Z) (l : list Z) : Prop :=
  ∃ a w0 w1 w2 w3, l = dump_text a w0 w1 w2 w3 ∧ hex8 p a ∧ hex8 (load32 m p) w0 ∧
    hex8 (load32 m (u32 (p + 4))) w1 ∧ hex8 (load32 m (u32 (p + 8))) w2 ∧
    hex8 (load32 m (u32 (p + 12))) w3.

Ltac not_percent := literal; repeat (constructor; [discriminate|]); constructor.

Lemma dump_line_prints m p :
  is_u32 p → ∃ l, dump_line m p l ∧ length l = 57%nat ∧
    prints DUMP_LINE [AInt p; AInt (load32 m p); AInt (load32 m (u32 (p + 4)));
                      AInt (load32 m (u32 (p + 8))); AInt (load32 m (u32 (p + 12)))] l.
Proof.
  intros Hp. destruct (number_hex8 p Hp) as (a&Ea&Ha).
  destruct (number_hex8 (load32 m p) (load32_range _ _)) as (w0&E0&H0).
  destruct (number_hex8 (load32 m (u32 (p + 4))) (load32_range _ _)) as (w1&E1&H1).
  destruct (number_hex8 (load32 m (u32 (p + 8))) (load32_range _ _)) as (w2&E2&H2).
  destruct (number_hex8 (load32 m (u32 (p + 12))) (load32_range _ _)) as (w3&E3&H3).
  exists (dump_text a w0 w1 w2 w3). split; [by exists a, w0, w1, w2, w3|]. split.
  - unfold dump_text. rewrite !length_app. destruct Ha, H0, H1, H2, H3.
    literal. cbn [length]. lia.
  - change DUMP_LINE with (chars "[0x" ++ chars "%08X" ++ chars "] 0x" ++ chars "%08X" ++ chars " 0x" ++
      chars "%08X" ++ chars " 0x" ++ chars "%08X" ++ chars " 0x" ++ chars "%08X" ++ [10]).
    apply prints_text; [not_percent|]. eapply prints_number; [exact conv_08X|done|exact Ea|].
    apply prints_text; [not_percent|]. eapply prints_number; [exact conv_08X|done|exact E0|].
    apply prints_text; [not_percent|]. eapply prints_number; [exact conv_08X|done|exact E1|].
    apply prints_text; [not_percent|]. eapply prints_number; [exact conv_08X|done|exact E2|].
    apply prints_text; [not_percent|]. eapply prints_number; [exact conv_08X|done|exact E3|].
    apply prints_lit. not_percent.
Qed.

(** A memory dump is right. [print_memory(p, n)] prints [n] lines; each fits the print buffer
    and is the eight-digit address and the four words found there, and reading the digits
    back gives exactly the address (16 further on each line, around the end of memory) and
    the words of memory. *)
Theorem memory_dump_correct n m p s :
  is_u32 p →
  ∃ ls, print_memory n m p s = Ret (foldl (λ s l, c80_write s (l ++ [0])) s ls) ∧ length ls = n ∧
    ∀ i l, ls !! i = Some l → dump_line m (u32 (p + 16 * Z.of_nat i)) l.
Proof.
  revert p s. induction n as [|n IH]; intros p s Hp.
  { exists []. split; [done|]. split; [done|]. done. }
  destruct (dump_line_prints m p Hp) as (l&Hl&Hlen&Hpr). cbn [print_memory].
  rewrite (say_prints _ _ l) by (done || (rewrite Hlen; lia)). cbn [mbind res_bind].
  destruct (IH (u32 (p + 16)) (c80_write s (l ++ [0])) (u32_range _)) as (ls&->&Hn&Hall).
  exists (l :: ls). split; [done|]. split; [cbn; by rewrite Hn|].
  intros [|i] l' Hi; cbn in Hi.
  - injection Hi as <-. cbn [Z.of_nat]. by rewrite Z.mul_0_r, Z.add_0_r, u32_small.
  - specialize (Hall i l' Hi). replace (u32 (p + 16 * Z.of_nat (S i)))
      with (u32 (u32 (p + 16) + 16 * Z.of_nat i)); [done|]. unfold u32. dlia.
Qed.

Lemma memory_dump_correct_witness :
  ∃ ls, print_memory 2 (λ a, a `mod` 251) 0xFFFFFFF0 (Con 0 0 (λ _, 0) []) =
    Ret (foldl (λ s l, c80_write s (l ++ [0])) (Con 0 0 (λ _, 0) []) ls) ∧ length ls = 2%nat.
Proof.
  destruct (memory_dump_correct 2 (λ a, a `mod` 251) 0xFFFFFFF0 (Con 0 0 (λ _, 0) []))
    as (ls&E&Hl&_); [unfold is_u32; lia|]. exists ls. split; [exact E|exact Hl].
Defined.

(** ** Panics *)

Lemma conv_x : converts (chars "%x") 16 (-1) SMALL.
Proof. conversion. Qed.

Lemma number_hex v :
  is_u32 v → ∃ o, number v 16 (-1) (-1) SMALL = Some o ∧ (length o ≤ 8)%nat ∧ val 16 (rev o) = v.
Proof.
  intros Hv. destruct (number_unfold v 16 (-1) (-1) SMALL) as (ds&Hval&_&Hne&Hk&E); [lia|done|].
  change (magnitude v SMALL) with v in *. cbv zeta in E.
  change (sign_chars v SMALL) with (@nil Z) in E. change (prefix_chars 16 SMALL) with (@nil Z) in E.
  change (has SMALL LEFT || has SMALL ZEROPAD) with false in E.
  change (has SMALL LEFT) with false in E. change (has SMALL ZEROPAD) with false in E.
  cbn [app length Z.of_nat] in E.
  replace (Z.to_nat (-1 - 0 - 0 - _)) with 0%nat in E by lia.
  replace (Z.to_nat (Z.max (-1) _ - _)) with 0%nat in E by lia.
  cbn [replicate app] in E. rewrite app_nil_r in E.
  exists (rev ds). split; [done|]. rewrite length_rev, rev_involutive. split; [|done].
  apply Hk; [lia|]. unfold is_u32 in Hv. cbn. lia.
Qed.

(** The screen after the messages [texts]. *)
Definition shown (texts : list (list Z)) (s : console) : console :=
  foldl (λ s l, c80_write s (l ++ [0])) s texts.

(** A line of the trace: the address in hexadecimal and the name. *)
Definition frame_text (fuel : nat) (m : mem) (f : Z * Z) (t : list Z) : Prop :=
  ∃ d str, t = chars "   [0x" ++ d ++ chars "] " ++ str ++ [10] ∧ val 16 (rev d) = f.1 ∧
    string_at fuel m f.2 = Ret str.

(** The name of a frame is a string that fits. *)
Definition frame_named (fuel : nat) (m : mem) (f : Z * Z) : Prop :=
  is_u32 f.1 ∧ ∃ str, string_at fuel m f.2 = Ret str ∧ (length str ≤ 900)%nat.

Lemma print_frames_spec fuel m l : ∀ s,
  Forall (frame_named fuel m) l →
  ∃ ts, print_frames fuel m l s = Ret (shown ts s) ∧ Forall2 (frame_text fuel m) l ts.
Proof.
  induction l as [|[eip name] l IH]; intros s Hl.
  { exists []. split; [done|constructor]. }
  apply Forall_cons in Hl as [(He&str&Hstr&Hlen) Hl]. cbn [fst snd] in *.
  destruct (number_hex eip He) as (d&Ed&Hd&Hv).
  cbn [print_frames]. rewrite Hstr. cbn [mbind res_bind].
  assert (Hp : prints (chars "   [0x%x] %s" ++ [10]) [AInt eip; AStr str]
    (chars "   [0x" ++ d ++ chars "] " ++ str ++ [10])).
  { change (chars "   [0x%x] %s" ++ [10]) with
      (chars "   [0x" ++ chars "%x" ++ chars "] " ++ chars "%s" ++ [10]).
    apply prints_text; [not_percent|]. eapply prints_number; [exact conv_x|done|exact Ed|].
    apply prints_text; [not_percent|]. apply prints_string, prints_lit. not_percent. }
  rewrite (say_prints _ _ _ s Hp) by (rewrite !length_app; literal; cbn [length]; lia).
  cbn [mbind res_bind].
  destruct (IH (c80_write s ((chars "   [0x" ++ d ++ chars "] " ++ str ++ [10]) ++ [0])) Hl) as (ts&->&Ht).
  eexists (_ :: ts). split; [done|]. constructor; [|done]. by exists d, str.
Qed.

(** The line that reports the panic. *)
Definition panic_text (proc_id : Z) (msg file : list Z) (line : Z) (t : list Z) : Prop :=
  ∃ d1 d2, t = [10] ++ chars "*** KERNEL PANIC on CPU #" ++ d1 ++ chars ": " ++ msg ++ chars ", in " ++ file ++
      chars " line " ++ d2 ++ [10] ∧ val 10 (rev d1) = proc_id ∧ val 10 (rev d2) = line.

Lemma panic_text_prints proc_id msg file line :
  0 ≤ proc_id < 2147483648 → 0 ≤ line < 2147483648 → (length msg + length file ≤ 900)%nat →
  ∃ t, panic_text proc_id msg file line t ∧ (length t < 1024)%nat ∧
    prints ([10] ++ chars "*** KERNEL PANIC on CPU #%u: %s, in %s line %d" ++ [10])
      [AInt proc_id; AStr msg; AStr file; AInt line] t.
Proof.
  intros Hp Hl Hlen. destruct (number_dec proc_id 0) as (d1&E1&L1&V1); [by left|done|].
  destruct (number_dec line SIGN) as (d2&E2&L2&V2); [by right|done|].
  eexists. split; [by exists d1, d2|]. split.
  - rewrite !length_app. literal. cbn [length]. lia.
  - change ([10] ++ chars "*** KERNEL PANIC on CPU #%u: %s, in %s line %d" ++ [10]) with
      ([10] ++ chars "*** KERNEL PANIC on CPU #" ++ chars "%u" ++ chars ": " ++ chars "%s" ++ chars ", in " ++
       chars "%s" ++ chars " line " ++ chars "%d" ++ [10]).
    apply prints_text; [not_percent|]. apply prints_text; [not_percent|].
    eapply prints_number; [exact conv_u|done|exact E1|].
    apply prints_text; [not_percent|]. apply prints_string.
    apply prints_text; [not_percent|]. apply prints_string.
    apply prints_text; [not_percent|]. eapply prints_number; [exact conv_d|done|exact E2|].
    apply prints_lit. not_percent.
Qed.


(** A processor that is stopped says which one it is. *)
Lemma stop_cpu_says id s :
  0 ≤ id < 2147483648 →
  ∃ d, lapic_irq_stop_cpu_handler id s =
      Ret (shown [chars "CPU #" ++ d ++ chars " received IRQ_STOP_CPU, stopped." ++ [10]] s) ∧
    val 10 (rev d) = id.
Proof.
  intros Hid. destruct (number_dec id 0) as (d&E&L&V); [by left|done|]. exists d. split; [|done].
  unfold lapic_irq_stop_cpu_handler.
  assert (Hp : prints (chars "CPU #%u received IRQ_STOP_CPU, stopped." ++ [10]) [AInt id]
    (chars "CPU #" ++ d ++ chars " received IRQ_STOP_CPU, stopped." ++ [10])).
  { change (chars "CPU #%u received IRQ_STOP_CPU, stopped." ++ [10]) with
      (chars "CPU #" ++ chars "%u" ++ chars " received IRQ_STOP_CPU, stopped." ++ [10]).
    apply prints_text; [not_percent|]. eapply prints_number; [exact conv_u|done|exact E|].
    apply prints_text; [not_percent|]. apply prints_lit. not_percent. }
  by rewrite (say_prints _ _ _ s Hp) by (rewrite !length_app; literal; cbn [length]; lia).
Qed.

(** Messages above [LOG_LEVEL] leave no trace; the others are printed. *)
Lemma log_levels l format args s :
  log l format args s = match l with LOG_DBG | LOG_LAST => Ret s | _ => say format args s end.
Proof. by destruct l. Qed.


(** ** Reports *)

(** The totals in the report on the memory map are those [init_paging] works with, up to where
    the counters start. *)
Lemma ards_report_totals fuel m lim : ∀ mmap t v acc s t' v' s',
  show_ards_loop fuel m mmap lim t v s = Ret (t', v', s') →
  ∃ es, mem_info_loop fuel m mmap lim t v acc = Ret (t', v', acc ++ es).
Proof.
  induction fuel as [|fuel IH]; intros mmap t v acc s t' v' s' E; [done|].
  cbn [show_ards_loop mem_info_loop] in *. destruct (mmap <? lim).
  - apply res_bind_Ret in E as (s1&_&E).
    destruct (IH _ _ _ (acc ++ [read_ards m mmap]) _ _ _ _ E) as [es Hes].
    exists (read_ards m mmap :: es). by rewrite Hes, <- app_assoc.
  - injection E as <- <- <-. exists []. by rewrite app_nil_r.
Qed.
