(* ===== verification/Init.v ===== *)
(** * The first threads: [init], [u] and [v] of [src/init.c]

    [setup_init_task] makes a thread that runs [init] ([K_INIT]); [init] creates the thread
    [u], and [v] sets up the mutex and the semaphore of the demonstration and creates the
    threads [v1], [v2] and [v3]. Here the C code of these functions meets the scheduler and
    the context switch: when memory is left for them, the threads are queued, ready, and
    the first switch to each calls its function. *)
From S2P Require Import Prelude Memory ListHead ListProofs MM MMProofs FrameSource Heap HeapProofs Paging KernelMemory Threads Mutex Semaphore Timer Sched Switch Task TaskProofs DeviceInit Main.

(** ** [semaphore_t] in memory *)

Definition SEM_SEMLOCK : Z := 0.
Definition SEM_COUNT : Z := 8.
Definition SEM_WQ : Z := 12.

(** [sem_init(p, count)] *)
Definition sem_init_at (p count : Z) (m : mem) : mem :=
  let m := store32 m (p + SEM_SEMLOCK) 0 in
  let m := store32 m (p + SEM_SEMLOCK + 4) NULL in
  let m := init_list_at (p + SEM_WQ) m in
  store32 m (p + SEM_COUNT) count.

Section Init.
Context {A : Type} `{KM : KernelMemory A}.
Context (ismp : bool) (ncpu this : nat) (fin : Z).

(** [int K_INIT(void *args)]; it returns before it comes to the rest. [fn_u] is the address
    of [u]. *)
Definition K_INIT (fn_u args : Z) : code A Z :=
  _ ← create_thread ismp ncpu this fin fn_u NULL;
  mret 0.

(** [int u(void *args)]; its first statement returns. *)
Definition u (args : Z) : code A Z := mret 0.

(** [int v(void *args)] with the addresses of [mlock], [ss], [v1], [v2] and [v3] *)
Definition v (mlock ss fn1 fn2 fn3 args : Z) : code A Z :=
  _ ← on_mem (mutex_init_at mlock);
  _ ← on_mem (sem_init_at ss 2);
  _ ← create_thread ismp ncpu this fin fn1 NULL;
  _ ← create_thread ismp ncpu this fin fn2 NULL;
  _ ← create_thread ismp ncpu this fin fn3 NULL;
  mret 0.

(** ** One call of [create_thread] *)

(** There is memory for allocations of these sizes, one after the other. *)
Fixpoint fits (l : list Z) (a : A) : bool :=
  match l with
  | [] => true
  | n :: l =>
      match km_malloc a n with
      | Ret (p, a') => negb (p =? NULL) && fits l a'
      | _ => false
      end
  end.

(** What [create_thread] allocates. *)
Definition thread_blocks : list Z := [SIZEOF_THREAD; T_STACK_SIZE; SIZEOF_RTHREAD].

(** The thread at [t] with the stack at [stk] was made to run [fn(arg)] and is ready. *)
Record thread_up (s : kstate A) (fn arg t stk : Z) : Prop := {
  th_made : ∃ m task, new_thread m t stk task fn arg fin ∧ untouched m (k_mem s) t stk;
  th_ready : statuses_in (k_mem s) t = T_READY;
  th_thread : km_block (k_alloc s) t 76;
  th_stack : km_block (k_alloc s) stk 4096;
}.

(** [s'] is [s] with a new thread, queued on processor [cpu], and otherwise unchanged. *)
Record created (s : kstate A) (fn arg t stk : Z) (cpu : nat) (s' : kstate A) : Prop := {
  cr_up : thread_up s' fn arg t stk;
  cr_queue : k_cpus s' = <[cpu := set_runq (runq (k_cpus s cpu) ++ [t]) (k_cpus s cpu)]> (k_cpus s);
  cr_fresh : ¬ km_block (k_alloc s) t 76;
  cr_kept : ∀ b k, km_block (k_alloc s) b k → km_block (k_alloc s') b k;
  cr_apart : ∀ b k p n, km_block (k_alloc s) b k → km_block (k_alloc s') p n →
    ¬ km_block (k_alloc s) p n → apart p n b k;
  cr_frame : ∀ b k, (∀ p n, km_block (k_alloc s') p n → ¬ km_block (k_alloc s) p n → apart p n b k) →
    agree (k_mem s) (k_mem s') b k;
  cr_ok : km_ok (k_alloc s');
}.

(** The memory a creation that does not fail leaves. *)
Lemma create_thread_mem m (a : A) W id cpus task fn arg t a1 stk a2 :
  km_malloc a SIZEOF_THREAD = Ret (t, a1) → t ≠ NULL →
  km_malloc a1 T_STACK_SIZE = Ret (stk, a2) → stk ≠ NULL →
  0 < stk → stk + 4096 < 4294967296 →
  __create_thread fin task fn arg (KState m a W id cpus) =
  Ret (t, KState (store32 (thread_stores (thread_head m t) t stk fn arg fin) (t + THR_TASK) task) a2
            (w_add_tail (t + THR_LINK) (task + TASK_THREADS) W) id cpus).
Proof.
  intros E1 Ht E2 Hs Hs0 Hs1. unfold __create_thread. rewrite (run_kmalloc _ _ _ _ _ _ _ _ _ E1).
  destruct (Z.eqb_spec t NULL); [done|]. run_code. rewrite (run_kmalloc _ _ _ _ _ _ _ _ _ E2).
  destruct (Z.eqb_spec stk NULL); [done|].
  rewrite (create_thread_fill _ _ _ _ _ _ _ _ _ _ _ Hs0 Hs1). reflexivity.
Qed.

Lemma create_thread_created s fn arg l :
  km_ok (k_alloc s) → is_u32 fn → is_u32 arg → is_u32 fin → fits (thread_blocks ++ l) (k_alloc s) = true →
  ∃ s' t stk cpu, create_thread ismp ncpu this fin fn arg s = Ret (1, s') ∧
    created s fn arg t stk cpu s' ∧ fits l (k_alloc s') = true.
Proof.
  intros Hok Hfn Har Hfi Hfit. destruct s as [m a W id cpus]. cbn [k_alloc] in *.
  unfold thread_blocks in Hfit. cbn [app fits] in Hfit.
  destruct (malloc_blocks a SIZEOF_THREAD Hok) as (t&a1&E1&Hc1); [done|]. rewrite E1 in Hfit.
  destruct Hc1 as [[-> _]|(Ht&H1&Ht0&Ht1)]; [done|].
  rewrite (proj2 (Z.eqb_neq _ _) Ht) in Hfit. cbn [negb andb] in Hfit.
  destruct (malloc_blocks a1 T_STACK_SIZE (bp_ok _ _ _ H1)) as (stk&a2&E2&Hc2); [done|].
  rewrite E2 in Hfit. destruct Hc2 as [[-> _]|(Hs&H2&Hs0&Hs1)]; [done|].
  rewrite (proj2 (Z.eqb_neq _ _) Hs) in Hfit. cbn [negb andb] in Hfit.
  destruct (malloc_blocks a2 SIZEOF_RTHREAD (bp_ok _ _ _ H2)) as (ptr&a3&E3&Hc3); [done|].
  rewrite E3 in Hfit. destruct Hc3 as [[-> _]|(Hp&H3&Hp0&Hp1)]; [done|].
  rewrite (proj2 (Z.eqb_neq _ _) Hp) in Hfit. cbn [negb andb] in Hfit.
  unfold create_thread, get_curr_task, rd. run_code. cbn [k_mem k_cpus].
  unfold mbind at 1, code_bind at 1. erewrite create_thread_mem by done.
  unfold mbind at 1, code_bind at 1, init_thread_sched.
  erewrite add_thread_run by exact E3. rewrite (proj2 (Z.eqb_neq _ _) Hp).
  destruct (blocks_plus_app _ _ _ _ _ _ H1 H2) as [H12 Hts]. specialize (Hts t SIZEOF_THREAD ltac:(left)).
  destruct (blocks_plus_app _ _ _ _ _ _ H12 H3) as [H123 Hap].
  change SIZEOF_THREAD with 76 in *. change T_STACK_SIZE with 4096 in *. change SIZEOF_RTHREAD with 20 in *.
  pose proof (Hap t 76 ltac:(right; left)) as Htp. pose proof (Hap stk 4096 ltac:(left)) as Hsp.
  pose proof (thread_stores_new m t stk (load32 m (rthread (cpus this) + THR_TASK)) fn arg fin
    Hts Ht0 Hs0 Hs1 (load32_range _ _) Hfn Har Hfi) as Hn.
  assert (Hnew : ∀ p n, (p, n) ∈ [(ptr, 20); (stk, 4096); (t, 76)] → ¬ km_block a p n).
  { intros p n Hin Hold. pose proof (bp_apart _ _ _ H123 p n p n Hold Hin) as Hself.
    pose proof (km_block_bounds _ _ _ Hok Hold). unfold apart in Hself. lia. }
  eexists _, t, stk, _. split.
  { unfold get. cbn [k_mem]. do 2 rewrite store32_other by (unfold apart in *; offsets; lia).
    rewrite (nt_id _ _ _ _ _ _ _ Hn). reflexivity. }
  split; [|exact Hfit]. split; cbn [k_mem k_cpus k_alloc].
  - split; cbn [k_mem k_alloc].
    + eexists _, _. split; [exact Hn|]. unfold untouched, apart in *. offsets.
      split; intros i Hi; rewrite !store32_out by lia; done.
    + unfold statuses_in. cbn [k_mem]. rewrite store32_same. done.
    + apply H123. right. right. right. left.
    + apply H123. right. right. left.
  - reflexivity.
  - by apply Hnew; right; right; left.
  - intros b k Hb. apply H123. by left.
  - intros b k p n Hb Hp' Hnp. apply H123 in Hp' as [Hold|Hin]; [done|].
    apply apart_sym. by eapply H123.
  - intros b k Hf.
    assert (Hx : ∀ p n, (p, n) ∈ [(ptr, 20); (stk, 4096); (t, 76)] → apart p n b k).
    { intros p n Hin. apply Hf; [apply H123; by right|by apply Hnew]. }
    pose proof (Hx ptr 20 ltac:(left)) as X1. pose proof (Hx stk 4096 ltac:(right; left)) as X2.
    pose proof (Hx t 76 ltac:(right; right; left)) as X3.
    eapply agree_trans; [by apply thread_head_agree|].
    eapply agree_trans; [by apply (thread_stores_agree _ t stk fn arg fin)|].
    intros i Hi. unfold apart in *. offsets. rewrite !store32_out by lia. done.
  - apply H123.
Qed.

(** ** Threads that were made before *)

Lemma created_agree s fn arg t stk cpu s' b k :
  created s fn arg t stk cpu s' → km_block (k_alloc s) b k → agree (k_mem s) (k_mem s') b k.
Proof. intros Hc Hb. apply Hc. intros p n. by apply Hc. Qed.

Lemma thread_up_kept s fn arg t stk cpu s' fn0 arg0 t0 stk0 :
  created s fn arg t stk cpu s' → thread_up s fn0 arg0 t0 stk0 →
  thread_up s' fn0 arg0 t0 stk0 ∧ t ≠ t0.
Proof.
  intros Hc [(m&task&Hn&[U1 U2]) Hr Bt Bs].
  pose proof (created_agree _ _ _ _ _ _ _ _ _ Hc Bt) as At.
  pose proof (created_agree _ _ _ _ _ _ _ _ _ Hc Bs) as As.
  split; [|intros ->; by apply (cr_fresh _ _ _ _ _ _ _ Hc)]. split.
  - exists m, task. split; [done|].
    split; [eapply agree_trans; [exact U1|]|eapply agree_trans; [exact U2|]];
      [apply (agree_sub _ _ _ _ _ _ At)|apply (agree_sub _ _ _ _ _ _ As)]; offsets; lia.
  - rewrite <-Hr. unfold statuses_in. by rewrite (agree_load _ _ _ _ _ At) by (offsets; lia).
  - by apply Hc.
  - by apply Hc.
Qed.

(** The first switch to the thread, whatever happened meanwhile to other memory, calls
    [fn(arg)]. *)
Definition starts (s : kstate A) (fn arg t stk : Z) : Prop :=
  ∀ callee depth own own_len ra M ret old,
    cdecl callee depth own own_len → 0 ≤ depth ≤ 4080 →
    calling M ret old (t + THR_CONTEXT) → untouched (k_mem s) (memory M) t stk →
    clear_of t stk old 24 → clear_of t stk (regs M ESP - 4) 4 → clear_of t stk own own_len →
    calls_with (Switch.run callee (switch_to ra) M) fn arg fin.

Lemma thread_up_starts s fn arg t stk :
  km_ok (k_alloc s) → thread_up s fn arg t stk → starts s fn arg t stk.
Proof.
  intros Hok [(m&task&Hn&[U1 U2]) _ Bt Bs] callee depth own own_len ra M ret old Hcd Hd Hcall [V1 V2] Ho He [_ Hown].
  pose proof (km_block_bounds _ _ _ Hok Bs) as (S0&_&S1).
  assert (Hu : untouched m (memory M) t stk) by (split; by eapply agree_trans).
  pose proof (untouched_saved _ _ _ _ _ Hu Ho He) as Hus.
  eapply entered_calls; [exact Hn|exact Hown|exact Hus|].
  eapply switch_to_enters; [done..|]. by eapply new_thread_context_ok.
Qed.
End Init.

(** ** Locks in memory *)

(** The words of an unused mutex and of an unused semaphore. *)
Definition mutex_at (m : mem) (p : Z) (x : mutex_t) : Prop :=
  load32 m (p + MUTEX_MLOCK) = mlock x ∧ load32 m (p + MUTEX_OWNER) = default NULL (m_owner x) ∧
  (m_wq x = [] ↔ load32 m (p + MUTEX_WQ) = p + MUTEX_WQ) ∧
  load32 m (p + MUTEX_WLOCK) = 0 ∧ load32 m (p + MUTEX_WLOCK + 4) = NULL.
Definition semaphore_at (m : mem) (p : Z) (x : Semaphore.semaphore_t) : Prop :=
  load32 m (p + SEM_COUNT) = Semaphore.count x ∧
  (Semaphore.s_wq x = [] ↔ load32 m (p + SEM_WQ) = p + SEM_WQ) ∧
  load32 m (p + SEM_SEMLOCK) = 0 ∧ load32 m (p + SEM_SEMLOCK + 4) = NULL.

Ltac lock_offsets :=
  unfold init_list_at, MUTEX_MLOCK, MUTEX_OWNER, MUTEX_WQ, MUTEX_WLOCK, SEM_COUNT, SEM_WQ, SEM_SEMLOCK in *.

Lemma mutex_init_at_correct m p :
  0 ≤ p → p + 28 < 4294967296 → mutex_at (mutex_init_at p m) p mutex_init.
Proof.
  intros H1 H2. unfold mutex_at, mutex_init_at. cbv zeta. lock_offsets. cbn [mlock m_owner m_wq mutex_init].
  split_and!; [| |split; [intros _|done]| |]; mem_load; try done. apply u32_small. unfold is_u32. lia.
Qed.

Lemma sem_init_at_correct m p n :
  0 ≤ p → p + 20 < 4294967296 → is_u32 n → semaphore_at (sem_init_at p n m) p (Semaphore.sem_init n).
Proof.
  intros H1 H2 Hn. unfold semaphore_at, sem_init_at. cbv zeta. lock_offsets.
  cbn [Semaphore.count Semaphore.s_wq Semaphore.sem_init].
  split_and!; [|split; [intros _|done]| |]; mem_load; try done; apply u32_small; [done|unfold is_u32; lia].
Qed.

Lemma mutex_at_agree m m' p x : agree m m' p 28 → mutex_at m p x → mutex_at m' p x.
Proof.
  intros Ha. unfold mutex_at. lock_offsets. by rewrite !(agree_load m m' p 28) by (done || lia).
Qed.

Lemma semaphore_at_agree m m' p x : agree m m' p 20 → semaphore_at m p x → semaphore_at m' p x.
Proof.
  intros Ha. unfold semaphore_at. lock_offsets. by rewrite !(agree_load m m' p 20) by (done || lia).
Qed.

(** ** [init] and [v] *)

Section Start.
Context {A : Type} `{KM : KernelMemory A}.
Context (ismp : bool) (ncpu this : nat) (fin : Z).

(** The kernel's own data lie below everything the allocator hands out. *)
Context (low : Z) (Hlow : ∀ (a : A) p n, km_ok a → km_block a p n → low ≤ p).

(** [init] starts [u] when there is memory for it. *)
Lemma K_INIT_correct fn_u args (s : kstate A) :
  km_ok (k_alloc s) → is_u32 fn_u → is_u32 fin → fits thread_blocks (k_alloc s) = true →
  ∃ s' t stk cpu, K_INIT ismp ncpu this fin fn_u args s = Ret (0, s') ∧
    created fin s fn_u NULL t stk cpu s' ∧ starts fin s' fn_u NULL t stk.
Proof.
  intros Hok Hu Hfi Hfit.
  destruct (create_thread_created ismp ncpu this fin s fn_u NULL [] Hok Hu ltac:(done) Hfi)
    as (s'&t&stk&cpu&E&Hc&_); [by rewrite app_nil_r|].
  exists s', t, stk, cpu. unfold K_INIT, mbind, code_bind. rewrite E. split; [done|]. split; [done|].
  apply thread_up_starts; apply Hc.
Qed.

Lemma created_static s fn arg t stk cpu s' p n :
  created fin s fn arg t stk cpu s' → p + n ≤ low → agree (k_mem s) (k_mem s') p n.
Proof.
  intros Hc Hp. apply Hc. intros b k Hb _. right.
  pose proof (Hlow _ _ _ (cr_ok _ _ _ _ _ _ _ _ Hc) Hb). lia.
Qed.

(** The run queues after these threads were queued on these processors. *)
Definition queued_on (cpus : nat → cpu_state_t) (l : list (Z * nat)) : nat → cpu_state_t :=
  foldl (λ cpus '(t, c), <[c := set_runq (runq (cpus c) ++ [t]) (cpus c)]> cpus) cpus l.

(** Three threads made one after the other. *)
Lemma create_three fn1 fn2 fn3 (s : kstate A) :
  km_ok (k_alloc s) → is_u32 fn1 → is_u32 fn2 → is_u32 fn3 → is_u32 fin →
  fits (thread_blocks ++ thread_blocks ++ thread_blocks) (k_alloc s) = true →
  ∃ s' t1 t2 t3 stk1 stk2 stk3 c1 c2 c3,
    (_ ← create_thread ismp ncpu this fin fn1 NULL;
     _ ← create_thread ismp ncpu this fin fn2 NULL;
     _ ← create_thread ismp ncpu this fin fn3 NULL; mret 0 : code A Z) s = Ret (0, s') ∧
    thread_up fin s' fn1 NULL t1 stk1 ∧ thread_up fin s' fn2 NULL t2 stk2 ∧
    thread_up fin s' fn3 NULL t3 stk3 ∧ NoDup [t1; t2; t3] ∧ km_ok (k_alloc s') ∧
    k_cpus s' = queued_on (k_cpus s) [(t1, c1); (t2, c2); (t3, c3)] ∧
    ∀ p n, p + n ≤ low → agree (k_mem s) (k_mem s') p n.
Proof.
  intros Hok H1 H2 H3 Hfi Hfit.
  destruct (create_thread_created ismp ncpu this fin s fn1 NULL _ Hok H1 ltac:(done) Hfi Hfit)
    as (s1&t1&stk1&c1&E1&C1&Hfit1).
  destruct (create_thread_created ismp ncpu this fin s1 fn2 NULL thread_blocks (cr_ok _ _ _ _ _ _ _ _ C1) H2 ltac:(done) Hfi Hfit1)
    as (s2&t2&stk2&c2&E2&C2&Hfit2).
  destruct (create_thread_created ismp ncpu this fin s2 fn3 NULL [] (cr_ok _ _ _ _ _ _ _ _ C2) H3 ltac:(done) Hfi)
    as (s3&t3&stk3&c3&E3&C3&_); [by rewrite app_nil_r|].
  destruct (thread_up_kept _ _ _ _ _ _ _ _ _ _ _ _ C2 (cr_up _ _ _ _ _ _ _ _ C1)) as [U1 D21].
  destruct (thread_up_kept _ _ _ _ _ _ _ _ _ _ _ _ C3 U1) as [U1' D31].
  destruct (thread_up_kept _ _ _ _ _ _ _ _ _ _ _ _ C3 (cr_up _ _ _ _ _ _ _ _ C2)) as [U2 D32].
  exists s3, t1, t2, t3, stk1, stk2, stk3, c1, c2, c3.
  unfold mbind, code_bind. rewrite E1, E2, E3. split_and!; try done.
  - apply C3.
  - repeat (apply NoDup_cons; split; [rewrite ?elem_of_cons, elem_of_nil; intuition congruence|]).
    by apply NoDup_nil.
  - apply C3.
  - rewrite (cr_queue _ _ _ _ _ _ _ _ C3), (cr_queue _ _ _ _ _ _ _ _ C2), (cr_queue _ _ _ _ _ _ _ _ C1).
    reflexivity.
  - intros p n Hp. eapply agree_trans; [eapply agree_trans|]; by eapply created_static.
Qed.
End Start.

(** C33: [v] sets the demonstration up. When there is memory for three threads, [v] returns 0; the
    mutex is free and the semaphore has two units, both with an empty wait queue; and three
    different threads are ready, each at the end of the run queue it was put on, and the first
    switch to each of them calls [v1], [v2] or [v3] with a return address of
    [__finish_thread]. *)
Theorem v_starts_threads {A} `{KernelMemory A} ismp ncpu this fin low mlock ss fn1 fn2 fn3 args (s : kstate A) :
  (∀ (a : A) p n, km_ok a → km_block a p n → low ≤ p) → low ≤ 4294967295 →
  0 ≤ mlock → mlock + 28 ≤ low → 0 ≤ ss → ss + 20 ≤ low → apart mlock 28 ss 20 →
  is_u32 fn1 → is_u32 fn2 → is_u32 fn3 → is_u32 fin → km_ok (k_alloc s) →
  fits (thread_blocks ++ thread_blocks ++ thread_blocks) (k_alloc s) = true →
  ∃ s' t1 t2 t3 stk1 stk2 stk3 c1 c2 c3,
    v ismp ncpu this fin mlock ss fn1 fn2 fn3 args s = Ret (0, s') ∧
    mutex_at (k_mem s') mlock mutex_init ∧ semaphore_at (k_mem s') ss (sem_init 2) ∧
    k_cpus s' = queued_on (k_cpus s) [(t1, c1); (t2, c2); (t3, c3)] ∧ NoDup [t1; t2; t3] ∧
    (∀ t, t ∈ [t1; t2; t3] → statuses_in (k_mem s') t = T_READY) ∧
    starts fin s' fn1 NULL t1 stk1 ∧ starts fin s' fn2 NULL t2 stk2 ∧ starts fin s' fn3 NULL t3 stk3.
Proof.
  intros Hlow Hl M0 M1 S0 S1 Hap F1 F2 F3 Hfi Hok Hfit. destruct s as [m a W id cpus]. cbn [k_alloc k_cpus] in *.
  unfold v. run_code. set (m1 := sem_init_at ss 2 (mutex_init_at mlock m)).
  destruct (create_three ismp ncpu this fin low Hlow fn1 fn2 fn3 (KState m1 a W id cpus))
    as (s'&t1&t2&t3&stk1&stk2&stk3&c1&c2&c3&E&U1&U2&U3&Hnd&Hok'&Hq&Hst); [done..|].
  exists s', t1, t2, t3, stk1, stk2, stk3, c1, c2, c3. cbn [k_mem k_cpus] in *.
  split_and!; try done.
  - apply (mutex_at_agree m1); [by apply Hst|]. apply (mutex_at_agree (mutex_init_at mlock m)).
    + intros i Hi. unfold m1, sem_init_at, apart in *. cbv zeta. lock_offsets. rewrite !store32_out by lia. done.
    + apply mutex_init_at_correct; lia.
  - apply (semaphore_at_agree m1); [by apply Hst|]. apply sem_init_at_correct; [lia..|done].
  - intros t Ht. rewrite !elem_of_cons, elem_of_nil in Ht.
    destruct Ht as [->|[->|[->|[]]]]; [apply U1|apply U2|apply U3].
  - by apply thread_up_starts.
  - by apply thread_up_starts.
  - by apply thread_up_starts.
Qed.

Definition high_state : kstate kalloc := KState (λ _, 7) high_heap ∅ 0 (λ _, demo_cpu).

Lemma v_starts_threads_witness :
  ∃ s' t1 t2 t3 stk1 stk2 stk3 c1 c2 c3,
    v (KM := high_memory) false 1 0 0x1234 0x200000 0x201000 0x5000 0x5100 0x5200 0 high_state = Ret (0, s') ∧
    mutex_at (k_mem s') 0x200000 mutex_init ∧ semaphore_at (k_mem s') 0x201000 (sem_init 2) ∧
    k_cpus s' = queued_on (k_cpus high_state) [(t1, c1); (t2, c2); (t3, c3)] ∧ NoDup [t1; t2; t3] ∧
    (∀ t, t ∈ [t1; t2; t3] → statuses_in (k_mem s') t = T_READY) ∧
    starts 0x1234 s' 0x5000 NULL t1 stk1 ∧ starts 0x1234 s' 0x5100 NULL t2 stk2 ∧
    starts 0x1234 s' 0x5200 NULL t3 stk3.
Proof.
  apply (v_starts_threads (H := high_memory) false 1 0 0x1234 K_SPACE_END 0x200000 0x201000 0x5000 0x5100
    0x5200 0 high_state); [exact high_block|unfold is_u32, K_SPACE_END, apart; lia..|exact high_heap_ok|].
  vm_compute. reflexivity.
Defined.
